(* ===== verification/_CoqProject ===== *)
-Q . S2P
Prelude.v
OpenFlow.v
VolthaTypes.v
FlowUtils.v
Routes.v
CoreUtils.v
Ids.v
Transitions.v
Decomposer.v
DataProxy.v
DeviceAgent.v
LogicalAgent.v
LogicalTables.v
LogicalPorts.v
KVStore.v
Ownership.v
Transaction.v
AdapterMgr.v
Managers.v
Loading.v
LogicalMgr.v
DeviceMgr.v
CoreInvariant.v
DeviceMgrFacts.v
AdapterProxy.v
Requests.v
AdapterRequests.v
Northbound.v
Streams.v
RequestFacts.v
ModelTree.v
ModelMerge.v
ModelNode.v
ModelRoot.v
ModelFacts.v
ModelReflect.v
ModelMergeFacts.v
ModelPaths.v
ModelTable.v
ModelProxy.v
ModelService.v
ModelContainers.v
ModelInit.v
ModelSamples.v
CoreStart.v
CoreStartFacts.v
Process.v
