(* ===== verification/Prelude.v ===== *)
(** * VOLTHA read-write core

    A verification development for the read-write core of VOLTHA
    ([src/rw_core]): the Go process that manages the devices of a passive
    optical network, shows them to an OpenFlow controller as logical switches,
    and turns the flows of the switches into flows of the devices.

    ** The program

    A controller or an operator calls the northbound API of the core; the
    device adapters report to it over Kafka; two cores form a pair and share a
    key-value store.  The device manager keeps one agent per device.  An agent
    owns the data of its device: it caches it, stores it in the data model
    ([db/model], backed by the key-value store) and sends requests to the
    adapter.  When the state of a device changes, the data model calls back, and
    the device manager runs the handlers that the transition table names.  Such
    a handler creates the logical device of an active root device (an OLT), and
    the logical device manager starts an agent for it.  That agent owns the
    tables and ports of the switch: it computes the routes between its ports,
    decomposes a flow into flows of the two devices on the route, has the device
    manager send them, and stores the table once the devices accepted.

    ** The files

    - Prelude (this file): errors, the outcome of a call, the state monad and
      its laws, [preserves] and its tactics, lists and integers.
    - OpenFlow, VolthaTypes: the protobuf messages as records.
    - FlowUtils: [flow_utils.go] of the vendored voltha-lib-go, and the ordered
      map it uses: flow fields, flow identity, matching, containers of rules.
    - Routes: [rw_core/route/device_route.go], the route tables.
    - CoreUtils: [rw_core/utils/core_utils.go], responses of goroutines.
    - Ids: [rw_core/core/id.go].
    - Transitions: [rw_core/core/device_state_transitions.go].
    - Decomposer: [rw_core/flowdecomposition/flow_decomposer.go].
    - DataProxy: the data model as the agents see it, an interface with laws.
    - DeviceAgent: [rw_core/core/device_agent.go].
    - LogicalAgent, LogicalTables, LogicalPorts:
      [rw_core/core/logical_device_agent.go], in this order its state and
      routes, its flow, group and meter tables, its ports and life cycle.
    - KVStore: the client of the key-value store, an interface with laws.
    - Ownership: [rw_core/core/device_ownership.go], for one core and for
      several cores that share a store.
    - Transaction: [rw_core/core/transaction.go], for one core and for a pair.
    - AdapterMgr: [rw_core/core/adapter_manager.go].
    - Managers, LogicalMgr, DeviceMgr: [rw_core/core/device_manager.go] and
      [logical_device_manager.go]; Managers has the state both share, the access
      to the agents and the loading from the data model.
    - Loading, CoreInvariant, DeviceMgrFacts: the theorems on the managers.
    - AdapterProxy: [rw_core/core/adapter_proxy.go], the calls on the adapters; it
      gives the interface the agents work with ([proxy_adapter]).
    - Requests: the state of a whole core and the acquisition of a request
      ([takeRequestOwnership]); AdapterRequests: the handlers of
      [rw_core/core/adapter_request_handler.go]; Northbound: those of
      [rw_core/core/grpc_nbi_api_handler.go]; Streams: its streams to the
      controller; RequestFacts: the theorems on them.
    - ModelTree, ModelMerge, ModelNode, ModelRoot: [db/model], the data model.
      ModelTree has the heap with the branches and revisions ([branch.go],
      [data_revision.go], [non_persisted_revision.go], [persisted_revision.go]),
      ModelMerge [merge.go], ModelNode the operations of [node.go], ModelRoot the
      loading from the store, [root.go], [proxy.go] and [transaction.go].
    - ModelReflect: the reflection on messages ([utils.go], [child_type.go]).
    - ModelFacts: how the operations change the heap; ModelPaths: paths, and what
      a change of one container leaves as it was in the others; ModelMergeFacts,
      ModelTable, ModelProxy, ModelService, ModelContainers and ModelInit: the
      theorems on the data model, the last three on its use by the agents, on all
      the containers of a tree and on new trees; ModelSamples: a small tree on
      which they are used and on which the flaws of the data model show.
    - CoreStart, CoreStartFacts: [rw_core/core/core.go], the start-up of a core,
      its managers and the probe it reports to.
    - Process: [rw_core/main.go], the process from its connections to its end.

    An operation has the name of its Go function, prefixed where two would
    clash ([ldm_] for the logical device manager, [fg_] for [FlowsAndGroups]),
    or written with the name of its file ([DeviceAgent.enableDevice],
    [DeviceMgr.enableDevice]).  Fields of records carry a prefix of two or three
    letters.

    ** How Go is modelled

    - A method that changes state is a function in the state monad [M]: from a
      state to an outcome and a state.  The outcome is a value, an error, or
      [Panic]; the state after an error is kept, as in Go.  A call that never
      returns (it waits for a channel or a lock that nobody will serve) is
      [Panic] as well; the comments say where.
    - A mutex that is held for a whole method makes the method one step.  Where
      the code gives the lock up (a logical port is added in two halves), the
      operations of other goroutines in between are a parameter [others].
      Where interleaving is the point (ownership, transactions) the operations
      are steps of a relation, and the goroutines are part of its state.
    - A goroutine that nobody waits for is a task recorded in the state, run
      later and in any order by a step of its own ([run_task_at]).  Goroutines
      whose responses are collected have completion times ([CoreUtils]).
    - Ranging over a map has no order: [GoRange] gives an arbitrary permutation
      and the theorems hold for every one.
    - [proto.Clone] makes the copies of a value, so messages are plain values.
      Where the code shares a pointer on purpose (a response, the objects of the
      routes), the shared object is in the state.  A nil list of a message is
      the empty list; a nil message is [None].
    - Unsigned integers are [Z] with [u32] and [u64] where a conversion can
      truncate; [ParseUint] reports a range error; durations are bounded where
      they are multiplied.
    - Strings of log entries are left out; error values are kept.

    - The data model is a graph of shared, mutable objects, so its model is a heap
      with a table for each kind of object; a pointer is a number, which may be
      nil where Go tests for it, and calling a method of nil panics.  A slice that
      is copied before it is changed is a list; the children of a revision are
      changed in place where the code does so.  The messages that callers hand to
      the data model are not changed later.

    The key-value store, the adapters, Kafka and the rendering of protobuf
    messages are interfaces (type classes), and so is the data model for the
    agents; [Schema] and [Backend] are what the data model itself knows of the
    generated messages, by reflection, and of the store.  [DataProxyLaws],
    [DataProxyFrame], [DataProxyApart], [KVLaws] and [KVReliable] state what is
    relied on, each with a finite map that satisfies it.  The decomposer is
    proved against an interface of the logical device agent, and LogicalAgent
    gives that interface.  The laws of [DataProxy] are what the agents rely on;
    [data_model_refines_map] shows that the data model, used through a proxy of
    the tree, does what the finite map does under conditions it names,
    [containers_refine_maps] that the containers of the tree do not disturb each
    other, and [update_reports_parent] that an update of an entry that is not there
    does not.
    [core_start_correct] gives a core such a proxy of an empty tree, and
    [adapter_request_sent] that each request of an agent reaches the adapter.

    ** Bounds and fuel

    Only [load] recurses without a decreasing argument: it climbs to the parent
    of a device.  Its fuel is the number of calls; [load_terminates] shows that
    one more than the number of levels above the device is enough, and that
    more fuel changes nothing; [load_cycle_never_returns] that no fuel is enough
    for devices that are each other's parents.  [Watch] loops over the wake-ups
    it is given and says when it is still waiting.  In the data model a new node
    recurses into the messages of its message, whose depth is the fuel
    ([newNode_run] shows that it is enough); reading, adding, updating and
    removing shorten the path, whose length is the fuel; merging takes the number
    of levels of the tree.  The reflection on types recurses through pointers:
    [children_fields_correct] gives enough fuel for the types it is about, and
    [search_never_ends] shows that a type may have none.  The wait for the store
    looks at as many attempts as it has fuel ([wait_for_store_correct]).  All other
    loops are over lists.

    ** The theorems

    - Routes: the tables are what the ports and peers prescribe, stay symmetric
      under incremental updates, and each route has two hops.
    - Decomposition: every branch translates a flow as specified, the rules stay
      on the devices of the route, rules of several flows are merged without
      duplicates, nothing panics on well-formed flows.
    - Device agent: an invariant for every sequence of operations (cache and
      data model agree, no duplicate ports or flows), the operations on every
      branch, flows to add and to delete, adding then deleting as a round trip.
    - Transitions: the table selects what its contract says.
    - Logical device agent: an invariant for every interleaving of its
      operations, the table operations on every branch with what is sent and
      stored, the routes whatever the map order, ports added once, events.
    - Managers: loading ends and brings a whole family of devices into memory;
      for every sequence of requests, goroutines and callbacks the agents in
      memory, the table of root devices and the data model agree; creation,
      discovery and deletion of devices; requests to all children.
    - Ownership and transactions: one monitoring goroutine per device, no two
      owners and no request processed twice unless a lease expired; the steps
      refine the sequential code; leases are long enough.
    - Adapters: the registry answers consistently; registration.
    - The whole core: an invariant of every sequence of requests, goroutines and
      monitoring rounds; a request is processed by at most one core of a pair, one
      that is not acquired changes nothing; arguments are decoded to the types
      their keys require; packets reach the controller once.
    - Data model: the children of a node refine a finite map through every
      operation, also seen through the proxy over a whole sequence of operations, in
      several containers of one tree, which do not disturb each other;
      an update is read back; committing on a node that did not change takes the
      children of the transaction and announces each change once; a new tree is
      empty; the containers of a message are what its type declares, from the cache
      as from the search.  [heap_ok] is the invariant of the heap.
      The table theorems except those equal hashes: revisions are compared by
      twelve digits of MD5 ([collided]).

    - Adapter proxy: the adapter reads every request back from the call.
    - Start-up: the wait for the store ends when it should; a core that started has
      its parts and serves an empty tree; the probe is ready exactly when the last
      report about every part is that it runs; a process that stops releases what
      it reserved ([process_lifecycle]).

    Some theorems state behaviour the code does not intend, found while
    modelling: lost leases, a loading that never returns, the errors of
    children that are lost, and others next to the operation they are about.

    ** Not modelled

    - Of [adapter_proxy.go]: the methods that are stubs and return nil.
    - Of [grpc_nbi_api_handler.go]: the calls on log levels, which only reach the
      logger, the reads of the version and of images, the subscription of an
      alarm filter, and the calls that answer that nothing is implemented.
    - Of [db/model]: the event bus, which nobody uses, and the profiling.  The core
      registers functions for [PostUpdate] only, so the callbacks before an
      operation and on reading have nothing to call.  Blobs are not compressed.
    - [config.go]: the flags that are read are fields of records, their parsing is
      that of the [flag] package.  Of [main.go] the loggers, the version and the
      banner.  The servers and the clients of gRPC, Kafka and the store.
    - The mocks, the interface declarations, and the default API handler, which
      answers that nothing is implemented.
    - [start] and [stop] of the managers and the helpers that send a result to a
      channel: the result is the outcome of the operation.
    - [Print] of the routes and other logging. *)

From stdpp Require Export ssreflect base option list strings pretty gmap fin_maps.
From Stdlib Require Export ZArith Lia Ascii.

#[global] Open Scope Z_scope.
#[global] Set Default Goal Selector "!".

(** ** Go errors

    [status.Error(code, msg)] values carry a gRPC code; [errors.New] and
    [fmt.Errorf] values carry only a message. *)

Inductive Code :=
  | Canceled | InvalidArgument | NotFound | AlreadyExists | PermissionDenied
  | FailedPrecondition | Aborted | Internal | Unimplemented | Unavailable | DataLoss.

Inductive GoError :=
  | Status (c : Code) (msg : string)
  | Plain (msg : string).

#[export] Instance Code_eq_dec : EqDecision Code.
Proof. solve_decision. Defined.
#[export] Instance GoError_eq_dec : EqDecision GoError.
Proof. solve_decision. Defined.

(** ** Outcomes of a Go call

    A call returns a value, returns a non-nil error, or panics (nil
    dereference, index out of range, close of a closed channel).  [Panic] also
    stands for a call that never returns. *)

Inductive outcome (A : Type) :=
  | Ok (a : A)
  | Err (e : GoError)
  | Panic.
Arguments Ok {A} a.
Arguments Err {A} e.
Arguments Panic {A}.

Definition obind {A B} (m : outcome A) (k : A → outcome B) : outcome B :=
  match m with Ok a => k a | Err e => Err e | Panic => Panic end.

Declare Scope go_scope.
Delimit Scope go_scope with go.
#[global] Open Scope go_scope.

Notation "'let?' x := m 'in' k" := (obind m (fun x => k))
  (at level 200, x pattern, m at level 100, k at level 200, right associativity) : go_scope.

(** Indexing a slice panics out of range. *)
Definition index {A} (l : list A) (i : nat) : outcome A :=
  match l !! i with Some a => Ok a | None => Panic end.

(** Dereferencing a nil pointer panics. *)
Definition deref {A} (p : option A) : outcome A :=
  match p with Some a => Ok a | None => Panic end.

(** [for _, x := range l { f(x) }] where the body may panic or return early
    with an error. *)
Fixpoint mapO {A B} (f : A → outcome B) (l : list A) : outcome (list B) :=
  match l with
  | [] => Ok []
  | x :: l => let? y := f x in let? ys := mapO f l in Ok (y :: ys)
  end.

(** ** Stateful Go methods

    A method on a receiver with state [S].  Whatever the method wrote before
    it returned an error stays written. *)

Definition M (S A : Type) : Type := S → outcome A * S.

Definition ret {S A} (a : A) : M S A := λ s, (Ok a, s).
Definition sbind {S A B} (m : M S A) (k : A → M S B) : M S B := λ s,
  match m s with
  | (Ok a, s') => k a s'
  | (Err e, s') => (Err e, s')
  | (Panic, s') => (Panic, s')
  end.

Notation "'let*' x := m 'in' k" := (sbind m (fun x => k))
  (at level 200, x pattern, m at level 100, k at level 200, right associativity) : go_scope.

Definition get {S} : M S S := λ s, (Ok s, s).
Definition put {S} (s : S) : M S unit := λ _, (Ok tt, s).
Definition modify {S} (f : S → S) : M S unit := λ s, (Ok tt, f s).
Definition gets {S A} (f : S → A) : M S A := λ s, (Ok (f s), s).
Definition fail {S A} (e : GoError) : M S A := λ s, (Err e, s).
Definition panic {S A} : M S A := λ s, (Panic, s).
Definition lift {S A} (o : outcome A) : M S A := λ s, (o, s).

(** [if err := m(); err != nil { ... }]: the error becomes a value. *)
Definition attempt {S A} (m : M S A) : M S (A + GoError) := λ s,
  match m s with
  | (Ok a, s') => (Ok (inl a), s')
  | (Err e, s') => (Ok (inr e), s')
  | (Panic, s') => (Panic, s')
  end.

(** A loop whose body can return from the enclosing function with an error. *)
Fixpoint for_each {S A} (f : A → M S unit) (l : list A) : M S unit :=
  match l with
  | [] => ret tt
  | x :: l => let* _ := f x in for_each f l
  end.

(** ** Fixed-width integers *)

Definition u16 (z : Z) : Z := z mod 2 ^ 16.
Definition u32 (z : Z) : Z := z mod 2 ^ 32.
Definition u64 (z : Z) : Z := z mod 2 ^ 64.

(** The two's complement of a conversion to int32. *)
Definition i32 (z : Z) : Z := (z + 2 ^ 31) mod 2 ^ 32 - 2 ^ 31.

(** [^x] on a uint32. *)
Definition not32 (z : Z) : Z := Z.lxor z (2 ^ 32 - 1).

(** ** Iteration over Go maps

    [range m] visits every entry of [m] once, in an unspecified order.  The
    order is a parameter; statements hold for every order. *)

Class GoRange := {
  go_range : ∀ {K : Type} `{Countable K} {V : Type}, gmap K V → list (K * V);
  go_range_perm : ∀ {K : Type} `{Countable K} {V : Type} (m : gmap K V),
    go_range m ≡ₚ map_to_list m
}.

(** One admissible order, used to evaluate the model on concrete data. *)
Definition canonical_range : GoRange := {|
  go_range K _ _ V m := map_to_list m;
  go_range_perm K _ _ V m := reflexivity (map_to_list m)
|}.

(** ** Slices *)

(** Index of the first element satisfying [p], as the [find] loops of the
    source compute it; [-1] is [None]. *)
Fixpoint find_index {A} (p : A → bool) (l : list A) : option nat :=
  match l with
  | [] => None
  | x :: l => if p x then Some O else S <$> find_index p l
  end.

(** [append(l[:i], l[i+1:]...)]. *)
Definition delete_at {A} (i : nat) (l : list A) : list A := take i l ++ drop (S i) l.

(** ** Lemmas on slices *)

Lemma find_index_Some {A} (p : A → bool) (l : list A) (i : nat) :
  find_index p l = Some i ↔
  ∃ x, l !! i = Some x ∧ p x = true ∧ ∀ j y, (j < i)%nat → l !! j = Some y → p y = false.
Proof.
  revert i; induction l as [|x l IH]; intros i; simpl.
  { split; [done | intros (? & ? & _); done]. }
  destruct (p x) eqn:Hp.
  - split.
    + intros [= <-]. exists x. repeat split; [done | intros; lia].
    + intros (y & Hy & Hpy & Hmin). destruct i; [done|].
      specialize (Hmin O x ltac:(lia) eq_refl). congruence.
  - rewrite fmap_Some. split.
    + intros (k & Hk & ->). apply IH in Hk as (y & Hy & Hpy & Hmin).
      exists y. repeat split; [done | done |].
      intros [|j] z Hj Hz; simpl in *; [congruence | apply (Hmin j z); [lia | done]].
    + intros (y & Hy & Hpy & Hmin). destruct i as [|i]; simpl in *; [congruence|].
      exists i. split; [|done]. apply IH. exists y. repeat split; [done | done |].
      intros j z Hj Hz. apply (Hmin (S j) z); [lia | done].
Qed.

Lemma find_index_None {A} (p : A → bool) (l : list A) :
  find_index p l = None ↔ ∀ x, x ∈ l → p x = false.
Proof.
  induction l as [|x l IH]; simpl; [set_solver|].
  destruct (p x) eqn:Hp.
  - split; [done|]. intros Hall. specialize (Hall x ltac:(set_solver)). congruence.
  - rewrite fmap_None IH. set_solver.
Qed.

Lemma find_index_lt {A} (p : A → bool) (l : list A) (i : nat) :
  find_index p l = Some i → (i < length l)%nat.
Proof. intros (x & Hx & _)%find_index_Some. by apply lookup_lt_Some in Hx. Qed.

Lemma delete_at_middle {A} (i : nat) (x : A) (l : list A) :
  l !! i = Some x → l = take i l ++ x :: drop (S i) l.
Proof. intros Hx. by rewrite (take_drop_middle l i x Hx). Qed.

Lemma delete_at_Permutation {A} (i : nat) (x : A) (l : list A) :
  l !! i = Some x → l ≡ₚ x :: delete_at i l.
Proof.
  intros Hx. rewrite {1}(delete_at_middle i x l Hx). unfold delete_at.
  by rewrite Permutation_middle.
Qed.

Lemma delete_at_length {A} (i : nat) (x : A) (l : list A) :
  l !! i = Some x → length l = S (length (delete_at i l)).
Proof. intros Hx. by rewrite {1}(delete_at_Permutation i x l Hx). Qed.

Lemma delete_at_sublist {A} (i : nat) (l : list A) : delete_at i l `sublist_of` l.
Proof.
  unfold delete_at. rewrite -{3}(take_drop i l).
  apply sublist_app; [done|]. replace (S i) with (i + 1)%nat by lia.
  rewrite -drop_drop. apply sublist_drop.
Qed.

Lemma delete_at_app {A} (pre : list A) x post : delete_at (length pre) (pre ++ x :: post) = pre ++ post.
Proof.
  unfold delete_at. rewrite take_app_length. f_equal. rewrite drop_app_ge; last lia.
  by replace (S (length pre) - length pre)%nat with 1%nat by lia.
Qed.

Lemma delete_at_elem {A} (i : nat) (y : A) (l : list A) : y ∈ delete_at i l → y ∈ l.
Proof. intros Hy. by eapply elem_of_sublist, delete_at_sublist. Qed.

(** ** Reasoning about stateful methods *)

Lemma sbind_Ok {S A B} (m : M S A) (k : A → M S B) s b s' :
  sbind m k s = (Ok b, s') ↔ ∃ a s1, m s = (Ok a, s1) ∧ k a s1 = (Ok b, s').
Proof.
  unfold sbind. destruct (m s) as [[a|e|] s1] eqn:Hm; naive_solver.
Qed.

Lemma sbind_run {S A B} (m : M S A) (k : A → M S B) s a s1 :
  m s = (Ok a, s1) → sbind m k s = k a s1.
Proof. intros Hm. unfold sbind. by rewrite Hm. Qed.
Lemma sbind_err {S A B} (m : M S A) (k : A → M S B) s e s1 :
  m s = (Err e, s1) → sbind m k s = (Err e, s1).
Proof. intros Hm. unfold sbind. by rewrite Hm. Qed.

Lemma sbind_attempt {T A B} (m : M T A) (k : A + GoError → M T B) (s : T) :
  sbind (attempt m) k s =
    match m s with (Ok x, s') => k (inl x) s' | (Err e, s') => k (inr e) s' | (Panic, s') => (Panic, s') end.
Proof. unfold sbind, attempt. by destruct (m s) as [[]]. Qed.

Lemma for_each_snoc {T A} (f : A → M T unit) l x (t t' : T) :
  for_each f (l ++ [x]) t = (Ok tt, t') → ∃ t1, for_each f l t = (Ok tt, t1) ∧ f x t1 = (Ok tt, t').
Proof.
  revert t. induction l as [|y l IH]; intros t; simpl.
  - intros Hr. exists t. split; [done|]. apply sbind_Ok in Hr as ([] & t1 & Hf & Hret). injection Hret as <-. exact Hf.
  - intros ([] & t1 & Hf & Hr)%sbind_Ok. destruct (IH _ Hr) as (t2 & Hl & Hx). exists t2.
    split; [|done]. by rewrite (sbind_run _ _ _ _ _ Hf).
Qed.

(** [preserves I m]: whatever [m] returns, it leaves a state satisfying [I]. *)
Definition preserves {S A} (I : S → Prop) (m : M S A) : Prop := ∀ s, I s → I (m s).2.

Create HintDb preserves discriminated.

Section Preserves.
Context {S : Type} (I : S → Prop).

Lemma preserves_ret {A} (a : A) : preserves I (ret a).
Proof. intros s Hs. exact Hs. Qed.
Lemma preserves_fail {A} e : preserves I (fail (A := A) e).
Proof. intros s Hs. exact Hs. Qed.
Lemma preserves_panic {A} : preserves I (panic (A := A)).
Proof. intros s Hs. exact Hs. Qed.
Lemma preserves_lift {A} (o : outcome A) : preserves I (lift o).
Proof. intros s Hs. exact Hs. Qed.
Lemma preserves_get : preserves I get.
Proof. intros s Hs. exact Hs. Qed.
Lemma preserves_gets {A} (f : S → A) : preserves I (gets f).
Proof. intros s Hs. exact Hs. Qed.
Lemma preserves_modify f : (∀ s, I s → I (f s)) → preserves I (modify f).
Proof. intros Hf s Hs. by apply Hf. Qed.

Lemma preserves_bind {A B} (m : M S A) (k : A → M S B) :
  preserves I m → (∀ a, preserves I (k a)) → preserves I (sbind m k).
Proof.
  intros Hm Hk s Hs. unfold sbind. specialize (Hm s Hs).
  destruct (m s) as [[a|e|] s1]; [by apply Hk | done | done].
Qed.

(** The state that was read satisfies the invariant. *)
Lemma preserves_get_bind {A} (k : S → M S A) :
  (∀ s, I s → preserves I (k s)) → preserves I (sbind get k).
Proof. intros Hk s Hs. exact (Hk s Hs s Hs). Qed.

(** The value a pure computation returned is known in what follows. *)
Lemma preserves_lift_bind {A B} (o : outcome A) (k : A → M S B) :
  (∀ a, o = Ok a → preserves I (k a)) → preserves I (sbind (lift o) k).
Proof. intros Hk s Hs. unfold sbind, lift. destruct o; [by apply Hk | done | done]. Qed.

Lemma preserves_attempt {A} (m : M S A) : preserves I m → preserves I (attempt m).
Proof. intros Hm s Hs. unfold attempt. specialize (Hm s Hs). by destruct (m s) as [[]]. Qed.

Lemma preserves_for_each {A} (f : A → M S unit) l :
  (∀ x, preserves I (f x)) → preserves I (for_each f l).
Proof.
  intros Hf. induction l; simpl; [apply preserves_ret|]. by apply preserves_bind.
Qed.
End Preserves.

#[export] Hint Resolve preserves_ret preserves_fail preserves_panic preserves_lift
  preserves_get preserves_gets preserves_attempt preserves_for_each : preserves.

(** Splits a method into its statements and its branches. *)
Ltac preserves_step :=
  lazymatch goal with
  | |- preserves _ (sbind (lift _) _) => apply preserves_lift_bind; intros ? ?
  | |- preserves _ (sbind _ _) => apply preserves_bind; [|intros ?]
  | |- preserves _ (attempt _) => apply preserves_attempt
  | |- preserves _ (for_each _ _) => apply preserves_for_each; intros ?
  | |- preserves _ (if ?b then _ else _) => destruct b eqn:?
  | |- preserves _ (match ?x with _ => _ end) => destruct x eqn:?
  | |- preserves _ _ => solve [eauto with preserves]
  end.
Ltac preserves_tac := repeat preserves_step.

(** ** Triples

    [spec P m Q R]: started in a state satisfying [P], [m] does not panic; when
    it returns, [Q] holds of the result and the state; when it returns an
    error, [R] holds of the error and the state. *)
Definition spec {S A} (P : S → Prop) (m : M S A) (Q : A → S → Prop) (R : GoError → S → Prop) : Prop :=
  ∀ s, P s → match m s with
             | (Ok a, s') => Q a s'
             | (Err e, s') => R e s'
             | (Panic, _) => False
             end.

Create HintDb spec discriminated.

Section Spec.
Context {S : Type}.
Implicit Types P : S → Prop.

Lemma spec_bind {A B} P (m : M S A) Q R (k : A → M S B) Q' :
  spec P m Q R → (∀ a, spec (Q a) (k a) Q' R) → spec P (sbind m k) Q' R.
Proof.
  intros Hm Hk s Hs. unfold sbind. specialize (Hm s Hs).
  destruct (m s) as [[a|e|] s1]; [exact (Hk a s1 Hm) | done | done].
Qed.

Lemma spec_weaken {A} P P' (m : M S A) Q Q' R R' :
  spec P m Q R → (∀ s, P' s → P s) → (∀ a s, Q a s → Q' a s) → (∀ e s, R e s → R' e s) →
  spec P' m Q' R'.
Proof.
  intros Hm HP HQ HR s Hs. specialize (Hm s (HP s Hs)).
  destruct (m s) as [[a|e|] s1]; eauto.
Qed.

(** A triple used in one state. *)
Lemma spec_at {A} P (m : M S A) Q R s (Q' : A → S → Prop) (R' : GoError → S → Prop) :
  spec P m Q R → P s → (∀ a s', Q a s' → Q' a s') → (∀ e s', R e s' → R' e s') →
  match m s with
  | (Ok a, s') => Q' a s'
  | (Err e, s') => R' e s'
  | (Panic, _) => False
  end.
Proof.
  intros Hm Hs HQ HR. specialize (Hm s Hs). destruct (m s) as [[a|e|] s1]; eauto.
Qed.

Lemma spec_ret {A} P (a : A) R : spec P (ret a) (λ a' s, a' = a ∧ P s) R.
Proof. by intros s Hs. Qed.

Lemma spec_skip P R : spec P (ret tt) (λ _, P) R.
Proof. by intros s Hs. Qed.

Lemma spec_modify P f Q R : (∀ s, P s → Q (f s)) → spec P (modify f) (λ _, Q) R.
Proof. intros Hf s Hs. by apply Hf. Qed.

Lemma spec_gets {A} P (f : S → A) R : spec P (gets f) (λ a s, a = f s ∧ P s) R.
Proof. by intros s Hs. Qed.

Lemma spec_get P R : spec P get (λ a s, a = s ∧ P s) R.
Proof. by intros s Hs. Qed.

Lemma spec_attempt {A} P (m : M S A) Q R R' :
  spec P m Q R →
  spec P (attempt m) (λ r s, match r with inl a => Q a s | inr e => R e s end) R'.
Proof.
  intros Hm s Hs. unfold attempt. specialize (Hm s Hs).
  by destruct (m s) as [[a|e|] s1].
Qed.

(** The invariant of a loop is indexed by the elements already visited. *)
Lemma spec_for_each {A} (I : list A → S → Prop) R (f : A → M S unit) l :
  (∀ seen x rest, l = seen ++ x :: rest → spec (I seen) (f x) (λ _, I (seen ++ [x])) R) →
  spec (I []) (for_each f l) (λ _, I l) R.
Proof.
  intros Hf.
  assert (∀ seen rest, l = seen ++ rest → spec (I seen) (for_each f rest) (λ _, I l) R) as H.
  { intros seen rest; revert seen. induction rest as [|x rest IH]; intros seen Hl; simpl.
    - rewrite app_nil_r in Hl. subst. apply spec_skip.
    - eapply spec_bind; [by eapply Hf|]. intros []. simpl. apply IH. by rewrite -app_assoc. }
  by apply (H []).
Qed.

(** A loop whose invariant does not depend on the progress made. *)
Lemma spec_for_each_const {A} (I : S → Prop) R (f : A → M S unit) l :
  (∀ x, x ∈ l → spec I (f x) (λ _, I) R) → spec I (for_each f l) (λ _, I) R.
Proof.
  intros Hf. apply (spec_for_each (λ _, I)). intros seen x rest Hl. apply Hf. rewrite Hl. set_solver.
Qed.
End Spec.

#[export] Hint Resolve spec_ret spec_skip spec_get spec_gets : spec.

(** ** Strings *)

Fixpoint string_forall (p : Ascii.ascii → bool) (s : string) : bool :=
  match s with
  | EmptyString => true
  | String c s => p c && string_forall p s
  end.

(** The characters of a printed integer. *)
Definition is_dec_char (c : Ascii.ascii) : bool :=
  match c with
  | "-" | "0" | "1" | "2" | "3" | "4" | "5" | "6" | "7" | "8" | "9" => true
  | _ => false
  end%char.

Lemma pretty_N_go_chars x s :
  string_forall is_dec_char s = true → string_forall is_dec_char (pretty_N_go x s) = true.
Proof.
  revert s. induction (N.lt_wf_0 x) as [x _ IH]; intros s Hs.
  destruct (decide (x = 0)%N) as [->|Hx]; [by rewrite pretty_N_go_0|].
  rewrite pretty_N_go_step; last lia. apply IH; [apply N.div_lt; lia|].
  simpl. rewrite Hs. unfold pretty_N_char. by repeat case_match.
Qed.

Lemma pretty_N_chars (x : N) : string_forall is_dec_char (pretty x) = true.
Proof. unfold pretty, pretty_N. case_decide; [done | by apply pretty_N_go_chars]. Qed.

Lemma pretty_Z_chars (z : Z) : string_forall is_dec_char (pretty z) = true.
Proof.
  destruct z as [|p|p]; [done | apply pretty_N_chars |].
  change (string_forall is_dec_char (String "-" (pretty (N.pos p))) = true). simpl.
  apply pretty_N_chars.
Qed.

(** A separator that does not occur in the suffixes determines both parts. *)
Lemma string_split_inj (p : Ascii.ascii → bool) c a1 a2 b1 b2 :
  p c = false → string_forall p b1 = true → string_forall p b2 = true →
  a1 +:+ String c b1 = a2 +:+ String c b2 → a1 = a2 ∧ b1 = b2.
Proof.
  intros Hc Hb1 Hb2.
  assert (∀ a b b', string_forall p b = true → b ≠ a +:+ String c b') as Hno.
  { intros a. induction a as [|x a IH]; intros b b' Hb ->.
    - change (p c && string_forall p b' = true) in Hb. by rewrite Hc in Hb.
    - change (p x && string_forall p (a +:+ String c b') = true) in Hb.
      apply andb_true_iff in Hb as [_ Hb]. by apply (IH _ b' Hb). }
  revert a2. induction a1 as [|x a1 IH]; intros [|y a2]; intros Heq.
  - change (String c b1 = String c b2) in Heq. by injection Heq as ->.
  - change (String c b1 = String y (a2 +:+ String c b2)) in Heq.
    injection Heq as <- Heq. by destruct (Hno a2 b1 b2 Hb1).
  - change (String x (a1 +:+ String c b1) = String c b2) in Heq.
    injection Heq as <- Heq. by destruct (Hno a1 b2 b1 Hb2).
  - change (String x (a1 +:+ String c b1) = String y (a2 +:+ String c b2)) in Heq.
    injection Heq as -> Heq. by destruct (IH a2 Heq) as [-> ->].
Qed.
