(* ===== verification/OpenFlow.v ===== *)
(** * OpenFlow messages

    The protobuf messages of [openflow_13.pb.go] that the core stores, matches
    and sends to the adapters.  Unsigned fields are [Z]; a pointer to a message
    is an [option]; a oneof is an [option] of a sum; a repeated field is a list.
    The [XXX_] bookkeeping fields of the generated code are left out. *)

From S2P Require Import Prelude.

(** ** Constants of the generated enumerations *)

Definition OFPP_CONTROLLER : Z := 2147483645.
Definition OFPP_ANY : Z := 2147483647.
Definition OFPG_ALL : Z := 2147483644.
Definition OFPG_ANY : Z := 2147483647.
Definition OFPTT_ALL : Z := 255.
Definition OFPPC_PORT_DOWN : Z := 1.
Definition OFPPS_LINK_DOWN : Z := 1.
Definition OFPPS_LIVE : Z := 4.
Definition OFPMT_OXM : Z := 1.
Definition OFPXMC_OPENFLOW_BASIC : Z := 32768.
Definition OFPVID_PRESENT : Z := 4096.
Definition OFPCML_MAX : Z := 65509.

Definition OFPIT_GOTO_TABLE : Z := 1.
Definition OFPIT_WRITE_METADATA : Z := 2.
Definition OFPIT_APPLY_ACTIONS : Z := 4.
Definition OFPIT_METER : Z := 6.

Definition OFPFF_CHECK_OVERLAP : Z := 2.
Definition OFPFF_RESET_COUNTS : Z := 4.

Definition OFPFC_ADD : Z := 0.
Definition OFPFC_MODIFY : Z := 1.
Definition OFPFC_MODIFY_STRICT : Z := 2.
Definition OFPFC_DELETE : Z := 3.
Definition OFPFC_DELETE_STRICT : Z := 4.

Definition OFPGC_ADD : Z := 0.
Definition OFPGC_MODIFY : Z := 1.
Definition OFPGC_DELETE : Z := 2.
Definition OFPGT_ALL : Z := 0.

Definition OFPMC_ADD : Z := 0.
Definition OFPMC_MODIFY : Z := 1.
Definition OFPMC_DELETE : Z := 2.

Definition OFPPR_ADD : Z := 0.
Definition OFPPR_DELETE : Z := 1.
Definition OFPPR_MODIFY : Z := 2.
Definition OFPR_ACTION : Z := 1.

Definition OUTPUT : Z := 0.
Definition PUSH_VLAN : Z := 17.
Definition POP_VLAN : Z := 18.
Definition GROUP : Z := 22.
Definition SET_FIELD : Z := 25.

Definition IN_PORT : Z := 0.
Definition METADATA : Z := 2.
Definition ETH_TYPE : Z := 5.
Definition VLAN_VID : Z := 6.
Definition VLAN_PCP : Z := 7.
Definition IP_PROTO : Z := 10.
Definition UDP_SRC : Z := 15.
Definition UDP_DST : Z := 16.
Definition TUNNEL_ID : Z := 38.

(** ** Match fields *)

(** The [Value] oneof of [OfpOxmOfbField]. *)
Inductive OfbValue :=
  | V_Port (v : Z) | V_PhysicalPort (v : Z) | V_TableMetadata (v : Z)
  | V_EthDst (v : list Z) | V_EthSrc (v : list Z) | V_EthType (v : Z)
  | V_VlanVid (v : Z) | V_VlanPcp (v : Z) | V_IpDscp (v : Z) | V_IpEcn (v : Z)
  | V_IpProto (v : Z) | V_Ipv4Src (v : Z) | V_Ipv4Dst (v : Z)
  | V_TcpSrc (v : Z) | V_TcpDst (v : Z) | V_UdpSrc (v : Z) | V_UdpDst (v : Z)
  | V_SctpSrc (v : Z) | V_SctpDst (v : Z) | V_Icmpv4Type (v : Z) | V_Icmpv4Code (v : Z)
  | V_ArpOp (v : Z) | V_ArpSpa (v : Z) | V_ArpTpa (v : Z)
  | V_ArpSha (v : list Z) | V_ArpTha (v : list Z)
  | V_Ipv6Src (v : list Z) | V_Ipv6Dst (v : list Z) | V_Ipv6Flabel (v : Z)
  | V_Icmpv6Type (v : Z) | V_Icmpv6Code (v : Z)
  | V_Ipv6NdTarget (v : list Z) | V_Ipv6NdSsl (v : list Z) | V_Ipv6NdTll (v : list Z)
  | V_MplsLabel (v : Z) | V_MplsTc (v : Z) | V_MplsBos (v : Z) | V_PbbIsid (v : Z)
  | V_TunnelId (v : Z) | V_Ipv6Exthdr (v : Z).

(** The [Mask] oneof of [OfpOxmOfbField]. *)
Inductive OfbMask :=
  | K_TableMetadataMask (v : Z) | K_EthDstMask (v : list Z) | K_EthSrcMask (v : list Z)
  | K_VlanVidMask (v : Z) | K_Ipv4SrcMask (v : Z) | K_Ipv4DstMask (v : Z)
  | K_ArpSpaMask (v : Z) | K_ArpTpaMask (v : Z)
  | K_Ipv6SrcMask (v : list Z) | K_Ipv6DstMask (v : list Z) | K_Ipv6FlabelMask (v : Z)
  | K_PbbIsidMask (v : Z) | K_TunnelIdMask (v : Z) | K_Ipv6ExthdrMask (v : Z).

Record OfpOxmOfbField := mkOfb {
  ofb_Type : Z; ofb_HasMask : bool; ofb_Value : option OfbValue; ofb_Mask : option OfbMask }.

Record OfpOxmExperimenterField := mkOxmExp { oxe_OxmHeader : Z; oxe_Experimenter : Z }.

(** The [Field] oneof of [OfpOxmField]; a oneof wrapper holds a pointer. *)
Inductive OxmFieldOneof :=
  | F_OfbField (f : option OfpOxmOfbField)
  | F_ExperimenterField (f : option OfpOxmExperimenterField).

Record OfpOxmField := mkOxm { oxm_OxmClass : Z; oxm_Field : option OxmFieldOneof }.

Record OfpMatch := mkMatch { mt_Type : Z; mt_OxmFields : list OfpOxmField }.

(** ** Actions and instructions *)

Record OfpActionOutput := mkOutput { out_Port : Z; out_MaxLen : Z }.
Record OfpActionExperimenter := mkActExp { axp_Experimenter : Z; axp_Data : list Z }.

(** The [Action] oneof of [OfpAction]. *)
Inductive ActionOneof :=
  | A_Output (o : option OfpActionOutput)
  | A_MplsTtl (ttl : option Z)
  | A_Push (ethertype : option Z)
  | A_PopMpls (ethertype : option Z)
  | A_Group (group_id : option Z)
  | A_NwTtl (ttl : option Z)
  | A_SetField (field : option (option OfpOxmField))
  | A_Experimenter (e : option OfpActionExperimenter).

Record OfpAction := mkAction { act_Type : Z; act_Action : option ActionOneof }.

Record OfpInstructionWriteMetadata := mkWriteMetadata { wm_Metadata : Z; wm_MetadataMask : Z }.
Record OfpInstructionExperimenter := mkInstExp { ixp_Experimenter : Z; ixp_Data : list Z }.

(** The [Data] oneof of [OfpInstruction]. *)
Inductive InstructionOneof :=
  | I_GotoTable (table_id : option Z)
  | I_WriteMetadata (wm : option OfpInstructionWriteMetadata)
  | I_Actions (actions : option (list OfpAction))
  | I_Meter (meter_id : option Z)
  | I_Experimenter (e : option OfpInstructionExperimenter).

Record OfpInstruction := mkInst { inst_Type : Z; inst_Data : option InstructionOneof }.

(** ** Flows *)

Record OfpFlowMod := mkFlowMod {
  fm_Cookie : Z; fm_CookieMask : Z; fm_TableId : Z; fm_Command : Z;
  fm_IdleTimeout : Z; fm_HardTimeout : Z; fm_Priority : Z; fm_BufferId : Z;
  fm_OutPort : Z; fm_OutGroup : Z; fm_Flags : Z;
  fm_Match : option OfpMatch; fm_Instructions : list OfpInstruction }.

Record OfpFlowStats := mkFlowStats {
  fs_Id : Z; fs_TableId : Z; fs_DurationSec : Z; fs_DurationNsec : Z;
  fs_Priority : Z; fs_IdleTimeout : Z; fs_HardTimeout : Z; fs_Flags : Z;
  fs_Cookie : Z; fs_PacketCount : Z; fs_ByteCount : Z;
  fs_Match : option OfpMatch; fs_Instructions : list OfpInstruction }.

(** ** Groups *)

Record OfpBucket := mkBucket {
  bk_Weight : Z; bk_WatchPort : Z; bk_WatchGroup : Z; bk_Actions : list OfpAction }.

Record OfpGroupMod := mkGroupMod {
  gm_Command : Z; gm_Type : Z; gm_GroupId : Z; gm_Buckets : list OfpBucket }.

Record OfpGroupDesc := mkGroupDesc { gd_Type : Z; gd_GroupId : Z; gd_Buckets : list OfpBucket }.

Record OfpGroupStats := mkGroupStats {
  gs_GroupId : Z; gs_RefCount : Z; gs_PacketCount : Z; gs_ByteCount : Z;
  gs_DurationSec : Z; gs_DurationNsec : Z; gs_BucketStats : list (Z * Z) }.

Record OfpGroupEntry := mkGroupEntry {
  ge_Desc : option OfpGroupDesc; ge_Stats : option OfpGroupStats }.

(** ** Meters *)

(** The [Data] oneof of [OfpMeterBandHeader]. *)
Inductive MeterBandOneof :=
  | B_Drop
  | B_DscpRemark (prec_level : Z)
  | B_Experimenter (experimenter : Z).

Record OfpMeterBandHeader := mkBand {
  mb_Type : Z; mb_Rate : Z; mb_BurstSize : Z; mb_Data : option MeterBandOneof }.

Record OfpMeterMod := mkMeterMod {
  mm_Command : Z; mm_Flags : Z; mm_MeterId : Z; mm_Bands : list OfpMeterBandHeader }.

Record OfpMeterConfig := mkMeterConfig {
  mc_Flags : Z; mc_MeterId : Z; mc_Bands : list OfpMeterBandHeader }.

Record OfpMeterBandStats := mkBandStats { mbs_PacketBandCount : Z; mbs_ByteBandCount : Z }.

Record OfpMeterStats := mkMeterStats {
  ms_MeterId : Z; ms_FlowCount : Z; ms_PacketInCount : Z; ms_ByteInCount : Z;
  ms_DurationSec : Z; ms_DurationNsec : Z; ms_BandStats : list OfpMeterBandStats }.

(** The entries built by [MeterEntryFromMeterMod] always carry both messages. *)
Record OfpMeterEntry := mkMeterEntry { me_Config : OfpMeterConfig; me_Stats : OfpMeterStats }.

(** ** Packets and ports *)

Record OfpPacketOut := mkPacketOut {
  po_BufferId : Z; po_InPort : Z; po_Actions : list OfpAction; po_Data : list Z }.

Record OfpPacketIn := mkPacketInMsg {
  pi_BufferId : Z; pi_Reason : Z; pi_TableId : Z; pi_Cookie : Z;
  pi_Match : option OfpMatch; pi_Data : list Z }.

Record OfpPort := mkOfpPort {
  op_PortNo : Z; op_HwAddr : list Z; op_Name : string; op_Config : Z; op_State : Z;
  op_Curr : Z; op_Advertised : Z; op_Supported : Z; op_Peer : Z;
  op_CurrSpeed : Z; op_MaxSpeed : Z }.

Definition set_op_PortNo v (p : OfpPort) : OfpPort :=
  mkOfpPort v (op_HwAddr p) (op_Name p) (op_Config p) (op_State p) (op_Curr p) (op_Advertised p)
    (op_Supported p) (op_Peer p) (op_CurrSpeed p) (op_MaxSpeed p).
Definition set_op_Name v (p : OfpPort) : OfpPort :=
  mkOfpPort (op_PortNo p) (op_HwAddr p) v (op_Config p) (op_State p) (op_Curr p) (op_Advertised p)
    (op_Supported p) (op_Peer p) (op_CurrSpeed p) (op_MaxSpeed p).
Definition set_op_Config v (p : OfpPort) : OfpPort :=
  mkOfpPort (op_PortNo p) (op_HwAddr p) (op_Name p) v (op_State p) (op_Curr p) (op_Advertised p)
    (op_Supported p) (op_Peer p) (op_CurrSpeed p) (op_MaxSpeed p).
Definition set_op_State v (p : OfpPort) : OfpPort :=
  mkOfpPort (op_PortNo p) (op_HwAddr p) (op_Name p) (op_Config p) v (op_Curr p) (op_Advertised p)
    (op_Supported p) (op_Peer p) (op_CurrSpeed p) (op_MaxSpeed p).

(** ** Decidable equality *)

#[export] Instance OfbValue_eq_dec : EqDecision OfbValue.
Proof. solve_decision. Defined.
#[export] Instance OfbMask_eq_dec : EqDecision OfbMask.
Proof. solve_decision. Defined.
#[export] Instance OfpOxmOfbField_eq_dec : EqDecision OfpOxmOfbField.
Proof. solve_decision. Defined.
#[export] Instance OfpOxmExperimenterField_eq_dec : EqDecision OfpOxmExperimenterField.
Proof. solve_decision. Defined.
#[export] Instance OxmFieldOneof_eq_dec : EqDecision OxmFieldOneof.
Proof. solve_decision. Defined.
#[export] Instance OfpOxmField_eq_dec : EqDecision OfpOxmField.
Proof. solve_decision. Defined.
#[export] Instance OfpMatch_eq_dec : EqDecision OfpMatch.
Proof. solve_decision. Defined.
#[export] Instance OfpActionOutput_eq_dec : EqDecision OfpActionOutput.
Proof. solve_decision. Defined.
#[export] Instance OfpActionExperimenter_eq_dec : EqDecision OfpActionExperimenter.
Proof. solve_decision. Defined.
#[export] Instance ActionOneof_eq_dec : EqDecision ActionOneof.
Proof. solve_decision. Defined.
#[export] Instance OfpAction_eq_dec : EqDecision OfpAction.
Proof. solve_decision. Defined.
#[export] Instance OfpInstructionWriteMetadata_eq_dec : EqDecision OfpInstructionWriteMetadata.
Proof. solve_decision. Defined.
#[export] Instance OfpInstructionExperimenter_eq_dec : EqDecision OfpInstructionExperimenter.
Proof. solve_decision. Defined.
#[export] Instance InstructionOneof_eq_dec : EqDecision InstructionOneof.
Proof. solve_decision. Defined.
#[export] Instance OfpInstruction_eq_dec : EqDecision OfpInstruction.
Proof. solve_decision. Defined.
#[export] Instance OfpFlowStats_eq_dec : EqDecision OfpFlowStats.
Proof. solve_decision. Defined.
#[export] Instance OfpBucket_eq_dec : EqDecision OfpBucket.
Proof. solve_decision. Defined.
#[export] Instance OfpGroupDesc_eq_dec : EqDecision OfpGroupDesc.
Proof. solve_decision. Defined.
#[export] Instance OfpGroupStats_eq_dec : EqDecision OfpGroupStats.
Proof. solve_decision. Defined.
#[export] Instance OfpGroupEntry_eq_dec : EqDecision OfpGroupEntry.
Proof. solve_decision. Defined.
#[export] Instance MeterBandOneof_eq_dec : EqDecision MeterBandOneof.
Proof. solve_decision. Defined.
#[export] Instance OfpMeterBandHeader_eq_dec : EqDecision OfpMeterBandHeader.
Proof. solve_decision. Defined.
#[export] Instance OfpMeterConfig_eq_dec : EqDecision OfpMeterConfig.
Proof. solve_decision. Defined.
#[export] Instance OfpMeterBandStats_eq_dec : EqDecision OfpMeterBandStats.
Proof. solve_decision. Defined.
#[export] Instance OfpMeterStats_eq_dec : EqDecision OfpMeterStats.
Proof. solve_decision. Defined.
#[export] Instance OfpMeterEntry_eq_dec : EqDecision OfpMeterEntry.
Proof. solve_decision. Defined.
#[export] Instance OfpPort_eq_dec : EqDecision OfpPort.
Proof. solve_decision. Defined.
