(* ===== verification/VolthaTypes.v ===== *)
(** * Devices and logical devices

    The protobuf messages of [device.pb.go], [logical_device.pb.go] and
    [common.pb.go] the core works on.  A proto3 enumeration is open: a value
    without a name is kept as [..._other v]. *)

From S2P Require Import Prelude OpenFlow.

(** ** Enumerations *)

Inductive AdminState :=
  | Admin_UNKNOWN | Admin_PREPROVISIONED | Admin_ENABLED | Admin_DISABLED
  | Admin_DOWNLOADING_IMAGE | Admin_DELETED | Admin_other (v : Z).

Inductive OperStatus :=
  | Oper_UNKNOWN | Oper_DISCOVERED | Oper_ACTIVATING | Oper_TESTING | Oper_ACTIVE
  | Oper_FAILED | Oper_other (v : Z).

Inductive ConnectStatus :=
  | Conn_UNKNOWN | Conn_UNREACHABLE | Conn_REACHABLE | Conn_other (v : Z).

Inductive PortType :=
  | Port_UNKNOWN | ETHERNET_NNI | ETHERNET_UNI | PON_OLT | PON_ONU | VENET_OLT
  | VENET_ONU | Port_other (v : Z).

Inductive ImageDownloadState :=
  | DOWNLOAD_UNKNOWN | DOWNLOAD_SUCCEEDED | DOWNLOAD_REQUESTED | DOWNLOAD_STARTED
  | DOWNLOAD_FAILED | DOWNLOAD_UNSUPPORTED | DOWNLOAD_CANCELLED | DOWNLOAD_other (v : Z).

Inductive ImageActivateState :=
  | IMAGE_UNKNOWN | IMAGE_INACTIVE | IMAGE_ACTIVATING | IMAGE_ACTIVE | IMAGE_REVERTING
  | IMAGE_REVERTED | IMAGE_other (v : Z).

#[export] Instance AdminState_eq_dec : EqDecision AdminState.
Proof. solve_decision. Defined.
#[export] Instance OperStatus_eq_dec : EqDecision OperStatus.
Proof. solve_decision. Defined.
#[export] Instance ConnectStatus_eq_dec : EqDecision ConnectStatus.
Proof. solve_decision. Defined.
#[export] Instance PortType_eq_dec : EqDecision PortType.
Proof. solve_decision. Defined.
#[export] Instance ImageDownloadState_eq_dec : EqDecision ImageDownloadState.
Proof. solve_decision. Defined.
#[export] Instance ImageActivateState_eq_dec : EqDecision ImageActivateState.
Proof. solve_decision. Defined.

(** [_, ok := OperStatus_Types_value[s.String()]]: whether the value has a name. *)
Definition oper_named (s : OperStatus) : bool :=
  match s with Oper_other _ => false | _ => true end.
Definition conn_named (s : ConnectStatus) : bool :=
  match s with Conn_other _ => false | _ => true end.
Definition port_type_named (t : PortType) : bool :=
  match t with Port_other _ => false | _ => true end.

(** ** Device *)

Record PeerPort := mkPeer { peer_DeviceId : string; peer_PortNo : Z }.

Record Port := mkPort {
  port_PortNo : Z; port_Label : string; port_Type : PortType;
  port_AdminState : AdminState; port_OperStatus : OperStatus;
  port_DeviceId : string; port_Peers : list PeerPort;
  port_RxPackets : Z; port_RxBytes : Z; port_RxErrors : Z;
  port_TxPackets : Z; port_TxBytes : Z; port_TxErrors : Z }.

Record ProxyAddress := mkProxyAddress {
  pa_DeviceId : string; pa_DeviceType : string; pa_ChannelId : Z; pa_ChannelGroupId : Z;
  pa_ChannelTermination : string; pa_OnuId : Z; pa_OnuSessionId : Z }.

(** The metric lists of [PmConfigs] are opaque to the core. *)
Record PmConfigs := mkPmConfigs {
  pm_Id : string; pm_DefaultFreq : Z; pm_Grouped : bool; pm_FreqOverride : bool;
  pm_Groups : list (string * Z); pm_Metrics : list (string * Z) }.

Record ImageDownload := mkImageDownload {
  img_Id : string; img_Name : string; img_Url : string; img_Crc : Z;
  img_DownloadState : ImageDownloadState; img_ImageVersion : string;
  img_DownloadedBytes : Z; img_Reason : Z; img_AdditionalInfo : string;
  img_SaveConfig : bool; img_LocalDir : string; img_ImageState : ImageActivateState;
  img_FileSize : Z }.

(** The [Address] oneof of [Device]. *)
Inductive DeviceAddress :=
  | Ipv4Address (a : string) | Ipv6Address (a : string) | HostAndPort (a : string).

(** [ImageDownloads] keeps the difference between a nil and an empty slice, and
    its entries are pointers: [updateImageDownload] produces nil ones.  The
    [Images] and [Custom] messages, which the core never touches, are left out. *)
Record Device := mkDevice {
  dev_Id : string; dev_Type : string; dev_Root : bool; dev_ParentId : string;
  dev_ParentPortNo : Z; dev_Vendor : string; dev_Model : string;
  dev_HardwareVersion : string; dev_FirmwareVersion : string; dev_SerialNumber : string;
  dev_VendorId : string; dev_Adapter : string; dev_Vlan : Z; dev_MacAddress : string;
  dev_Address : option DeviceAddress; dev_ExtraArgs : string;
  dev_ProxyAddress : option ProxyAddress;
  dev_AdminState : AdminState; dev_OperStatus : OperStatus; dev_Reason : string;
  dev_ConnectStatus : ConnectStatus; dev_Ports : list Port;
  dev_Flows : list OfpFlowStats; dev_FlowGroups : list OfpGroupEntry;
  dev_PmConfigs : option PmConfigs;
  dev_ImageDownloads : option (list (option ImageDownload)) }.

#[export] Instance PeerPort_eq_dec : EqDecision PeerPort.
Proof. solve_decision. Defined.
#[export] Instance Port_eq_dec : EqDecision Port.
Proof. solve_decision. Defined.
#[export] Instance ProxyAddress_eq_dec : EqDecision ProxyAddress.
Proof. solve_decision. Defined.
#[export] Instance PmConfigs_eq_dec : EqDecision PmConfigs.
Proof. solve_decision. Defined.
#[export] Instance ImageDownload_eq_dec : EqDecision ImageDownload.
Proof. solve_decision. Defined.
#[export] Instance DeviceAddress_eq_dec : EqDecision DeviceAddress.
Proof. solve_decision. Defined.
#[export] Instance Device_eq_dec : EqDecision Device.
Proof. solve_decision. Defined.

(** [&voltha.Device{}]. *)
Definition Device_zero : Device := {|
  dev_Id := ""; dev_Type := ""; dev_Root := false; dev_ParentId := "";
  dev_ParentPortNo := 0; dev_Vendor := ""; dev_Model := "";
  dev_HardwareVersion := ""; dev_FirmwareVersion := ""; dev_SerialNumber := "";
  dev_VendorId := ""; dev_Adapter := ""; dev_Vlan := 0; dev_MacAddress := "";
  dev_Address := None; dev_ExtraArgs := ""; dev_ProxyAddress := None;
  dev_AdminState := Admin_UNKNOWN; dev_OperStatus := Oper_UNKNOWN; dev_Reason := "";
  dev_ConnectStatus := Conn_UNKNOWN; dev_Ports := []; dev_Flows := [];
  dev_FlowGroups := []; dev_PmConfigs := None; dev_ImageDownloads := None |}.

(** Field assignments. *)
Definition set_Id v (d : Device) : Device :=
  mkDevice v (dev_Type d) (dev_Root d) (dev_ParentId d) (dev_ParentPortNo d) (dev_Vendor d)
    (dev_Model d) (dev_HardwareVersion d) (dev_FirmwareVersion d) (dev_SerialNumber d)
    (dev_VendorId d) (dev_Adapter d) (dev_Vlan d) (dev_MacAddress d) (dev_Address d)
    (dev_ExtraArgs d) (dev_ProxyAddress d) (dev_AdminState d) (dev_OperStatus d) (dev_Reason d)
    (dev_ConnectStatus d) (dev_Ports d) (dev_Flows d) (dev_FlowGroups d) (dev_PmConfigs d)
    (dev_ImageDownloads d).
Definition set_Type v (d : Device) : Device :=
  mkDevice (dev_Id d) v (dev_Root d) (dev_ParentId d) (dev_ParentPortNo d) (dev_Vendor d)
    (dev_Model d) (dev_HardwareVersion d) (dev_FirmwareVersion d) (dev_SerialNumber d)
    (dev_VendorId d) (dev_Adapter d) (dev_Vlan d) (dev_MacAddress d) (dev_Address d)
    (dev_ExtraArgs d) (dev_ProxyAddress d) (dev_AdminState d) (dev_OperStatus d) (dev_Reason d)
    (dev_ConnectStatus d) (dev_Ports d) (dev_Flows d) (dev_FlowGroups d) (dev_PmConfigs d)
    (dev_ImageDownloads d).
Definition set_Root v (d : Device) : Device :=
  mkDevice (dev_Id d) (dev_Type d) v (dev_ParentId d) (dev_ParentPortNo d) (dev_Vendor d)
    (dev_Model d) (dev_HardwareVersion d) (dev_FirmwareVersion d) (dev_SerialNumber d)
    (dev_VendorId d) (dev_Adapter d) (dev_Vlan d) (dev_MacAddress d) (dev_Address d)
    (dev_ExtraArgs d) (dev_ProxyAddress d) (dev_AdminState d) (dev_OperStatus d) (dev_Reason d)
    (dev_ConnectStatus d) (dev_Ports d) (dev_Flows d) (dev_FlowGroups d) (dev_PmConfigs d)
    (dev_ImageDownloads d).
Definition set_ParentId v (d : Device) : Device :=
  mkDevice (dev_Id d) (dev_Type d) (dev_Root d) v (dev_ParentPortNo d) (dev_Vendor d)
    (dev_Model d) (dev_HardwareVersion d) (dev_FirmwareVersion d) (dev_SerialNumber d)
    (dev_VendorId d) (dev_Adapter d) (dev_Vlan d) (dev_MacAddress d) (dev_Address d)
    (dev_ExtraArgs d) (dev_ProxyAddress d) (dev_AdminState d) (dev_OperStatus d) (dev_Reason d)
    (dev_ConnectStatus d) (dev_Ports d) (dev_Flows d) (dev_FlowGroups d) (dev_PmConfigs d)
    (dev_ImageDownloads d).
Definition set_ParentPortNo v (d : Device) : Device :=
  mkDevice (dev_Id d) (dev_Type d) (dev_Root d) (dev_ParentId d) v (dev_Vendor d) (dev_Model d)
    (dev_HardwareVersion d) (dev_FirmwareVersion d) (dev_SerialNumber d) (dev_VendorId d)
    (dev_Adapter d) (dev_Vlan d) (dev_MacAddress d) (dev_Address d) (dev_ExtraArgs d)
    (dev_ProxyAddress d) (dev_AdminState d) (dev_OperStatus d) (dev_Reason d)
    (dev_ConnectStatus d) (dev_Ports d) (dev_Flows d) (dev_FlowGroups d) (dev_PmConfigs d)
    (dev_ImageDownloads d).
Definition set_Vendor v (d : Device) : Device :=
  mkDevice (dev_Id d) (dev_Type d) (dev_Root d) (dev_ParentId d) (dev_ParentPortNo d) v
    (dev_Model d) (dev_HardwareVersion d) (dev_FirmwareVersion d) (dev_SerialNumber d)
    (dev_VendorId d) (dev_Adapter d) (dev_Vlan d) (dev_MacAddress d) (dev_Address d)
    (dev_ExtraArgs d) (dev_ProxyAddress d) (dev_AdminState d) (dev_OperStatus d) (dev_Reason d)
    (dev_ConnectStatus d) (dev_Ports d) (dev_Flows d) (dev_FlowGroups d) (dev_PmConfigs d)
    (dev_ImageDownloads d).
Definition set_Model v (d : Device) : Device :=
  mkDevice (dev_Id d) (dev_Type d) (dev_Root d) (dev_ParentId d) (dev_ParentPortNo d)
    (dev_Vendor d) v (dev_HardwareVersion d) (dev_FirmwareVersion d) (dev_SerialNumber d)
    (dev_VendorId d) (dev_Adapter d) (dev_Vlan d) (dev_MacAddress d) (dev_Address d)
    (dev_ExtraArgs d) (dev_ProxyAddress d) (dev_AdminState d) (dev_OperStatus d) (dev_Reason d)
    (dev_ConnectStatus d) (dev_Ports d) (dev_Flows d) (dev_FlowGroups d) (dev_PmConfigs d)
    (dev_ImageDownloads d).
Definition set_HardwareVersion v (d : Device) : Device :=
  mkDevice (dev_Id d) (dev_Type d) (dev_Root d) (dev_ParentId d) (dev_ParentPortNo d)
    (dev_Vendor d) (dev_Model d) v (dev_FirmwareVersion d) (dev_SerialNumber d) (dev_VendorId d)
    (dev_Adapter d) (dev_Vlan d) (dev_MacAddress d) (dev_Address d) (dev_ExtraArgs d)
    (dev_ProxyAddress d) (dev_AdminState d) (dev_OperStatus d) (dev_Reason d)
    (dev_ConnectStatus d) (dev_Ports d) (dev_Flows d) (dev_FlowGroups d) (dev_PmConfigs d)
    (dev_ImageDownloads d).
Definition set_FirmwareVersion v (d : Device) : Device :=
  mkDevice (dev_Id d) (dev_Type d) (dev_Root d) (dev_ParentId d) (dev_ParentPortNo d)
    (dev_Vendor d) (dev_Model d) (dev_HardwareVersion d) v (dev_SerialNumber d) (dev_VendorId d)
    (dev_Adapter d) (dev_Vlan d) (dev_MacAddress d) (dev_Address d) (dev_ExtraArgs d)
    (dev_ProxyAddress d) (dev_AdminState d) (dev_OperStatus d) (dev_Reason d)
    (dev_ConnectStatus d) (dev_Ports d) (dev_Flows d) (dev_FlowGroups d) (dev_PmConfigs d)
    (dev_ImageDownloads d).
Definition set_SerialNumber v (d : Device) : Device :=
  mkDevice (dev_Id d) (dev_Type d) (dev_Root d) (dev_ParentId d) (dev_ParentPortNo d)
    (dev_Vendor d) (dev_Model d) (dev_HardwareVersion d) (dev_FirmwareVersion d) v
    (dev_VendorId d) (dev_Adapter d) (dev_Vlan d) (dev_MacAddress d) (dev_Address d)
    (dev_ExtraArgs d) (dev_ProxyAddress d) (dev_AdminState d) (dev_OperStatus d) (dev_Reason d)
    (dev_ConnectStatus d) (dev_Ports d) (dev_Flows d) (dev_FlowGroups d) (dev_PmConfigs d)
    (dev_ImageDownloads d).
Definition set_VendorId v (d : Device) : Device :=
  mkDevice (dev_Id d) (dev_Type d) (dev_Root d) (dev_ParentId d) (dev_ParentPortNo d)
    (dev_Vendor d) (dev_Model d) (dev_HardwareVersion d) (dev_FirmwareVersion d)
    (dev_SerialNumber d) v (dev_Adapter d) (dev_Vlan d) (dev_MacAddress d) (dev_Address d)
    (dev_ExtraArgs d) (dev_ProxyAddress d) (dev_AdminState d) (dev_OperStatus d) (dev_Reason d)
    (dev_ConnectStatus d) (dev_Ports d) (dev_Flows d) (dev_FlowGroups d) (dev_PmConfigs d)
    (dev_ImageDownloads d).
Definition set_Adapter v (d : Device) : Device :=
  mkDevice (dev_Id d) (dev_Type d) (dev_Root d) (dev_ParentId d) (dev_ParentPortNo d)
    (dev_Vendor d) (dev_Model d) (dev_HardwareVersion d) (dev_FirmwareVersion d)
    (dev_SerialNumber d) (dev_VendorId d) v (dev_Vlan d) (dev_MacAddress d) (dev_Address d)
    (dev_ExtraArgs d) (dev_ProxyAddress d) (dev_AdminState d) (dev_OperStatus d) (dev_Reason d)
    (dev_ConnectStatus d) (dev_Ports d) (dev_Flows d) (dev_FlowGroups d) (dev_PmConfigs d)
    (dev_ImageDownloads d).
Definition set_Vlan v (d : Device) : Device :=
  mkDevice (dev_Id d) (dev_Type d) (dev_Root d) (dev_ParentId d) (dev_ParentPortNo d)
    (dev_Vendor d) (dev_Model d) (dev_HardwareVersion d) (dev_FirmwareVersion d)
    (dev_SerialNumber d) (dev_VendorId d) (dev_Adapter d) v (dev_MacAddress d) (dev_Address d)
    (dev_ExtraArgs d) (dev_ProxyAddress d) (dev_AdminState d) (dev_OperStatus d) (dev_Reason d)
    (dev_ConnectStatus d) (dev_Ports d) (dev_Flows d) (dev_FlowGroups d) (dev_PmConfigs d)
    (dev_ImageDownloads d).
Definition set_MacAddress v (d : Device) : Device :=
  mkDevice (dev_Id d) (dev_Type d) (dev_Root d) (dev_ParentId d) (dev_ParentPortNo d)
    (dev_Vendor d) (dev_Model d) (dev_HardwareVersion d) (dev_FirmwareVersion d)
    (dev_SerialNumber d) (dev_VendorId d) (dev_Adapter d) (dev_Vlan d) v (dev_Address d)
    (dev_ExtraArgs d) (dev_ProxyAddress d) (dev_AdminState d) (dev_OperStatus d) (dev_Reason d)
    (dev_ConnectStatus d) (dev_Ports d) (dev_Flows d) (dev_FlowGroups d) (dev_PmConfigs d)
    (dev_ImageDownloads d).
Definition set_ExtraArgs v (d : Device) : Device :=
  mkDevice (dev_Id d) (dev_Type d) (dev_Root d) (dev_ParentId d) (dev_ParentPortNo d)
    (dev_Vendor d) (dev_Model d) (dev_HardwareVersion d) (dev_FirmwareVersion d)
    (dev_SerialNumber d) (dev_VendorId d) (dev_Adapter d) (dev_Vlan d) (dev_MacAddress d)
    (dev_Address d) v (dev_ProxyAddress d) (dev_AdminState d) (dev_OperStatus d) (dev_Reason d)
    (dev_ConnectStatus d) (dev_Ports d) (dev_Flows d) (dev_FlowGroups d) (dev_PmConfigs d)
    (dev_ImageDownloads d).
Definition set_AdminState v (d : Device) : Device :=
  mkDevice (dev_Id d) (dev_Type d) (dev_Root d) (dev_ParentId d) (dev_ParentPortNo d)
    (dev_Vendor d) (dev_Model d) (dev_HardwareVersion d) (dev_FirmwareVersion d)
    (dev_SerialNumber d) (dev_VendorId d) (dev_Adapter d) (dev_Vlan d) (dev_MacAddress d)
    (dev_Address d) (dev_ExtraArgs d) (dev_ProxyAddress d) v (dev_OperStatus d) (dev_Reason d)
    (dev_ConnectStatus d) (dev_Ports d) (dev_Flows d) (dev_FlowGroups d) (dev_PmConfigs d)
    (dev_ImageDownloads d).
Definition set_OperStatus v (d : Device) : Device :=
  mkDevice (dev_Id d) (dev_Type d) (dev_Root d) (dev_ParentId d) (dev_ParentPortNo d)
    (dev_Vendor d) (dev_Model d) (dev_HardwareVersion d) (dev_FirmwareVersion d)
    (dev_SerialNumber d) (dev_VendorId d) (dev_Adapter d) (dev_Vlan d) (dev_MacAddress d)
    (dev_Address d) (dev_ExtraArgs d) (dev_ProxyAddress d) (dev_AdminState d) v (dev_Reason d)
    (dev_ConnectStatus d) (dev_Ports d) (dev_Flows d) (dev_FlowGroups d) (dev_PmConfigs d)
    (dev_ImageDownloads d).
Definition set_Reason v (d : Device) : Device :=
  mkDevice (dev_Id d) (dev_Type d) (dev_Root d) (dev_ParentId d) (dev_ParentPortNo d)
    (dev_Vendor d) (dev_Model d) (dev_HardwareVersion d) (dev_FirmwareVersion d)
    (dev_SerialNumber d) (dev_VendorId d) (dev_Adapter d) (dev_Vlan d) (dev_MacAddress d)
    (dev_Address d) (dev_ExtraArgs d) (dev_ProxyAddress d) (dev_AdminState d) (dev_OperStatus d)
    v (dev_ConnectStatus d) (dev_Ports d) (dev_Flows d) (dev_FlowGroups d) (dev_PmConfigs d)
    (dev_ImageDownloads d).
Definition set_ConnectStatus v (d : Device) : Device :=
  mkDevice (dev_Id d) (dev_Type d) (dev_Root d) (dev_ParentId d) (dev_ParentPortNo d)
    (dev_Vendor d) (dev_Model d) (dev_HardwareVersion d) (dev_FirmwareVersion d)
    (dev_SerialNumber d) (dev_VendorId d) (dev_Adapter d) (dev_Vlan d) (dev_MacAddress d)
    (dev_Address d) (dev_ExtraArgs d) (dev_ProxyAddress d) (dev_AdminState d) (dev_OperStatus d)
    (dev_Reason d) v (dev_Ports d) (dev_Flows d) (dev_FlowGroups d) (dev_PmConfigs d)
    (dev_ImageDownloads d).
Definition set_Ports v (d : Device) : Device :=
  mkDevice (dev_Id d) (dev_Type d) (dev_Root d) (dev_ParentId d) (dev_ParentPortNo d)
    (dev_Vendor d) (dev_Model d) (dev_HardwareVersion d) (dev_FirmwareVersion d)
    (dev_SerialNumber d) (dev_VendorId d) (dev_Adapter d) (dev_Vlan d) (dev_MacAddress d)
    (dev_Address d) (dev_ExtraArgs d) (dev_ProxyAddress d) (dev_AdminState d) (dev_OperStatus d)
    (dev_Reason d) (dev_ConnectStatus d) v (dev_Flows d) (dev_FlowGroups d) (dev_PmConfigs d)
    (dev_ImageDownloads d).
Definition set_Flows v (d : Device) : Device :=
  mkDevice (dev_Id d) (dev_Type d) (dev_Root d) (dev_ParentId d) (dev_ParentPortNo d)
    (dev_Vendor d) (dev_Model d) (dev_HardwareVersion d) (dev_FirmwareVersion d)
    (dev_SerialNumber d) (dev_VendorId d) (dev_Adapter d) (dev_Vlan d) (dev_MacAddress d)
    (dev_Address d) (dev_ExtraArgs d) (dev_ProxyAddress d) (dev_AdminState d) (dev_OperStatus d)
    (dev_Reason d) (dev_ConnectStatus d) (dev_Ports d) v (dev_FlowGroups d) (dev_PmConfigs d)
    (dev_ImageDownloads d).
Definition set_FlowGroups v (d : Device) : Device :=
  mkDevice (dev_Id d) (dev_Type d) (dev_Root d) (dev_ParentId d) (dev_ParentPortNo d)
    (dev_Vendor d) (dev_Model d) (dev_HardwareVersion d) (dev_FirmwareVersion d)
    (dev_SerialNumber d) (dev_VendorId d) (dev_Adapter d) (dev_Vlan d) (dev_MacAddress d)
    (dev_Address d) (dev_ExtraArgs d) (dev_ProxyAddress d) (dev_AdminState d) (dev_OperStatus d)
    (dev_Reason d) (dev_ConnectStatus d) (dev_Ports d) (dev_Flows d) v (dev_PmConfigs d)
    (dev_ImageDownloads d).
Definition set_PmConfigs v (d : Device) : Device :=
  mkDevice (dev_Id d) (dev_Type d) (dev_Root d) (dev_ParentId d) (dev_ParentPortNo d)
    (dev_Vendor d) (dev_Model d) (dev_HardwareVersion d) (dev_FirmwareVersion d)
    (dev_SerialNumber d) (dev_VendorId d) (dev_Adapter d) (dev_Vlan d) (dev_MacAddress d)
    (dev_Address d) (dev_ExtraArgs d) (dev_ProxyAddress d) (dev_AdminState d) (dev_OperStatus d)
    (dev_Reason d) (dev_ConnectStatus d) (dev_Ports d) (dev_Flows d) (dev_FlowGroups d) v
    (dev_ImageDownloads d).
Definition set_ImageDownloads v (d : Device) : Device :=
  mkDevice (dev_Id d) (dev_Type d) (dev_Root d) (dev_ParentId d) (dev_ParentPortNo d)
    (dev_Vendor d) (dev_Model d) (dev_HardwareVersion d) (dev_FirmwareVersion d)
    (dev_SerialNumber d) (dev_VendorId d) (dev_Adapter d) (dev_Vlan d) (dev_MacAddress d)
    (dev_Address d) (dev_ExtraArgs d) (dev_ProxyAddress d) (dev_AdminState d) (dev_OperStatus d)
    (dev_Reason d) (dev_ConnectStatus d) (dev_Ports d) (dev_Flows d) (dev_FlowGroups d)
    (dev_PmConfigs d) v.

Definition set_port_AdminState v (p : Port) : Port :=
  mkPort (port_PortNo p) (port_Label p) (port_Type p) v (port_OperStatus p) (port_DeviceId p)
    (port_Peers p) (port_RxPackets p) (port_RxBytes p) (port_RxErrors p) (port_TxPackets p)
    (port_TxBytes p) (port_TxErrors p).
Definition set_port_OperStatus v (p : Port) : Port :=
  mkPort (port_PortNo p) (port_Label p) (port_Type p) (port_AdminState p) v (port_DeviceId p)
    (port_Peers p) (port_RxPackets p) (port_RxBytes p) (port_RxErrors p) (port_TxPackets p)
    (port_TxBytes p) (port_TxErrors p).
Definition set_port_Peers v (p : Port) : Port :=
  mkPort (port_PortNo p) (port_Label p) (port_Type p) (port_AdminState p) (port_OperStatus p)
    (port_DeviceId p) v (port_RxPackets p) (port_RxBytes p) (port_RxErrors p) (port_TxPackets p)
    (port_TxBytes p) (port_TxErrors p).
Definition set_img_DownloadState v (i : ImageDownload) : ImageDownload :=
  mkImageDownload (img_Id i) (img_Name i) (img_Url i) (img_Crc i) v (img_ImageVersion i)
    (img_DownloadedBytes i) (img_Reason i) (img_AdditionalInfo i) (img_SaveConfig i) (img_LocalDir i)
    (img_ImageState i) (img_FileSize i).
Definition set_img_ImageState v (i : ImageDownload) : ImageDownload :=
  mkImageDownload (img_Id i) (img_Name i) (img_Url i) (img_Crc i) (img_DownloadState i)
    (img_ImageVersion i) (img_DownloadedBytes i) (img_Reason i) (img_AdditionalInfo i)
    (img_SaveConfig i) (img_LocalDir i) v (img_FileSize i).

(** ** Logical device *)

(** A logical port always carries its OpenFlow description. *)
Record LogicalPort := mkLogicalPort {
  lp_Id : string; lp_OfpPort : OfpPort; lp_DeviceId : string; lp_DevicePortNo : Z;
  lp_RootPort : bool }.

#[export] Instance LogicalPort_eq_dec : EqDecision LogicalPort.
Proof. solve_decision. Defined.

(** A message the core only copies ([OfpDesc], [OfpSwitchFeatures]). *)
Definition Opaque := string.

(** [Flows], [FlowGroups] and [Meters] are pointers to a message with an [Items]
    list; [None] is the nil pointer. *)
Record LogicalDevice := mkLogicalDevice {
  ld_Id : string; ld_DatapathId : Z; ld_Desc : Opaque; ld_SwitchFeatures : Opaque;
  ld_RootDeviceId : string;
  ld_Ports : list LogicalPort;
  ld_Flows : option (list OfpFlowStats);
  ld_FlowGroups : option (list OfpGroupEntry);
  ld_Meters : option (list OfpMeterEntry) }.

Definition set_ld_Ports v (ld : LogicalDevice) : LogicalDevice :=
  mkLogicalDevice (ld_Id ld) (ld_DatapathId ld) (ld_Desc ld) (ld_SwitchFeatures ld)
    (ld_RootDeviceId ld) v (ld_Flows ld) (ld_FlowGroups ld) (ld_Meters ld).
Definition set_ld_Flows v (ld : LogicalDevice) : LogicalDevice :=
  mkLogicalDevice (ld_Id ld) (ld_DatapathId ld) (ld_Desc ld) (ld_SwitchFeatures ld)
    (ld_RootDeviceId ld) (ld_Ports ld) v (ld_FlowGroups ld) (ld_Meters ld).
Definition set_ld_FlowGroups v (ld : LogicalDevice) : LogicalDevice :=
  mkLogicalDevice (ld_Id ld) (ld_DatapathId ld) (ld_Desc ld) (ld_SwitchFeatures ld)
    (ld_RootDeviceId ld) (ld_Ports ld) (ld_Flows ld) v (ld_Meters ld).
Definition set_ld_Meters v (ld : LogicalDevice) : LogicalDevice :=
  mkLogicalDevice (ld_Id ld) (ld_DatapathId ld) (ld_Desc ld) (ld_SwitchFeatures ld)
    (ld_RootDeviceId ld) (ld_Ports ld) (ld_Flows ld) (ld_FlowGroups ld) v.

(** The port capability an adapter reports: the port it describes, if any. *)
Definition PortCapability := option LogicalPort.

Record SwitchCapability := mkSwitchCapability { sc_Desc : Opaque; sc_SwitchFeatures : Opaque }.

Record DeviceType := mkDeviceType {
  dt_Id : string; dt_VendorId : string; dt_VendorIds : list string; dt_Adapter : string;
  dt_AcceptsBulkFlowUpdate : bool; dt_AcceptsAddRemoveFlowUpdates : bool;
  dt_AcceptsDirectLogicalFlowsUpdate : bool }.

(** The meters a flow update refers to, sent along to the adapters. *)
Definition FlowMetadata := list OfpMeterConfig.

(** An otherwise empty device, for evaluating the model. *)
Definition sample_device_of (id : string) : Device := set_Type id (set_Id id Device_zero).
