(* ===== verification/FlowUtils.v ===== *)
(** * Flow utilities

    [vendor/.../voltha-lib-go/v3/pkg/flows/flow_utils.go]: the accessors and
    builders of OpenFlow flows, the flow identity, the flow/group containers and
    the matching predicates on which the decomposer and the agents are built;
    and the insertion-ordered map they use ([cevaris/ordered_map]). *)

From S2P Require Import Prelude OpenFlow VolthaTypes.

(** ** Text rendering and hashing

    [String()] of a protobuf message and the 64-bit digest taken from its MD5
    sum are code the core only calls. *)

Class ProtoText := {
  match_string : option OfpMatch → string;
  ofb_field_string : option OfpOxmOfbField → string;
  instruction_string : OfpInstruction → string;
  md5_uint64 : string → Z
}.

(** ** Insertion-ordered maps *)

Module OrderedMap.

(** Entries in insertion order. *)
Definition t (V : Type) := list (Z * V).

Definition Get {V} (om : t V) (k : Z) : option V :=
  match list_find (λ kv, kv.1 = k) om with Some (_, (_, v)) => Some v | None => None end.

Fixpoint Set_ {V} (om : t V) (k : Z) (v : V) : t V :=
  match om with
  | [] => [(k, v)]
  | (k', v') :: om => if decide (k' = k) then (k', v) :: om else (k', v') :: Set_ om k v
  end.

Definition Len {V} (om : t V) : nat := length om.

#[global] Arguments Get : simpl never.
End OrderedMap.

(** ** Builders *)

Definition Output (port : Z) : OfpAction :=
  mkAction OUTPUT (Some (A_Output (Some (mkOutput port OFPCML_MAX)))).

Definition PushVlan (ethType : Z) : OfpAction :=
  mkAction PUSH_VLAN (Some (A_Push (Some ethType))).

Definition SetField (field : OfpOxmOfbField) : OfpAction :=
  mkAction SET_FIELD
    (Some (A_SetField (Some (Some (mkOxm OFPXMC_OPENFLOW_BASIC (Some (F_OfbField (Some field)))))))).

Definition InPort (inPort : Z) : OfpOxmOfbField := mkOfb IN_PORT false (Some (V_Port inPort)) None.
Definition Metadata_ofp (tableMetadata : Z) : OfpOxmOfbField :=
  mkOfb METADATA false (Some (V_TableMetadata tableMetadata)) None.
Definition EthType (ethType : Z) : OfpOxmOfbField :=
  mkOfb ETH_TYPE false (Some (V_EthType ethType)) None.
Definition VlanVid (vlanVid : Z) : OfpOxmOfbField :=
  mkOfb VLAN_VID false (Some (V_VlanVid vlanVid)) None.
Definition IpProto (ipProto : Z) : OfpOxmOfbField :=
  mkOfb IP_PROTO false (Some (V_IpProto ipProto)) None.
Definition TunnelId (tunnelId : Z) : OfpOxmOfbField :=
  mkOfb TUNNEL_ID false (Some (V_TunnelId tunnelId)) None.

(** ** Generated getters: the zero value when the oneof holds something else *)

Definition GetOutput (a : OfpAction) : option OfpActionOutput :=
  match act_Action a with Some (A_Output o) => o | _ => None end.
Definition GetGroupAction (a : OfpAction) : option Z :=
  match act_Action a with Some (A_Group g) => g | _ => None end.
Definition inst_GetActions (i : OfpInstruction) : option (list OfpAction) :=
  match inst_Data i with Some (I_Actions l) => l | _ => None end.
Definition inst_GetGotoTable (i : OfpInstruction) : option Z :=
  match inst_Data i with Some (I_GotoTable t) => t | _ => None end.
Definition inst_GetMeter (i : OfpInstruction) : option Z :=
  match inst_Data i with Some (I_Meter m) => m | _ => None end.
Definition inst_GetWriteMetadata (i : OfpInstruction) : option OfpInstructionWriteMetadata :=
  match inst_Data i with Some (I_WriteMetadata w) => w | _ => None end.
Definition GetOfbField (f : OfpOxmField) : option OfpOxmOfbField :=
  match oxm_Field f with Some (F_OfbField o) => o | _ => None end.
Definition ofb_GetPort (f : OfpOxmOfbField) : Z :=
  match ofb_Value f with Some (V_Port p) => p | _ => 0 end.
Definition ofb_GetVlanVid (f : OfpOxmOfbField) : Z :=
  match ofb_Value f with Some (V_VlanVid v) => v | _ => 0 end.

(** ** Extractors *)

Definition excludeAction (action : OfpAction) (exclude : list Z) : bool :=
  bool_decide (act_Type action ∈ exclude).

(** The actions of the first APPLY_ACTIONS instruction, less the excluded types. *)
Definition GetActions (flow : OfpFlowStats) (exclude : list Z) : list OfpAction :=
  match list_find (λ i, inst_Type i = OFPIT_APPLY_ACTIONS) (fs_Instructions flow) with
  | Some (_, instruction) =>
      match inst_GetActions instruction with
      | None => []
      | Some actions =>
          if decide (length exclude = 0%nat) then actions
          else List.filter (λ a, negb (excludeAction a exclude)) actions
      end
  | None => []
  end.

(** Redirects every output of the instructions of type [actionType] to [toPort];
    [None] is the nil result when such an instruction carries no action list. *)
Definition redirect_output (toPort : Z) (action : OfpAction) : OfpAction :=
  match GetOutput action with Some _ => Output toPort | None => action end.

Fixpoint redirect_instructions (actionType toPort : Z) (insts : list OfpInstruction)
    : option (list OfpInstruction) :=
  match insts with
  | [] => Some []
  | instruction :: insts =>
      if decide (inst_Type instruction = actionType) then
        instActions ← inst_GetActions instruction;
        rest ← redirect_instructions actionType toPort insts;
        Some (mkInst OFPIT_APPLY_ACTIONS
                (Some (I_Actions (Some (redirect_output toPort <$> instActions)))) :: rest)
      else
        rest ← redirect_instructions actionType toPort insts;
        Some (instruction :: rest)
  end.

Definition with_Instructions (flow : OfpFlowStats) (insts : list OfpInstruction) : OfpFlowStats :=
  {| fs_Id := fs_Id flow; fs_TableId := fs_TableId flow; fs_DurationSec := fs_DurationSec flow;
     fs_DurationNsec := fs_DurationNsec flow; fs_Priority := fs_Priority flow;
     fs_IdleTimeout := fs_IdleTimeout flow; fs_HardTimeout := fs_HardTimeout flow;
     fs_Flags := fs_Flags flow; fs_Cookie := fs_Cookie flow;
     fs_PacketCount := fs_PacketCount flow; fs_ByteCount := fs_ByteCount flow;
     fs_Match := fs_Match flow; fs_Instructions := insts |}.

Definition with_Id (flow : OfpFlowStats) (id : Z) : OfpFlowStats :=
  {| fs_Id := id; fs_TableId := fs_TableId flow; fs_DurationSec := fs_DurationSec flow;
     fs_DurationNsec := fs_DurationNsec flow; fs_Priority := fs_Priority flow;
     fs_IdleTimeout := fs_IdleTimeout flow; fs_HardTimeout := fs_HardTimeout flow;
     fs_Flags := fs_Flags flow; fs_Cookie := fs_Cookie flow;
     fs_PacketCount := fs_PacketCount flow; fs_ByteCount := fs_ByteCount flow;
     fs_Match := fs_Match flow; fs_Instructions := fs_Instructions flow |}.

Definition UpdateOutputPortByActionType (flow : OfpFlowStats) (actionType toPort : Z)
    : option OfpFlowStats :=
  with_Instructions flow <$> redirect_instructions actionType toPort (fs_Instructions flow).

(** [field.Type] dereferences the field pointer: nil panics. *)
Definition excludeOxmOfbField (field : option OfpOxmOfbField) (exclude : list Z) : outcome bool :=
  let? f := deref field in Ok (bool_decide (ofb_Type f ∈ exclude)).

(** The basic-class match fields, as pointers. *)
Definition basic_fields (m : OfpMatch) : list (option OfpOxmOfbField) :=
  GetOfbField <$> List.filter (λ f, oxm_OxmClass f =? OFPXMC_OPENFLOW_BASIC) (mt_OxmFields m).

Fixpoint filter_ofb (exclude : list Z) (fields : list (option OfpOxmOfbField))
    : outcome (list (option OfpOxmOfbField)) :=
  match fields with
  | [] => Ok []
  | field :: fields =>
      let? excl := excludeOxmOfbField field exclude in
      let? rest := filter_ofb exclude fields in
      Ok (if (excl : bool) then rest else field :: rest)
  end.

Definition GetOfbFields (flow : OfpFlowStats) (exclude : list Z)
    : outcome (list (option OfpOxmOfbField)) :=
  match fs_Match flow with
  | None => Ok []
  | Some m =>
      if decide (mt_Type m = OFPMT_OXM) then
        if decide (length exclude = 0%nat) then Ok (basic_fields m)
        else filter_ofb exclude (basic_fields m)
      else Ok []
  end.

(** The first field of a given type: [for _, field := range GetOfbFields(flow)]. *)
Fixpoint first_field (ty : Z) (fields : list (option OfpOxmOfbField))
    : outcome (option OfpOxmOfbField) :=
  match fields with
  | [] => Ok None
  | field :: fields =>
      let? f := deref field in
      if decide (ofb_Type f = ty) then Ok (Some f) else first_field ty fields
  end.

Definition GetInPort (flow : OfpFlowStats) : outcome Z :=
  let? fields := GetOfbFields flow [] in
  let? found := first_field IN_PORT fields in
  Ok (match found with Some f => ofb_GetPort f | None => 0 end).

Definition GetVlanVid (flow : OfpFlowStats) : outcome (option Z) :=
  let? fields := GetOfbFields flow [] in
  let? found := first_field VLAN_VID fields in
  Ok (ofb_GetVlanVid <$> found).

Definition GetOutPort (flow : OfpFlowStats) : Z :=
  match list_find (λ a, act_Type a = OUTPUT) (GetActions flow []) with
  | Some (_, a) => match GetOutput a with Some o => out_Port o | None => 0 end
  | None => 0
  end.

Definition GetPacketOutPort (packet : OfpPacketOut) : outcome Z :=
  match list_find (λ a, act_Type a = OUTPUT) (po_Actions packet) with
  | Some (_, a) => let? o := deref (GetOutput a) in Ok (out_Port o)
  | None => Ok 0
  end.

Definition GetGotoTableId (flow : OfpFlowStats) : Z :=
  match list_find (λ i, inst_Type i = OFPIT_GOTO_TABLE) (fs_Instructions flow) with
  | Some (_, i) => default 0 (inst_GetGotoTable i)
  | None => 0
  end.

Definition HasNextTable (flow : OfpFlowStats) : bool := negb (GetGotoTableId flow =? 0).

Definition GetGroup (flow : OfpFlowStats) : Z :=
  match list_find (λ a, act_Type a = GROUP) (GetActions flow []) with
  | Some (_, a) => default 0 (GetGroupAction a)
  | None => 0
  end.

Definition HasGroup (flow : OfpFlowStats) : bool := negb (GetGroup flow =? 0).

(** The first METER instruction that really carries a meter. *)
Fixpoint first_meter (insts : list OfpInstruction) : Z :=
  match insts with
  | [] => 0
  | i :: insts =>
      if decide (inst_Type i = OFPIT_METER) then
        match inst_GetMeter i with Some m => m | None => first_meter insts end
      else first_meter insts
  end.

Definition GetMeterIdFromFlow (flow : OfpFlowStats) : Z := first_meter (fs_Instructions flow).

Fixpoint first_write_metadata (insts : list OfpInstruction) : Z :=
  match insts with
  | [] => 0
  | i :: insts =>
      if decide (inst_Type i = OFPIT_WRITE_METADATA) then
        match inst_GetWriteMetadata i with
        | Some w => wm_Metadata w
        | None => first_write_metadata insts
        end
      else first_write_metadata insts
  end.

Definition GetMetadataFromWriteMetadataAction (flow : OfpFlowStats) : Z :=
  first_write_metadata (fs_Instructions flow).

(** Write-metadata layout: 2 bytes C tag, 2 bytes technology profile, 4 bytes port. *)
Definition GetEgressPortNumberFromWriteMetadata (flow : OfpFlowStats) : Z :=
  let md := GetMetadataFromWriteMetadataAction flow in
  if decide (md = 0) then 0 else u32 (Z.land md 0xFFFFFFFF).

Definition GetInnerTagFromMetaData (flow : OfpFlowStats) : Z :=
  let md := GetMetadataFromWriteMetadataAction flow in
  if decide (md = 0) then 0 else u16 (Z.land (Z.shiftr md 48) 0xFFFF).

(** ** Flow identity and conversions *)

Definition MkPacketIn (port : Z) (packet : list Z) : OfpPacketIn :=
  mkPacketInMsg 0 OFPR_ACTION 0 0
    (Some (mkMatch OFPMT_OXM [mkOxm OFPXMC_OPENFLOW_BASIC (Some (F_OfbField (Some (InPort port))))])) packet.

Section Identity.
Context `{ProtoText}.

(** [fmt.Sprintf("%d%d%d%d%s%s", ...)] followed by the digest. *)
Definition flow_string (flow : OfpFlowStats) : string :=
  pretty (fs_TableId flow) +:+ pretty (fs_Priority flow) +:+ pretty (fs_Flags flow)
  +:+ pretty (fs_Cookie flow) +:+ match_string (fs_Match flow)
  +:+ String.concat "" (instruction_string <$> fs_Instructions flow).

Definition HashFlowStats (flow : OfpFlowStats) : Z := md5_uint64 (flow_string flow).

Definition FlowStatsEntryFromFlowModMessage (mod_ : OfpFlowMod) : OfpFlowStats :=
  let flow := {|
    fs_Id := 0; fs_TableId := fm_TableId mod_; fs_DurationSec := 0; fs_DurationNsec := 0;
    fs_Priority := fm_Priority mod_; fs_IdleTimeout := fm_IdleTimeout mod_;
    fs_HardTimeout := fm_HardTimeout mod_; fs_Flags := fm_Flags mod_;
    fs_Cookie := fm_Cookie mod_; fs_PacketCount := 0; fs_ByteCount := 0;
    fs_Match := fm_Match mod_; fs_Instructions := fm_Instructions mod_ |} in
  with_Id flow (HashFlowStats flow).

Definition GroupEntryFromGroupMod (mod_ : OfpGroupMod) : OfpGroupEntry := {|
  ge_Desc := Some (mkGroupDesc (gm_Type mod_) (gm_GroupId mod_) (gm_Buckets mod_));
  ge_Stats := Some (mkGroupStats (gm_GroupId mod_) 0 0 0 0 0 []) |}.

Definition MeterEntryFromMeterMod (meterMod : OfpMeterMod) : OfpMeterEntry := {|
  me_Config := mkMeterConfig (mm_Flags meterMod) (mm_MeterId meterMod) (mm_Bands meterMod);
  me_Stats := mkMeterStats (mm_MeterId meterMod) 0 0 0 0 0
                ((λ _, mkBandStats 0 0) <$> mm_Bands meterMod) |}.

(** ** Building a flow *)

(** [map[string]uint64]. *)
Definition OfpFlowModArgs := gmap string Z.

Record FlowArgs := mkFlowArgs {
  fa_MatchFields : list (option OfpOxmOfbField);
  fa_Actions : list OfpAction;
  fa_Command : option Z;
  fa_KV : OfpFlowModArgs }.

Definition arg (kw : OfpFlowModArgs) (k : string) (d : Z) : Z := default d (kw !! k).

Definition GetNextTableId (kw : OfpFlowModArgs) : option Z := u32 <$> kw !! "table_id".
Definition GetMeterIdFlowModArgs (kw : OfpFlowModArgs) : Z :=
  match kw !! "meter_id" with Some v => u32 v | None => 0 end.
Definition GetMetadataFlowModArgs (kw : OfpFlowModArgs) : Z :=
  match kw !! "write_metadata" with Some v => v | None => 0 end.

Definition setVariadicModAttributes (mod_ : OfpFlowMod) (args : OfpFlowModArgs) : OfpFlowMod := {|
  fm_Cookie := arg args "cookie" (fm_Cookie mod_);
  fm_CookieMask := arg args "cookie_mask" (fm_CookieMask mod_);
  fm_TableId := default (fm_TableId mod_) (u32 <$> args !! "table_id");
  fm_Command := fm_Command mod_;
  fm_IdleTimeout := default (fm_IdleTimeout mod_) (u32 <$> args !! "idle_timeout");
  fm_HardTimeout := default (fm_HardTimeout mod_) (u32 <$> args !! "hard_timeout");
  fm_Priority := default (fm_Priority mod_) (u32 <$> args !! "priority");
  fm_BufferId := default (fm_BufferId mod_) (u32 <$> args !! "buffer_id");
  fm_OutPort := default (fm_OutPort mod_) (u32 <$> args !! "out_port");
  fm_OutGroup := default (fm_OutGroup mod_) (u32 <$> args !! "out_group");
  fm_Flags := default (fm_Flags mod_) (u32 <$> args !! "flags");
  fm_Match := fm_Match mod_; fm_Instructions := fm_Instructions mod_ |}.

Definition MkSimpleFlowMod (matchFields : list OfpOxmField) (actions : list OfpAction)
    (command : option Z) (kw : OfpFlowModArgs) : OfpFlowMod :=
  let instructions :=
    [mkInst OFPIT_APPLY_ACTIONS (Some (I_Actions (Some actions)))]
    ++ (match GetNextTableId kw with
        | Some tableId => [mkInst OFPIT_GOTO_TABLE (Some (I_GotoTable (Some tableId)))]
        | None => [] end)
    ++ (if decide (GetMeterIdFlowModArgs kw = 0) then []
        else [mkInst OFPIT_METER (Some (I_Meter (Some (GetMeterIdFlowModArgs kw))))])
    ++ (if decide (GetMetadataFlowModArgs kw = 0) then []
        else [mkInst OFPIT_WRITE_METADATA
                (Some (I_WriteMetadata (Some (mkWriteMetadata (GetMetadataFlowModArgs kw) 0))))]) in
  let oxmFields := (λ f, mkOxm OFPXMC_OPENFLOW_BASIC (oxm_Field f)) <$> matchFields in
  let msg := {|
    fm_Cookie := 0; fm_CookieMask := 0; fm_TableId := 0; fm_Command := default OFPFC_ADD command;
    fm_IdleTimeout := 0; fm_HardTimeout := 0; fm_Priority := 0; fm_BufferId := 0;
    fm_OutPort := 0; fm_OutGroup := 0; fm_Flags := 0;
    fm_Match := Some (mkMatch OFPMT_OXM oxmFields); fm_Instructions := instructions |} in
  setVariadicModAttributes msg kw.

Definition MkFlowStat (fa : FlowArgs) : OfpFlowStats :=
  let matchFields := (λ val, mkOxm 0 (Some (F_OfbField val))) <$> fa_MatchFields fa in
  FlowStatsEntryFromFlowModMessage
    (MkSimpleFlowMod matchFields (fa_Actions fa) (fa_Command fa) (fa_KV fa)).

(** ** Flow matching *)

Definition FlowMatch (f1 f2 : OfpFlowStats) : bool :=
  (fs_TableId f1 =? fs_TableId f2) && (fs_Priority f1 =? fs_Priority f2)
  && (fs_Flags f1 =? fs_Flags f2) && (fs_Cookie f1 =? fs_Cookie f2)
  && bool_decide (match_string (fs_Match f1) = match_string (fs_Match f2)).

(** Index of [flow] in [flows]; [None] is [-1]. *)
Definition FindFlows (flows : list OfpFlowStats) (flow : OfpFlowStats) : option nat :=
  find_index (λ f, FlowMatch f flow) flows.

(** Not implemented in the source: always empty. *)
Definition FindOverlappingFlows (flows : list OfpFlowStats) (mod_ : OfpFlowMod)
  : list OfpFlowStats := [].

End Identity.

(** The APPLY_ACTIONS scan of [FlowHasOutPort] and [FlowHasOutGroup]: an
    instruction without action list stops the scan. *)
Fixpoint applied_action (p : OfpAction → bool) (insts : list OfpInstruction) : bool :=
  match insts with
  | [] => false
  | i :: insts =>
      if decide (inst_Type i = OFPIT_APPLY_ACTIONS) then
        match inst_GetActions i with
        | None => false
        | Some actions => if existsb p actions then true else applied_action p insts
        end
      else applied_action p insts
  end.

Definition FlowHasOutPort (flow : OfpFlowStats) (outPort : Z) : bool :=
  applied_action (λ a, (act_Type a =? OUTPUT) &&
    match GetOutput a with Some o => out_Port o =? outPort | None => false end)
    (fs_Instructions flow).

Definition FlowHasOutGroup (flow : OfpFlowStats) (groupID : Z) : bool :=
  applied_action (λ a, (act_Type a =? GROUP) &&
    match GetGroupAction a with Some g => g =? groupID | None => false end)
    (fs_Instructions flow).

Definition FlowMatchesMod (flow : OfpFlowStats) (mod_ : OfpFlowMod) : bool :=
  if negb (Z.land (fs_Cookie flow) (fm_CookieMask mod_)
           =? Z.land (fm_Cookie mod_) (fm_CookieMask mod_)) then false
  else if negb (fm_TableId mod_ =? OFPTT_ALL) && negb (fs_TableId flow =? fm_TableId mod_) then false
  else if negb (Z.land (fm_OutPort mod_) 0x7fffffff =? OFPP_ANY)
          && negb (FlowHasOutPort flow (fm_OutPort mod_)) then false
  else if negb (Z.land (fm_OutGroup mod_) 0x7fffffff =? OFPG_ANY)
          && negb (FlowHasOutGroup flow (fm_OutGroup mod_)) then false
  else match fm_Match mod_ with
       | None => true
       | Some m => bool_decide (mt_OxmFields m = [])
       end.

(** [group.Desc.GroupId] dereferences the description. *)
Fixpoint FindGroup (groups : list OfpGroupEntry) (groupId : Z) : outcome (option nat) :=
  match groups with
  | [] => Ok None
  | group :: groups =>
      let? d := deref (ge_Desc group) in
      if decide (gd_GroupId d = groupId) then Ok (Some O)
      else let? i := FindGroup groups groupId in Ok (S <$> i)
  end.

Definition FlowsDeleteByGroupId (flows : list OfpFlowStats) (groupId : Z)
    : bool * list OfpFlowStats :=
  let toKeep := List.filter (λ f, negb (FlowHasOutGroup f groupId)) flows in
  (bool_decide (length toKeep < length flows)%nat, toKeep).

(** ** Flow and group containers *)

Record FlowsAndGroups := mkFG {
  fg_Flows : OrderedMap.t OfpFlowStats; fg_Groups : OrderedMap.t OfpGroupEntry }.

Definition NewFlowsAndGroups : FlowsAndGroups := mkFG [] [].

Definition fg_AddFlow (fg : FlowsAndGroups) (flow : OfpFlowStats) : FlowsAndGroups :=
  match OrderedMap.Get (fg_Flows fg) (fs_Id flow) with
  | Some _ => fg
  | None => mkFG (OrderedMap.Set_ (fg_Flows fg) (fs_Id flow) flow) (fg_Groups fg)
  end.

Definition fg_AddGroup (fg : FlowsAndGroups) (group : OfpGroupEntry) : outcome FlowsAndGroups :=
  let? d := deref (ge_Desc group) in
  Ok (match OrderedMap.Get (fg_Groups fg) (gd_GroupId d) with
      | Some _ => fg
      | None => mkFG (fg_Flows fg) (OrderedMap.Set_ (fg_Groups fg) (gd_GroupId d) group)
      end).

Definition fg_ListFlows (fg : FlowsAndGroups) : list OfpFlowStats := (fg_Flows fg).*2.
Definition fg_ListGroups (fg : FlowsAndGroups) : list OfpGroupEntry := (fg_Groups fg).*2.

(** Adds what is absent; groups are keyed by their statistics message. *)
Fixpoint add_groups_from (fg : FlowsAndGroups) (groups : list OfpGroupEntry)
    : outcome FlowsAndGroups :=
  match groups with
  | [] => Ok fg
  | g :: groups =>
      let? st := deref (ge_Stats g) in
      add_groups_from
        (match OrderedMap.Get (fg_Groups fg) (gs_GroupId st) with
         | Some _ => fg
         | None => mkFG (fg_Flows fg) (OrderedMap.Set_ (fg_Groups fg) (gs_GroupId st) g)
         end) groups
  end.

Definition fg_AddFrom (fg from : FlowsAndGroups) : outcome FlowsAndGroups :=
  add_groups_from (foldl fg_AddFlow fg (fg_ListFlows from)) (fg_ListGroups from).

(** [DeviceRules.Rules]: the flows and groups per device id. *)
Definition DeviceRules := gmap string FlowsAndGroups.

Definition NewDeviceRules : DeviceRules := ∅.

Definition CreateEntryIfNotExist (dr : DeviceRules) (deviceId : string) : DeviceRules :=
  match dr !! deviceId with Some _ => dr | None => <[deviceId := NewFlowsAndGroups]> dr end.

(** Whatever the entry was, it is replaced by [fg]. *)
Definition AddFlowsAndGroup (dr : DeviceRules) (deviceId : string) (fg : FlowsAndGroups)
  : DeviceRules := <[deviceId := fg]> (CreateEntryIfNotExist dr deviceId).

Definition ClearFlows (dr : DeviceRules) (deviceId : string) : DeviceRules :=
  match dr !! deviceId with
  | Some fg => <[deviceId := mkFG [] (fg_Groups fg)]> dr
  | None => dr
  end.

Definition dr_AddFlow (dr : DeviceRules) (deviceId : string) (flow : OfpFlowStats) : DeviceRules :=
  let fg := default NewFlowsAndGroups (dr !! deviceId) in
  <[deviceId := fg_AddFlow fg flow]> dr.

Definition FilterRules (dr : DeviceRules) (deviceIds : gset string) : DeviceRules :=
  filter (λ kv, kv.1 ∈ deviceIds) dr.

(** ** Ordered maps: lookup after insertion, and the key discipline *)

Module OrderedMapFacts.
Section Facts.
Context {V : Type}.
Implicit Types (om : OrderedMap.t V).

Lemma Get_cons k v om k' :
  OrderedMap.Get ((k, v) :: om) k' = if decide (k = k') then Some v else OrderedMap.Get om k'.
Proof.
  unfold OrderedMap.Get; simpl. case_decide; [done|].
  by destruct (list_find _ om) as [[? [??]]|].
Qed.

Lemma Get_Set om k v k' :
  OrderedMap.Get (OrderedMap.Set_ om k v) k' =
  if decide (k = k') then Some v else OrderedMap.Get om k'.
Proof.
  induction om as [|[j w] om IH]; simpl; [by rewrite Get_cons|].
  destruct (decide (j = k)) as [Hj|Hj]; rewrite !Get_cons; [subst; repeat case_decide; congruence|].
  rewrite IH. repeat case_decide; congruence.
Qed.

Lemma Get_None_keys om k : OrderedMap.Get om k = None ↔ k ∉ om.*1.
Proof.
  induction om as [|[j w] om IH]; [set_solver|].
  rewrite Get_cons. case_decide; [set_solver|]. rewrite IH. set_solver.
Qed.

Lemma Get_Some_elem om k v : OrderedMap.Get om k = Some v → (k, v) ∈ om.
Proof.
  induction om as [|[j w] om IH]; [done|].
  rewrite Get_cons. case_decide; [intros [= <-]; subst; set_solver | set_solver].
Qed.

(** A fresh key goes to the end. *)
Lemma Set_fresh om k v : OrderedMap.Get om k = None → OrderedMap.Set_ om k v = om ++ [(k, v)].
Proof.
  induction om as [|[j w] om IH]; [done|]. rewrite Get_cons. case_decide; [done|].
  intros Hn. simpl. rewrite decide_False // IH //.
Qed.
End Facts.
End OrderedMapFacts.

(** Every flow is filed once, under its own id. *)
Definition fg_wf (fg : FlowsAndGroups) : Prop :=
  NoDup (fg_Flows fg).*1 ∧ Forall (λ kf, fs_Id kf.2 = kf.1) (fg_Flows fg).

Lemma fg_wf_new : fg_wf NewFlowsAndGroups.
Proof. split; constructor. Qed.

Lemma fg_AddFlow_wf fg flow : fg_wf fg → fg_wf (fg_AddFlow fg flow).
Proof.
  intros [Hnd Hall]. unfold fg_AddFlow.
  destruct (OrderedMap.Get _ _) eqn:Hg; [done|].
  split; simpl; rewrite OrderedMapFacts.Set_fresh //.
  - rewrite fmap_app. apply NoDup_app. split_and!; [done| |apply NoDup_singleton].
    apply OrderedMapFacts.Get_None_keys in Hg. set_solver.
  - apply Forall_app; by repeat constructor.
Qed.

Lemma fg_AddFlow_ids fg flow k :
  k ∈ (fg_Flows (fg_AddFlow fg flow)).*1 ↔ k ∈ (fg_Flows fg).*1 ∨ k = fs_Id flow.
Proof.
  unfold fg_AddFlow. destruct (OrderedMap.Get _ _) as [f|] eqn:Hg; simpl.
  - apply OrderedMapFacts.Get_Some_elem in Hg.
    split; [by left|]. intros [?| ->]; [done|]. apply list_elem_of_fmap. by eexists (_, f).
  - rewrite OrderedMapFacts.Set_fresh // fmap_app. set_solver.
Qed.

Lemma fg_AddFlow_flows fg flow f :
  f ∈ fg_ListFlows (fg_AddFlow fg flow) → f ∈ fg_ListFlows fg ∨ f = flow.
Proof.
  unfold fg_AddFlow, fg_ListFlows. destruct (OrderedMap.Get _ _) eqn:Hg; simpl; [by left|].
  rewrite OrderedMapFacts.Set_fresh // fmap_app. set_solver.
Qed.

#[export] Hint Resolve fg_wf_new fg_AddFlow_wf : flows.

(** ** Flow identity *)

Section IdentityFacts.
Context `{ProtoText}.

(** The five attributes two matching flows share. *)
Definition flow_key (f : OfpFlowStats) : Z * Z * Z * Z * string :=
  (fs_TableId f, fs_Priority f, fs_Flags f, fs_Cookie f, match_string (fs_Match f)).

Lemma FlowMatch_spec f g : FlowMatch f g = true ↔ flow_key f = flow_key g.
Proof.
  unfold FlowMatch, flow_key.
  rewrite !andb_true_iff !Z.eqb_eq bool_decide_eq_true.
  split; [intros; destruct_and?; congruence | by intros [=]].
Qed.

Lemma FlowMatch_false f g : FlowMatch f g = false ↔ flow_key f ≠ flow_key g.
Proof. rewrite -not_true_iff_false FlowMatch_spec. done. Qed.

Lemma FlowMatch_refl f : FlowMatch f f = true.
Proof. by apply FlowMatch_spec. Qed.

Lemma FindFlows_Some flows flow i :
  FindFlows flows flow = Some i →
  ∃ f, flows !! i = Some f ∧ flow_key f = flow_key flow.
Proof.
  intros (f & Hf & Hm & _)%find_index_Some. exists f. by rewrite -FlowMatch_spec.
Qed.

Lemma FindFlows_None flows flow :
  FindFlows flows flow = None ↔ flow_key flow ∉ flow_key <$> flows.
Proof.
  unfold FindFlows. rewrite find_index_None list_elem_of_fmap. split.
  - intros Hall (f & Heq & Hf). specialize (Hall f Hf).
    apply FlowMatch_false in Hall. congruence.
  - intros Hn f Hf. apply FlowMatch_false. intros Heq. apply Hn. by exists f.
Qed.

(** The identity ignores the counters, the timeouts and the id itself. *)
Lemma HashFlowStats_with_Id f id : HashFlowStats (with_Id f id) = HashFlowStats f.
Proof. done. Qed.

Lemma FlowStatsEntry_Id mod_ :
  fs_Id (FlowStatsEntryFromFlowModMessage mod_)
  = HashFlowStats (FlowStatsEntryFromFlowModMessage mod_).
Proof. done. Qed.

(** A flow of table [t] and priority [p]. *)
Definition table_flow (t p flags cookie : Z) (m : option OfpMatch) (is_ : list OfpInstruction)
  : OfpFlowStats :=
  mkFlowStats 0 t 0 0 p 0 0 flags cookie 0 0 m is_.

(** [HashFlowStats] concatenates the table id, priority, flags and cookie
    in decimal without separators, so the flow of table 1 with priority 10 and
    the flow of table 11 with priority 0 get the same id whatever the digest is,
    although [FlowMatch] tells them apart: the id is not unique per flow. *)
Theorem hash_flow_stats_collision flags cookie m is_ :
  HashFlowStats (table_flow 1 10 flags cookie m is_)
  = HashFlowStats (table_flow 11 0 flags cookie m is_)
  ∧ FlowMatch (table_flow 1 10 flags cookie m is_) (table_flow 11 0 flags cookie m is_) = false.
Proof. by split. Qed.

End IdentityFacts.

(** ** Builders and extractors *)

Section BuilderFacts.
Context `{ProtoText}.
Implicit Types (fa : FlowArgs).

Lemma MkFlowStat_fields fa : GetOfbFields (MkFlowStat fa) [] = Ok (fa_MatchFields fa).
Proof.
  unfold GetOfbFields; simpl. f_equal. unfold basic_fields; simpl.
  induction (fa_MatchFields fa) as [|f fs IH]; simpl; [done|]. by f_equal.
Qed.

Lemma MkFlowStat_actions fa : GetActions (MkFlowStat fa) [] = fa_Actions fa.
Proof. done. Qed.

Lemma MkFlowStat_meter fa : GetMeterIdFromFlow (MkFlowStat fa) = GetMeterIdFlowModArgs (fa_KV fa).
Proof.
  unfold GetMeterIdFromFlow; simpl. destruct (GetNextTableId _); simpl;
    destruct (decide (GetMeterIdFlowModArgs (fa_KV fa) = 0)) as [->|]; simpl; [|done| |done];
    by destruct (decide (GetMetadataFlowModArgs (fa_KV fa) = 0)).
Qed.

Lemma MkFlowStat_metadata fa :
  GetMetadataFromWriteMetadataAction (MkFlowStat fa) = GetMetadataFlowModArgs (fa_KV fa).
Proof.
  unfold GetMetadataFromWriteMetadataAction; simpl. destruct (GetNextTableId _); simpl;
    destruct (decide (GetMeterIdFlowModArgs (fa_KV fa) = 0)); simpl;
    by destruct (decide (GetMetadataFlowModArgs (fa_KV fa) = 0)) as [->|].
Qed.

Lemma MkFlowStat_Id fa : fs_Id (MkFlowStat fa) = HashFlowStats (MkFlowStat fa).
Proof. done. Qed.

Lemma GetInPort_MkFlowStat p fs acts cmd kv :
  GetInPort (MkFlowStat (mkFlowArgs (Some (InPort p) :: fs) acts cmd kv)) = Ok p.
Proof. unfold GetInPort. rewrite MkFlowStat_fields. done. Qed.

(** The layout of the write-metadata value set by the controller. *)
Definition write_metadata_word (ctag tpid port : Z) : Z := ctag * 2 ^ 48 + tpid * 2 ^ 32 + port.

Lemma write_metadata_word_fields ctag tpid port :
  0 ≤ ctag < 2 ^ 16 → 0 ≤ tpid < 2 ^ 16 → 0 ≤ port < 2 ^ 32 →
  write_metadata_word ctag tpid port / 2 ^ 48 = ctag
  ∧ write_metadata_word ctag tpid port mod 2 ^ 32 = port
  ∧ (write_metadata_word ctag tpid port = 0 → ctag = 0 ∧ port = 0).
Proof.
  unfold write_metadata_word. intros Hc Ht Hp. split_and!; [| |lia].
  - symmetry. apply Z.div_unique with (tpid * 2 ^ 32 + port); lia.
  - symmetry. apply Z.mod_unique with (ctag * 2 ^ 16 + tpid); lia.
Qed.

(** a flow built with the write-metadata word (C tag, technology profile,
    port) gives the C tag and the port back through [GetInnerTagFromMetaData]
    and [GetEgressPortNumberFromWriteMetadata]; no bit of one field leaks into
    another. *)
Theorem write_metadata_roundtrip fa ctag tpid port :
  0 ≤ ctag < 2 ^ 16 → 0 ≤ tpid < 2 ^ 16 → 0 ≤ port < 2 ^ 32 →
  fa_KV fa !! "write_metadata" = Some (write_metadata_word ctag tpid port) →
  GetInnerTagFromMetaData (MkFlowStat fa) = ctag
  ∧ GetEgressPortNumberFromWriteMetadata (MkFlowStat fa) = port.
Proof.
  intros Hc Ht Hp Hkv.
  unfold GetInnerTagFromMetaData, GetEgressPortNumberFromWriteMetadata.
  rewrite MkFlowStat_metadata. unfold GetMetadataFlowModArgs. rewrite Hkv.
  change 0xFFFF with (Z.ones 16). change 0xFFFFFFFF with (Z.ones 32).
  rewrite !Z.land_ones // !Z.shiftr_div_pow2 // /u16 /u32 !Zmod_mod.
  destruct (write_metadata_word_fields ctag tpid port) as (-> & -> & Hz); [done..|].
  rewrite Z.mod_small //. split; case_decide; [naive_solver | done | naive_solver | done].
Qed.

End BuilderFacts.

(** A concrete rendering, for evaluating the model. *)
Definition value_text (v : OfbValue) : string :=
  match v with
  | V_Port p => "port:" +:+ pretty p
  | V_EthType p => "eth_type:" +:+ pretty p
  | V_IpProto p => "ip_proto:" +:+ pretty p
  | V_VlanVid p => "vlan_vid:" +:+ pretty p
  | V_TunnelId p => "tunnel_id:" +:+ pretty p
  | V_TableMetadata p => "table_metadata:" +:+ pretty p
  | V_UdpDst p => "udp_dst:" +:+ pretty p
  | _ => "value"
  end.

Definition field_text (f : option OfpOxmOfbField) : string :=
  match f with
  | None => "<nil>"
  | Some f => "type:" +:+ pretty (ofb_Type f) +:+ " "
              +:+ match ofb_Value f with Some v => value_text v | None => "" end
  end.

Definition sample_text : ProtoText := {|
  match_string m :=
    match m with
    | None => "<nil>"
    | Some m => "type:" +:+ pretty (mt_Type m)
                +:+ String.concat "," ((λ f, field_text (GetOfbField f)) <$> mt_OxmFields m)
    end;
  ofb_field_string := field_text;
  instruction_string i := "type:" +:+ pretty (inst_Type i);
  md5_uint64 s := Z.pos (encode s) mod (2 ^ 61 - 1)
|}.

(** The round trip on C tag 5, technology profile 64, port 16. *)
Lemma write_metadata_roundtrip_witness :
  let fa := mkFlowArgs [] [] None {["write_metadata" := write_metadata_word 5 64 16]} in
  GetInnerTagFromMetaData (@MkFlowStat sample_text fa) = 5
  ∧ GetEgressPortNumberFromWriteMetadata (@MkFlowStat sample_text fa) = 16.
Proof.
  intros fa. apply (@write_metadata_roundtrip sample_text fa 5 64 16);
    [lia | lia | lia | reflexivity].
Defined.

(** Flows of one key, told apart by their packet counter. *)
Definition sample_table_flow (packets : Z) : OfpFlowStats :=
  mkFlowStats 0 0 0 0 1000 0 0 0 7 packets 0 None [].
