(* ===== verification/Routes.v ===== *)
(** * Device routes

    [rw_core/route/device_route.go]: the two-hop routes between the logical
    ports of a logical device.  The locks of [DeviceRoutes] serialise its
    methods, so each method is one state transformer. *)

From S2P Require Import Prelude OpenFlow VolthaTypes.

Record Hop := mkHop { hop_DeviceID : string; hop_Ingress : Z; hop_Egress : Z }.

Record PathID := mkPath { path_Ingress : Z; path_Egress : Z }.

#[export] Instance Hop_eq_dec : EqDecision Hop.
Proof. solve_decision. Defined.
#[export] Instance PathID_eq_dec : EqDecision PathID.
Proof. solve_decision. Defined.
#[export] Instance PathID_countable : Countable PathID.
Proof.
  by refine (inj_countable' (λ p, (path_Ingress p, path_Egress p)) (λ p, mkPath p.1 p.2) _);
    intros [].
Defined.

(** The mutable fields of [DeviceRoutes]. *)
Record DeviceRoutes := mkDR {
  dr_logicalPorts : list LogicalPort;
  dr_RootPorts : gmap Z Z;
  dr_Routes : gmap PathID (list Hop);
  dr_devicesPonPorts : gmap string (list Port) }.

Definition NewDeviceRoutes : DeviceRoutes := mkDR [] ∅ ∅ ∅.

(** Field assignments. *)
Definition set_logicalPorts v dr :=
  mkDR v (dr_RootPorts dr) (dr_Routes dr) (dr_devicesPonPorts dr).
Definition set_RootPorts v dr :=
  mkDR (dr_logicalPorts dr) v (dr_Routes dr) (dr_devicesPonPorts dr).
Definition set_Routes v dr :=
  mkDR (dr_logicalPorts dr) (dr_RootPorts dr) v (dr_devicesPonPorts dr).
Definition set_devicesPonPorts v dr :=
  mkDR (dr_logicalPorts dr) (dr_RootPorts dr) (dr_Routes dr) v.

Definition lp_PortNo (lp : LogicalPort) : Z := op_PortNo (lp_OfpPort lp).

Definition IsRootPort (dr : DeviceRoutes) (port : Z) : bool :=
  bool_decide (is_Some (dr_RootPorts dr !! port)).

(** [reset] empties every field. *)
Definition reset (dr : DeviceRoutes) : DeviceRoutes := NewDeviceRoutes.

(** [fmt.Sprintf("%s:%d", deviceID, portNo)]. *)
Definition concatDeviceIDPortID (deviceID : string) (portNo : Z) : string :=
  deviceID +:+ ":" +:+ pretty portNo.

Definition reverse_hop (h : Hop) : Hop := mkHop (hop_DeviceID h) (hop_Egress h) (hop_Ingress h).

Definition getReverseRoute (route : list Hop) : list Hop := reverse_hop <$> reverse route.

Definition is_pon (port : Port) : bool :=
  bool_decide (port_Type port = PON_ONU ∨ port_Type port = PON_OLT).

(** All the PON ports of a device, once per peer whose device is [peerDeviceID]. *)
Definition getDevicePonPorts (dr : DeviceRoutes) (deviceID peerDeviceID : string) : list Port :=
  match dr_devicesPonPorts dr !! deviceID with
  | None => []
  | Some ports =>
      port ← ports;
      (λ _, port) <$> List.filter (λ peer, bool_decide (peer_DeviceId peer = peerDeviceID))
                        (port_Peers port)
  end.

Definition add_route (nni uni : Z) (down : list Hop) (dr : DeviceRoutes) : DeviceRoutes :=
  set_Routes (<[mkPath uni nni := getReverseRoute down]> (<[mkPath nni uni := down]> (dr_Routes dr))) dr.

Definition IsUpToDate (dr : DeviceRoutes) (ld : option LogicalDevice) : bool :=
  match ld with
  | None => bool_decide (size (dr_Routes dr) = 0%nat)
  | Some ld =>
      if decide (length (dr_logicalPorts dr) = length (ld_Ports ld)) then
        let numNNI := Z.of_nat (size (dr_RootPorts dr)) in
        let numUNI := Z.of_nat (length (ld_Ports ld)) - numNNI in
        Z.of_nat (size (dr_Routes dr)) =? numNNI * numUNI * 2
      else false
  end.

Section Routes.
Context `{GoRange}.
(** [GetDeviceFunc]: how the devices are read from the model. *)
Variable getDeviceFromModel : string → outcome Device.

(** Reads a device and appends its PON ports to the cache. *)
Definition getDevice (deviceID : string) : M DeviceRoutes Device :=
  let* device := lift (getDeviceFromModel deviceID) in
  let* _ := for_each (λ port,
    if is_pon port then modify (λ dr, set_devicesPonPorts
      (<[dev_Id device := default [] (dr_devicesPonPorts dr !! dev_Id device) ++ [port]]>
         (dr_devicesPonPorts dr)) dr)
    else ret tt) (dev_Ports device) in
  ret device.

(** One iteration of the loop over [dr.Routes]. *)
Definition copy_one (newNNIPort copyFromNNIPort : LogicalPort)
    (updated : gmap PathID (list Hop)) (kv : PathID * list Hop) : outcome (gmap PathID (list Hop)) :=
  let (key, val) := kv in
  let? updated1 :=
    if decide (path_Ingress key = lp_PortNo copyFromNNIPort) then
      let? v0 := index val 0 in
      let? v1 := index val 1 in
      Ok (<[mkPath (lp_PortNo newNNIPort) (path_Egress key) :=
              [mkHop (lp_DeviceId newNNIPort) (lp_DevicePortNo newNNIPort) (hop_Egress v0); v1]]> updated)
    else Ok updated in
  let? updated2 :=
    if decide (path_Egress key = lp_PortNo copyFromNNIPort) then
      let? v0 := index val 0 in
      let? v1 := index val 1 in
      Ok (<[mkPath (path_Ingress key) (lp_PortNo newNNIPort) :=
              [v0; mkHop (lp_DeviceId newNNIPort) (hop_Ingress v1) (lp_DevicePortNo newNNIPort)]]> updated1)
    else Ok updated1 in
  Ok (<[key := val]> updated2).

Fixpoint copy_all (newNNIPort copyFromNNIPort : LogicalPort)
    (updated : gmap PathID (list Hop)) (kvs : list (PathID * list Hop))
    : outcome (gmap PathID (list Hop)) :=
  match kvs with
  | [] => Ok updated
  | kv :: kvs =>
      let? updated' := copy_one newNNIPort copyFromNNIPort updated kv in
      copy_all newNNIPort copyFromNNIPort updated' kvs
  end.

Definition copyFromExistingNNIRoutes (newNNIPort copyFromNNIPort : LogicalPort)
    : M DeviceRoutes unit :=
  let* dr := get in
  let* updatedRoutes := lift (copy_all newNNIPort copyFromNNIPort ∅ (go_range (dr_Routes dr))) in
  modify (set_Routes updatedRoutes).

(** ** ComputeRoutes *)

(** [physPortToLogicalPortMap]. *)
Definition phys_map (lps : list LogicalPort) : gmap string Z :=
  foldl (λ m lp, <[concatDeviceIDPortID (lp_DeviceId lp) (lp_DevicePortNo lp) := lp_PortNo lp]> m) ∅ lps.

Definition nni_ports (lps : list LogicalPort) : list LogicalPort := List.filter lp_RootPort lps.

(** The loop over the ports of one child device. *)
Definition process_child_port (phys : gmap string Z) (nniPort : LogicalPort)
    (rootDevice : Device) (rootDevicePort : Port) (childDevice : Device) (childPonPort : Z)
    (childDevicePort : Port) : M DeviceRoutes unit :=
  if decide (port_Type childDevicePort = ETHERNET_UNI) then
    match phys !! concatDeviceIDPortID (dev_Id childDevice) (port_PortNo childDevicePort) with
    | None => ret tt
    | Some childLogicalPort =>
        modify (add_route (lp_PortNo nniPort) childLogicalPort
          [mkHop (dev_Id rootDevice) (lp_DevicePortNo nniPort) (port_PortNo rootDevicePort);
           mkHop (dev_Id childDevice) childPonPort (port_PortNo childDevicePort)])
    end
  else ret tt.

Definition process_peer (phys : gmap string Z) (nniPort : LogicalPort)
    (rootDevice : Device) (rootDevicePort : Port) (rootDevicePeer : PeerPort)
    : M DeviceRoutes unit :=
  let* childDevice := getDevice (peer_DeviceId rootDevicePeer) in
  let* childPonPorts := gets (λ dr, getDevicePonPorts dr (dev_Id childDevice) (lp_DeviceId nniPort)) in
  match childPonPorts with
  | [] => fail (Status Aborted ("no-child-pon-port-" +:+ dev_Id childDevice))
  | childPonPort :: _ =>
      for_each (process_child_port phys nniPort rootDevice rootDevicePort childDevice
                  (port_PortNo childPonPort)) (dev_Ports childDevice)
  end.

Definition process_nni (phys : gmap string Z) (nniPort : LogicalPort) : M DeviceRoutes unit :=
  let* rootDevice := getDevice (lp_DeviceId nniPort) in
  if decide (dev_Ports rootDevice = []) then
    fail (Status FailedPrecondition ("no-port-" +:+ dev_Id rootDevice))
  else
    for_each (λ rootDevicePort,
      if decide (port_Type rootDevicePort = PON_OLT) then
        for_each (process_peer phys nniPort rootDevice rootDevicePort) (port_Peers rootDevicePort)
      else ret tt) (dev_Ports rootDevice).

(** Iterations [idx > 0] of the loop over the NNI ports: as soon as there are
    routes, they are copied to the port at hand and the function returns. *)
Fixpoint more_nnis (phys : gmap string Z) (copyFromNNIPort : LogicalPort)
    (nniPorts : list LogicalPort) : M DeviceRoutes unit :=
  match nniPorts with
  | [] => ret tt
  | nniPort :: nniPorts =>
      let* dr := get in
      if decide (0 < size (dr_Routes dr))%nat then
        copyFromExistingNNIRoutes nniPort copyFromNNIPort
      else
        let* _ := process_nni phys nniPort in
        more_nnis phys copyFromNNIPort nniPorts
  end.

Definition compute_body (lps : list LogicalPort) : M DeviceRoutes unit :=
  let* _ := modify (λ dr, set_logicalPorts (dr_logicalPorts dr ++ lps) dr) in
  let* _ := modify (λ dr, set_RootPorts
    (foldl (λ m lp, <[lp_PortNo lp := lp_PortNo lp]> m) (dr_RootPorts dr) (nni_ports lps)) dr) in
  match nni_ports lps with
  | [] => fail (Status FailedPrecondition "no nni port")
  | nniPort :: nniPorts =>
      let* _ := process_nni (phys_map lps) nniPort in
      more_nnis (phys_map lps) nniPort nniPorts
  end.

(** The deferred function resets when the variable [err] is set; the first
    return leaves it nil. *)
Definition ComputeRoutes (lps : list LogicalPort) : M DeviceRoutes unit := λ dr,
  if decide (length lps < 2)%nat then
    (Err (Status FailedPrecondition "not-enough-logical-ports"), dr)
  else
    match compute_body lps (reset dr) with
    | (Err e, dr') => (Err e, reset dr')
    | r => r
    end.

(** ** AddPort *)

Definition addPortAndVerifyPrecondition (lp : LogicalPort) : M DeviceRoutes unit :=
  let* dr := get in
  let nni := existsb lp_RootPort (dr_logicalPorts dr) in
  let uni := existsb (λ p, negb (lp_RootPort p)) (dr_logicalPorts dr) in
  let exist := existsb (λ p, lp_PortNo p =? lp_PortNo lp) (dr_logicalPorts dr) in
  let* _ := if exist then ret tt
            else modify (λ dr, set_logicalPorts (dr_logicalPorts dr ++ [lp]) dr) in
  let nni := nni || (negb exist && lp_RootPort lp) in
  let uni := uni || (negb exist && negb (lp_RootPort lp)) in
  if nni && uni then ret tt
  else fail (Status FailedPrecondition "no-uni-and-nni-ports-combination").

(** A usable cached PON port: the first one, if it has a peer. *)
Definition first_pon_with_peer (ports : list Port) : option (Port * PeerPort) :=
  match ports with
  | port :: _ => match port_Peers port with peer :: _ => Some (port, peer) | [] => None end
  | [] => None
  end.

Definition add_uni_via (lp nniPort : LogicalPort) : M DeviceRoutes unit :=
  let* cached := gets (λ dr, first_pon_with_peer (getDevicePonPorts dr (lp_DeviceId lp) (lp_DeviceId nniPort))) in
  let* found :=
    match cached with
    | Some pp => ret pp
    | None =>
        let* got := attempt (getDevice (lp_DeviceId lp)) in
        match got with
        | inr e => let* _ := modify reset in fail e
        | inl _ =>
            let* again := gets (λ dr, first_pon_with_peer
              (getDevicePonPorts dr (lp_DeviceId lp) (lp_DeviceId nniPort))) in
            match again with
            | Some pp => ret pp
            | None =>
                let* _ := modify reset in
                fail (Status FailedPrecondition ("no-pon-ports-" +:+ lp_DeviceId lp))
            end
        end
    end in
  let (childPonPort, peer) := (found : Port * PeerPort) in
  modify (add_route (lp_PortNo nniPort) (lp_PortNo lp)
    [mkHop (lp_DeviceId nniPort) (lp_DevicePortNo nniPort) (peer_PortNo peer);
     mkHop (lp_DeviceId lp) (port_PortNo childPonPort) (lp_DevicePortNo lp)]).

Definition AddPort (lp : LogicalPort) (lps : list LogicalPort) : M DeviceRoutes unit :=
  let* dr := get in
  if decide (size (dr_Routes dr) = 0%nat) then ComputeRoutes lps
  else
    let* pre := attempt (addPortAndVerifyPrecondition lp) in
    match pre with
    | inr e => let* _ := modify reset in fail e
    | inl _ =>
        let* _ := if lp_RootPort lp
                  then modify (λ dr, set_RootPorts (<[lp_PortNo lp := lp_PortNo lp]> (dr_RootPorts dr)) dr)
                  else ret tt in
        let* nniPorts := gets (λ dr, nni_ports (dr_logicalPorts dr)) in
        match list_find (λ lport, lp_PortNo lport ≠ lp_PortNo lp) nniPorts with
        | None => ret tt
        | Some (_, copyFromNNIPort) =>
            if lp_RootPort lp then copyFromExistingNNIRoutes lp copyFromNNIPort
            else for_each (add_uni_via lp) nniPorts
        end
    end.

End Routes.

(** ** Port keys and reversal *)

Lemma concatDeviceIDPortID_inj d1 p1 d2 p2 :
  concatDeviceIDPortID d1 p1 = concatDeviceIDPortID d2 p2 → d1 = d2 ∧ p1 = p2.
Proof.
  unfold concatDeviceIDPortID. intros Heq.
  destruct (string_split_inj is_dec_char ":" d1 d2 (pretty p1) (pretty p2))
    as [Hd Hp]; [done | apply pretty_Z_chars | apply pretty_Z_chars | done |].
  split; [done | by apply (inj pretty)].
Qed.

Lemma getReverseRoute_involutive r : getReverseRoute (getReverseRoute r) = r.
Proof.
  unfold getReverseRoute. rewrite -fmap_reverse reverse_involutive -list_fmap_compose.
  rewrite -{2}(list_fmap_id r). apply list_fmap_ext. by intros ? [] _.
Qed.

Lemma getReverseRoute_length r : length (getReverseRoute r) = length r.
Proof. unfold getReverseRoute. by rewrite length_fmap length_reverse. Qed.

Lemma phys_map_lookup lps d p n :
  NoDup ((λ lp, (lp_DeviceId lp, lp_DevicePortNo lp)) <$> lps) →
  phys_map lps !! concatDeviceIDPortID d p = Some n ↔
  ∃ lp, lp ∈ lps ∧ lp_DeviceId lp = d ∧ lp_DevicePortNo lp = p ∧ lp_PortNo lp = n.
Proof.
  unfold phys_map. induction lps as [|lp lps IH] using rev_ind; intros Hnd; simpl.
  { rewrite lookup_empty. set_solver. }
  rewrite fmap_app in Hnd. apply NoDup_app in Hnd as (Hnd & Hnew & _).
  rewrite foldl_snoc. destruct (decide ((d, p) = (lp_DeviceId lp, lp_DevicePortNo lp))) as [[= -> ->]|Hne].
  - rewrite lookup_insert_eq. split.
    + intros [= <-]. exists lp. set_solver.
    + intros (lp' & Hin & Hd & Hp & <-). apply elem_of_app in Hin as [Hin|Hin]; [|set_solver].
      destruct (Hnew (lp_DeviceId lp, lp_DevicePortNo lp)); [|set_solver].
      apply list_elem_of_fmap. exists lp'. by rewrite Hd Hp.
  - rewrite lookup_insert_ne; last (intros [? ?]%concatDeviceIDPortID_inj; congruence).
    rewrite IH //. split.
    + intros (lp' & ? & ?). exists lp'. set_solver.
    + intros (lp' & Hin & <- & <- & <-). exists lp'. split; [|done].
      apply elem_of_app in Hin as [Hin|Hin%list_elem_of_singleton]; [done | by subst].
Qed.

(** ** Copying the routes of an NNI port *)

Definition copy_down (new : LogicalPort) (val : list Hop) : list Hop :=
  match val with
  | v0 :: v1 :: _ => [mkHop (lp_DeviceId new) (lp_DevicePortNo new) (hop_Egress v0); v1]
  | _ => []
  end.
Definition copy_up (new : LogicalPort) (val : list Hop) : list Hop :=
  match val with
  | v0 :: v1 :: _ => [v0; mkHop (lp_DeviceId new) (hop_Ingress v1) (lp_DevicePortNo new)]
  | _ => []
  end.

(** What the copy contains, independently of the iteration order. *)
Definition copied (new from : LogicalPort) (R : gmap PathID (list Hop)) (p : PathID)
    : option (list Hop) :=
  if decide (path_Ingress p = lp_PortNo new) then
    copy_down new <$> R !! mkPath (lp_PortNo from) (path_Egress p)
  else if decide (path_Egress p = lp_PortNo new) then
    copy_up new <$> R !! mkPath (path_Ingress p) (lp_PortNo from)
  else R !! p.

Definition two_hops (R : gmap PathID (list Hop)) : Prop :=
  ∀ p r, R !! p = Some r → length r = 2%nat.
Definition unused (n : Z) (R : gmap PathID (list Hop)) : Prop :=
  ∀ p r, R !! p = Some r → path_Ingress p ≠ n ∧ path_Egress p ≠ n.

Lemma copy_one_lookup new from u key val :
  length val = 2%nat → path_Ingress key ≠ lp_PortNo new → path_Egress key ≠ lp_PortNo new →
  ∃ u', copy_one new from u (key, val) = Ok u' ∧
    ∀ p, u' !! p = match copied new from {[key := val]} p with Some v => Some v | None => u !! p end.
Proof.
  intros Hlen Hi He. destruct val as [|v0 [|v1 [|]]]; try done.
  destruct key as [i e]; simpl in *. unfold copy_one, copied; simpl.
  assert (∀ (P : Prop) `{Decision P} (a b : gmap PathID (list Hop)),
    (if decide P then Ok a else Ok b) = Ok (if decide P then a else b)) as Hif
    by (intros; by case_decide).
  rewrite Hif; simpl. rewrite Hif; simpl. eexists. split; [done|].
  intros [pi pe]; simpl.
  destruct (decide (mkPath pi pe = mkPath i e)) as [[= -> ->]|Hne].
  - rewrite lookup_insert_eq decide_False // decide_False // lookup_singleton_eq. done.
  - rewrite lookup_insert_ne; last congruence.
    rewrite !lookup_singleton.
    destruct (decide (pi = lp_PortNo new)), (decide (pe = lp_PortNo new)),
      (decide (i = lp_PortNo from)), (decide (e = lp_PortNo from)); subst;
    rewrite ?lookup_insert;
    repeat (case_decide; simplify_eq/=; try done).
Qed.
#[local] Arguments copy_one : simpl never.

Lemma copied_insert new from R key val p :
  R !! key = None → path_Ingress key ≠ lp_PortNo new → path_Egress key ≠ lp_PortNo new →
  unused (lp_PortNo new) R →
  copied new from (<[key := val]> R) p =
    match copied new from R p with Some v => Some v | None => copied new from {[key := val]} p end.
Proof.
  intros HR Hi He Hun. destruct key as [i e], p as [pi pe]; simpl in *.
  unfold copied; simpl. rewrite !lookup_insert !lookup_empty.
  repeat case_decide; simplify_eq/=; rewrite ?HR; try done; by case: (R !! _).
Qed.

Lemma copy_all_lookup new from u kvs :
  NoDup kvs.*1 →
  two_hops (list_to_map kvs) → unused (lp_PortNo new) (list_to_map kvs) →
  ∃ u', copy_all new from u kvs = Ok u' ∧
    ∀ p, u' !! p = match copied new from (list_to_map kvs) p with Some v => Some v | None => u !! p end.
Proof.
  revert u. induction kvs as [|[key val] kvs IH]; intros u Hnd H2 Hun; simpl.
  { exists u. split; [done|]. intros p. unfold copied. rewrite !lookup_empty.
    by repeat case_decide. }
  simpl in Hnd. apply NoDup_cons in Hnd as [Hfresh Hnd].
  assert (list_to_map (M := gmap PathID (list Hop)) kvs !! key = None) as Hnone
    by by apply not_elem_of_list_to_map_1.
  destruct (Hun key val) as [Hi He]; [by rewrite /= lookup_insert_eq|].
  destruct (copy_one_lookup new from u key val) as (u1 & -> & Hu1);
    [by apply (H2 key); rewrite /= lookup_insert_eq | done | done |].
  assert (two_hops (list_to_map kvs)) as H2'.
  { intros p r Hp. apply (H2 p). rewrite /= lookup_insert_ne //. congruence. }
  assert (unused (lp_PortNo new) (list_to_map kvs)) as Hun'.
  { intros p r Hp. apply (Hun p r). rewrite /= lookup_insert_ne //. congruence. }
  destruct (IH u1 Hnd H2' Hun') as (u' & Hall & Hu'). exists u'. split; [done|].
  intros p. rewrite Hu' Hu1 copied_insert //. by destruct (copied _ _ (list_to_map kvs) p).
Qed.

(** The copy does not panic and does not depend on the iteration order. *)
Lemma copyFromExistingNNIRoutes_spec `{GoRange} new from dr :
  two_hops (dr_Routes dr) → unused (lp_PortNo new) (dr_Routes dr) →
  ∃ R, copyFromExistingNNIRoutes new from dr = (Ok tt, set_Routes R dr) ∧
    ∀ p, R !! p = copied new from (dr_Routes dr) p.
Proof.
  intros H2 Hun.
  assert (list_to_map (go_range (dr_Routes dr)) = dr_Routes dr) as Hmap.
  { rewrite -{2}(list_to_map_to_list (dr_Routes dr)). symmetry.
    apply list_to_map_proper; [apply NoDup_fst_map_to_list | by rewrite go_range_perm]. }
  destruct (copy_all_lookup new from ∅ (go_range (dr_Routes dr))) as (R & HR & Hlk).
  - rewrite go_range_perm. apply NoDup_fst_map_to_list.
  - by rewrite Hmap.
  - by rewrite Hmap.
  - exists R. unfold copyFromExistingNNIRoutes, sbind, get, lift, modify. rewrite HR.
    split; [done|]. intros p. rewrite Hlk Hmap lookup_empty. by destruct (copied _ _ _ _).
Qed.

(** ** Symmetric route tables *)

(** [R] holds the downstream route [down] from [nni] to [uni] and its reverse. *)
Definition route_pair (R : gmap PathID (list Hop)) (nni uni : Z) (down : list Hop) : Prop :=
  R !! mkPath nni uni = Some down ∧ R !! mkPath uni nni = Some (getReverseRoute down).

(** Every route belongs to such a pair, and [P] holds of the pair. *)
Definition paired (P : Z → Z → list Hop → Prop) (R : gmap PathID (list Hop)) : Prop :=
  ∀ p r, R !! p = Some r → ∃ nni uni down,
    P nni uni down ∧ route_pair R nni uni down ∧ (p = mkPath nni uni ∨ p = mkPath uni nni).

(** NNI and UNI numbers do not mix. *)
Definition separated (P : Z → Z → list Hop → Prop) : Prop :=
  ∀ n u d n' u' d', P n u d → P n' u' d' → n ≠ u'.

Lemma paired_mono (P Q : Z → Z → list Hop → Prop) R :
  (∀ n u d, P n u d → Q n u d) → paired P R → paired Q R.
Proof. intros HPQ HR p r Hp. destruct (HR p r Hp) as (n & u & d & ? & ?). eauto 10. Qed.

Lemma paired_empty P : paired P ∅.
Proof. intros p r Hp. by rewrite lookup_empty in Hp. Qed.

Lemma add_route_pair nni uni down dr :
  nni ≠ uni → route_pair (dr_Routes (add_route nni uni down dr)) nni uni down.
Proof.
  intros Hne. unfold add_route, route_pair; simpl.
  rewrite lookup_insert_eq lookup_insert_ne ?lookup_insert_eq //. congruence.
Qed.

Lemma add_route_other nni uni down dr p :
  p ≠ mkPath nni uni → p ≠ mkPath uni nni →
  dr_Routes (add_route nni uni down dr) !! p = dr_Routes dr !! p.
Proof. intros H1 H2. unfold add_route; simpl. by rewrite !lookup_insert_ne. Qed.

Lemma add_route_paired P nni uni down dr :
  separated P → P nni uni down →
  paired P (dr_Routes dr) → paired P (dr_Routes (add_route nni uni down dr)).
Proof.
  intros Hsep HP HR p r Hp.
  destruct (decide (p = mkPath nni uni ∨ p = mkPath uni nni)) as [Hkey|Hkey].
  { exists nni, uni, down. split_and!; [done| |done]. apply add_route_pair. by eapply Hsep. }
  rewrite add_route_other in Hp; [|naive_solver..].
  destruct (HR p r Hp) as (n & u & d & HPn & [Hnu Hun] & Hcase).
  exists n, u, d. split_and!; [done| |done].
  pose proof (Hsep _ _ _ _ _ _ HPn HP). pose proof (Hsep _ _ _ _ _ _ HP HPn).
  split; (rewrite add_route_other; [done| |]; intros [= -> ->]; naive_solver).
Qed.

(** Copying the routes of [from] to an unused number adds, for every pair of
    [from], a pair of [new]. *)
Lemma copied_paired (P Q : Z → Z → list Hop → Prop) new from R R' :
  (∀ p, R' !! p = copied new from R p) → unused (lp_PortNo new) R →
  (∀ n u d, P n u d → length d = 2%nat ∧ u ≠ lp_PortNo from) →
  (∀ n u d, P n u d → Q n u d) →
  (∀ u d, P (lp_PortNo from) u d → Q (lp_PortNo new) u (copy_down new d)) →
  paired P R → paired Q R'.
Proof.
  intros HR' Hun HP HPQ HPcopy HR.
  assert (∀ n u d, route_pair R n u d → n ≠ lp_PortNo new ∧ u ≠ lp_PortNo new) as Hne
    by (intros n u d [Hnu _]; by apply Hun in Hnu).
  assert (∀ n u d, route_pair R n u d → route_pair R' n u d) as Hkeep.
  { intros n u d Hpair. destruct (Hne n u d Hpair), Hpair as [Hnu Hup].
    split; rewrite HR' /copied /=; by do 2 (rewrite decide_False //). }
  assert (∀ u d, P (lp_PortNo from) u d → route_pair R (lp_PortNo from) u d →
    route_pair R' (lp_PortNo new) u (copy_down new d)) as Hcopy.
  { intros u d Hof Hpair. destruct (Hne _ _ _ Hpair) as [_ Hu], Hpair as [Hnu Hup].
    destruct (HP _ _ _ Hof) as [Hlen _]. destruct d as [|v0 [|v1 [|]]]; try done.
    split; rewrite HR' /copied /=.
    - by rewrite decide_True // Hnu.
    - by rewrite decide_False // decide_True // Hup. }
  assert (∀ u r, R !! mkPath (lp_PortNo from) u = Some r ∨ R !! mkPath u (lp_PortNo from) = Some r →
    ∃ d, P (lp_PortNo from) u d ∧ route_pair R (lp_PortNo from) u d) as Hfrom.
  { intros u r [Hr|Hr]; destruct (HR _ _ Hr) as (n' & u' & d' & Hof & Hpair & [[= ? ?]|[= ? ?]]);
      subst; destruct (HP _ _ _ Hof) as [_ Hsep]; by eauto. }
  intros [pi pe] r Hp. rewrite HR' /copied /= in Hp.
  destruct (decide (pi = lp_PortNo new)) as [->|Hpi].
  { apply fmap_Some in Hp as (r0 & Hr0 & _). destruct (Hfrom pe r0) as (d & Hof & Hpair); [by left|].
    exists (lp_PortNo new), pe, (copy_down new d). auto. }
  destruct (decide (pe = lp_PortNo new)) as [->|Hpe].
  { apply fmap_Some in Hp as (r0 & Hr0 & _). destruct (Hfrom pi r0) as (d & Hof & Hpair); [by right|].
    exists (lp_PortNo new), pi, (copy_down new d). auto. }
  destruct (HR _ r Hp) as (n & u & d & Hof & Hpair & Hp'). exists n, u, d. auto.
Qed.

Lemma NoDup_PortNo_inj (ports : list LogicalPort) a b :
  NoDup (lp_PortNo <$> ports) → a ∈ ports → b ∈ ports → lp_PortNo a = lp_PortNo b → a = b.
Proof.
  intros Hnd Ha Hb Heq. apply list_elem_of_lookup in Ha as [i Hi], Hb as [j Hj].
  assert (i = j) as ->; [|congruence].
  eapply NoDup_lookup; [exact Hnd | |]; rewrite list_lookup_fmap.
  - rewrite Hi. done.
  - rewrite Hj /=. by rewrite Heq.
Qed.

(** ** ComputeRoutes is sound and complete *)

Section ComputeCorrect.
Context `{GoRange}.
Variable getDeviceFromModel : string → outcome Device.
Variable lps : list LogicalPort.

(** [down] is a physical path from [nni] to [uni]: out of the root device by a
    PON port whose peer is the child device, into the child device by a PON
    port whose peer is the root device. *)
Definition path_between (nni uni : LogicalPort) (down : list Hop) : Prop :=
  ∃ root rp rpeer child cp cpeer,
    getDeviceFromModel (lp_DeviceId nni) = Ok root ∧
    rp ∈ dev_Ports root ∧ port_Type rp = PON_OLT ∧
    rpeer ∈ port_Peers rp ∧ peer_DeviceId rpeer = lp_DeviceId uni ∧
    getDeviceFromModel (lp_DeviceId uni) = Ok child ∧
    cp ∈ dev_Ports child ∧ is_pon cp = true ∧
    cpeer ∈ port_Peers cp ∧ peer_DeviceId cpeer = lp_DeviceId nni ∧
    down = [mkHop (lp_DeviceId nni) (lp_DevicePortNo nni) (port_PortNo rp);
            mkHop (lp_DeviceId uni) (port_PortNo cp) (lp_DevicePortNo uni)].

(** [uni] is a UNI port of a child device behind the root device of [nni]. *)
Definition attached (nni uni : LogicalPort) : Prop :=
  ∃ root rp rpeer child cport,
    getDeviceFromModel (lp_DeviceId nni) = Ok root ∧
    rp ∈ dev_Ports root ∧ port_Type rp = PON_OLT ∧
    rpeer ∈ port_Peers rp ∧ peer_DeviceId rpeer = lp_DeviceId uni ∧
    getDeviceFromModel (lp_DeviceId uni) = Ok child ∧
    cport ∈ dev_Ports child ∧ port_Type cport = ETHERNET_UNI ∧
    port_PortNo cport = lp_DevicePortNo uni.

(** The route of NNI number [n] and UNI number [u], for the NNI ports [N]. *)
Definition route_of (N : list LogicalPort) (n u : Z) (down : list Hop) : Prop :=
  ∃ nni uni, nni ∈ N ∧ uni ∈ lps ∧ lp_RootPort uni = false ∧
    lp_PortNo nni = n ∧ lp_PortNo uni = u ∧ path_between nni uni down.

(** The model returns the device asked for. *)
Definition model_wf : Prop :=
  (∀ id d, getDeviceFromModel id = Ok d → dev_Id d = id) ∧
  (∀ id, getDeviceFromModel id ≠ Panic).

(** The ports of one logical device: numbers and physical ports are unique, the
    NNI ports sit on one root device and are not UNI ports of a device. *)
Definition ports_wf : Prop :=
  NoDup (lp_PortNo <$> lps) ∧
  NoDup ((λ lp, (lp_DeviceId lp, lp_DevicePortNo lp)) <$> lps) ∧
  (∀ a b, a ∈ nni_ports lps → b ∈ nni_ports lps → lp_DeviceId a = lp_DeviceId b) ∧
  (∀ nni d p, nni ∈ nni_ports lps → getDeviceFromModel (lp_DeviceId nni) = Ok d →
     p ∈ dev_Ports d → port_Type p = ETHERNET_UNI → port_PortNo p ≠ lp_DevicePortNo nni).

Hypothesis Hmodel : model_wf.
Hypothesis Hports : ports_wf.

Lemma nni_ports_elem nni : nni ∈ nni_ports lps ↔ nni ∈ lps ∧ lp_RootPort nni = true.
Proof.
  unfold nni_ports. rewrite !list_elem_of_In filter_In. done.
Qed.

Lemma lps_PortNo_inj a b : a ∈ lps → b ∈ lps → lp_PortNo a = lp_PortNo b → a = b.
Proof. apply NoDup_PortNo_inj, Hports. Qed.

Lemma route_of_separated N : N ⊆ nni_ports lps → separated (route_of N).
Proof.
  intros HN n u d n' u' d' (nni & _ & Hnni & _ & _ & <- & _) (_ & uni & _ & Huni & Hr & _ & <- & _) Heq.
  apply HN, nni_ports_elem in Hnni as [Hin Hroot].
  rewrite (lps_PortNo_inj nni uni Hin Huni Heq) in Hroot. congruence.
Qed.

Lemma route_of_mono N N' n u d : N ⊆ N' → route_of N n u d → route_of N' n u d.
Proof. intros HN (nni & uni & Hnni & Hrest). exists nni, uni. split; [by apply HN | done]. Qed.

Lemma route_of_two N n u d : route_of N n u d → length d = 2%nat.
Proof.
  intros (nni & uni & _ & _ & _ & _ & _ & Hp).
  destruct Hp as (? & ? & ? & ? & ? & ? & _ & _ & _ & _ & _ & _ & _ & _ & _ & _ & ->). done.
Qed.

Lemma paired_two_hops N R : paired (route_of N) R → two_hops R.
Proof.
  intros HR p r Hp. destruct (HR p r Hp) as (n & u & d & Hof & [Hnu Hun] & [-> | ->]).
  - rewrite Hnu in Hp. injection Hp as <-. by eapply route_of_two.
  - rewrite Hun in Hp. injection Hp as <-. rewrite getReverseRoute_length. by eapply route_of_two.
Qed.

Lemma paired_unused N R new :
  N ⊆ nni_ports lps → new ∈ nni_ports lps → new ∉ N → paired (route_of N) R → unused (lp_PortNo new) R.
Proof.
  intros HN Hnew Hfresh HR p r Hp. apply nni_ports_elem in Hnew as [Hnew Hroot].
  destruct (HR p r Hp) as (n & u & d & (nni & uni & Hnni & Huni & Hur & <- & <- & _) & _ & Hcase).
  assert (lp_PortNo nni ≠ lp_PortNo new).
  { intros Heq. apply lps_PortNo_inj in Heq; [by subst | | done].
    by apply HN, nni_ports_elem in Hnni as [? _]. }
  assert (lp_PortNo uni ≠ lp_PortNo new).
  { intros Heq. apply lps_PortNo_inj in Heq; [|done|done]. subst. congruence. }
  by destruct Hcase as [-> | ->].
Qed.

Lemma path_between_copy from new uni d :
  lp_DeviceId new = lp_DeviceId from →
  path_between from uni d → path_between new uni (copy_down new d).
Proof.
  intros Hd (root & rp & rpeer & child & cp & cpeer & ? & ? & ? & ? & ? & ? & ? & ? & ? & ? & ->).
  exists root, rp, rpeer, child, cp, cpeer. simpl. rewrite Hd. by split_and!.
Qed.

Lemma copied_route_of N new from R R' :
  N ⊆ nni_ports lps → from ∈ nni_ports lps → new ∈ nni_ports lps → new ∉ N →
  (∀ p, R' !! p = copied new from R p) →
  paired (route_of N) R → paired (route_of (new :: N)) R'.
Proof.
  intros HN Hfrom Hnew Hfresh HR' HR.
  apply (copied_paired (route_of N) _ new from R R'); [done | by eapply paired_unused | | | | done].
  - intros n u d Hof. split; [by eapply route_of_two|].
    destruct Hof as (_ & uni & _ & Huni & Hur & _ & <- & _). intros Heq.
    apply nni_ports_elem in Hfrom as [Hf Hroot].
    rewrite (lps_PortNo_inj uni from Huni Hf Heq) in Hur. congruence.
  - intros n u d. apply route_of_mono. set_solver.
  - intros u d (nni & uni & Hnni & Huni & Hur & Hn & <- & Hpath).
    assert (nni = from) as ->.
    { apply lps_PortNo_inj; [by apply nni_ports_elem, HN | by apply nni_ports_elem | done]. }
    exists new, uni. split_and!; [set_solver|done..|].
    apply (path_between_copy from); [by apply Hports | done].
Qed.

(** *** The loops of ComputeRoutes *)

(** The PON port cache holds PON ports of the devices of the model. *)
Definition cache_ok (dr : DeviceRoutes) : Prop :=
  ∀ id ports, dr_devicesPonPorts dr !! id = Some ports →
    ∃ d, getDeviceFromModel id = Ok d ∧ ∀ p, p ∈ ports → p ∈ dev_Ports d ∧ is_pon p = true.

(** What holds while the NNI ports [N] have been processed. *)
Definition building (N : list LogicalPort) (dr : DeviceRoutes) : Prop :=
  cache_ok dr ∧ paired (route_of N) (dr_Routes dr) ∧ dr_logicalPorts dr = lps ∧
  ∀ n, is_Some (dr_RootPorts dr !! n) ↔ ∃ nni, nni ∈ nni_ports lps ∧ lp_PortNo nni = n.

(** [F] survives the addition of routes. *)
Definition stable (F : DeviceRoutes → Prop) : Prop :=
  ∀ dr dr', (∀ p, is_Some (dr_Routes dr !! p) → is_Some (dr_Routes dr' !! p)) → F dr → F dr'.

Definition has_route (nni uni : LogicalPort) (dr : DeviceRoutes) : Prop :=
  is_Some (dr_Routes dr !! mkPath (lp_PortNo nni) (lp_PortNo uni)).

(** The UNI ports among [ports] of device [child] have their route. *)
Definition child_done (nni : LogicalPort) (child : Device) (ports : list Port) (dr : DeviceRoutes) : Prop :=
  ∀ p uni, p ∈ ports → port_Type p = ETHERNET_UNI → uni ∈ lps →
    lp_DeviceId uni = dev_Id child → lp_DevicePortNo uni = port_PortNo p → has_route nni uni dr.
Definition peers_done nni (peers : list PeerPort) dr : Prop :=
  ∀ peer child, peer ∈ peers → getDeviceFromModel (peer_DeviceId peer) = Ok child →
    child_done nni child (dev_Ports child) dr.
Definition ports_done nni (ports : list Port) dr : Prop :=
  ∀ p, p ∈ ports → port_Type p = PON_OLT → peers_done nni (port_Peers p) dr.

Lemma stable_and F G : stable F → stable G → stable (λ dr, F dr ∧ G dr).
Proof. intros HF HG dr dr' Hgrow [? ?]. split; [by eapply HF | by eapply HG]. Qed.
Lemma stable_child_done nni child ports : stable (child_done nni child ports).
Proof. intros dr dr' Hgrow Hd p uni ? ? ? ? ?. apply Hgrow. by eapply (Hd p uni). Qed.
Lemma stable_peers_done nni peers : stable (peers_done nni peers).
Proof. intros dr dr' Hgrow Hd p c Hp Hc. eapply stable_child_done; [done | by eapply Hd]. Qed.
Lemma stable_ports_done nni ports : stable (ports_done nni ports).
Proof. intros dr dr' Hgrow Hd p Hp Ht. eapply stable_peers_done; [done | by eapply Hd]. Qed.
Hint Resolve stable_and stable_child_done stable_peers_done stable_ports_done : core.

Notation any_error := (λ (_ : GoError) (_ : DeviceRoutes), True).

Lemma getDevice_spec N F id :
  stable F →
  spec (λ dr, building N dr ∧ F dr) (getDevice getDeviceFromModel id)
       (λ d dr, getDeviceFromModel id = Ok d ∧ building N dr ∧ F dr) any_error.
Proof.
  intros HF. unfold getDevice. intros dr [Hb HFdr]. unfold sbind at 1, lift.
  destruct Hmodel as [Hid Hnp].
  destruct (getDeviceFromModel id) as [d|e|] eqn:Hd; [|done | by destruct (Hnp id)].
  apply (spec_bind (λ dr, building N dr ∧ F dr) _ (λ _ dr, building N dr ∧ F dr) any_error);
    [|by intros [] dr' ? | done].
  apply spec_for_each_const. intros port Hport.
  destruct (is_pon port) eqn:Hpon; [|apply spec_skip].
  apply spec_modify. intros s [(Hcache & Hpaired & Hlp & Hroot) HFs].
  split; [|by apply (HF s)]. split_and!; [|done..].
  intros id' ports Hl. simpl in Hl.
  destruct (decide (id' = dev_Id d)) as [->|Hne].
  - rewrite lookup_insert_eq in Hl. injection Hl as <-. exists d. rewrite (Hid _ _ Hd).
    split; [done|]. intros p [Hp|Hp%list_elem_of_singleton]%elem_of_app; [|by subst].
    destruct (dr_devicesPonPorts s !! id) as [old|] eqn:Hold; [|by apply elem_of_nil in Hp].
    destruct (Hcache _ _ Hold) as (d' & Hd' & Hall). rewrite Hd in Hd'. injection Hd' as <-.
    by apply Hall.
  - rewrite lookup_insert_ne // in Hl. by apply Hcache in Hl.
Qed.

Lemma getDevicePonPorts_elem N dr id peer p :
  building N dr → p ∈ getDevicePonPorts dr id peer →
  ∃ d pp, getDeviceFromModel id = Ok d ∧ p ∈ dev_Ports d ∧ is_pon p = true ∧
    pp ∈ port_Peers p ∧ peer_DeviceId pp = peer.
Proof.
  intros (Hcache & _) Hp. unfold getDevicePonPorts in Hp.
  destruct (dr_devicesPonPorts dr !! id) as [ports|] eqn:Hl; [|by apply elem_of_nil in Hp].
  destruct (Hcache _ _ Hl) as (d & Hd & Hall).
  apply list_elem_of_bind in Hp as (q & Hp & Hq).
  apply list_elem_of_fmap in Hp as (pp & -> & Hpp).
  apply list_elem_of_In, filter_In in Hpp as [Hpp Hpd]. apply list_elem_of_In in Hpp.
  apply bool_decide_eq_true in Hpd. destruct (Hall _ Hq). by exists d, pp.
Qed.

Lemma process_child_port_spec N F nni root rp rpeer child cp cpeer p seen :
  N ⊆ nni_ports lps → nni ∈ N → stable F →
  getDeviceFromModel (lp_DeviceId nni) = Ok root → rp ∈ dev_Ports root → port_Type rp = PON_OLT →
  rpeer ∈ port_Peers rp → getDeviceFromModel (peer_DeviceId rpeer) = Ok child →
  cp ∈ dev_Ports child → is_pon cp = true → cpeer ∈ port_Peers cp →
  peer_DeviceId cpeer = lp_DeviceId nni → p ∈ dev_Ports child →
  spec (λ dr, building N dr ∧ F dr ∧ child_done nni child seen dr)
       (process_child_port (phys_map lps) nni root rp child (port_PortNo cp) p)
       (λ _ dr, building N dr ∧ F dr ∧ child_done nni child (seen ++ [p]) dr) any_error.
Proof.
  intros HN Hnni HF Hroot Hrp Hrt Hrpeer Hchild Hcp Hpon Hcpeer Hcd Hp.
  destruct Hports as (_ & Hphys & _ & Huniroot). destruct Hmodel as [Hid _].
  pose proof (Hid _ _ Hroot) as Hridn. pose proof (Hid _ _ Hchild) as Hcidn.
  unfold process_child_port. destruct (decide (port_Type p = ETHERNET_UNI)) as [Huni|Hnuni].
  2: { apply spec_modify with (f := λ dr, dr). intros dr (Hb & HFd & Hd). split_and!; [done..|].
       intros q uni [Hq|Hq%list_elem_of_singleton]%elem_of_app; [by apply Hd | by subst]. }
  destruct (phys_map lps !! _) as [u|] eqn:Hu.
  2: { apply spec_modify with (f := λ dr, dr). intros dr (Hb & HFd & Hd). split_and!; [done..|].
       intros q uni [Hq|Hq%list_elem_of_singleton]%elem_of_app ? Hin Hdev Hno; [by eapply (Hd q)|].
       subst q. assert (phys_map lps !! concatDeviceIDPortID (dev_Id child) (port_PortNo p)
         = Some (lp_PortNo uni)) as Hs; [|congruence].
       apply phys_map_lookup; [done|]. by exists uni. }
  apply (phys_map_lookup _ _ _ _ Hphys) in Hu as (uni & Hin & Hdev & Hno & <-).
  assert (lp_RootPort uni = false) as Hur.
  { destruct (lp_RootPort uni) eqn:Hr; [|done].
    assert (uni ∈ nni_ports lps) as Hun by by apply nni_ports_elem.
    destruct (Huniroot uni child p Hun); [|done|done|done]. by rewrite Hdev Hcidn. }
  assert (route_of N (lp_PortNo nni) (lp_PortNo uni)
    [mkHop (dev_Id root) (lp_DevicePortNo nni) (port_PortNo rp);
     mkHop (dev_Id child) (port_PortNo cp) (port_PortNo p)]) as Hof.
  { exists nni, uni. split_and!; [done..|]. exists root, rp, rpeer, child, cp, cpeer.
    rewrite Hno Hdev Hridn Hcidn. by split_and!. }
  apply spec_modify. intros dr ((Hcache & Hpaired & Hlp & Hrootp) & HFd & Hd).
  assert (∀ q, is_Some (dr_Routes dr !! q) → is_Some (dr_Routes (add_route (lp_PortNo nni) (lp_PortNo uni)
    [mkHop (dev_Id root) (lp_DevicePortNo nni) (port_PortNo rp);
     mkHop (dev_Id child) (port_PortNo cp) (port_PortNo p)] dr) !! q)) as Hgrow.
  { intros q Hq. unfold add_route; simpl. rewrite !lookup_insert. repeat case_decide; done. }
  split_and!; [split_and!| |]; [done | | done | done | by apply (HF dr) |].
  - apply add_route_paired; [by apply route_of_separated | done | done].
  - intros q uni' [Hq|Hq%list_elem_of_singleton]%elem_of_app ? Hin' Hdev' Hno'.
    + apply Hgrow. by eapply (Hd q).
    + subst q. assert (lp_PortNo uni' = lp_PortNo uni) as Heq.
      { assert (phys_map lps !! concatDeviceIDPortID (dev_Id child) (port_PortNo p) = Some (lp_PortNo uni))
          by (apply phys_map_lookup; [done|]; by exists uni).
        assert (phys_map lps !! concatDeviceIDPortID (dev_Id child) (port_PortNo p) = Some (lp_PortNo uni'))
          by (apply phys_map_lookup; [done|]; by exists uni').
        congruence. }
      unfold has_route, add_route; simpl. rewrite Heq !lookup_insert. repeat case_decide; done.
Qed.

Lemma process_peer_spec N F nni root rp rpeer :
  N ⊆ nni_ports lps → nni ∈ N → stable F →
  getDeviceFromModel (lp_DeviceId nni) = Ok root → rp ∈ dev_Ports root → port_Type rp = PON_OLT →
  rpeer ∈ port_Peers rp →
  spec (λ dr, building N dr ∧ F dr)
       (process_peer getDeviceFromModel (phys_map lps) nni root rp rpeer)
       (λ _ dr, building N dr ∧ F dr ∧ peers_done nni [rpeer] dr) any_error.
Proof.
  intros HN Hnni HF Hroot Hrp Hrt Hrpeer. unfold process_peer.
  eapply spec_bind; [by apply getDevice_spec|]. intros child; simpl.
  intros dr (Hchild & Hb & HFd). unfold sbind, gets.
  destruct (getDevicePonPorts dr (dev_Id child) (lp_DeviceId nni)) as [|cp cps] eqn:Hcps; [done|].
  destruct (getDevicePonPorts_elem N dr (dev_Id child) (lp_DeviceId nni) cp) as
    (d & cpeer & Hd & Hcp & Hpon & Hcpeer & Hcd); [done | rewrite Hcps; set_solver |].
  rewrite (proj1 Hmodel _ _ Hchild) Hchild in Hd. injection Hd as <-.
  eapply spec_at; [apply (spec_for_each
    (λ seen dr, building N dr ∧ F dr ∧ child_done nni child seen dr) any_error) | | | done].
  - intros seen p rest Heq. eapply process_child_port_spec; try done. rewrite Heq. set_solver.
  - split_and!; [done..|]. intros p uni Hp. by apply elem_of_nil in Hp.
  - intros _ s (? & ? & Hdone). split_and!; [done..|].
    intros peer c Hpeer%list_elem_of_singleton Hc. subst peer.
    rewrite Hchild in Hc. by injection Hc as <-.
Qed.

Lemma process_nni_spec N F nni :
  N ⊆ nni_ports lps → nni ∈ N → stable F →
  spec (λ dr, building N dr ∧ F dr)
       (process_nni getDeviceFromModel (phys_map lps) nni)
       (λ _ dr, building N dr ∧ F dr ∧
          ∀ root, getDeviceFromModel (lp_DeviceId nni) = Ok root → ports_done nni (dev_Ports root) dr)
       any_error.
Proof.
  intros HN Hnni HF. unfold process_nni.
  eapply spec_bind; [by apply getDevice_spec|]. intros root; simpl.
  destruct (decide (dev_Ports root = [])) as [|_]; [by intros dr ?|].
  intros dr (Hroot & Hb & HFd).
  eapply spec_at; [apply (spec_for_each
    (λ seen dr, building N dr ∧ F dr ∧ ports_done nni seen dr) any_error) | | | done].
  2: { split_and!; [done..|]. intros p Hp. by apply elem_of_nil in Hp. }
  2: { intros a s (? & ? & ?). split_and!; [done..|]. intros r' Hr'. rewrite Hroot in Hr'.
    by injection Hr' as <-. }
  intros seen rp rest Heq.
  assert (rp ∈ dev_Ports root) as Hrp by (rewrite Heq; set_solver).
  destruct (decide (port_Type rp = PON_OLT)) as [Hrt|Hrt].
  2: { apply spec_modify with (f := λ dr, dr). intros s (? & ? & Hd). split_and!; [done..|].
       intros q [Hq|Hq%list_elem_of_singleton]%elem_of_app; [by apply Hd | by subst]. }
  set (G seen' s := (F s ∧ ports_done nni seen s) ∧ peers_done nni seen' s).
  eapply spec_weaken; [apply (spec_for_each (λ seen' s, building N s ∧ G seen' s)) | | | done].
  - intros seen' peer rest' Heq'.
    eapply spec_weaken; [eapply (process_peer_spec N (G seen')) | done | | done]; try done.
    + unfold G. auto.
    + rewrite Heq'. set_solver.
    + intros _ s (? & [? Hd] & Hd'). split_and!; [done|]. split; [done|].
      intros q c [Hq|Hq]%elem_of_app Hc; [by eapply Hd | by eapply Hd'].
  - intros s (? & ? & ?). split; [done|]. split; [done|].
    intros q c Hq. by apply elem_of_nil in Hq.
  - intros _ s (? & [? ?] & Hd'). split_and!; [done..|].
    intros q [Hq|Hq%list_elem_of_singleton]%elem_of_app; [naive_solver | by subst].
Qed.

Lemma building_mono N N' dr : N ⊆ N' → building N dr → building N' dr.
Proof.
  intros HN (? & Hp & ? & ?). split_and!; [done | | done..].
  eapply paired_mono; [|done]. intros n u d. by apply route_of_mono.
Qed.

Lemma copy_building N F from new :
  N ⊆ nni_ports lps → from ∈ nni_ports lps → new ∈ nni_ports lps → new ∉ N → stable F →
  spec (λ dr, building N dr ∧ F dr) (copyFromExistingNNIRoutes new from)
       (λ _ dr, building (new :: N) dr ∧ F dr ∧
          ∀ uni, uni ∈ lps → lp_RootPort uni = false → has_route from uni dr → has_route new uni dr)
       any_error.
Proof.
  intros HN Hfrom Hnew Hfresh HF dr [(Hcache & Hpaired & Hlp & Hroot) HFd].
  pose proof (paired_unused N _ new HN Hnew Hfresh Hpaired) as Hun.
  destruct (copyFromExistingNNIRoutes_spec new from dr) as (R & -> & HR);
    [by eapply paired_two_hops | done |].
  assert (∀ p, is_Some (dr_Routes dr !! p) → R !! p = dr_Routes dr !! p) as Hkeep.
  { intros p [r Hr]. destruct (Hun p r Hr) as [Hi He]. rewrite HR /copied.
    by do 2 (rewrite decide_False //). }
  split_and!; [split_and!; [done| |done|done] | |].
  - exact (copied_route_of N new from _ R HN Hfrom Hnew Hfresh HR Hpaired).
  - apply (HF dr); [|done]. intros p Hp. by rewrite /= Hkeep.
  - intros uni Huni Hur. unfold has_route; simpl. rewrite !HR /copied /=.
    apply nni_ports_elem in Hnew as [Hnew Hnr].
    assert (lp_PortNo uni ≠ lp_PortNo new).
    { intros Heq. rewrite (lps_PortNo_inj uni new Huni Hnew Heq) in Hur. congruence. }
    rewrite (decide_True (P := lp_PortNo new = lp_PortNo new)) // fmap_is_Some.
    destruct (decide (lp_PortNo from = lp_PortNo new)) as [->|]; [by rewrite fmap_is_Some|].
    by rewrite decide_False.
Qed.

Lemma more_nnis_spec from rest N F :
  N ++ rest ⊆ nni_ports lps → from ∈ nni_ports lps → NoDup (N ++ rest) → stable F →
  spec (λ dr, building N dr ∧ F dr) (more_nnis getDeviceFromModel (phys_map lps) from rest)
       (λ _ dr, building (nni_ports lps) dr ∧ F dr) any_error.
Proof.
  revert N. induction rest as [|nni rest IH]; intros N HN Hfrom Hnd HF; simpl.
  { intros dr [Hb HFd]. split; [|done]. eapply building_mono; [|done]. set_solver. }
  assert (nni ∉ N) as Hfresh by (apply NoDup_app in Hnd as (_ & Hd & _); set_solver).
  assert (N ++ [nni] ⊆ nni_ports lps) as HN' by set_solver.
  intros dr [Hb HFd]. unfold sbind at 1, get. case_decide.
  - eapply spec_at; [apply (copy_building N F from nni); try done; set_solver | done | | done].
    intros _ s (Hb' & ? & _). split; [|done]. eapply building_mono; [|done]. set_solver.
  - assert (building (N ++ [nni]) dr) as Hb' by (eapply building_mono; [|done]; set_solver).
    eapply (spec_at (λ s, building (N ++ [nni]) s ∧ F s)); [|done | intros a s Hs; exact Hs | done].
    eapply spec_bind; [apply process_nni_spec; [done | set_solver | done]|].
    intros []; simpl. eapply spec_weaken; [apply (IH (N ++ [nni])) | | intros a s Hs; exact Hs | done].
    + by rewrite -app_assoc.
    + done.
    + by rewrite -app_assoc.
    + done.
    + intros s (? & ? & _). done.
Qed.

Lemma attached_has_route nni uni dr :
  uni ∈ lps → attached nni uni →
  (∀ root, getDeviceFromModel (lp_DeviceId nni) = Ok root → ports_done nni (dev_Ports root) dr) →
  has_route nni uni dr.
Proof.
  intros Hin (root & rp & rpeer & child & cport & Hroot & Hrp & Hrt & Hrpeer & Hpd & Hchild & Hcport & Hct & Hcn) Hd.
  rewrite -Hpd in Hchild.
  eapply (Hd root Hroot rp Hrp Hrt rpeer child Hrpeer Hchild cport); [done..| |done].
  by rewrite (proj1 Hmodel _ _ Hchild).
Qed.

(** The second NNI port gets its routes by copy, or by the same search. *)
Lemma more_nnis_second from nni rest :
  nni_ports lps = from :: nni :: rest → NoDup (nni_ports lps) →
  spec (λ dr, building [from] dr ∧
          ∀ uni, uni ∈ lps → lp_RootPort uni = false → attached from uni → has_route from uni dr)
       (more_nnis getDeviceFromModel (phys_map lps) from (nni :: rest))
       (λ _ dr, building (nni_ports lps) dr ∧ ∀ n uni, n ∈ [from; nni] → uni ∈ lps →
          lp_RootPort uni = false → attached n uni → has_route n uni dr) any_error.
Proof.
  intros Heq Hnd. set (F dr := ∀ uni, uni ∈ lps → lp_RootPort uni = false → attached from uni → has_route from uni dr).
  assert (stable F) as HF by (intros dr dr' Hg Hd uni ? ? ?; apply Hg; by apply Hd).
  rewrite Heq in Hnd. assert (nni ∉ [from]) as Hne by (apply NoDup_cons in Hnd as [? _]; set_solver).
  assert (from ∈ nni_ports lps ∧ nni ∈ nni_ports lps) as [Hfrom Hnni] by (rewrite Heq; set_solver).
  assert (∀ uni, attached nni uni → attached from uni) as Hatt.
  { intros uni Ha. destruct Hports as (_ & _ & Hdev & _). unfold attached.
    by rewrite (Hdev from nni Hfrom Hnni). }
  simpl. intros dr [Hb HFd]. unfold sbind at 1, get. case_decide as Hsz.
  - eapply spec_at; [apply (copy_building [from] F from nni); try done; set_solver | done | | done].
    intros _ s (Hb' & HFs & Hcopy). split.
    { eapply building_mono; [|done]. rewrite Heq. set_solver. }
    intros n uni Hn Huni Hur Ha. apply elem_of_cons in Hn as [->|Hn%list_elem_of_singleton]; [by apply HFs|].
    subst n. apply Hcopy; [done..|]. apply HFs; auto.
  - set (G s := F s ∧ ∀ root, getDeviceFromModel (lp_DeviceId nni) = Ok root → ports_done nni (dev_Ports root) s).
    assert (stable G) as HG.
    { apply stable_and; [done|]. intros s s' Hg Hd root Hr. by eapply stable_ports_done, Hd. }
    assert (building [from; nni] dr) as Hb2 by (eapply building_mono; [|done]; set_solver).
    eapply (spec_at (λ s, building [from; nni] s ∧ F s)); [|done | intros a s Hs; exact Hs | done].
    eapply spec_bind; [apply process_nni_spec; [set_solver | set_solver | done]|].
    intros []; simpl.
    eapply spec_weaken; [apply (more_nnis_spec from rest [from; nni] G) | done | | done];
      [rewrite Heq; set_solver | done | done | done |].
    intros _ s (Hbs & HFs & Hdone). split; [done|]. intros n uni Hn Huni Hur Ha.
    apply elem_of_cons in Hn as [->|Hn%list_elem_of_singleton]; [by apply HFs|].
    subst n. by apply attached_has_route.
Qed.

Lemma NoDup_nni_ports : NoDup (nni_ports lps).
Proof.
  destruct Hports as (Hnd & _). apply NoDup_fmap_1 in Hnd.
  unfold nni_ports. by apply NoDup_ListNoDup, List.NoDup_filter, NoDup_ListNoDup.
Qed.

(** The initial assignments of [ComputeRoutes] establish the loop invariant. *)
Lemma building_init (dr : DeviceRoutes) :
  building [] (set_RootPorts
    (foldl (λ m lp, <[lp_PortNo lp := lp_PortNo lp]> m) (dr_RootPorts (reset dr)) (nni_ports lps))
    (set_logicalPorts (dr_logicalPorts (reset dr) ++ lps) (reset dr))).
Proof.
  split_and!; simpl; [intros id ports Hp; by rewrite lookup_empty in Hp | apply paired_empty | done |].
  intros n. induction (nni_ports lps) as [|nni l IH] using rev_ind; simpl.
  { rewrite lookup_empty. split; [by intros [] | set_solver]. }
  rewrite foldl_snoc lookup_insert. destruct (decide (lp_PortNo nni = n)) as [<-|Hne].
  - split; [|by eauto]. intros _. exists nni. set_solver.
  - rewrite IH. split; [set_solver|]. intros (x & [Hx|Hx%list_elem_of_singleton]%elem_of_app & Hn); [eauto|].
    by subst.
Qed.

Lemma compute_body_spec dr :
  match compute_body getDeviceFromModel lps (reset dr) with
  | (Ok _, dr') => building (nni_ports lps) dr' ∧
      ∀ n uni, n ∈ take 2 (nni_ports lps) → uni ∈ lps → lp_RootPort uni = false →
        attached n uni → has_route n uni dr'
  | (Err _, _) => True
  | (Panic, _) => False
  end.
Proof.
  unfold compute_body. unfold sbind at 1 2, modify at 1 2.
  pose proof NoDup_nni_ports as Hnd. pose proof (building_init dr) as Hinit.
  set (dr0 := set_RootPorts _ _) in *.
  destruct (nni_ports lps) as [|from rest] eqn:Heq; [done|].
  assert (from ∈ nni_ports lps) as Hfrom by (rewrite Heq; set_solver).
  assert (building [from] dr0) as Hb by (eapply building_mono; [|done]; set_solver).
  assert (spec (λ s, building [from] s ∧ True) (process_nni getDeviceFromModel (phys_map lps) from)
    (λ _ s, building [from] s ∧ ∀ uni, uni ∈ lps → lp_RootPort uni = false → attached from uni →
       has_route from uni s) any_error) as Hfirst.
  { eapply spec_weaken; [apply (process_nni_spec [from] (λ _, True)); [set_solver..|done] | done | | done].
    intros _ s (? & _ & Hd). split; [done|]. intros uni ? ? ?. by apply attached_has_route. }
  rewrite -Heq. destruct rest as [|nni rest].
  - eapply spec_at; [eapply spec_bind; [exact Hfirst|]; intros []; apply spec_skip | done | | done].
    intros _ s [Hbs Hd]. rewrite Heq. split; [done|]. simpl. intros n uni Hn%list_elem_of_singleton.
    subst n. apply Hd.
  - eapply spec_at; [eapply spec_bind; [exact Hfirst|]; intros []; simpl | done | | done].
    + apply (more_nnis_second from nni rest); [done | by rewrite Heq].
    + intros _ s [Hbs Hd]. split; [done|]. rewrite Heq. simpl. rewrite take_0. done.
Qed.

End ComputeCorrect.

(** C3: on a well-formed port table [ComputeRoutes] never panics.  When it
    succeeds, every route belongs to an NNI/UNI pair of the port table, follows
    the physical topology and is stored with its reverse; every UNI port
    attached to the root device has its route to the first two NNI ports; the
    root ports are exactly the NNI ports.  When it fails, the tables are empty,
    except that a call with fewer than two ports leaves them untouched. *)
Theorem compute_routes_correct `{GoRange} (getDeviceFromModel : string → outcome Device)
    (lps : list LogicalPort) (dr : DeviceRoutes) :
  model_wf getDeviceFromModel → ports_wf getDeviceFromModel lps →
  match ComputeRoutes getDeviceFromModel lps dr with
  | (Ok _, dr') =>
      (2 ≤ length lps)%nat ∧ dr_logicalPorts dr' = lps ∧
      paired (route_of getDeviceFromModel lps (nni_ports lps)) (dr_Routes dr') ∧
      (∀ nni uni, nni ∈ take 2 (nni_ports lps) → uni ∈ lps → lp_RootPort uni = false →
         attached getDeviceFromModel nni uni →
         is_Some (dr_Routes dr' !! mkPath (lp_PortNo nni) (lp_PortNo uni))) ∧
      (∀ n, IsRootPort dr' n = true ↔ ∃ nni, nni ∈ nni_ports lps ∧ lp_PortNo nni = n)
  | (Err _, dr') => (length lps < 2)%nat ∧ dr' = dr ∨ dr' = NewDeviceRoutes
  | (Panic, _) => False
  end.
Proof.
  intros Hm Hp. unfold ComputeRoutes. case_decide as Hlen; [by left|].
  pose proof (compute_body_spec getDeviceFromModel lps Hm Hp dr) as Hbody.
  destruct (compute_body _ _ _) as [[[]|e|] dr']; [|by right | done].
  destruct Hbody as [(_ & Hpaired & Hlp & Hroot) Hall].
  split_and!; [lia | done | done | done |].
  intros n. unfold IsRootPort. by rewrite bool_decide_eq_true.
Qed.

(** ** AddPort extends the tables *)

(** A downstream route from an NNI port to a UNI port of [ports]. *)
Definition link (ports : list LogicalPort) (n u : Z) (down : list Hop) : Prop :=
  ∃ nni uni a b, nni ∈ ports ∧ uni ∈ ports ∧ lp_RootPort nni = true ∧ lp_RootPort uni = false ∧
    lp_PortNo nni = n ∧ lp_PortNo uni = u ∧
    down = [mkHop (lp_DeviceId nni) (lp_DevicePortNo nni) a; mkHop (lp_DeviceId uni) b (lp_DevicePortNo uni)].

Definition tables_wf (dr : DeviceRoutes) : Prop :=
  NoDup (lp_PortNo <$> dr_logicalPorts dr) ∧ paired (link (dr_logicalPorts dr)) (dr_Routes dr).

Lemma link_mono ports ports' n u d : ports ⊆ ports' → link ports n u d → link ports' n u d.
Proof.
  intros Hs (nni & uni & a & b & Hn & Hu & ?). exists nni, uni, a, b.
  split_and!; [by apply Hs | by apply Hs | naive_solver..].
Qed.

Lemma link_separated ports : NoDup (lp_PortNo <$> ports) → separated (link ports).
Proof.
  intros Hnd n u d n' u' d' (nni & _ & _ & _ & Hin & _ & Hr & _ & <- & _)
    (_ & uni & _ & _ & _ & Hin' & _ & Hr' & _ & <- & _) Heq.
  rewrite (NoDup_PortNo_inj ports nni uni) // in Hr. congruence.
Qed.

Lemma link_unused ports R n :
  n ∉ lp_PortNo <$> ports → paired (link ports) R → unused n R.
Proof.
  intros Hn HR p r Hp.
  destruct (HR p r Hp) as (n' & u' & d & (nni & uni & a & b & Hnni & Huni & _ & _ & <- & <- & _) & _ & Hc).
  assert (lp_PortNo nni ≠ n ∧ lp_PortNo uni ≠ n) as [? ?].
  { split; intros <-; apply Hn; apply list_elem_of_fmap; eauto. }
  by destruct Hc as [-> | ->].
Qed.

(** The precondition holds as soon as there are routes. *)
Lemma addPort_precondition dr lp :
  dr_Routes dr ≠ ∅ → tables_wf dr → lp_PortNo lp ∉ lp_PortNo <$> dr_logicalPorts dr →
  addPortAndVerifyPrecondition lp dr = (Ok tt, set_logicalPorts (dr_logicalPorts dr ++ [lp]) dr).
Proof.
  intros (p & r & Hp)%map_choose [_ Hpaired] Hfresh.
  destruct (Hpaired p r Hp) as (n & u & d & (nni & uni & a & b & Hnni & Huni & Hr & Hu & _) & _).
  unfold addPortAndVerifyPrecondition, sbind, get. simpl.
  assert (existsb lp_RootPort (dr_logicalPorts dr) = true) as ->.
  { apply existsb_exists. exists nni. by rewrite -list_elem_of_In. }
  assert (existsb (λ p, negb (lp_RootPort p)) (dr_logicalPorts dr) = true) as ->.
  { apply existsb_exists. exists uni. by rewrite -list_elem_of_In Hu. }
  assert (existsb (λ p, lp_PortNo p =? lp_PortNo lp) (dr_logicalPorts dr) = false) as ->; [|done].
  apply not_true_iff_false. intros (q & Hq & Heq%Z.eqb_eq)%existsb_exists.
  apply Hfresh. rewrite -Heq. apply list_elem_of_fmap. exists q. by rewrite list_elem_of_In.
Qed.

Lemma nni_ports_snoc ports lp :
  nni_ports (ports ++ [lp]) = nni_ports ports ++ (if lp_RootPort lp then [lp] else []).
Proof. unfold nni_ports. rewrite List.filter_app /=. by destruct (lp_RootPort lp). Qed.

(** The port whose routes are copied is the first NNI port. *)
Lemma first_nni dr lp :
  dr_Routes dr ≠ ∅ → tables_wf dr → lp_PortNo lp ∉ lp_PortNo <$> dr_logicalPorts dr →
  ∃ from rest, nni_ports (dr_logicalPorts dr) = from :: rest ∧
    from ∈ dr_logicalPorts dr ∧ lp_RootPort from = true ∧
    list_find (λ q, lp_PortNo q ≠ lp_PortNo lp) (nni_ports (dr_logicalPorts dr ++ [lp])) = Some (0%nat, from).
Proof.
  intros (p & r & Hp)%map_choose [_ Hpaired] Hfresh.
  destruct (Hpaired p r Hp) as (n & u & d & (nni & uni & a & b & Hnni & Huni & Hr & Hu & _) & _).
  assert (nni ∈ nni_ports (dr_logicalPorts dr)) as Hin by by apply nni_ports_elem.
  destruct (nni_ports (dr_logicalPorts dr)) as [|from rest] eqn:Heq; [by apply elem_of_nil in Hin|].
  assert (from ∈ nni_ports (dr_logicalPorts dr)) as [Hf Hfr]%nni_ports_elem by (rewrite Heq; set_solver).
  exists from, rest. split_and!; [done..|]. rewrite nni_ports_snoc Heq; simpl.
  rewrite decide_True //. intros Hc. apply Hfresh. rewrite -Hc. apply list_elem_of_fmap. eauto.
Qed.

Section AddPort.
Context `{GoRange}.
Variable getDeviceFromModel : string → outcome Device.
Hypothesis Hnopanic : ∀ id, getDeviceFromModel id ≠ Panic.

(** The state while a UNI port [lp] is being connected, from the state [dr0]. *)
Definition adding (dr0 : DeviceRoutes) (lp : LogicalPort) (seen : list LogicalPort) (dr : DeviceRoutes) : Prop :=
  dr_logicalPorts dr = dr_logicalPorts dr0 ++ [lp] ∧
  dr_RootPorts dr = dr_RootPorts dr0 ∧
  paired (link (dr_logicalPorts dr0 ++ [lp])) (dr_Routes dr) ∧
  (∀ p r, dr_Routes dr0 !! p = Some r → dr_Routes dr !! p = Some r) ∧
  (∀ nni, nni ∈ seen → is_Some (dr_Routes dr !! mkPath (lp_PortNo nni) (lp_PortNo lp))).

Lemma getDevice_adding dr0 lp seen id :
  spec (adding dr0 lp seen) (getDevice getDeviceFromModel id) (λ _, adding dr0 lp seen)
       (λ _ _, True).
Proof.
  unfold getDevice. intros dr Hdr. unfold sbind at 1, lift.
  destruct (getDeviceFromModel id) as [d|e|] eqn:Hd; [|done | by destruct (Hnopanic id)].
  eapply (spec_at (adding dr0 lp seen) _ _ (λ _ _, True)); [|done | intros a s Hs; exact Hs | done].
  eapply (spec_bind _ _ (λ _, adding dr0 lp seen)); [|by intros [] s ?].
  apply spec_for_each_const. intros port _.
  destruct (is_pon port); [|apply spec_skip]. by apply spec_modify.
Qed.

Lemma add_uni_via_spec dr0 lp nni seen :
  NoDup (lp_PortNo <$> dr_logicalPorts dr0 ++ [lp]) → unused (lp_PortNo lp) (dr_Routes dr0) →
  lp_RootPort lp = false → nni ∈ dr_logicalPorts dr0 → lp_RootPort nni = true →
  spec (adding dr0 lp seen) (add_uni_via getDeviceFromModel lp nni)
       (λ _, adding dr0 lp (seen ++ [nni])) (λ _ s, s = NewDeviceRoutes).
Proof.
  intros Hnd Hun Hlp Hnni Hroot. unfold add_uni_via.
  eapply spec_bind; [apply spec_gets|]. intros cached; simpl.
  eapply (spec_bind _ _ (λ _, adding dr0 lp seen)).
  { destruct cached as [pp|]; [intros s [_ Hs]; exact Hs|].
    eapply spec_bind.
    { eapply spec_attempt, spec_weaken; [apply (getDevice_adding dr0 lp seen) | by intros s [_ ?] | done | done]. }
    intros [d|e]; [|by intros s _].
    eapply spec_bind; [apply spec_gets|]. intros [pp|]; [by intros s [_ ?] | by intros s _]. }
  intros [cp peer]. apply spec_modify. intros dr (Hports & Hrp & Hpaired & Hkeep & Hseen).
  set (down := [_; _]).
  assert (lp_PortNo nni ≠ lp_PortNo lp) as Hne.
  { intros Heq. assert (nni = lp); [|congruence].
    eapply NoDup_PortNo_inj; [exact Hnd | set_solver.. | done]. }
  split_and!; [done | done | | |].
  - apply add_route_paired; [by apply link_separated | | done].
    exists nni, lp, (peer_PortNo peer), (port_PortNo cp). split_and!; [set_solver..|done|done|done|done|done].
  - intros p r Hp. destruct (Hun p r Hp). rewrite add_route_other; [by apply Hkeep | |]; intros ->; done.
  - intros n [Hn|Hn%list_elem_of_singleton]%elem_of_app; simpl; rewrite !lookup_insert.
    + repeat case_decide; [done..|]. by apply Hseen.
    + subst n. repeat case_decide; done.
Qed.

End AddPort.

(** C28: [AddPort] of a port with a new number, when routes exist, never panics;
    when it succeeds the port is recorded, every existing route is kept, the
    tables stay well-formed (two hops, each route with its reverse, NNI to UNI)
    and the new port is connected: a new UNI port to every NNI port, a new NNI
    port to every UNI port the first NNI port reaches.  When it fails every
    table is emptied. *)
Theorem add_port_correct `{GoRange} (getDeviceFromModel : string → outcome Device)
    (lp : LogicalPort) (lps : list LogicalPort) (dr : DeviceRoutes) :
  (∀ id, getDeviceFromModel id ≠ Panic) →
  dr_Routes dr ≠ ∅ → tables_wf dr → lp_PortNo lp ∉ lp_PortNo <$> dr_logicalPorts dr →
  match AddPort getDeviceFromModel lp lps dr with
  | (Ok _, dr') =>
      tables_wf dr' ∧ dr_logicalPorts dr' = dr_logicalPorts dr ++ [lp] ∧
      (∀ p r, dr_Routes dr !! p = Some r → dr_Routes dr' !! p = Some r) ∧
      (if lp_RootPort lp then
         IsRootPort dr' (lp_PortNo lp) = true ∧
         ∃ from, head (nni_ports (dr_logicalPorts dr)) = Some from ∧
           ∀ u r, dr_Routes dr !! mkPath (lp_PortNo from) u = Some r →
             dr_Routes dr' !! mkPath (lp_PortNo lp) u = Some (copy_down lp r)
       else ∀ nni, nni ∈ nni_ports (dr_logicalPorts dr) →
         is_Some (dr_Routes dr' !! mkPath (lp_PortNo nni) (lp_PortNo lp)))
  | (Err _, dr') => dr' = NewDeviceRoutes
  | (Panic, _) => False
  end.
Proof.
  intros Hnp Hne Hwf Hfresh. pose proof (first_nni dr lp Hne Hwf Hfresh) as (from & rest & Hnni & Hfin & Hfroot & Hfind).
  assert (NoDup (lp_PortNo <$> dr_logicalPorts dr ++ [lp])) as Hnd'.
  { destruct Hwf as [Hnd _]. rewrite fmap_app. apply NoDup_app. split_and!; [done| |apply NoDup_singleton].
    intros x Hx Hx'%list_elem_of_singleton. by subst. }
  pose proof (link_unused _ _ _ Hfresh (proj2 Hwf)) as Hun.
  unfold AddPort. unfold sbind at 1, get. rewrite decide_False; last by rewrite map_size_empty_iff.
  unfold sbind at 1, attempt. rewrite addPort_precondition //.
  destruct (lp_RootPort lp) eqn:Hroot.
  - unfold sbind, modify, gets. simpl. rewrite Hfind.
    set (dr1 := set_RootPorts _ _).
    destruct (copyFromExistingNNIRoutes_spec lp from dr1) as (R & -> & HR); [|done|].
    { intros p r Hp. destruct (proj2 Hwf p r Hp) as (n & u & d & (? & ? & ? & ? & _ & _ & _ & _ & _ & _ & ->) & [Hnu Hup] & [-> | ->]).
      - rewrite Hnu in Hp. by injection Hp as <-.
      - rewrite Hup in Hp. by injection Hp as <-. }
    simpl. split_and!; [split; [done|]| | | |].
    + simpl. eapply (copied_paired (link (dr_logicalPorts dr)) _ lp from _ R HR); [done | | | | apply Hwf].
      * intros n u d Hl. split; [by destruct Hl as (? & ? & ? & ? & _ & _ & _ & _ & _ & _ & ->)|].
        destruct Hl as (_ & uni & _ & _ & _ & Huni & _ & Hur & _ & <- & _). intros Heq.
        rewrite (NoDup_PortNo_inj (dr_logicalPorts dr) uni from) // in Hur; [congruence | apply Hwf].
      * intros n u d. apply link_mono. set_solver.
      * intros u d (nni & uni & a & b & Hn & Hu & Hr & Hur & _ & <- & ->).
        exists lp, uni, a, b. split_and!; [set_solver..|done|done|done|done|done].
    + done.
    + intros p r Hp. destruct (Hun p r Hp). rewrite HR /copied /=. by do 2 (rewrite decide_False //).
    + unfold IsRootPort. simpl. rewrite lookup_insert_eq. by apply bool_decide_eq_true.
    + exists from. rewrite Hnni. split; [done|]. intros u r Hr. rewrite HR /copied /= decide_True // Hr. done.
  - unfold sbind, ret, gets. simpl. rewrite Hfind. rewrite nni_ports_snoc Hroot app_nil_r.
    eapply (spec_at (adding dr lp [])); [apply (spec_for_each (adding dr lp)) | | |].
    + intros seen nni rest' Heq.
      assert (nni ∈ nni_ports (dr_logicalPorts dr)) as [Hn Hr]%nni_ports_elem by (rewrite Heq; set_solver).
      by apply add_uni_via_spec.
    + split_and!; [done|done| |done|set_solver]. eapply paired_mono; [|apply Hwf].
      intros n u d. apply link_mono. set_solver.
    + intros _ s (Hlp & _ & Hpaired & Hkeep & Hseen).
      split_and!; [split; by rewrite Hlp | done | done | done].
    + done.
Qed.

(** ** A concrete topology

    One OLT with NNI ports and a PON port, one ONU with a UNI port. *)

Definition sample_port (no : Z) (ty : PortType) (peers : list PeerPort) : Port :=
  mkPort no "" ty Admin_ENABLED Oper_ACTIVE "" peers 0 0 0 0 0 0.

Definition sample_device (id : string) (ports : list Port) : Device :=
  mkDevice id "" false "" 0 "" "" "" "" "" "" "" 0 "" None "" None
    Admin_ENABLED Oper_ACTIVE "" Conn_REACHABLE ports [] [] None None.

Definition sample_olt : Device := sample_device "olt"
  [sample_port 10 ETHERNET_NNI []; sample_port 1 PON_OLT [mkPeer "onu" 1]].
Definition sample_onu : Device := sample_device "onu"
  [sample_port 1 PON_ONU [mkPeer "olt" 1]; sample_port 2 ETHERNET_UNI []].

Definition sample_model (id : string) : outcome Device :=
  if decide (id = "olt") then Ok sample_olt
  else if decide (id = "onu") then Ok sample_onu
  else Err (Status NotFound id).

Definition sample_lp (no : Z) (dev : string) (devport : Z) (root : bool) : LogicalPort :=
  mkLogicalPort "" (mkOfpPort no [] "" 0 0 0 0 0 0 0 0) dev devport root.

Definition sample_lps : list LogicalPort :=
  [sample_lp 65536 "olt" 10 true; sample_lp 16 "onu" 2 false].

Lemma sample_model_wf : model_wf sample_model.
Proof.
  split; intros id; unfold sample_model.
  - intros d. repeat case_decide; [intros [= <-]; by subst..|done].
  - repeat case_decide; done.
Qed.

Lemma sample_ports_wf : ports_wf sample_model sample_lps.
Proof.
  split_and!.
  - apply (bool_decide_unpack _). by vm_compute.
  - apply (bool_decide_unpack _). by vm_compute.
  - intros a b Ha%list_elem_of_singleton Hb%list_elem_of_singleton. by subst.
  - intros nni d p Hn%list_elem_of_singleton. subst nni. intros [= <-]. simpl.
    rewrite !elem_of_cons elem_of_nil. by intros [-> | [-> | []]].
Qed.

Definition sample_routes : DeviceRoutes :=
  (ComputeRoutes (H := canonical_range) sample_model sample_lps NewDeviceRoutes).2.

Lemma compute_routes_correct_witness :
  model_wf sample_model ∧ ports_wf sample_model sample_lps ∧
  paired (route_of sample_model sample_lps (nni_ports sample_lps)) (dr_Routes sample_routes) ∧
  dr_Routes sample_routes !! mkPath 16 65536 = Some [mkHop "onu" 2 1; mkHop "olt" 1 10].
Proof.
  pose proof (compute_routes_correct (H := canonical_range) sample_model sample_lps NewDeviceRoutes
    sample_model_wf sample_ports_wf) as Hc.
  split_and!; [exact sample_model_wf | exact sample_ports_wf | | by vm_compute].
  unfold sample_routes. revert Hc.
  destruct (ComputeRoutes sample_model sample_lps NewDeviceRoutes) as [[[]|e|] dr'] eqn:Heq.
  - intros (_ & _ & Hp & _). exact Hp.
  - by vm_compute in Heq.
  - by intros [].
Defined.

Lemma sample_tables_wf : tables_wf sample_routes.
Proof.
  pose proof (compute_routes_correct (H := canonical_range) sample_model sample_lps NewDeviceRoutes
    sample_model_wf sample_ports_wf) as Hc.
  assert (∃ dr', ComputeRoutes (H := canonical_range) sample_model sample_lps NewDeviceRoutes = (Ok tt, dr'))
    as [dr' Heq] by (eexists; by vm_compute).
  unfold sample_routes. rewrite Heq in Hc |- *. destruct Hc as (_ & Hlp & Hp & _). simpl. split.
  - rewrite Hlp. by apply sample_ports_wf.
  - eapply paired_mono; [|exact Hp]. rewrite Hlp.
    intros n u d (nni & uni & [Hn Hr]%nni_ports_elem & Hu & Hur & <- & <- &
      (root & rp & rpeer & child & cp & cpeer & _ & _ & _ & _ & _ & _ & _ & _ & _ & _ & ->)).
    by exists nni, uni, (port_PortNo rp), (port_PortNo cp).
Qed.

(** A second UNI port of the ONU is connected to the NNI port. *)
Lemma add_port_correct_witness :
  dr_Routes sample_routes ≠ ∅ ∧
  dr_Routes (AddPort (H := canonical_range) sample_model (sample_lp 17 "onu" 3 false) [] sample_routes).2
    !! mkPath 65536 17 ≠ None.
Proof.
  assert (dr_Routes sample_routes ≠ ∅) as Hne by (intros Hc; by vm_compute in Hc).
  assert (lp_PortNo (sample_lp 17 "onu" 3 false) ∉ lp_PortNo <$> dr_logicalPorts sample_routes) as Hfresh.
  { apply (bool_decide_unpack _). by vm_compute. }
  split; [exact Hne|].
  pose proof (add_port_correct (H := canonical_range) sample_model (sample_lp 17 "onu" 3 false) []
    sample_routes (proj2 sample_model_wf) Hne sample_tables_wf Hfresh) as Hc.
  destruct (AddPort sample_model (sample_lp 17 "onu" 3 false) [] sample_routes) as [[[]|e|] dr'] eqn:Heq.
  - destruct Hc as (_ & _ & _ & Hall). simpl in Hall.
    destruct (Hall (sample_lp 65536 "olt" 10 true)) as [r Hr]; [by vm_compute; left|].
    simpl. by rewrite Hr.
  - by vm_compute in Heq.
  - destruct Hc.
Defined.

(** ** What ComputeRoutes leaves out *)

Definition sample_lps3 : list LogicalPort :=
  [sample_lp 65536 "olt" 10 true; sample_lp 65537 "olt" 11 true;
   sample_lp 65538 "olt" 12 true; sample_lp 16 "onu" 2 false].

(** the loop over the NNI ports returns right after the first copy: of three
    NNI ports of the root device only two get routes, and the result is not up
    to date for the logical device it was computed from. *)
Theorem third_nni_without_routes :
  let r := ComputeRoutes (H := canonical_range) sample_model sample_lps3 NewDeviceRoutes in
  r.1 = Ok tt ∧
  is_Some (dr_Routes r.2 !! mkPath 65536 16) ∧ is_Some (dr_Routes r.2 !! mkPath 65537 16) ∧
  dr_Routes r.2 !! mkPath 65538 16 = None ∧ dr_Routes r.2 !! mkPath 16 65538 = None ∧
  IsUpToDate r.2 (Some (mkLogicalDevice "ld" 0 "" "" "olt" sample_lps3 None None None)) = false.
Proof.
  vm_compute. split_and!; [done | by eexists | by eexists | done | done | done].
Qed.

(** ** Every table holds two-hop routes

    Whatever the ports and the topology are, the operations do not panic and
    keep the tables in the shape the flow decomposer relies on. *)

Section TwoHops.
Context `{GoRange}.
Variable getDeviceFromModel : string → outcome Device.
Hypothesis model_no_panic : ∀ id, getDeviceFromModel id ≠ Panic.

Definition hops_ok (dr : DeviceRoutes) : Prop := two_hops (dr_Routes dr).
#[local] Notation safe m := (spec hops_ok m (λ _, hops_ok) (λ _, hops_ok)).

Lemma two_hops_insert p r R : length r = 2%nat → two_hops R → two_hops (<[p := r]> R).
Proof. intros Hr HR q r' [[_ <-]|[_ Hq]]%lookup_insert_Some; [done | by eapply HR]. Qed.

Lemma hops_ok_reset dr : hops_ok (reset dr).
Proof. intros p r. by rewrite lookup_empty. Qed.

Lemma add_route_safe nni uni h0 h1 : safe (modify (add_route nni uni [h0; h1])).
Proof. apply spec_modify. intros s Hs. by repeat apply two_hops_insert. Qed.

Lemma modify_safe f : (∀ dr, dr_Routes (f dr) = dr_Routes dr) → safe (modify f).
Proof. intros Hf. apply spec_modify. intros s Hs. unfold hops_ok. by rewrite Hf. Qed.

Lemma fail_safe {A} e : spec hops_ok (fail (A := A) e) (λ _, hops_ok) (λ _, hops_ok).
Proof. by intros s Hs. Qed.

Lemma gets_safe {A} (f : DeviceRoutes → A) : safe (gets f).
Proof. by intros s Hs. Qed.

Lemma reset_fail_safe {A} e : spec hops_ok (let* _ := modify reset in fail (A := A) e) (λ _, hops_ok) (λ _, hops_ok).
Proof. intros s Hs. apply hops_ok_reset. Qed.

Lemma loop_safe {A} (f : A → M DeviceRoutes unit) l : (∀ x, safe (f x)) → safe (for_each f l).
Proof. intros Hf. apply spec_for_each_const. intros x _. apply Hf. Qed.

Lemma attempt_safe {A} (m : M DeviceRoutes A) :
  safe m → spec hops_ok (attempt m) (λ _, hops_ok) (λ _, hops_ok).
Proof. intros Hm s Hs. unfold attempt. specialize (Hm s Hs). by destruct (m s) as [[]]. Qed.

Lemma getDevice_safe id : safe (getDevice getDeviceFromModel id).
Proof.
  unfold getDevice. eapply (spec_bind _ _ (λ _, hops_ok)); [|intros d; eapply (spec_bind _ _ (λ _, hops_ok))].
  - intros s Hs. unfold lift. pose proof (model_no_panic id). by destruct (getDeviceFromModel id).
  - apply loop_safe. intros p. destruct (is_pon p); [by apply modify_safe | apply spec_skip].
  - intros []. by intros s Hs.
Qed.

Lemma process_nni_safe phys nni : safe (process_nni getDeviceFromModel phys nni).
Proof.
  unfold process_nni. eapply (spec_bind _ _ (λ _, hops_ok)); [apply getDevice_safe|]. intros d.
  case_decide; [apply fail_safe|]. apply loop_safe. intros p. case_decide; [|apply spec_skip].
  apply loop_safe. intros peer. unfold process_peer.
  eapply (spec_bind _ _ (λ _, hops_ok)); [apply getDevice_safe|]. intros c.
  eapply (spec_bind _ _ (λ _, hops_ok)); [apply gets_safe|]. intros [|pon ?]; [apply fail_safe|].
  apply loop_safe. intros cp. unfold process_child_port. case_decide; [|apply spec_skip].
  destruct (phys !! _); [apply add_route_safe | apply spec_skip].
Qed.

Lemma copy_all_two_hops new from u kvs :
  two_hops u → (∀ p r, (p, r) ∈ kvs → length r = 2%nat) →
  ∃ u', copy_all new from u kvs = Ok u' ∧ two_hops u'.
Proof.
  revert u. induction kvs as [|[[i e] val] kvs IH]; intros u Hu Hk; [by exists u|].
  assert (length val = 2%nat) as Hlen by (apply (Hk (mkPath i e)); set_solver).
  destruct val as [|v0 [|v1 [|]]]; try done.
  assert (∃ u1, copy_one new from u (mkPath i e, [v0; v1]) = Ok u1 ∧ two_hops u1) as (u1 & Hc & Hu1).
  { unfold copy_one. simpl. by repeat case_decide; cbn [obind]; eexists; (split; [done|]); repeat apply two_hops_insert. }
  cbn [copy_all]. rewrite Hc. cbn [obind]. apply IH; [done|]. intros p r Hin. apply (Hk p). set_solver.
Qed.

Lemma copyFromExistingNNIRoutes_safe new from : safe (copyFromExistingNNIRoutes new from).
Proof.
  intros dr Hdr. unfold copyFromExistingNNIRoutes, sbind, get, lift, modify.
  destruct (copy_all_two_hops new from ∅ (go_range (dr_Routes dr))) as (R & -> & HR); [done| |exact HR].
  intros p r Hin. apply (Hdr p). apply elem_of_map_to_list. by rewrite -go_range_perm.
Qed.

Lemma more_nnis_safe phys from nnis : safe (more_nnis getDeviceFromModel phys from nnis).
Proof.
  induction nnis as [|nni nnis IH]; cbn [more_nnis]; [apply spec_skip|].
  intros dr Hdr. unfold sbind at 1, get. destruct (decide _) as [Hd|Hd]; [by apply copyFromExistingNNIRoutes_safe|].
  clear Hd; revert dr Hdr. eapply (spec_bind _ _ (λ _, hops_ok)); [apply process_nni_safe | done].
Qed.

Lemma ComputeRoutes_safe lps : safe (ComputeRoutes getDeviceFromModel lps).
Proof.
  intros dr Hdr. unfold ComputeRoutes. case_decide; [done|].
  assert (safe (compute_body getDeviceFromModel lps)) as Hc.
  { unfold compute_body. eapply (spec_bind _ _ (λ _, hops_ok)); [by apply modify_safe|]. intros [].
    eapply (spec_bind _ _ (λ _, hops_ok)); [by apply modify_safe|]. intros [].
    destruct (nni_ports lps) as [|nni nnis]; [apply fail_safe|].
    eapply (spec_bind _ _ (λ _, hops_ok)); [apply process_nni_safe|]. intros []. apply more_nnis_safe. }
  specialize (Hc (reset dr) (hops_ok_reset dr)).
  by destruct (compute_body _ _ _) as [[[]|e|] dr'].
Qed.

Lemma add_uni_via_safe lp nni : safe (add_uni_via getDeviceFromModel lp nni).
Proof.
  unfold add_uni_via. eapply (spec_bind _ _ (λ _, hops_ok)); [apply gets_safe|]. intros cached.
  eapply (spec_bind _ _ (λ _, hops_ok)); [|intros [childPonPort peer]; apply add_route_safe].
  destruct cached as [pp|]; [by intros s Hs|].
  eapply (spec_bind _ _ (λ _, hops_ok)).
  { apply attempt_safe, getDevice_safe. }
  intros [_|e]; [|apply reset_fail_safe].
  eapply (spec_bind _ _ (λ _, hops_ok)); [apply gets_safe|]. intros [pp|]; [by intros s Hs | apply reset_fail_safe].
Qed.

Lemma AddPort_safe lp lps : safe (AddPort getDeviceFromModel lp lps).
Proof.
  intros dr Hdr. unfold AddPort. unfold sbind at 1, get. destruct (decide _) as [Hd|Hd]; [by apply ComputeRoutes_safe|].
  assert (safe (addPortAndVerifyPrecondition lp)) as Hpre.
  { unfold addPortAndVerifyPrecondition. intros s Hs. unfold sbind at 1, get.
    destruct (existsb (λ p, lp_PortNo p =? lp_PortNo lp) _); cbv beta iota zeta delta [sbind ret modify fail];
      by destruct (_ && _). }
  clear Hd; revert dr Hdr. eapply (spec_bind _ _ (λ _, hops_ok)).
  { apply attempt_safe, Hpre. }
  intros [_|e]; [|apply reset_fail_safe].
  eapply (spec_bind _ _ (λ _, hops_ok)).
  { destruct (lp_RootPort lp); [by apply modify_safe | apply spec_skip]. }
  intros []. eapply (spec_bind _ _ (λ _, hops_ok)); [apply gets_safe|]. intros nnis.
  destruct (list_find _ nnis) as [[? from]|]; [|apply spec_skip].
  destruct (lp_RootPort lp); [apply copyFromExistingNNIRoutes_safe|].
  apply loop_safe. intros nni. apply add_uni_via_safe.
Qed.
End TwoHops.
