(* ===== verification/CoreUtils.v ===== *)
(** * Asynchronous responses

    [rw_core/utils/core_utils.go]: the [Response] a goroutine completes and
    [WaitForNilOrErrorResponses], which collects the responses of several
    goroutines under one timeout. *)

From S2P Require Import Prelude.

(** ** Response *)

(** The shared [response] struct; [rsp_closed] is the state of its channel. *)
Record Response := mkResponse {
  rsp_err : option GoError; rsp_closed : bool; rsp_done : bool }.

Definition NewResponse : Response := mkResponse None false false.

Definition DoneResponse : Response := mkResponse None true true.

(** Closing a closed channel panics. *)
Definition close_ch : M Response unit := λ r,
  if rsp_closed r then (Panic, r) else (Ok tt, mkResponse (rsp_err r) true (rsp_done r)).

Definition Response_Error (err : GoError) : M Response unit :=
  let* _ := modify (λ r, mkResponse (Some err) (rsp_closed r) (rsp_done r)) in
  let* _ := modify (λ r, mkResponse (rsp_err r) (rsp_closed r) true) in
  close_ch.

Definition Response_Done : M Response unit :=
  let* r := get in
  if rsp_done r then ret tt else close_ch.

(** The calls a holder of the response can make. *)
Inductive response_call := call_Error (e : GoError) | call_Done.
Definition response_step (c : response_call) : M Response unit :=
  match c with call_Error e => Response_Error e | call_Done => Response_Done end.

(** the protocol of a response.  A new response survives a sequence of calls
    exactly when at most one of them closes the channel: a single [Error]
    followed by any number of [Done], or a single [Done].  Afterwards the
    channel is closed as soon as there was a call, and the error is that of the
    [Error] call. *)
Theorem response_protocol (cs : list response_call) :
  match for_each response_step cs NewResponse with
  | (Ok _, r) =>
      match cs with
      | [] => r = NewResponse
      | [call_Done] => rsp_closed r = true ∧ rsp_err r = None
      | call_Error e :: rest => rsp_closed r = true ∧ rsp_err r = Some e ∧ Forall (eq call_Done) rest
      | call_Done :: _ :: _ => False
      end
  | (Err _, _) => False
  | (Panic, _) =>
      match cs with
      | [] => False
      | call_Error _ :: rest => ¬ Forall (eq call_Done) rest
      | call_Done :: rest => rest ≠ []
      end
  end.
Proof.
  assert (∀ e rest, for_each response_step rest (mkResponse (Some e) true true) =
     (Ok tt, mkResponse (Some e) true true) ∧ Forall (eq call_Done) rest ∨
     (for_each response_step rest (mkResponse (Some e) true true)).1 = Panic ∧
     ¬ Forall (eq call_Done) rest) as Hrest.
  { intros e rest. induction rest as [|[e'|] rest IH]; [by left | right; split; [done|]|].
    - intros Hall. by apply Forall_cons in Hall as [? _].
    - simpl. unfold sbind. simpl. rewrite Forall_cons. destruct IH as [[-> ?]|[-> ?]]; [by left | right].
      split; [done | by intros [_ ?]]. }
  destruct cs as [|[e|] rest]; [done| |].
  - simpl. unfold sbind. simpl. specialize (Hrest e rest).
    destruct (for_each response_step rest _) as [[]]; simpl in *; naive_solver.
  - destruct rest as [|[e|] rest]; done.
Qed.

(** ** Waiting for responses *)

(** When a response completes, in milliseconds after the wait started, and with
    what error; [None] is a response that is never completed. *)
Definition completion := option (Z * option GoError).

Definition timeout_error : GoError := Status Aborted "timeout".

(** The two nested selects.  [tie] says which case the runtime chooses when the
    response and the timer become ready together. *)
Definition wait_one (tie : bool) (T now : Z) (r : completion) : option GoError * Z :=
  match r with
  | Some (t, err) =>
      if t <=? now then (err, now)
      else if (t <? T) || ((t =? T) && tie) then (err, t)
      else (Some timeout_error, Z.max now T)
  | None => (Some timeout_error, Z.max now T)
  end.

Fixpoint wait_loop (tie : nat → bool) (T now : Z) (i : nat) (rs : list completion)
    : list (option GoError) * Z :=
  match rs with
  | [] => ([], now)
  | r :: rs =>
      let (err, now') := wait_one (tie i) T now r in
      let (errs, last) := wait_loop tie T now' (S i) rs in
      (err :: errs, last)
  end.

(** The result ([None] is nil) and the time the call takes.  A timer with a
    negative duration fires at once. *)
Definition WaitForNilOrErrorResponses (tie : nat → bool) (timeout : Z) (responses : list completion)
    : option (list (option GoError)) * Z :=
  let (errors, elapsed) := wait_loop tie (Z.max 0 timeout) 0 0 responses in
  (if existsb (λ e : option GoError, bool_decide (is_Some e)) errors then Some errors else None, elapsed).

(** What the caller is told about one response. *)
Definition reported (T : Z) (r : completion) (e : option GoError) : Prop :=
  match r with
  | Some (t, err) => t < T ∧ e = err ∨ T < t ∧ e = Some timeout_error ∨
                     t = T ∧ (e = err ∨ e = Some timeout_error)
  | None => e = Some timeout_error
  end.

Lemma wait_one_spec tie T now r :
  now ≤ T → reported T r (wait_one tie T now r).1 ∧ now ≤ (wait_one tie T now r).2 ≤ T.
Proof.
  intros Hnow. unfold wait_one, reported. destruct r as [[t err]|]; simpl; [|split; [done|lia]].
  destruct (t <=? now) eqn:H1; simpl.
  { split; [|lia]. apply Z.leb_le in H1. destruct (decide (t = T)); [right; right; auto | left; split; [lia|done]]. }
  apply Z.leb_gt in H1. destruct (t <? T) eqn:H2; simpl.
  { split; [left; split; [lia|done] | lia]. }
  apply Z.ltb_ge in H2. destruct (t =? T) eqn:H3; simpl.
  { apply Z.eqb_eq in H3. destruct tie; simpl; (split; [right; right; auto | lia]). }
  apply Z.eqb_neq in H3. split; [right; left; split; [lia|done] | lia].
Qed.

Lemma wait_loop_spec tie T now i rs :
  now ≤ T →
  Forall2 (reported T) rs (wait_loop tie T now i rs).1 ∧ now ≤ (wait_loop tie T now i rs).2 ≤ T.
Proof.
  revert now i. induction rs as [|r rs IH]; intros now i Hnow; simpl; [split; [constructor|lia]|].
  pose proof (wait_one_spec (tie i) T now r Hnow) as [Hr Hn].
  destruct (wait_one (tie i) T now r) as [e now']; simpl in *.
  specialize (IH now' (S i) ltac:(lia)) as [Hrs Hl].
  destruct (wait_loop tie T now' (S i) rs) as [es last']; simpl in *.
  split; [by constructor | lia].
Qed.

Lemma errors_found (errors : list (option GoError)) :
  existsb (λ e : option GoError, bool_decide (is_Some e)) errors = true ↔ ∃ e, Some e ∈ errors.
Proof.
  rewrite existsb_exists. split.
  - intros (e & He%list_elem_of_In & [x ->]%bool_decide_eq_true). eauto.
  - intros [e He]. exists (Some e). rewrite -list_elem_of_In. split; [done | by apply bool_decide_eq_true].
Qed.

(** A nil result means that every response completed without error in time. *)
Lemma wait_nil tie timeout rs :
  (WaitForNilOrErrorResponses tie timeout rs).1 = None →
  ∀ r, r ∈ rs → ∃ t, r = Some (t, None) ∧ t ≤ Z.max 0 timeout.
Proof.
  unfold WaitForNilOrErrorResponses.
  pose proof (wait_loop_spec tie (Z.max 0 timeout) 0 0 rs ltac:(lia)) as [Hrep _].
  destruct (wait_loop tie _ 0 0 rs) as [errors elapsed]. simpl in *.
  destruct (existsb _ errors) eqn:Hb; [done|]. intros _ r Hr.
  apply list_elem_of_lookup in Hr as [i Hi].
  destruct (Forall2_lookup_l _ _ _ _ _ Hrep Hi) as (e & He & Hrepr).
  assert (e = None) as ->.
  { destruct e as [e|]; [|done]. apply list_elem_of_lookup_2 in He.
    by assert (false = true) by (rewrite -Hb; apply errors_found; eauto). }
  destruct r as [[t err]|]; [|done]. exists t.
  destruct Hrepr as [[? <-]|[[_ ?]|[-> [<-|?]]]]; split; (done || lia).
Qed.

