(* ===== verification/Ids.v ===== *)
(** * Identifiers

    [rw_core/core/id.go]: random device identifiers and the datapath identifier
    of a logical device, parsed from its hexadecimal identifier. *)

From S2P Require Import Prelude.

(** ** Hexadecimal encoding *)

Definition hex_digit (d : Z) : ascii :=
  if d <? 10 then ascii_of_nat (Z.to_nat (48 + d)) else ascii_of_nat (Z.to_nat (87 + d)).

(** [hex.EncodeToString]. *)
Fixpoint EncodeToString (bytes : list Z) : string :=
  match bytes with
  | [] => EmptyString
  | b :: bs => String (hex_digit (b / 16)) (String (hex_digit (b mod 16)) (EncodeToString bs))
  end.

(** [randomHex n]: [rand.Read] fills [n] bytes or fails; what it produced is an
    argument. *)
Definition randomHex (n : nat) (read : nat → outcome (list Z)) : outcome string :=
  let? bytes := read n in Ok (EncodeToString bytes).

(** The error is dropped: a failed read gives the empty identifier. *)
Definition CreateDeviceID (read : nat → outcome (list Z)) : string :=
  match randomHex 12 read with Ok val => val | _ => EmptyString end.

Definition CreateLogicalDeviceID (read : nat → outcome (list Z)) : string :=
  match randomHex 12 read with Ok val => val | _ => EmptyString end.

(** ** Parsing *)

(** The value of a character in the loop of [strconv.ParseUint]: a letter counts
    from 10 on, whatever the base. *)
Definition char_digit (c : ascii) : option Z :=
  let v := Z.of_nat (nat_of_ascii c) in
  if (48 <=? v) && (v <=? 57) then Some (v - 48)
  else if (97 <=? v) && (v <=? 122) then Some (v - 97 + 10)
  else if (65 <=? v) && (v <=? 90) then Some (v - 65 + 10)
  else None.

Definition syntax_error : GoError := Plain "invalid syntax".
Definition range_error : GoError := Plain "value out of range".

(** [maxVal/base + 1]. *)
Definition cutoff (base : Z) : Z := (2 ^ 64 - 1) / base + 1.

(** The loop of [strconv.ParseUint(_, base, 64)] on uint64. *)
Fixpoint parse_loop (base n : Z) (s : string) : outcome Z :=
  match s with
  | EmptyString => Ok n
  | String c s =>
      match char_digit c with
      | None => Err syntax_error
      | Some d =>
          if base <=? d then Err syntax_error
          else if cutoff base <=? n then Err range_error
          else
            let nb := u64 (n * base) in
            let n1 := u64 (nb + d) in
            if n1 <? nb then Err range_error else parse_loop base n1 s
      end
  end.

(** [strconv.ParseUint(s, 0, 64)]: the prefix selects the base. *)
Definition ParseUint (s : string) : outcome Z :=
  match s with
  | EmptyString => Err syntax_error
  | String c0 (String c1 rest) =>
      if decide (c0 = "0"%char) then
        if decide (c1 = "x"%char ∨ c1 = "X"%char) then
          match rest with
          | EmptyString => Err syntax_error
          | _ => parse_loop 16 0 rest
          end
        else parse_loop 8 0 (String c1 rest)
      else parse_loop 10 0 s
  | String c0 EmptyString =>
      if decide (c0 = "0"%char) then parse_loop 8 0 EmptyString else parse_loop 10 0 s
  end.

Definition CreateDataPathID (idInHexString : string) : outcome Z :=
  if decide (idInHexString = EmptyString) then Err (Plain "id-empty")
  else ParseUint ("0x" +:+ idInHexString).

(** ** Correctness *)

(** The number a string of hexadecimal digits denotes, after the prefix [n]. *)
Fixpoint hex_value (n : Z) (s : string) : option Z :=
  match s with
  | EmptyString => Some n
  | String c s =>
      match char_digit c with
      | Some d => if d <? 16 then hex_value (n * 16 + d) s else None
      | None => None
      end
  end.

Lemma char_digit_nonneg c d : char_digit c = Some d → 0 ≤ d.
Proof. unfold char_digit. intros Hd. repeat case_match; simplify_eq; lia. Qed.

Lemma hex_value_ge n s v : 0 ≤ n → hex_value n s = Some v → n ≤ v.
Proof.
  revert n. induction s as [|c s IH]; intros n Hn; simpl; [intros [= ->]; lia|].
  destruct (char_digit c) as [d|] eqn:Hd; [|done]. apply char_digit_nonneg in Hd.
  destruct (d <? 16); [|done]. intros Hv. apply IH in Hv; lia.
Qed.

Lemma parse_loop_16 n s :
  0 ≤ n < 2 ^ 64 →
  match hex_value n s with
  | Some v => parse_loop 16 n s = if decide (v < 2 ^ 64) then Ok v else Err range_error
  | None => ∃ e, parse_loop 16 n s = Err e
  end.
Proof.
  revert n. induction s as [|c s IH]; intros n Hn; cbn [hex_value parse_loop].
  { by rewrite decide_True; last lia. }
  destruct (char_digit c) as [d|] eqn:Hd; [|by eexists]. apply char_digit_nonneg in Hd.
  destruct (Z.ltb_spec d 16) as [Hlt|Hge]; destruct (Z.leb_spec 16 d) as [Hle|Hgt]; try lia; [|by eexists].
  change (cutoff 16) with (2 ^ 60). destruct (Z.leb_spec (2 ^ 60) n) as [Hbig|Hsmall].
  { destruct (hex_value (n * 16 + d) s) as [v|] eqn:Hv; [|by eexists].
    apply hex_value_ge in Hv; [|lia]. by rewrite decide_False; last lia. }
  unfold u64. rewrite (Z.mod_small (n * 16)); last lia. rewrite Z.mod_small; last lia.
  destruct (Z.ltb_spec (n * 16 + d) (n * 16)) as [|_]; [lia|]. apply IH. lia.
Qed.

(** a datapath identifier is created exactly from the non-empty strings of
    hexadecimal digits (either case) whose value fits 64 bits, and it is that
    value; every other string is rejected with an error, never truncated. *)
Theorem create_datapath_id_correct (s : string) :
  match CreateDataPathID s with
  | Ok d => s ≠ EmptyString ∧ hex_value 0 s = Some d ∧ 0 ≤ d < 2 ^ 64
  | Err _ => s = EmptyString ∨ hex_value 0 s = None ∨ ∃ v, hex_value 0 s = Some v ∧ 2 ^ 64 ≤ v
  | Panic => False
  end.
Proof.
  unfold CreateDataPathID. case_decide as Hs; [by left|].
  destruct s as [|c s]; [done|].
  change (ParseUint ("0x" +:+ String c s)) with (parse_loop 16 0 (String c s)).
  pose proof (parse_loop_16 0 (String c s) ltac:(lia)) as Hp.
  destruct (hex_value 0 (String c s)) as [v|] eqn:Hv.
  - rewrite Hp. apply hex_value_ge in Hv as Hge; [|lia].
    case_decide; [split_and!; (done || lia) | right; right; exists v; split; [done|lia]].
  - destruct Hp as [e ->]. right; by left.
Qed.

(** The number a big-endian byte sequence denotes. *)
Definition be_value (n : Z) (bytes : list Z) : Z := foldl (λ n b, n * 256 + b) n bytes.

Lemma char_digit_hex d : 0 ≤ d < 16 → char_digit (hex_digit d) = Some d.
Proof.
  intros Hd. assert (d = 0 ∨ d = 1 ∨ d = 2 ∨ d = 3 ∨ d = 4 ∨ d = 5 ∨ d = 6 ∨ d = 7 ∨ d = 8 ∨
    d = 9 ∨ d = 10 ∨ d = 11 ∨ d = 12 ∨ d = 13 ∨ d = 14 ∨ d = 15) as Hcases by lia.
  repeat destruct Hcases as [-> | Hcases]; try done. by subst.
Qed.

Lemma hex_value_encode n bytes :
  Forall (λ b, 0 ≤ b < 256) bytes → hex_value n (EncodeToString bytes) = Some (be_value n bytes).
Proof.
  intros Hall. revert n. induction Hall as [|b bs Hb Hall IH]; intros n; [done|].
  cbn [EncodeToString hex_value be_value foldl].
  assert (0 ≤ b / 16 < 16) by (split; [apply Z.div_pos; lia | apply Z.div_lt_upper_bound; lia]).
  assert (0 ≤ b mod 16 < 16) by (apply Z.mod_pos_bound; lia).
  rewrite char_digit_hex //. rewrite (proj2 (Z.ltb_lt _ _)); last lia.
  rewrite char_digit_hex //. rewrite (proj2 (Z.ltb_lt _ _)); last lia.
  rewrite IH. unfold be_value. f_equal. f_equal. pose proof (Z.div_mod b 16). lia.
Qed.

Lemma be_value_bound n bytes :
  Forall (λ b, 0 ≤ b < 256) bytes → 0 ≤ n →
  0 ≤ be_value n bytes < (n + 1) * 256 ^ Z.of_nat (length bytes).
Proof.
  intros Hall. revert n. unfold be_value. induction Hall as [|b bs Hb Hall IH]; intros n Hn.
  { cbn. lia. }
  cbn [foldl length]. rewrite Nat2Z.inj_succ Z.pow_succ_r; last lia.
  specialize (IH (n * 256 + b) ltac:(lia)).
  assert (0 < 256 ^ Z.of_nat (length bs)) by (apply Z.pow_pos_nonneg; lia). nia.
Qed.

(** the datapath identifier of a logical device named after a hardware
    address is that address: encoding one to eight bytes and parsing them back
    gives their big-endian value. *)
Theorem datapath_id_roundtrip (bytes : list Z) :
  (1 ≤ length bytes ≤ 8)%nat → Forall (λ b, 0 ≤ b < 256) bytes →
  CreateDataPathID (EncodeToString bytes) = Ok (be_value 0 bytes) ∧
  0 ≤ be_value 0 bytes < 256 ^ Z.of_nat (length bytes).
Proof.
  intros Hlen Hall. pose proof (be_value_bound 0 bytes Hall ltac:(lia)) as Hb.
  split; [|lia]. pose proof (hex_value_encode 0 bytes Hall) as Hv.
  assert (256 ^ Z.of_nat (length bytes) ≤ 256 ^ 8) by (apply Z.pow_le_mono_r; lia).
  unfold CreateDataPathID. destruct bytes as [|b bs]; [simpl in Hlen; lia|].
  cbn [EncodeToString] in Hv |- *. destruct (decide _) as [|_]; [done|].
  match goal with |- ParseUint ("0x" +:+ ?s) = _ => change (parse_loop 16 0 s = Ok (be_value 0 (b :: bs))) end.
  match type of Hv with hex_value 0 ?s = _ => pose proof (parse_loop_16 0 s ltac:(lia)) as Hp end.
  rewrite Hv in Hp. rewrite Hp decide_True //. lia.
Qed.

(** The address 00:0c:e2:31:05:00. *)
Lemma datapath_id_roundtrip_witness :
  CreateDataPathID "000ce2310500" = Ok 0x0ce2310500.
Proof.
  refine (proj1 (datapath_id_roundtrip [0; 0x0c; 0xe2; 0x31; 0x05; 0x00] _ _)); [simpl; lia|].
  repeat constructor; lia.
Defined.

(** A device identifier has 24 hexadecimal digits. *)
Lemma EncodeToString_length bytes : String.length (EncodeToString bytes) = (2 * length bytes)%nat.
Proof. induction bytes as [|b bs IH]; [done|]. cbn [EncodeToString String.length length]. lia. Qed.

(** A device identifier is 24 hexadecimal digits long when the random source
    delivers (12 bytes), and empty when it fails. *)
Theorem create_device_id_length (read : nat → outcome (list Z)) :
  (∀ n bytes, read n = Ok bytes → length bytes = n) →
  String.length (CreateDeviceID read) =
    match read 12%nat with Ok _ => 24%nat | _ => 0%nat end.
Proof.
  intros Hread. unfold CreateDeviceID, randomHex.
  destruct (read 12%nat) as [bytes|e|] eqn:Hr; [|done|done].
  cbn [obind]. by rewrite EncodeToString_length (Hread _ _ Hr).
Qed.

Lemma create_device_id_length_witness :
  String.length (CreateDeviceID (λ n, Ok (replicate n 0))) = 24%nat.
Proof.
  refine (create_device_id_length (λ n, Ok (replicate n 0)) _).
  intros n bytes [= <-]. apply length_replicate.
Defined.
