(* ===== verification/Transitions.v ===== *)
(** * Device state transitions

    [rw_core/core/device_state_transitions.go]: the table of transitions and the
    choice of the handlers the device manager runs when the state of a device
    changes. *)

From S2P Require Import Prelude OpenFlow VolthaTypes.

Inductive TransDeviceType := parent | child | any.

(** The methods of the device manager the table refers to. *)
Inductive TransitionHandler :=
  | CreateLogicalDevice | SetupUNILogicalPorts | RunPostDeviceDelete
  | DisableAllChildDevices | DeleteAllChildDevices | DeleteLogicalDevice
  | ChildDeviceLost | DeleteLogicalPorts | NotifyInvalidTransition.

Record DeviceState := mkState {
  st_Admin : AdminState; st_Connection : ConnectStatus; st_Operational : OperStatus }.

#[export] Instance TransDeviceType_eq_dec : EqDecision TransDeviceType.
Proof. solve_decision. Defined.
#[export] Instance TransitionHandler_eq_dec : EqDecision TransitionHandler.
Proof. solve_decision. Defined.
#[export] Instance DeviceState_eq_dec : EqDecision DeviceState.
Proof. solve_decision. Defined.

Record Transition := mkTransition {
  tr_deviceType : TransDeviceType;
  tr_previousState : DeviceState;
  tr_currentState : DeviceState;
  tr_handlers : list TransitionHandler }.

(** The connection status is UNKNOWN in every entry of the table. *)
Definition entry (ty : TransDeviceType) (pAdmin : AdminState) (pOper : OperStatus)
    (cAdmin : AdminState) (cOper : OperStatus) (handlers : list TransitionHandler) : Transition :=
  mkTransition ty (mkState pAdmin Conn_UNKNOWN pOper) (mkState cAdmin Conn_UNKNOWN cOper) handlers.

Definition NewTransitionMap : list Transition := [
  entry parent Admin_ENABLED Oper_ACTIVATING Admin_ENABLED Oper_ACTIVE [CreateLogicalDevice];
  entry child Admin_ENABLED Oper_DISCOVERED Admin_ENABLED Oper_ACTIVE [SetupUNILogicalPorts];
  entry child Admin_ENABLED Oper_ACTIVATING Admin_ENABLED Oper_ACTIVE [SetupUNILogicalPorts];
  entry any Admin_PREPROVISIONED Oper_UNKNOWN Admin_DELETED Oper_UNKNOWN [RunPostDeviceDelete];
  entry parent Admin_DISABLED Oper_UNKNOWN Admin_DELETED Oper_UNKNOWN
    [DisableAllChildDevices; DeleteAllChildDevices; DeleteLogicalDevice; RunPostDeviceDelete];
  entry child Admin_DISABLED Oper_UNKNOWN Admin_DELETED Oper_UNKNOWN
    [ChildDeviceLost; DeleteLogicalPorts; RunPostDeviceDelete];
  entry child Admin_ENABLED Oper_UNKNOWN Admin_DELETED Oper_UNKNOWN
    [ChildDeviceLost; DeleteLogicalPorts; RunPostDeviceDelete];
  entry any Admin_ENABLED Oper_ACTIVE Admin_ENABLED Oper_ACTIVATING [NotifyInvalidTransition];
  entry any Admin_ENABLED Oper_ACTIVATING Admin_ENABLED Oper_UNKNOWN [NotifyInvalidTransition];
  entry any Admin_PREPROVISIONED Oper_UNKNOWN Admin_UNKNOWN Oper_UNKNOWN [NotifyInvalidTransition];
  entry any Admin_ENABLED Oper_UNKNOWN Admin_DOWNLOADING_IMAGE Oper_UNKNOWN [NotifyInvalidTransition];
  entry any Admin_ENABLED Oper_UNKNOWN Admin_UNKNOWN Oper_UNKNOWN [NotifyInvalidTransition];
  entry parent Admin_ENABLED Oper_ACTIVE Admin_ENABLED Oper_ACTIVATING [NotifyInvalidTransition];
  entry any Admin_ENABLED Oper_ACTIVATING Admin_ENABLED Oper_UNKNOWN [NotifyInvalidTransition];
  entry any Admin_ENABLED Oper_UNKNOWN Admin_PREPROVISIONED Oper_UNKNOWN [NotifyInvalidTransition];
  entry child Admin_DISABLED Oper_UNKNOWN Admin_UNKNOWN Oper_UNKNOWN [NotifyInvalidTransition];
  entry any Admin_DISABLED Oper_UNKNOWN Admin_PREPROVISIONED Oper_UNKNOWN [NotifyInvalidTransition];
  entry any Admin_DOWNLOADING_IMAGE Oper_UNKNOWN Admin_DISABLED Oper_UNKNOWN [NotifyInvalidTransition] ].

Definition getDeviceStates (device : Device) : DeviceState :=
  mkState (dev_AdminState device) (dev_ConnectStatus device) (dev_OperStatus device).

(** The handlers ([None] is nil) and whether the match is exact. *)
Definition getHandler (previous current : DeviceState) (t : Transition)
    : option (list TransitionHandler) * bool :=
  let p := tr_previousState t in
  let c := tr_currentState t in
  if decide (previous = p ∧ current = c) then (Some (tr_handlers t), true)
  else if decide (st_Admin previous ≠ st_Admin p ∨ st_Admin current ≠ st_Admin c) then (None, false)
  else if decide (st_Admin previous ≠ st_Admin current ∧
                  st_Admin previous = st_Admin p ∧ st_Admin current = st_Admin c)
  then (Some (tr_handlers t), false)
  else if decide (st_Operational previous ≠ st_Operational current ∧
                  st_Operational previous = st_Operational p ∧ st_Operational current = st_Operational c)
  then (Some (tr_handlers t), false)
  else if decide (st_Connection previous ≠ st_Connection current ∧
                  st_Connection previous = st_Connection p ∧ st_Connection current = st_Connection c)
  then (Some (tr_handlers t), false)
  else (None, false).

(** The loop over the table, with its two variables. *)
Fixpoint find_transition (deviceType : TransDeviceType) (pState cState : DeviceState)
    (currentMatch : option (list TransitionHandler)) (stateMatchFound : bool)
    (transitions : list Transition) : option (list TransitionHandler) :=
  match transitions with
  | [] => currentMatch
  | t :: ts =>
      if decide (tr_deviceType t ≠ deviceType ∧ tr_deviceType t ≠ any) then
        find_transition deviceType pState cState currentMatch stateMatchFound ts
      else
        match getHandler pState cState t with
        | (Some hs, true) =>
            if decide (tr_deviceType t = deviceType) then Some hs
            else find_transition deviceType pState cState (Some hs) true ts
        | (Some hs, false) =>
            match currentMatch with
            | None =>
                if stateMatchFound then find_transition deviceType pState cState None true ts
                else find_transition deviceType pState cState (Some hs) false ts
            | Some _ => find_transition deviceType pState cState currentMatch stateMatchFound ts
            end
        | (None, _) => find_transition deviceType pState cState currentMatch stateMatchFound ts
        end
  end.

Definition GetTransitionHandler (transitions : list Transition) (pDevice cDevice : Device)
    : option (list TransitionHandler) :=
  find_transition (if dev_Root pDevice then parent else child)
    (getDeviceStates pDevice) (getDeviceStates cDevice) None false transitions.

(** ** The contract of the table *)

(** The handlers as a function of the change: an administrative change decides
    alone; otherwise only operational changes of an enabled device count. *)
Definition expected_handlers (root : bool) (p c : DeviceState) : option (list TransitionHandler) :=
  if decide (st_Admin p = st_Admin c) then
    match st_Admin p, st_Operational p, st_Operational c with
    | Admin_ENABLED, Oper_ACTIVATING, Oper_ACTIVE =>
        Some [if root then CreateLogicalDevice else SetupUNILogicalPorts]
    | Admin_ENABLED, Oper_DISCOVERED, Oper_ACTIVE => if root then None else Some [SetupUNILogicalPorts]
    | Admin_ENABLED, Oper_ACTIVE, Oper_ACTIVATING
    | Admin_ENABLED, Oper_ACTIVATING, Oper_UNKNOWN => Some [NotifyInvalidTransition]
    | _, _, _ => None
    end
  else
    match st_Admin p, st_Admin c with
    | Admin_PREPROVISIONED, Admin_DELETED => Some [RunPostDeviceDelete]
    | Admin_DISABLED, Admin_DELETED =>
        if root then Some [DisableAllChildDevices; DeleteAllChildDevices; DeleteLogicalDevice; RunPostDeviceDelete]
        else Some [ChildDeviceLost; DeleteLogicalPorts; RunPostDeviceDelete]
    | Admin_ENABLED, Admin_DELETED =>
        if root then None else Some [ChildDeviceLost; DeleteLogicalPorts; RunPostDeviceDelete]
    | Admin_PREPROVISIONED, Admin_UNKNOWN
    | Admin_ENABLED, (Admin_DOWNLOADING_IMAGE | Admin_UNKNOWN | Admin_PREPROVISIONED)
    | Admin_DISABLED, Admin_PREPROVISIONED
    | Admin_DOWNLOADING_IMAGE, Admin_DISABLED => Some [NotifyInvalidTransition]
    | Admin_DISABLED, Admin_UNKNOWN => if root then None else Some [NotifyInvalidTransition]
    | _, _ => None
    end.

(** When the administrative state changes, an entry matches as soon as its
    administrative states do. *)
Lemma getHandler_admin_change p c t :
  st_Admin p ≠ st_Admin c →
  (getHandler p c t).1 =
    if decide (st_Admin p = st_Admin (tr_previousState t) ∧ st_Admin c = st_Admin (tr_currentState t))
    then Some (tr_handlers t) else None.
Proof.
  intros Hne. unfold getHandler.
  destruct (decide (p = _ ∧ c = _)) as [[-> ->]|]; [by rewrite decide_True|].
  destruct (decide (st_Admin p = st_Admin (tr_previousState t))),
    (decide (st_Admin c = st_Admin (tr_currentState t)));
    repeat (case_decide; simpl; try done); exfalso; tauto.
Qed.

(** When it does not, an entry matches when its administrative states do and its
    operational states are the ones of an operational change. *)
Lemma getHandler_admin_same p c t :
  st_Admin p = st_Admin c →
  st_Connection (tr_previousState t) = st_Connection (tr_currentState t) →
  (st_Admin (tr_previousState t) = st_Admin (tr_currentState t) →
     st_Operational (tr_previousState t) ≠ st_Operational (tr_currentState t)) →
  (getHandler p c t).1 =
    if decide (st_Admin p = st_Admin (tr_previousState t) ∧ st_Admin c = st_Admin (tr_currentState t) ∧
               st_Operational p = st_Operational (tr_previousState t) ∧
               st_Operational c = st_Operational (tr_currentState t))
    then Some (tr_handlers t) else None.
Proof.
  intros Heq Hconn Hoper. unfold getHandler.
  destruct (decide (p = _ ∧ c = _)) as [[-> ->]|]; [by rewrite decide_True|].
  destruct (decide (st_Admin p = st_Admin (tr_previousState t))) as [Hp|],
    (decide (st_Admin c = st_Admin (tr_currentState t))) as [Hc|].
  { specialize (Hoper ltac:(congruence)).
    repeat (case_decide; simpl; try done); exfalso; intuition congruence. }
  all: repeat (case_decide; simpl; try done); exfalso; tauto.
Qed.

(** The handlers of the entries that match, in the order of the table. *)
Definition candidates (ty : TransDeviceType) (p c : DeviceState) (ts : list Transition)
    : list (list TransitionHandler) :=
  omap (λ t, if decide (tr_deviceType t ≠ ty ∧ tr_deviceType t ≠ any) then None
             else (getHandler p c t).1) ts.

(** When the matching entries agree, their priorities do not matter. *)
Lemma find_transition_candidates ty p c hs ts cm sm :
  Forall (eq hs) (candidates ty p c ts) →
  (cm = None ∧ sm = false ∨ cm = Some hs) →
  find_transition ty p c cm sm ts =
    match cm with Some h => Some h | None => head (candidates ty p c ts) end.
Proof.
  revert cm sm. induction ts as [|t ts IH]; intros cm sm Hall Hcm; simpl.
  { by destruct cm. }
  unfold candidates in Hall |- *. simpl in Hall |- *.
  destruct (decide _) as [|]; [by apply IH|].
  destruct (getHandler p c t) as [[h|] exact] eqn:Hg; simpl in *; [|by apply IH].
  apply Forall_cons in Hall as [-> Hall].
  destruct Hcm as [[-> ->]| ->]; destruct exact; try (case_decide; [done|]);
    rewrite (IH _ _ Hall); auto.
Qed.

Lemma candidates_admin_change ty p c ts :
  st_Admin p ≠ st_Admin c →
  candidates ty p c ts =
  omap (λ t, if decide (tr_deviceType t ≠ ty ∧ tr_deviceType t ≠ any) then None
             else if decide (st_Admin p = st_Admin (tr_previousState t) ∧
                             st_Admin c = st_Admin (tr_currentState t))
             then Some (tr_handlers t) else None) ts.
Proof.
  intros Hne. unfold candidates. induction ts as [|t ts IH]; [done|]. simpl.
  rewrite (getHandler_admin_change p c t Hne).
  destruct (decide _); [exact IH|]. destruct (decide _); [by f_equal | exact IH].
Qed.

(** The entries of the table that keep the administrative state change the
    operational state, and none changes the connection status. *)
Definition entry_ok (t : Transition) : Prop :=
  st_Connection (tr_previousState t) = st_Connection (tr_currentState t) ∧
  (st_Admin (tr_previousState t) = st_Admin (tr_currentState t) →
     st_Operational (tr_previousState t) ≠ st_Operational (tr_currentState t)).

Lemma NewTransitionMap_ok : Forall entry_ok NewTransitionMap.
Proof. unfold NewTransitionMap. repeat constructor; done. Qed.

Lemma candidates_admin_same ty p c ts :
  Forall entry_ok ts → st_Admin p = st_Admin c →
  candidates ty p c ts =
  omap (λ t, if decide (tr_deviceType t ≠ ty ∧ tr_deviceType t ≠ any) then None
             else if decide (st_Admin p = st_Admin (tr_previousState t) ∧
                             st_Admin c = st_Admin (tr_currentState t) ∧
                             st_Operational p = st_Operational (tr_previousState t) ∧
                             st_Operational c = st_Operational (tr_currentState t))
             then Some (tr_handlers t) else None) ts.
Proof.
  intros Hok Heq. unfold candidates. induction Hok as [|t ts [Hc Ho] Hok IH]; [done|]. simpl.
  rewrite (getHandler_admin_same p c t Heq Hc Ho).
  destruct (decide _); [exact IH|]. destruct (decide _); [by f_equal | exact IH].
Qed.

(** The candidates agree and are the ones of the contract. *)
Lemma candidates_expected (root : bool) (p c : DeviceState) :
  let cs := candidates (if root then parent else child) p c NewTransitionMap in
  head cs = expected_handlers root p c ∧ Forall (eq (default [] (head cs))) cs.
Proof.
  unfold expected_handlers. destruct (decide (st_Admin p = st_Admin c)) as [Heq|Hne].
  - rewrite (candidates_admin_same _ p c _ NewTransitionMap_ok Heq) -Heq.
    destruct (st_Admin p), (st_Operational p), (st_Operational c), root;
      vm_compute; by repeat constructor.
  - rewrite (candidates_admin_change _ p c _ Hne).
    destruct (st_Admin p), (st_Admin c), root; try done; vm_compute; by repeat constructor.
Qed.

Lemma handlers_expected (pDevice cDevice : Device) :
  GetTransitionHandler NewTransitionMap pDevice cDevice =
  expected_handlers (dev_Root pDevice) (getDeviceStates pDevice) (getDeviceStates cDevice).
Proof.
  unfold GetTransitionHandler.
  destruct (candidates_expected (dev_Root pDevice) (getDeviceStates pDevice) (getDeviceStates cDevice))
    as [Hhead Hall].
  rewrite (find_transition_candidates _ _ _ _ _ _ _ Hall); [exact Hhead | by left].
Qed.

(** The handlers of a deletion end with the clean-up. *)
Lemma cleanup_last (pDevice cDevice : Device) :
  dev_AdminState cDevice = Admin_DELETED →
  dev_AdminState pDevice = Admin_PREPROVISIONED ∨ dev_AdminState pDevice = Admin_DISABLED ∨
    dev_AdminState pDevice = Admin_ENABLED ∧ dev_Root pDevice = false →
  ∃ hs, GetTransitionHandler NewTransitionMap pDevice cDevice = Some (hs ++ [RunPostDeviceDelete]).
Proof.
  intros Hc Hp. rewrite handlers_expected /expected_handlers /= Hc.
  destruct Hp as [->|[->|[-> ->]]]; simpl.
  - by exists [].
  - destruct (dev_Root pDevice); [|by exists [ChildDeviceLost; DeleteLogicalPorts]].
    by exists [DisableAllChildDevices; DeleteAllChildDevices; DeleteLogicalDevice].
  - by exists [ChildDeviceLost; DeleteLogicalPorts].
Qed.

(** C25: the handlers chosen for a change of state are the ones of the contract
    [expected_handlers], for every pair of states, named or not: the priorities
    and exact matches of the table never select anything else. *)
Theorem get_transition_handler_refines (pDevice cDevice : Device) :
  GetTransitionHandler NewTransitionMap pDevice cDevice =
  expected_handlers (dev_Root pDevice) (getDeviceStates pDevice) (getDeviceStates cDevice).
Proof. apply handlers_expected. Qed.

(** a device that becomes DELETED is cleaned up (its last handler is
    [RunPostDeviceDelete]) exactly when it was pre-provisioned, disabled, or an
    enabled child; an enabled root device, or one that downloads an image, is
    deleted without any handler. *)
Theorem delete_runs_cleanup (pDevice cDevice : Device) :
  dev_AdminState pDevice ≠ Admin_DELETED → dev_AdminState cDevice = Admin_DELETED →
  match GetTransitionHandler NewTransitionMap pDevice cDevice with
  | Some hs => last hs = Some RunPostDeviceDelete ∧
      (dev_AdminState pDevice = Admin_PREPROVISIONED ∨ dev_AdminState pDevice = Admin_DISABLED ∨
       dev_AdminState pDevice = Admin_ENABLED ∧ dev_Root pDevice = false)
  | None =>
      dev_AdminState pDevice ≠ Admin_PREPROVISIONED ∧ dev_AdminState pDevice ≠ Admin_DISABLED ∧
      (dev_AdminState pDevice = Admin_ENABLED → dev_Root pDevice = true)
  end.
Proof.
  intros Hp Hc. unfold GetTransitionHandler.
  destruct (candidates_expected (dev_Root pDevice) (getDeviceStates pDevice) (getDeviceStates cDevice))
    as [Hhead Hall].
  rewrite (find_transition_candidates _ _ _ _ _ _ _ Hall); last by left.
  rewrite Hhead /expected_handlers /= Hc. rewrite decide_False //.
  destruct (dev_AdminState pDevice), (dev_Root pDevice); simpl; try done; split_and!; try done; auto.
Qed.

(** An enabled OLT that is deleted: no handler runs. *)
Lemma delete_runs_cleanup_witness :
  let olt s := mkDevice "olt" "" true "" 0 "" "" "" "" "" "" "" 0 "" None "" None
                 s Oper_ACTIVE "" Conn_REACHABLE [] [] [] None None in
  GetTransitionHandler NewTransitionMap (olt Admin_ENABLED) (olt Admin_DELETED) = None ∧
  (dev_AdminState (olt Admin_ENABLED) = Admin_ENABLED → dev_Root (olt Admin_ENABLED) = true).
Proof.
  intros olt. split; [by vm_compute|].
  exact (proj2 (proj2 (delete_runs_cleanup (olt Admin_ENABLED) (olt Admin_DELETED)
    ltac:(done) eq_refl))).
Defined.
