(* ===== verification/Decomposer.v ===== *)
(** * Flow decomposition

    [rw_core/flowdecomposition/flow_decomposer.go]: a flow of the logical device
    becomes flows of the devices on its route.  The logical device agent and the
    device manager are used through their interfaces. *)

From S2P Require Import Prelude OpenFlow VolthaTypes FlowUtils Routes.

(** ** Interfaces *)

(** [coreif.LogicalDeviceAgent], as far as the decomposer uses it. *)
Class LogicalDeviceAgent := {
  la_GetRoute : Z → Z → outcome (list Hop);
  la_IsRootPort : Z → bool;
  la_GetWildcardInputPorts : Z → list Z;
  la_GetNNIPorts : list Z
}.

(** [coreif.DeviceManager]; the error of [IsRootDevice] is ignored. *)
Class DeviceManagerView := {
  dm_GetDevice : string → outcome Device;
  dm_IsRootDevice : string → bool
}.

(** What the agent promises: a route has two hops, and asking for one does not
    panic.  The device manager does not panic either. *)
Class AgentLaws `{LogicalDeviceAgent, DeviceManagerView} : Prop := {
  route_two_hops : ∀ i o p, la_GetRoute i o = Ok p → length p = 2%nat;
  route_no_panic : ∀ i o, la_GetRoute i o ≠ Panic;
  device_no_panic : ∀ id, dm_GetDevice id ≠ Panic
}.

Section Decomposer.
Context `{ProtoText, GoRange, LogicalDeviceAgent, DeviceManagerView}.

(** ** Flow arguments *)

(** The arguments common to the decomposed flows. *)
Definition trap_nni_kv (flow : OfpFlowStats) : OfpFlowModArgs :=
  <["priority" := fs_Priority flow]> {["cookie" := fs_Cookie flow]}.
Definition flow_kv (flow : OfpFlowStats) : OfpFlowModArgs :=
  <["priority" := fs_Priority flow]> (<["cookie" := fs_Cookie flow]>
  (<["meter_id" := GetMeterIdFromFlow flow]>
    {["write_metadata" := GetMetadataFromWriteMetadataAction flow]})).

(** A single-flow [FlowsAndGroups]. *)
Definition one_flow (fa : FlowArgs) : FlowsAndGroups := fg_AddFlow NewFlowsAndGroups (MkFlowStat fa).

(** ** Controller-bound flows *)

(** The child's part for one input port. *)
Definition trap_child_actions (ingressHop : Hop) (setvid : option Z) : list OfpAction :=
  match setvid with
  | Some vid => [PushVlan 0x8100; SetField (VlanVid vid); Output (hop_Egress ingressHop)]
  | None => [Output (hop_Egress ingressHop)]
  end.

Definition trap_parent_args (egressHop : Hop) (flow : OfpFlowStats) (inputPort : Z)
    (fields : list (option OfpOxmOfbField)) : FlowArgs :=
  mkFlowArgs ([Some (InPort (hop_Ingress egressHop)); Some (TunnelId inputPort)] ++ fields)
    [PushVlan 0x8100; SetField (VlanVid (Z.lor OFPVID_PRESENT 4000)); Output (hop_Egress egressHop)]
    None (flow_kv flow).

Definition trap_child_args (ingressHop : Hop) (flow : OfpFlowStats) (inputPort : Z)
    (setvid : option Z) (fields : list (option OfpOxmOfbField)) : FlowArgs :=
  mkFlowArgs ([Some (InPort (hop_Ingress ingressHop)); Some (TunnelId inputPort)] ++ fields)
    (trap_child_actions ingressHop setvid) None (flow_kv flow).

(** The loop over the input ports. *)
Fixpoint trap_uni_loop (ingressHop egressHop : Hop) (flow : OfpFlowStats)
    (deviceRules : DeviceRules) (inPorts : list Z) : outcome DeviceRules :=
  match inPorts with
  | [] => Ok deviceRules
  | inputPort :: inPorts =>
      let? fields := GetOfbFields flow [IN_PORT] in
      let deviceRules := AddFlowsAndGroup deviceRules (hop_DeviceID egressHop)
        (one_flow (trap_parent_args egressHop flow inputPort fields)) in
      let? setvid := GetVlanVid flow in
      let? childFields := match setvid with
                          | Some _ => GetOfbFields flow [IN_PORT; VLAN_VID]
                          | None => GetOfbFields flow [IN_PORT]
                          end in
      let deviceRules := AddFlowsAndGroup deviceRules (hop_DeviceID ingressHop)
        (one_flow (trap_child_args ingressHop flow inputPort setvid childFields)) in
      trap_uni_loop ingressHop egressHop flow deviceRules inPorts
  end.

Definition trap_nni_args (egressHop : Hop) (flow : OfpFlowStats)
    (fields : list (option OfpOxmOfbField)) : FlowArgs :=
  mkFlowArgs (Some (InPort (hop_Egress egressHop)) :: fields) (GetActions flow []) None
    (trap_nni_kv flow).

Definition processControllerBoundFlow (path : list Hop) (inPortNo outPortNo : Z)
    (flow : OfpFlowStats) : outcome DeviceRules :=
  let? ingressHop := index path 0 in
  let? egressHop := index path 1 in
  if la_IsRootPort inPortNo then
    let? fields := GetOfbFields flow [IN_PORT] in
    Ok (AddFlowsAndGroup NewDeviceRules (hop_DeviceID egressHop)
          (one_flow (trap_nni_args egressHop flow fields)))
  else
    let inPorts := if decide (inPortNo = 0) then la_GetWildcardInputPorts (hop_Egress egressHop)
                   else [inPortNo] in
    trap_uni_loop ingressHop egressHop flow NewDeviceRules inPorts.

(** ** Upstream flows *)

Definition upstream_onu_args (ingressHop : Hop) (inPortNo : Z) (flow : OfpFlowStats)
    (fields : list (option OfpOxmOfbField)) : FlowArgs :=
  mkFlowArgs ([Some (InPort (hop_Ingress ingressHop)); Some (TunnelId inPortNo)] ++ fields)
    (GetActions flow [] ++ [Output (hop_Egress ingressHop)]) None (flow_kv flow).

Definition upstream_olt_args (egressHop : Hop) (inPortNo : Z) (flow : OfpFlowStats)
    (fields : list (option OfpOxmOfbField)) : FlowArgs :=
  mkFlowArgs ([Some (InPort (hop_Ingress egressHop)); Some (TunnelId inPortNo)] ++ fields)
    (GetActions flow [OUTPUT] ++ [Output (hop_Egress egressHop)]) None (flow_kv flow).

Definition processUpstreamNonControllerBoundFlow (path : list Hop) (inPortNo outPortNo : Z)
    (flow : OfpFlowStats) : outcome DeviceRules :=
  let? ingressHop := index path 0 in
  let? egressHop := index path 1 in
  if (fs_TableId flow =? 0) && HasNextTable flow then
    if negb (outPortNo =? 0) then Ok NewDeviceRules
    else
      let? fields := GetOfbFields flow [IN_PORT] in
      Ok (AddFlowsAndGroup NewDeviceRules (hop_DeviceID ingressHop)
            (one_flow (upstream_onu_args ingressHop inPortNo flow fields)))
  else if (fs_TableId flow =? 1) && negb (outPortNo =? 0) then
    let? fields := GetOfbFields flow [IN_PORT] in
    Ok (AddFlowsAndGroup NewDeviceRules (hop_DeviceID egressHop)
          (one_flow (upstream_olt_args egressHop inPortNo flow fields)))
  else Ok NewDeviceRules.

(** ** Downstream flows *)

Definition downstream_metadata_args (ingressHop : Hop) (portNumber innerTag : Z)
    (flow : OfpFlowStats) (fields : list (option OfpOxmOfbField)) : FlowArgs :=
  mkFlowArgs ([Some (InPort (hop_Ingress ingressHop)); Some (Metadata_ofp innerTag);
               Some (TunnelId portNumber)] ++ fields)
    (GetActions flow [] ++ [Output (hop_Egress ingressHop)]) None (flow_kv flow).

Definition downstream_standard_args (ingressHop : Hop) (inPortNo : Z) (flow : OfpFlowStats)
    (fields : list (option OfpOxmOfbField)) : FlowArgs :=
  mkFlowArgs ([Some (InPort (hop_Ingress ingressHop)); Some (TunnelId inPortNo)] ++ fields)
    (GetActions flow [] ++ [Output (hop_Egress ingressHop)]) None (flow_kv flow).

(** The ingress hop of the route to the port of the metadata word; [None] when
    the flow is dropped. *)
Definition recalculated_ingress (ingressHop : Hop) (inPortNo portNumber : Z) : outcome (option Hop) :=
  if decide (portNumber = 0) then Ok (Some ingressHop)
  else match la_GetRoute inPortNo portNumber with
       | Ok [h0; _] => Ok (Some h0)
       | Ok _ => Ok None
       | Err _ => Ok None
       | Panic => Panic
       end.

Definition processDownstreamFlowWithNextTable (path : list Hop) (inPortNo outPortNo : Z)
    (flow : OfpFlowStats) : outcome DeviceRules :=
  if negb (outPortNo =? 0) then Ok NewDeviceRules
  else if negb (fs_TableId flow =? 0) then Ok NewDeviceRules
  else
    let? ingressHop := index path 0 in
    let? egressHop := index path 1 in
    if negb (GetMetadataFromWriteMetadataAction flow =? 0) then
      let portNumber := GetEgressPortNumberFromWriteMetadata flow in
      let? recalculated := recalculated_ingress ingressHop inPortNo portNumber in
      match recalculated with
      | None => Ok NewDeviceRules
      | Some ingressHop =>
          let innerTag := GetInnerTagFromMetaData flow in
          if innerTag =? 0 then Ok NewDeviceRules
          else
            let? fields := GetOfbFields flow [IN_PORT; METADATA] in
            Ok (AddFlowsAndGroup NewDeviceRules (hop_DeviceID ingressHop)
                  (one_flow (downstream_metadata_args ingressHop portNumber innerTag flow fields)))
      end
    else
      let? fields := GetOfbFields flow [IN_PORT] in
      Ok (AddFlowsAndGroup NewDeviceRules (hop_DeviceID ingressHop)
            (one_flow (downstream_standard_args ingressHop inPortNo flow fields))).

Definition unicast_args (egressHop : Hop) (flow : OfpFlowStats)
    (fields : list (option OfpOxmOfbField)) : FlowArgs :=
  mkFlowArgs (Some (InPort (hop_Ingress egressHop)) :: fields)
    (GetActions flow [OUTPUT] ++ [Output (hop_Egress egressHop)]) None (flow_kv flow).

Definition processUnicastFlow (path : list Hop) (inPortNo outPortNo : Z) (flow : OfpFlowStats)
    : outcome DeviceRules :=
  let? egressHop := index path 1 in
  let? fields := GetOfbFields flow [IN_PORT] in
  Ok (AddFlowsAndGroup NewDeviceRules (hop_DeviceID egressHop)
        (one_flow (unicast_args egressHop flow fields))).

(** [groupMap] maps a group id to its entry. *)
Definition processMulticastFlow (path : list Hop) (inPortNo outPortNo : Z) (flow : OfpFlowStats)
    (grpID : Z) (groupMap : gmap Z OfpGroupEntry) : outcome DeviceRules :=
  match groupMap !! grpID with
  | None => Ok NewDeviceRules
  | Some grp =>
      match ge_Desc grp with
      | None => Ok NewDeviceRules
      | Some _ =>
          let? hop := index path 0 in
          Ok (AddFlowsAndGroup (CreateEntryIfNotExist NewDeviceRules (hop_DeviceID hop))
                (hop_DeviceID hop) (fg_AddFlow NewFlowsAndGroups flow))
      end
  end.

(** ** Trap flows of the parent device go to the controller *)

Definition is_trap_field (field : option OfpOxmOfbField) : bool :=
  bool_decide (ofb_field_string field = ofb_field_string (Some (EthType 0x888e)))
  || bool_decide (ofb_field_string field = ofb_field_string (Some (IpProto 2)))
  || bool_decide (ofb_field_string field = ofb_field_string (Some (IpProto 17))).

(** A nil result of [UpdateOutputPortByActionType] is dereferenced. *)
Definition redirect_flow (f : OfpFlowStats) : outcome OfpFlowStats :=
  let? fields := GetOfbFields f [] in
  let? f' := if existsb is_trap_field fields
             then deref (UpdateOutputPortByActionType f OFPIT_APPLY_ACTIONS OFPP_CONTROLLER)
             else Ok f in
  Ok (with_Id f' (HashFlowStats f')).

Fixpoint redirect_flows (deviceID : string) (newDeviceRules : DeviceRules)
    (flows : list OfpFlowStats) : outcome DeviceRules :=
  match flows with
  | [] => Ok newDeviceRules
  | f :: flows =>
      let? f' := redirect_flow f in
      redirect_flows deviceID (dr_AddFlow newDeviceRules deviceID f') flows
  end.

Fixpoint redirect_devices (newDeviceRules : DeviceRules) (rules : list (string * FlowsAndGroups))
    : outcome DeviceRules :=
  match rules with
  | [] => Ok newDeviceRules
  | (deviceID, fg) :: rules =>
      let? newDeviceRules :=
        if dm_IsRootDevice deviceID
        then redirect_flows deviceID (ClearFlows newDeviceRules deviceID) (fg_ListFlows fg)
        else Ok newDeviceRules in
      redirect_devices newDeviceRules rules
  end.

Definition updateOutputPortForControllerBoundFlowForParentDevide (dr : DeviceRules)
    : outcome DeviceRules :=
  redirect_devices dr (go_range dr).

(** ** One flow *)

Definition no_route_error (inPortNo outPortNo : Z) : GoError :=
  Status FailedPrecondition ("no route from:" +:+ pretty inPortNo +:+ " to:" +:+ pretty outPortNo).
Definition route_length_error (n : nat) : GoError :=
  Status Aborted ("invalid route length " +:+ pretty n).
Definition unknown_downstream_error : GoError := Status Aborted "unknown downstream flow".

(** The input port the route starts from. *)
Definition effective_in_port (flow : OfpFlowStats) : outcome Z :=
  let? inPortNo := GetInPort flow in
  Ok (if HasGroup flow && (inPortNo =? 0)
      then match la_GetNNIPorts with nni :: _ => nni | [] => inPortNo end
      else inPortNo).

Definition is_controller_bound (outPortNo : Z) : bool :=
  negb (outPortNo =? 0) && (Z.land outPortNo 0x7fffffff =? OFPP_CONTROLLER).

Definition decompose_on_path (path : list Hop) (inPortNo outPortNo : Z) (flow : OfpFlowStats)
    (groupMap : gmap Z OfpGroupEntry) : outcome DeviceRules :=
  if is_controller_bound outPortNo then processControllerBoundFlow path inPortNo outPortNo flow
  else
    let? hop := index path 0 in
    let? ingressDevice := dm_GetDevice (hop_DeviceID hop) in
    if negb (dev_Root ingressDevice) then
      processUpstreamNonControllerBoundFlow path inPortNo outPortNo flow
    else if HasNextTable flow && (fs_TableId flow =? 0) then
      processDownstreamFlowWithNextTable path inPortNo outPortNo flow
    else if (fs_TableId flow =? 1) && negb (outPortNo =? 0) then
      processUnicastFlow path inPortNo outPortNo flow
    else if negb (GetGroup flow =? 0) && (fs_TableId flow =? 0) then
      processMulticastFlow path inPortNo outPortNo flow (GetGroup flow) groupMap
    else Err unknown_downstream_error.

Definition decomposeFlow (flow : OfpFlowStats) (groupMap : gmap Z OfpGroupEntry)
    : outcome DeviceRules :=
  let? inPortNo := effective_in_port flow in
  let outPortNo := GetOutPort flow in
  let? path := la_GetRoute inPortNo outPortNo in
  match length path with
  | 0%nat => Err (no_route_error inPortNo outPortNo)
  | 2%nat =>
      let? deviceRules := decompose_on_path path inPortNo outPortNo flow groupMap in
      updateOutputPortForControllerBoundFlowForParentDevide deviceRules
  | n => Err (route_length_error n)
  end.

(** ** All the flows *)

Fixpoint build_group_map (m : gmap Z OfpGroupEntry) (groups : list OfpGroupEntry)
    : outcome (gmap Z OfpGroupEntry) :=
  match groups with
  | [] => Ok m
  | g :: groups => let? d := deref (ge_Desc g) in build_group_map (<[gd_GroupId d := g]> m) groups
  end.

(** The inner loop: the rules of one flow are added to the rules so far. *)
Fixpoint merge_rules (acc : DeviceRules * gset string) (rules : list (string * FlowsAndGroups))
    : outcome (DeviceRules * gset string) :=
  match rules with
  | [] => Ok acc
  | (deviceID, fg) :: rules =>
      let dr := CreateEntryIfNotExist acc.1 deviceID in
      let? fg' := fg_AddFrom (default NewFlowsAndGroups (dr !! deviceID)) fg in
      merge_rules (<[deviceID := fg']> dr, {[deviceID]} ∪ acc.2) rules
  end.

Fixpoint decompose_all (acc : DeviceRules * gset string) (flows : list OfpFlowStats)
    (groupMap : gmap Z OfpGroupEntry) : outcome (DeviceRules * gset string) :=
  match flows with
  | [] => Ok acc
  | flow :: flows =>
      let? decomposedRules := decomposeFlow flow groupMap in
      let? acc := merge_rules acc (go_range decomposedRules) in
      decompose_all acc flows groupMap
  end.

Definition DecomposeRules (flows : list OfpFlowStats) (groups : list OfpGroupEntry)
    : outcome DeviceRules :=
  let? groupMap := build_group_map ∅ groups in
  let? acc := decompose_all (NewDeviceRules, ∅) flows groupMap in
  Ok (FilterRules acc.1 acc.2).

End Decomposer.

(** ** Well-formed flows *)

(** The match fields of the basic class are present, and so are the action lists
    of the APPLY_ACTIONS instructions. *)
Definition fields_ok (flow : OfpFlowStats) : Prop :=
  ∃ fields, GetOfbFields flow [] = Ok fields ∧ Forall is_Some fields.
Definition actions_ok (flow : OfpFlowStats) : Prop :=
  Forall (λ i, inst_Type i = OFPIT_APPLY_ACTIONS → is_Some (inst_GetActions i)) (fs_Instructions flow).
Definition flow_ok (flow : OfpFlowStats) : Prop := fields_ok flow ∧ actions_ok flow.

Lemma filter_ofb_ok exclude fields :
  Forall is_Some fields →
  ∃ kept, filter_ofb exclude fields = Ok kept ∧ Forall is_Some kept ∧
    ∀ f, Some f ∈ kept ↔ Some f ∈ fields ∧ ofb_Type f ∉ exclude.
Proof.
  induction fields as [|fld fields IH]; intros Hall.
  { exists []. split_and!; [done | constructor | intros f; rewrite elem_of_nil; tauto]. }
  apply Forall_cons in Hall as [[f ->] Hall]. destruct (IH Hall) as (kept & Hk & Hks & Hiff).
  simpl. rewrite Hk. simpl. eexists. split; [done|].
  destruct (bool_decide (ofb_Type f ∈ exclude)) eqn:Hb.
  - apply bool_decide_eq_true in Hb. split; [done|]. intros g. rewrite Hiff elem_of_cons.
    split; [tauto|]. intros [[[= ->]|?] ?]; done.
  - apply bool_decide_eq_false in Hb. split; [by constructor; [eexists|]|].
    intros g. rewrite !elem_of_cons Hiff. split; [|tauto].
    intros [[= ->]|?]; [auto | tauto].
Qed.

Lemma GetOfbFields_exclude flow exclude :
  fields_ok flow → exclude ≠ [] →
  ∃ fields kept, GetOfbFields flow [] = Ok fields ∧ GetOfbFields flow exclude = Ok kept ∧
    Forall is_Some kept ∧ ∀ f, Some f ∈ kept ↔ Some f ∈ fields ∧ ofb_Type f ∉ exclude.
Proof.
  intros (fields & Hf & Hall) Hne. exists fields. revert Hf. unfold GetOfbFields.
  destruct (fs_Match flow) as [m|].
  2: { intros [= <-]. exists []. split_and!; [done..|constructor|]. intros f. rewrite elem_of_nil. tauto. }
  destruct (decide (mt_Type m = OFPMT_OXM)).
  2: { intros [= <-]. exists []. split_and!; [done..|constructor|]. intros f. rewrite elem_of_nil. tauto. }
  simpl. intros [= <-]. rewrite (decide_False (P := length exclude = 0%nat)); last by destruct exclude.
  destruct (filter_ofb_ok exclude _ Hall) as (kept & Hk & ? & ?). by exists kept.
Qed.

Lemma first_field_ok ty fields : Forall is_Some fields → ∃ r, first_field ty fields = Ok r.
Proof.
  induction 1 as [|x fields [f ->] _ IH]; simpl; [by eexists|].
  destruct (decide _); [by eexists | done].
Qed.

Lemma GetInPort_ok flow : fields_ok flow → ∃ p, GetInPort flow = Ok p.
Proof.
  intros (fields & Hf & Hall). unfold GetInPort. rewrite Hf. simpl.
  destruct (first_field_ok IN_PORT fields Hall) as [r ->]. simpl. eauto.
Qed.

Lemma GetVlanVid_ok flow : fields_ok flow → ∃ p, GetVlanVid flow = Ok p.
Proof.
  intros (fields & Hf & Hall). unfold GetVlanVid. rewrite Hf. simpl.
  destruct (first_field_ok VLAN_VID fields Hall) as [r ->]. simpl. eauto.
Qed.

Section FlowOk.
Context `{ProtoText}.

Lemma MkFlowStat_ok fa : Forall is_Some (fa_MatchFields fa) → flow_ok (MkFlowStat fa).
Proof.
  intros Hall. split.
  - exists (fa_MatchFields fa). by rewrite MkFlowStat_fields.
  - unfold actions_ok. simpl. apply Forall_cons. split; [by eexists|].
    apply Forall_app. split; [by destruct (GetNextTableId _); repeat constructor|].
    apply Forall_app. split; case_decide; repeat constructor; done.
Qed.

Lemma redirect_instructions_ok insts toPort :
  Forall (λ i, inst_Type i = OFPIT_APPLY_ACTIONS → is_Some (inst_GetActions i)) insts →
  ∃ insts', redirect_instructions OFPIT_APPLY_ACTIONS toPort insts = Some insts' ∧
    Forall (λ i, inst_Type i = OFPIT_APPLY_ACTIONS → is_Some (inst_GetActions i)) insts'.
Proof.
  induction 1 as [|i insts Hi Hall IH]; [by exists []|]. destruct IH as (insts' & Hr & Hall').
  cbn [redirect_instructions]. destruct (decide (inst_Type i = OFPIT_APPLY_ACTIONS)) as [Heq|Hne].
  - destruct (Hi Heq) as [acts ->]. simpl. rewrite Hr. simpl. eexists. split; [done|].
    constructor; [by eexists | done].
  - rewrite Hr. simpl. eexists. split; [done|]. by constructor.
Qed.

Lemma redirect_flow_ok f :
  flow_ok f → ∃ f', redirect_flow f = Ok f' ∧ flow_ok f' ∧ fs_Id f' = HashFlowStats f'.
Proof.
  intros [(fields & Hf & Hall) Hact]. unfold redirect_flow. rewrite Hf. simpl.
  destruct (existsb is_trap_field fields).
  - destruct (redirect_instructions_ok (fs_Instructions f) OFPP_CONTROLLER Hact) as (insts & Hi & Hall').
    unfold UpdateOutputPortByActionType. rewrite Hi. simpl. eexists. split; [done|].
    split; [|done]. split; [by exists fields | done].
  - simpl. eexists. split; [done|]. split; [|done]. split; [by exists fields | done].
Qed.

(** ** Rules of one flow *)

(** The rules only concern the devices of [D]; every flow is filed once under its
    id, the id is its hash, and there are no groups. *)
Definition entry_wf (fg : FlowsAndGroups) : Prop :=
  fg_wf fg ∧ fg_Groups fg = [] ∧
  Forall (λ f, flow_ok f ∧ fs_Id f = HashFlowStats f) (fg_ListFlows fg).
Definition rules_wf (D : string → Prop) (dr : DeviceRules) : Prop :=
  ∀ id fg, dr !! id = Some fg → D id ∧ entry_wf fg.

Lemma rules_wf_new D : rules_wf D NewDeviceRules.
Proof. intros id fg Hl. by rewrite lookup_empty in Hl. Qed.

Lemma AddFlowsAndGroup_lookup dr id fg id' :
  AddFlowsAndGroup dr id fg !! id' = if decide (id = id') then Some fg else dr !! id'.
Proof.
  unfold AddFlowsAndGroup, CreateEntryIfNotExist. rewrite lookup_insert. case_decide; [done|].
  destruct (dr !! id) eqn:Hd; [done|]. by rewrite lookup_insert_ne.
Qed.

Lemma rules_wf_add (D : string → Prop) dr id fg :
  D id → entry_wf fg → rules_wf D dr → rules_wf D (AddFlowsAndGroup dr id fg).
Proof.
  intros HD Hfg Hdr id' fg'. rewrite AddFlowsAndGroup_lookup. case_decide; [|by apply Hdr].
  intros [= <-]. by subst.
Qed.

Lemma entry_wf_add fg f :
  entry_wf fg → flow_ok f → fs_Id f = HashFlowStats f → entry_wf (fg_AddFlow fg f).
Proof.
  intros (Hwf & Hg & Hall) Hf Hid. split_and!; [by apply fg_AddFlow_wf | |].
  - unfold fg_AddFlow. by destruct (OrderedMap.Get _ _).
  - apply Forall_forall. intros g Hg'. apply fg_AddFlow_flows in Hg' as [?| ->]; [|done].
    by eapply Forall_forall in Hall.
Qed.

Lemma entry_wf_new : entry_wf NewFlowsAndGroups.
Proof. split_and!; [apply fg_wf_new | done | constructor]. Qed.

Lemma one_flow_wf fa : Forall is_Some (fa_MatchFields fa) → entry_wf (one_flow fa).
Proof. intros Hall. apply entry_wf_add; [apply entry_wf_new | by apply MkFlowStat_ok | done]. Qed.

End FlowOk.
#[export] Hint Resolve rules_wf_new rules_wf_add entry_wf_new entry_wf_add one_flow_wf : flows.

Section Soundness.
Context `{ProtoText, GoRange, LogicalDeviceAgent, DeviceManagerView, !AgentLaws}.

Lemma redirect_flows_wf D id dr flows :
  D id → rules_wf D dr → Forall (λ f, flow_ok f ∧ fs_Id f = HashFlowStats f) flows →
  ∃ dr', redirect_flows id dr flows = Ok dr' ∧ rules_wf D dr'.
Proof.
  intros HD. revert dr. induction flows as [|f flows IH]; intros dr Hdr Hall; simpl; [eauto|].
  apply Forall_cons in Hall as [[Hf _] Hall].
  destruct (redirect_flow_ok f Hf) as (f' & -> & Hok & Hid). simpl. apply IH; [|done].
  intros id' fg. unfold dr_AddFlow. rewrite lookup_insert. case_decide; [|by apply Hdr].
  intros [= <-]. subst. split; [done|]. apply entry_wf_add; [|done..].
  destruct (dr !! id') eqn:Hl; simpl; [by apply (Hdr id') | apply entry_wf_new].
Qed.

Lemma ClearFlows_wf D dr id : rules_wf D dr → rules_wf D (ClearFlows dr id).
Proof.
  intros Hdr id' fg. unfold ClearFlows. destruct (dr !! id) as [fg0|] eqn:Hl; [|by apply Hdr].
  rewrite lookup_insert. case_decide; [|by apply Hdr]. intros [= <-]. subst.
  destruct (Hdr _ _ Hl) as [HD (_ & Hg & _)]. split; [done|].
  split_and!; [split; constructor | done | constructor].
Qed.

Lemma redirect_devices_wf D dr rules :
  rules_wf D dr →
  (∀ id fg, (id, fg) ∈ rules → D id ∧ entry_wf fg) →
  ∃ dr', redirect_devices dr rules = Ok dr' ∧ rules_wf D dr'.
Proof.
  revert dr. induction rules as [|[id fg] rules IH]; intros dr Hdr Hall; simpl; [eauto|].
  destruct (Hall id fg) as [HD (_ & _ & Hflows)]; [set_solver|].
  assert (∃ dr1, (if dm_IsRootDevice id then redirect_flows id (ClearFlows dr id) (fg_ListFlows fg)
                  else Ok dr) = Ok dr1 ∧ rules_wf D dr1) as (dr1 & -> & Hdr1).
  { destruct (dm_IsRootDevice id); [|eauto]. apply redirect_flows_wf; [done | by apply ClearFlows_wf | done]. }
  simpl. apply IH; [done|]. intros id' fg' Hin. apply Hall. set_solver.
Qed.

Lemma update_wf D dr :
  rules_wf D dr →
  ∃ dr', updateOutputPortForControllerBoundFlowForParentDevide dr = Ok dr' ∧ rules_wf D dr'.
Proof.
  intros Hdr. apply redirect_devices_wf; [done|]. intros id fg Hin.
  rewrite go_range_perm in Hin. apply elem_of_map_to_list in Hin. by apply Hdr.
Qed.

Lemma excluded_fields flow exclude :
  fields_ok flow → exclude ≠ [] →
  ∃ kept, GetOfbFields flow exclude = Ok kept ∧ Forall is_Some kept.
Proof.
  intros Hf Hne. destruct (GetOfbFields_exclude flow exclude Hf Hne) as (? & kept & _ & ? & ? & _). eauto.
Qed.

(** Reads the fields of a well-formed flow and files the flow built from them. *)
Ltac read_fields Hf :=
  match goal with
  | |- context [GetOfbFields ?flow ?ex] =>
      let kept := fresh "kept" in let Hk := fresh "Hk" in
      destruct (excluded_fields flow ex Hf ltac:(done)) as (kept & -> & Hk); simpl
  end.
Ltac file_flow :=
  apply rules_wf_add;
    [done | apply one_flow_wf; simpl; by repeat (constructor; [by eexists|]) |
     first [apply rules_wf_new | idtac]].

Lemma trap_uni_loop_wf (D : string → Prop) h0 h1 flow dr ports :
  fields_ok flow → D (hop_DeviceID h0) → D (hop_DeviceID h1) → rules_wf D dr →
  ∃ dr', trap_uni_loop h0 h1 flow dr ports = Ok dr' ∧ rules_wf D dr'.
Proof.
  intros Hf Hd0 Hd1. revert dr. induction ports as [|p ports IH]; intros dr Hdr; simpl; [eauto|].
  read_fields Hf. destruct (GetVlanVid_ok flow Hf) as [vid ->]. simpl.
  destruct vid; simpl; [read_fields Hf|]; apply IH; by repeat file_flow.
Qed.

(** The devices a flow may be installed on: those of its route, and the first
    device of the route to the port of its metadata word. *)
Definition on_route (inPortNo : Z) (path : list Hop) (flow : OfpFlowStats) (id : string) : Prop :=
  (∃ h, h ∈ path ∧ hop_DeviceID h = id) ∨
  ∃ h0 h1, la_GetRoute inPortNo (GetEgressPortNumberFromWriteMetadata flow) = Ok [h0; h1] ∧
    hop_DeviceID h0 = id.

Lemma decompose_on_path_wf h0 h1 i o flow gm :
  flow_ok flow → fs_Id flow = HashFlowStats flow →
  match decompose_on_path [h0; h1] i o flow gm with
  | Ok dr => rules_wf (on_route i [h0; h1] flow) dr
  | Err e => dm_GetDevice (hop_DeviceID h0) = Err e ∨ e = unknown_downstream_error
  | Panic => False
  end.
Proof.
  intros [Hf Ha] Hid.
  assert (on_route i [h0; h1] flow (hop_DeviceID h0)) as D0 by (left; exists h0; set_solver).
  assert (on_route i [h0; h1] flow (hop_DeviceID h1)) as D1 by (left; exists h1; set_solver).
  unfold decompose_on_path. destruct (is_controller_bound o).
  { unfold processControllerBoundFlow. simpl. destruct (la_IsRootPort i).
    - read_fields Hf. file_flow.
    - edestruct (trap_uni_loop_wf (on_route i [h0; h1] flow) h0 h1 flow NewDeviceRules) as (dr & -> & ?);
        [done..|apply rules_wf_new|done]. }
  simpl. pose proof (device_no_panic (hop_DeviceID h0)) as Hnp.
  destruct (dm_GetDevice (hop_DeviceID h0)) as [dev|e|] eqn:Hdev; simpl; [|by left | by destruct Hnp].
  destruct (dev_Root dev); simpl.
  2: { unfold processUpstreamNonControllerBoundFlow. simpl.
       destruct (_ && _); [destruct (negb _); [apply rules_wf_new | read_fields Hf; file_flow]|].
       destruct (_ && _); [read_fields Hf; file_flow | apply rules_wf_new]. }
  destruct (HasNextTable flow && (fs_TableId flow =? 0)).
  { unfold processDownstreamFlowWithNextTable. simpl.
    destruct (negb (o =? 0)); [apply rules_wf_new|]. destruct (negb (fs_TableId flow =? 0)); [apply rules_wf_new|].
    destruct (negb _).
    - unfold recalculated_ingress. case_decide.
      + simpl. destruct (_ =? 0); [apply rules_wf_new|]. read_fields Hf.
        file_flow.
      + pose proof (route_no_panic i (GetEgressPortNumberFromWriteMetadata flow)) as Hrp.
        destruct (la_GetRoute i _) as [[|r0 [|r1 [|]]]|e|] eqn:Hr; simpl; try apply rules_wf_new; [|done].
        destruct (_ =? 0); [apply rules_wf_new|]. read_fields Hf.
        apply rules_wf_add; [right; by exists r0, r1 | | apply rules_wf_new].
        apply one_flow_wf; simpl; by repeat (constructor; [by eexists|]).
    - read_fields Hf.
      file_flow. }
  destruct (_ && _).
  { unfold processUnicastFlow. simpl. read_fields Hf.
    file_flow. }
  destruct (_ && _); [|by right].
  unfold processMulticastFlow. destruct (gm !! _) as [grp|]; [|apply rules_wf_new].
  destruct (ge_Desc grp); [|apply rules_wf_new]. simpl.
  apply rules_wf_add; [done | by apply entry_wf_add; [apply entry_wf_new|..] |].
  unfold CreateEntryIfNotExist, NewDeviceRules. rewrite lookup_empty.
  intros id fg Hl. apply lookup_insert_Some in Hl as [[<- <-]|[_ Hl]]; [|by rewrite lookup_empty in Hl].
  split; [done | apply entry_wf_new].
Qed.

Lemma decomposeFlow_wf flow gm :
  flow_ok flow → fs_Id flow = HashFlowStats flow →
  match decomposeFlow flow gm with
  | Ok dr => ∃ i h0 h1, effective_in_port flow = Ok i ∧ la_GetRoute i (GetOutPort flow) = Ok [h0; h1] ∧
      rules_wf (on_route i [h0; h1] flow) dr
  | Err e => ∃ i, effective_in_port flow = Ok i ∧
      (la_GetRoute i (GetOutPort flow) = Err e ∨
       ∃ h0 h1, la_GetRoute i (GetOutPort flow) = Ok [h0; h1] ∧
         (dm_GetDevice (hop_DeviceID h0) = Err e ∨ e = unknown_downstream_error))
  | Panic => False
  end.
Proof.
  intros Hok Hid. unfold decomposeFlow.
  assert (∃ i, effective_in_port flow = Ok i) as [i Hi].
  { unfold effective_in_port. destruct (GetInPort_ok flow (proj1 Hok)) as [p ->]. simpl. eauto. }
  rewrite Hi. simpl. pose proof (route_no_panic i (GetOutPort flow)) as Hnp.
  destruct (la_GetRoute i (GetOutPort flow)) as [path|e|] eqn:Hr; simpl; [|by eauto | done].
  pose proof (route_two_hops _ _ _ Hr) as Hlen. destruct path as [|h0 [|h1 [|]]]; try done. cbn [length].
  pose proof (decompose_on_path_wf h0 h1 i (GetOutPort flow) flow gm Hok Hid) as Hp.
  destruct (decompose_on_path [h0; h1] i (GetOutPort flow) flow gm) as [dr|e|]; cbn [obind]; [|by eauto 8 | done].
  destruct (update_wf _ dr Hp) as (dr' & -> & Hdr'). by exists i, h0, h1.
Qed.

(** ** Rules of all the flows *)

Definition flows_at (dr : DeviceRules) (id : string) : list OfpFlowStats :=
  match dr !! id with Some fg => fg_ListFlows fg | None => [] end.
Definition ids_at (dr : DeviceRules) (id : string) : list Z := fs_Id <$> flows_at dr id.

Lemma fg_wf_ids fg : fg_wf fg → fs_Id <$> fg_ListFlows fg = (fg_Flows fg).*1.
Proof.
  intros [_ Hall]. unfold fg_ListFlows. induction (fg_Flows fg) as [|[k f] l IH]; [done|].
  apply Forall_cons in Hall as [Hk Hall]. simpl in *. f_equal; [done | by apply IH].
Qed.

(** Adding flows: nothing but them appears, and every id is kept or added. *)
Lemma add_flows_spec fg flows :
  entry_wf fg → Forall (λ f, flow_ok f ∧ fs_Id f = HashFlowStats f) flows →
  let fg' := foldl fg_AddFlow fg flows in
  entry_wf fg' ∧
  (∀ f, f ∈ fg_ListFlows fg' → f ∈ fg_ListFlows fg ∨ f ∈ flows) ∧
  (∀ k, k ∈ fs_Id <$> fg_ListFlows fg' ↔ k ∈ fs_Id <$> fg_ListFlows fg ∨ k ∈ fs_Id <$> flows).
Proof.
  revert fg. induction flows as [|f flows IH]; intros fg Hfg Hall; simpl.
  { split_and!; [done | auto | intros k; set_solver]. }
  apply Forall_cons in Hall as [[Hok Hid] Hall].
  destruct (IH (fg_AddFlow fg f) (entry_wf_add _ _ Hfg Hok Hid) Hall) as (Hwf & Hfrom & Hids).
  split_and!; [done| |].
  - intros g [Hg|Hg]%Hfrom; [|set_solver]. apply fg_AddFlow_flows in Hg as [?| ->]; set_solver.
  - intros k. rewrite Hids (fg_wf_ids (fg_AddFlow fg f)); last by apply fg_AddFlow_wf, Hfg.
    rewrite fg_AddFlow_ids -fg_wf_ids; last apply Hfg. set_solver.
Qed.

(** The rules gathered so far: well formed, and listed in the set of devices. *)
Definition gathered (acc : DeviceRules * gset string) : Prop :=
  rules_wf (λ id, id ∈ acc.2) acc.1.

Lemma merge_one acc id fg :
  gathered acc → entry_wf fg →
  ∃ fg', fg_AddFrom (default NewFlowsAndGroups (CreateEntryIfNotExist acc.1 id !! id)) fg = Ok fg' ∧
    let dr' := <[id := fg']> (CreateEntryIfNotExist acc.1 id) in
    gathered (dr', {[id]} ∪ acc.2) ∧
    (∀ id' f, f ∈ flows_at dr' id' → f ∈ flows_at acc.1 id' ∨ id' = id ∧ f ∈ fg_ListFlows fg) ∧
    (∀ id' k, k ∈ ids_at acc.1 id' → k ∈ ids_at dr' id') ∧
    (∀ f, f ∈ fg_ListFlows fg → fs_Id f ∈ ids_at dr' id).
Proof.
  intros Hacc (Hwf & Hg & Hall).
  set (old := default NewFlowsAndGroups (acc.1 !! id)).
  assert (default NewFlowsAndGroups (CreateEntryIfNotExist acc.1 id !! id) = old) as ->.
  { unfold old, CreateEntryIfNotExist. destruct (acc.1 !! id) eqn:Hl; [by rewrite Hl | by rewrite lookup_insert_eq]. }
  assert (entry_wf old) as Hold.
  { unfold old. destruct (acc.1 !! id) eqn:Hl; simpl; [by apply (Hacc id) | apply entry_wf_new]. }
  destruct (add_flows_spec old (fg_ListFlows fg) Hold Hall) as (Hwf' & Hfrom & Hids).
  assert (∀ fg0 id', <[id := fg0]> (CreateEntryIfNotExist acc.1 id) !! id' =
    if decide (id = id') then Some fg0 else acc.1 !! id') as Hlk by (intros; apply AddFlowsAndGroup_lookup).
  assert (flows_at acc.1 id = fg_ListFlows old) as Hat by (unfold flows_at, old; by destruct (acc.1 !! id)).
  unfold fg_AddFrom, fg_ListGroups. rewrite Hg. simpl. eexists. split; [done|].
  split_and!.
  - intros id' fg0. simpl. rewrite Hlk. destruct (decide (id = id')) as [<-|].
    + intros [= <-]. split; [set_solver | done].
    + intros [? ?]%Hacc. split; [set_solver | done].
  - intros id' f. unfold flows_at at 1. rewrite Hlk. destruct (decide (id = id')) as [<-|]; [|by left].
    rewrite Hat. intros [?|?]%Hfrom; auto.
  - intros id' k. unfold ids_at at 2, flows_at. rewrite Hlk. destruct (decide (id = id')) as [<-|]; [|done].
    unfold ids_at. rewrite Hat Hids. auto.
  - intros f Hf. unfold ids_at, flows_at. rewrite Hlk decide_True // Hids. right. by apply list_elem_of_fmap_2.
Qed.

Lemma merge_rules_spec acc rules :
  gathered acc → (∀ id fg, (id, fg) ∈ rules → entry_wf fg) →
  ∃ acc', merge_rules acc rules = Ok acc' ∧ gathered acc' ∧
    (∀ id f, f ∈ flows_at acc'.1 id → f ∈ flows_at acc.1 id ∨
       ∃ fg, (id, fg) ∈ rules ∧ f ∈ fg_ListFlows fg) ∧
    (∀ id k, k ∈ ids_at acc.1 id → k ∈ ids_at acc'.1 id) ∧
    (∀ id fg f, (id, fg) ∈ rules → f ∈ fg_ListFlows fg → fs_Id f ∈ ids_at acc'.1 id).
Proof.
  revert acc. induction rules as [|[id fg] rules IH]; intros acc Hacc Hall; simpl.
  { exists acc. split_and!; [done | done | auto | done | intros ? ? ? Hin; by apply elem_of_nil in Hin]. }
  destruct (merge_one acc id fg Hacc) as (fg' & -> & Hg & Hfrom & Hkeep & Hadd); [apply (Hall id); set_solver|].
  cbn [obind]. destruct (IH _ Hg) as (acc' & -> & Hg' & Hfrom' & Hkeep' & Hadd').
  { intros id' fg0 Hin. apply (Hall id'). set_solver. }
  exists acc'. split_and!; [done | done | | |].
  - intros id' f [Hf|(fg0 & Hin & Hf)]%Hfrom'; [|right; exists fg0; set_solver].
    apply Hfrom in Hf as [?|[-> ?]]; [by left | right; exists fg; set_solver].
  - intros id' k Hk. by apply Hkeep', Hkeep.
  - intros id' fg0 f Hin Hf. apply elem_of_cons in Hin as [[= -> ->]|Hin]; [by apply Hkeep', Hadd | by eapply Hadd'].
Qed.

Definition flows_ok (flows : list OfpFlowStats) : Prop :=
  Forall (λ f, flow_ok f ∧ fs_Id f = HashFlowStats f) flows.

(** [f] is one of the flows the logical flow [flow] gives to device [id]. *)
Definition decomposes_to (gm : gmap Z OfpGroupEntry) (flow : OfpFlowStats) (id : string)
    (f : OfpFlowStats) : Prop :=
  ∃ dr, decomposeFlow flow gm = Ok dr ∧ f ∈ flows_at dr id.

Lemma decompose_all_spec acc flows gm :
  gathered acc → flows_ok flows →
  match decompose_all acc flows gm with
  | Ok acc' => gathered acc' ∧
      (∀ id f, f ∈ flows_at acc'.1 id → f ∈ flows_at acc.1 id ∨
         ∃ flow, flow ∈ flows ∧ decomposes_to gm flow id f) ∧
      (∀ id k, k ∈ ids_at acc.1 id → k ∈ ids_at acc'.1 id) ∧
      (∀ flow id f, flow ∈ flows → decomposes_to gm flow id f → fs_Id f ∈ ids_at acc'.1 id)
  | Err e => ∃ flow, flow ∈ flows ∧ decomposeFlow flow gm = Err e
  | Panic => False
  end.
Proof.
  revert acc. induction flows as [|flow flows IH]; intros acc Hacc Hok; simpl.
  { split_and!; [done | auto | done | intros ? ? ? Hin; by apply elem_of_nil in Hin]. }
  apply Forall_cons in Hok as [[Hf Hid] Hok].
  pose proof (decomposeFlow_wf flow gm Hf Hid) as Hd.
  destruct (decomposeFlow flow gm) as [dr|e|] eqn:Hdec; simpl; [|exists flow; set_solver | done].
  destruct Hd as (i & h0 & h1 & _ & _ & Hwf).
  assert (∀ id fg, (id, fg) ∈ go_range dr ↔ dr !! id = Some fg) as Hrange.
  { intros id fg. by rewrite go_range_perm elem_of_map_to_list. }
  destruct (merge_rules_spec acc (go_range dr) Hacc) as (acc1 & -> & Hg1 & Hfrom1 & Hkeep1 & Hadd1).
  { intros id fg Hin%Hrange. by apply (Hwf id). }
  cbn [obind]. specialize (IH acc1 Hg1 Hok).
  destruct (decompose_all acc1 flows gm) as [acc'|e|]; [| |done].
  2: { destruct IH as (g & ? & ?). exists g. set_solver. }
  destruct IH as (Hg' & Hfrom' & Hkeep' & Hadd'). split_and!; [done| | |].
  - intros id f [Hf'|(g & Hin & Hg)]%Hfrom'; [|right; exists g; set_solver].
    apply Hfrom1 in Hf' as [?|(fg & Hin%Hrange & Hf')]; [by left|].
    right. exists flow. split; [set_solver|]. exists dr. split; [done|]. unfold flows_at. by rewrite Hin.
  - intros id k Hk. by apply Hkeep', Hkeep1.
  - intros g id f Hin Hg. apply elem_of_cons in Hin as [->|Hin]; [|by eapply Hadd'].
    destruct Hg as (dr' & Hdr' & Hf'). rewrite Hdec in Hdr'. injection Hdr' as <-.
    unfold flows_at in Hf'. destruct (dr !! id) as [fg|] eqn:Hl; [|by apply elem_of_nil in Hf'].
    apply Hkeep'. eapply Hadd1; [by apply Hrange | done].
Qed.

Lemma build_group_map_ok m groups :
  Forall (λ g, is_Some (ge_Desc g)) groups → ∃ gm, build_group_map m groups = Ok gm.
Proof.
  intros Hall. revert m. induction Hall as [|g groups [d Hd] _ IH]; intros m; simpl; [eauto|].
  rewrite Hd. simpl. apply IH.
Qed.

Lemma FilterRules_gathered acc : gathered acc → FilterRules acc.1 acc.2 = acc.1.
Proof.
  intros Hg. unfold FilterRules. apply map_filter_id. intros id fg Hl. simpl. by apply (Hg id fg).
Qed.

Lemma DecomposeRules_no_panic flows groups :
  flows_ok flows → Forall (λ g, is_Some (ge_Desc g)) groups → DecomposeRules flows groups ≠ Panic.
Proof.
  intros Hok Hgroups. destruct (build_group_map_ok ∅ groups Hgroups) as [gm Hgm].
  unfold DecomposeRules. rewrite Hgm. cbn [obind].
  pose proof (decompose_all_spec (NewDeviceRules, ∅) flows gm (rules_wf_new _) Hok) as Hall.
  by destruct (decompose_all _ flows gm).
Qed.

(** C4: [DecomposeRules] on well-formed flows never panics, and fails only when
    the decomposition of one of the flows fails.  When it succeeds, every flow
    of a device comes from the decomposition of one of the logical flows, every
    flow such a decomposition gives to a device is there under its id, no id
    occurs twice on a device, and every id is the hash of its flow. *)
Theorem decompose_rules_correct (flows : list OfpFlowStats) (groups : list OfpGroupEntry) :
  flows_ok flows → Forall (λ g, is_Some (ge_Desc g)) groups →
  ∃ gm, build_group_map ∅ groups = Ok gm ∧
  match DecomposeRules flows groups with
  | Ok dr =>
      (∀ id f, f ∈ flows_at dr id → ∃ flow, flow ∈ flows ∧ decomposes_to gm flow id f) ∧
      (∀ flow id f, flow ∈ flows → decomposes_to gm flow id f → fs_Id f ∈ ids_at dr id) ∧
      (∀ id, NoDup (ids_at dr id)) ∧
      (∀ id f, f ∈ flows_at dr id → fs_Id f = HashFlowStats f)
  | Err e => ∃ flow, flow ∈ flows ∧ decomposeFlow flow gm = Err e
  | Panic => False
  end.
Proof.
  intros Hok Hgroups. destruct (build_group_map_ok ∅ groups Hgroups) as [gm Hgm].
  exists gm. split; [done|]. unfold DecomposeRules. rewrite Hgm. cbn [obind].
  pose proof (decompose_all_spec (NewDeviceRules, ∅) flows gm (rules_wf_new _) Hok) as Hall.
  destruct (decompose_all _ flows gm) as [acc|e|]; cbn [obind]; [|done|done].
  destruct Hall as (Hg & Hfrom & _ & Hadd). rewrite FilterRules_gathered //. split_and!.
  - intros id f [Hf|?]%Hfrom; [by apply elem_of_nil in Hf | done].
  - done.
  - intros id. unfold ids_at, flows_at. destruct (acc.1 !! id) as [fg|] eqn:Hl; [|constructor].
    destruct (Hg _ _ Hl) as [_ [Hwf _]]. rewrite fg_wf_ids //. apply Hwf.
  - intros id f Hf. unfold flows_at in Hf. destruct (acc.1 !! id) as [fg|] eqn:Hl; [|by apply elem_of_nil in Hf].
    destruct (Hg _ _ Hl) as [_ (_ & _ & Hflows)]. eapply Forall_forall in Hflows; [|done]. tauto.
Qed.

(** C29: the decomposition of a well-formed flow never panics; its rules are
    confined to the devices of the route (for a double-tagged downstream flow,
    the first device of the route to the port of its metadata), and it fails
    only for want of a route or of the ingress device, or on a downstream flow
    of no known kind. *)
Theorem decompose_flow_confined (flow : OfpFlowStats) (gm : gmap Z OfpGroupEntry) :
  flow_ok flow → fs_Id flow = HashFlowStats flow →
  match decomposeFlow flow gm with
  | Ok dr => ∃ i path, effective_in_port flow = Ok i ∧ la_GetRoute i (GetOutPort flow) = Ok path ∧
      ∀ id, is_Some (dr !! id) → on_route i path flow id
  | Err e => ∃ i, effective_in_port flow = Ok i ∧
      (la_GetRoute i (GetOutPort flow) = Err e ∨
       ∃ h0 h1, la_GetRoute i (GetOutPort flow) = Ok [h0; h1] ∧
         (dm_GetDevice (hop_DeviceID h0) = Err e ∨ e = unknown_downstream_error))
  | Panic => False
  end.
Proof.
  intros Hok Hid. pose proof (decomposeFlow_wf flow gm Hok Hid) as Hd.
  destruct (decomposeFlow flow gm) as [dr|e|]; [|done|done].
  destruct Hd as (i & h0 & h1 & Hi & Hr & Hwf). exists i, [h0; h1]. split_and!; [done..|].
  intros id [fg Hl]. by apply (Hwf id fg).
Qed.

End Soundness.

(** ** What a device flow looks like *)

Section Translation.
Context `{ProtoText, GoRange, LogicalDeviceAgent, DeviceManagerView}.

Lemma redirect_instructions_skip insts toPort :
  Forall (λ i, inst_Type i ≠ OFPIT_APPLY_ACTIONS) insts →
  redirect_instructions OFPIT_APPLY_ACTIONS toPort insts = Some insts.
Proof.
  induction 1 as [|i insts Hi _ IH]; [done|]. cbn [redirect_instructions].
  rewrite decide_False //. by rewrite IH.
Qed.

(** The instructions after the APPLY_ACTIONS one. *)
Lemma MkFlowStat_instructions fa :
  ∃ rest, Forall (λ i, inst_Type i ≠ OFPIT_APPLY_ACTIONS) rest ∧
    fs_Instructions (MkFlowStat fa) =
      mkInst OFPIT_APPLY_ACTIONS (Some (I_Actions (Some (fa_Actions fa)))) :: rest.
Proof.
  eexists. split; [|reflexivity].
  apply Forall_app. split; [by destruct (GetNextTableId _); repeat constructor|].
  apply Forall_app. split; case_decide; repeat constructor; done.
Qed.

(** [f] has the attributes of the arguments [fa], with the actions [acts]. *)
Definition built_from (fa : FlowArgs) (acts : list OfpAction) (f : OfpFlowStats) : Prop :=
  GetOfbFields f [] = Ok (fa_MatchFields fa) ∧
  fs_Priority f = fs_Priority (MkFlowStat fa) ∧ fs_Cookie f = fs_Cookie (MkFlowStat fa) ∧
  GetMeterIdFromFlow f = GetMeterIdFlowModArgs (fa_KV fa) ∧
  GetMetadataFromWriteMetadataAction f = GetMetadataFlowModArgs (fa_KV fa) ∧
  GetActions f [] = acts ∧ fs_Id f = HashFlowStats f.

Lemma MkFlowStat_built fa : built_from fa (fa_Actions fa) (MkFlowStat fa).
Proof.
  split_and!; [apply MkFlowStat_fields | done | done | apply MkFlowStat_meter
    | apply MkFlowStat_metadata | done | done].
Qed.

Lemma redirect_built fa :
  ∃ f, redirect_flow (MkFlowStat fa) = Ok f ∧
    built_from fa (if existsb is_trap_field (fa_MatchFields fa)
                   then redirect_output OFPP_CONTROLLER <$> fa_Actions fa else fa_Actions fa) f.
Proof.
  unfold redirect_flow. rewrite MkFlowStat_fields. cbn [obind].
  pose proof (MkFlowStat_built fa) as (Hf & _ & _ & Hm & Hmd & _ & _).
  destruct (existsb is_trap_field (fa_MatchFields fa)).
  - destruct (MkFlowStat_instructions fa) as (rest & Hrest & Hi).
    unfold UpdateOutputPortByActionType. rewrite Hi. cbn [redirect_instructions].
    destruct (decide _) as [_|Hn]; [|done]. cbn [inst_GetActions inst_Data mbind option_bind].
    rewrite (redirect_instructions_skip rest OFPP_CONTROLLER Hrest). simpl. eexists. split; [done|].
    split_and!; [exact Hf | done | done | | | done | done].
    + revert Hm. unfold GetMeterIdFromFlow. rewrite Hi. done.
    + revert Hmd. unfold GetMetadataFromWriteMetadataAction. rewrite Hi. done.
  - simpl. eexists. split; [done|]. by split_and!.
Qed.

Lemma go_range_singleton {V} (id : string) (v : V) : go_range {[id := v]} = [(id, v)].
Proof.
  pose proof (go_range_perm (K := string) {[id := v]}) as Hp.
  rewrite map_to_list_singleton in Hp. by apply Permutation_singleton_r in Hp.
Qed.

Lemma AddFlowsAndGroup_new id fg : AddFlowsAndGroup NewDeviceRules id fg = {[id := fg]}.
Proof.
  apply map_eq. intros id'. rewrite AddFlowsAndGroup_lookup lookup_singleton. by case_decide.
Qed.

(** The rules of a single device flow after the special case of the parent. *)
Lemma update_one id fa :
  ∃ f, updateOutputPortForControllerBoundFlowForParentDevide
         (AddFlowsAndGroup NewDeviceRules id (one_flow fa))
       = Ok {[id := mkFG [(fs_Id f, f)] []]} ∧
    built_from fa (if dm_IsRootDevice id && existsb is_trap_field (fa_MatchFields fa)
                   then redirect_output OFPP_CONTROLLER <$> fa_Actions fa else fa_Actions fa) f.
Proof.
  unfold updateOutputPortForControllerBoundFlowForParentDevide.
  rewrite AddFlowsAndGroup_new go_range_singleton. cbn [redirect_devices].
  destruct (dm_IsRootDevice id); cbn [andb obind].
  - destruct (redirect_built fa) as (f & Hr & Hb). exists f. split; [|done].
    assert (fg_ListFlows (one_flow fa) = [MkFlowStat fa]) as -> by done.
    cbn [redirect_flows obind]. rewrite Hr. cbn [obind redirect_flows].
    f_equal. unfold dr_AddFlow, ClearFlows. rewrite lookup_singleton_eq lookup_insert_eq.
    apply map_eq. intros id'. rewrite !lookup_insert lookup_empty. by case_decide.
  - exists (MkFlowStat fa). split; [done | apply MkFlowStat_built].
Qed.

(** [f] carries the flow [flow] over [hop]: it matches the ingress port of the
    hop and every match field of the flow other than the input port and the
    metadata, keeps priority, cookie, meter and write-metadata, and its last
    action outputs to the egress port of the hop - or to the controller, on a
    root device for EAPOL, IGMP and UDP. *)
Definition translation (hop : Hop) (flow f : OfpFlowStats) : Prop :=
  GetInPort f = Ok (hop_Ingress hop) ∧
  fs_Priority f = fs_Priority flow ∧ fs_Cookie f = fs_Cookie flow ∧
  GetMeterIdFromFlow f = GetMeterIdFromFlow flow ∧
  GetMetadataFromWriteMetadataAction f = GetMetadataFromWriteMetadataAction flow ∧
  fs_Id f = HashFlowStats f ∧
  ∃ fields, GetOfbFields f [] = Ok fields ∧
    (∀ all fld, GetOfbFields flow [] = Ok all → Some fld ∈ all →
       ofb_Type fld ∉ [IN_PORT; METADATA] → Some fld ∈ fields) ∧
    last (GetActions f []) =
      Some (Output (if dm_IsRootDevice (hop_DeviceID hop) && existsb is_trap_field fields
                    then OFPP_CONTROLLER else hop_Egress hop)).

Lemma translation_intro hop flow f extra kept exclude acts :
  0 ≤ fs_Priority flow < 2 ^ 32 → 0 ≤ GetMeterIdFromFlow flow < 2 ^ 32 →
  fields_ok flow → exclude ≠ [] → exclude ⊆ [IN_PORT; METADATA] →
  GetOfbFields flow exclude = Ok kept →
  let fa := mkFlowArgs (Some (InPort (hop_Ingress hop)) :: extra ++ kept)
              (acts ++ [Output (hop_Egress hop)]) None (flow_kv flow) in
  built_from fa (if dm_IsRootDevice (hop_DeviceID hop) && existsb is_trap_field (fa_MatchFields fa)
                 then redirect_output OFPP_CONTROLLER <$> fa_Actions fa else fa_Actions fa) f →
  translation hop flow f.
Proof.
  intros Hprio Hmeter Hok Hne Hex Hkept fa (Hf & Hp & Hc & Hm & Hmd & Ha & Hid).
  assert (fs_Priority (MkFlowStat fa) = u32 (fs_Priority flow)) as Hprio' by done.
  split_and!.
  - unfold GetInPort. rewrite Hf. done.
  - rewrite Hp Hprio'. unfold u32. by apply Z.mod_small.
  - by rewrite Hc.
  - rewrite Hm. assert (GetMeterIdFlowModArgs (fa_KV fa) = u32 (GetMeterIdFromFlow flow)) as -> by done.
    unfold u32. by apply Z.mod_small.
  - by rewrite Hmd.
  - done.
  - exists (fa_MatchFields fa). split_and!; [done| |].
    + intros all fld Hall Hin Hty.
      destruct (GetOfbFields_exclude flow exclude Hok Hne) as (all' & kept' & Hall' & Hkept' & _ & Hiff).
      rewrite Hall in Hall'. injection Hall' as <-. rewrite Hkept in Hkept'. injection Hkept' as <-.
      assert (Some fld ∈ kept) as Hk by (apply Hiff; split; [done | set_solver]).
      simpl. set_solver.
    + rewrite Ha. destruct (_ && _); cbn [fa_Actions]; rewrite ?fmap_app last_app; done.
Qed.

(** The hop on which a flow that is not controller-bound is installed: [None]
    for multicast and unknown flows, [Some None] when nothing is installed. *)
Definition target_hop (root : bool) (h0 h1 : Hop) (i o : Z) (flow : OfpFlowStats) : option (option Hop) :=
  if root then
    if HasNextTable flow && (fs_TableId flow =? 0) then
      Some (if negb (o =? 0) then None
            else if GetMetadataFromWriteMetadataAction flow =? 0 then Some h0
            else if GetInnerTagFromMetaData flow =? 0 then None
            else if GetEgressPortNumberFromWriteMetadata flow =? 0 then Some h0
            else match la_GetRoute i (GetEgressPortNumberFromWriteMetadata flow) with
                 | Ok [r0; _] => Some r0
                 | _ => None
                 end)
    else if (fs_TableId flow =? 1) && negb (o =? 0) then Some (Some h1)
    else None
  else
    Some (if (fs_TableId flow =? 0) && HasNextTable flow then
            if negb (o =? 0) then None else Some h0
          else if (fs_TableId flow =? 1) && negb (o =? 0) then Some h1 else None).

(** The widths of the fields of a flow that reach the devices. *)
Definition flow_widths (flow : OfpFlowStats) : Prop :=
  0 ≤ fs_Priority flow < 2 ^ 32 ∧ 0 ≤ GetMeterIdFromFlow flow < 2 ^ 32.

(** One device flow built from the fields of [flow]. *)
Lemma install_one hop flow extra exclude acts :
  flow_widths flow → fields_ok flow → exclude ≠ [] → exclude ⊆ [IN_PORT; METADATA] →
  ∃ kept, GetOfbFields flow exclude = Ok kept ∧
  ∃ f, updateOutputPortForControllerBoundFlowForParentDevide
         (AddFlowsAndGroup NewDeviceRules (hop_DeviceID hop)
           (one_flow (mkFlowArgs (Some (InPort (hop_Ingress hop)) :: extra ++ kept)
              (acts ++ [Output (hop_Egress hop)]) None (flow_kv flow))))
       = Ok {[hop_DeviceID hop := mkFG [(fs_Id f, f)] []]} ∧ translation hop flow f.
Proof.
  intros [Hp Hm] Hok Hne Hex.
  destruct (GetOfbFields_exclude flow exclude Hok Hne) as (_ & kept & _ & Hkept & _).
  exists kept. split; [done|].
  edestruct (update_one (hop_DeviceID hop)) as (f & Hu & Hb). exists f. split; [exact Hu|].
  by eapply translation_intro.
Qed.

Lemma update_empty : updateOutputPortForControllerBoundFlowForParentDevide NewDeviceRules = Ok ∅.
Proof.
  unfold updateOutputPortForControllerBoundFlowForParentDevide, NewDeviceRules.
  pose proof (go_range_perm (K := string) (∅ : gmap string FlowsAndGroups)) as Hp.
  rewrite map_to_list_empty in Hp. apply Permutation_nil_r in Hp. by rewrite Hp.
Qed.

(** Files one flow of the flow at hand on [hop]. *)
Ltac install hop flow extra exclude acts Hw Hok :=
  destruct (install_one hop flow extra exclude acts Hw Hok ltac:(done) ltac:(set_solver))
    as (?kept & Hkept & ?f & Hu & Ht);
  rewrite Hkept; cbn [obind app]; eauto.

(** C5: what [decomposeFlow] does with a flow that is not controller-bound, on
    every branch: upstream, the ONU flow of table 0 goes on the first hop and
    the OLT flow of table 1 on the second; downstream, the OLT flow of table 0
    goes on the first hop (of the route to the port of its metadata, if it has
    one) and the ONU flow of table 1 on the second.  The device gets one flow,
    the translation of the logical flow over that hop; the other device gets
    nothing, and inconsistent flows install nothing. *)
Theorem decompose_flow_translates (flow : OfpFlowStats) (gm : gmap Z OfpGroupEntry)
    (i : Z) (h0 h1 : Hop) (dev : Device) :
  fields_ok flow → flow_widths flow →
  effective_in_port flow = Ok i → la_GetRoute i (GetOutPort flow) = Ok [h0; h1] →
  la_GetRoute i (GetEgressPortNumberFromWriteMetadata flow) ≠ Panic →
  is_controller_bound (GetOutPort flow) = false → dm_GetDevice (hop_DeviceID h0) = Ok dev →
  match target_hop (dev_Root dev) h0 h1 i (GetOutPort flow) flow with
  | Some (Some hop) => ∃ f, translation hop flow f ∧
      decomposeFlow flow gm = Ok {[hop_DeviceID hop := mkFG [(fs_Id f, f)] []]}
  | Some None => decomposeFlow flow gm = Ok ∅
  | None => dev_Root dev = true
  end.
Proof.
  intros Hok Hw Hi Hr Hnp Hcb Hdev. unfold decomposeFlow. rewrite Hi. cbn [obind]. rewrite Hr.
  cbn [obind length]. unfold decompose_on_path, target_hop. rewrite Hcb. cbn [index lookup list_lookup obind].
  rewrite Hdev. cbn [obind]. generalize (GetOutPort flow). intros o. destruct (dev_Root dev); cbn [negb].
  - destruct (HasNextTable flow && (fs_TableId flow =? 0)) eqn:Hnt.
    + apply andb_true_iff in Hnt as [_ Htab]. unfold processDownstreamFlowWithNextTable. rewrite Htab.
      destruct (o =? 0); cbn [negb obind]; [|apply update_empty]. cbn [index lookup list_lookup obind].
      destruct (GetMetadataFromWriteMetadataAction flow =? 0); cbn [negb].
      { unfold downstream_standard_args. install h0 flow [Some (TunnelId i)] [IN_PORT] (GetActions flow []) Hw Hok. }
      unfold recalculated_ingress, downstream_metadata_args.
      destruct (Z.eqb_spec (GetEgressPortNumberFromWriteMetadata flow) 0) as [Hz|Hz].
      * rewrite decide_True //. cbn [obind]. destruct (GetInnerTagFromMetaData flow =? 0); [apply update_empty|].
        install h0 flow [Some (Metadata_ofp (GetInnerTagFromMetaData flow)); Some (TunnelId (GetEgressPortNumberFromWriteMetadata flow))]
          [IN_PORT; METADATA] (GetActions flow []) Hw Hok.
      * rewrite decide_False //.
        destruct (la_GetRoute i (GetEgressPortNumberFromWriteMetadata flow)) as [[|r0 [|r1 [|]]]|e|]; cbn [obind]; try done;
          destruct (GetInnerTagFromMetaData flow =? 0); try apply update_empty.
        install r0 flow [Some (Metadata_ofp (GetInnerTagFromMetaData flow)); Some (TunnelId (GetEgressPortNumberFromWriteMetadata flow))]
          [IN_PORT; METADATA] (GetActions flow []) Hw Hok.
    + destruct ((fs_TableId flow =? 1) && negb (o =? 0)) eqn:Ht1; [|done]. unfold processUnicastFlow, unicast_args. cbn [index lookup list_lookup obind].
      install h1 flow (@nil (option OfpOxmOfbField)) [IN_PORT] (GetActions flow [OUTPUT]) Hw Hok.
  - unfold processUpstreamNonControllerBoundFlow. cbn [index lookup list_lookup obind].
    destruct ((fs_TableId flow =? 0) && HasNextTable flow).
    + destruct (o =? 0); cbn [negb obind]; [|apply update_empty].
      unfold upstream_onu_args. install h0 flow [Some (TunnelId i)] [IN_PORT] (GetActions flow []) Hw Hok.
    + destruct ((fs_TableId flow =? 1) && negb (o =? 0)); [|apply update_empty].
      unfold upstream_olt_args. install h1 flow [Some (TunnelId i)] [IN_PORT] (GetActions flow [OUTPUT]) Hw Hok.
Qed.

(** ** Trap flows *)

(** The rules of a trap flow for one input port. *)
Lemma trap_uni_loop_one h0 h1 flow dr p :
  fields_ok flow →
  ∃ kp vid kc,
    GetOfbFields flow [IN_PORT] = Ok kp ∧ GetVlanVid flow = Ok vid ∧
    GetOfbFields flow (match vid with Some _ => [IN_PORT; VLAN_VID] | None => [IN_PORT] end) = Ok kc ∧
    ∀ ports, trap_uni_loop h0 h1 flow dr (p :: ports) =
      trap_uni_loop h0 h1 flow
        (AddFlowsAndGroup (AddFlowsAndGroup dr (hop_DeviceID h1) (one_flow (trap_parent_args h1 flow p kp)))
           (hop_DeviceID h0) (one_flow (trap_child_args h0 flow p vid kc))) ports.
Proof.
  intros Hok. destruct (excluded_fields flow [IN_PORT] Hok ltac:(done)) as (kp & Hkp & _).
  destruct (GetVlanVid_ok flow Hok) as [vid Hvid].
  destruct (excluded_fields flow (match vid with Some _ => [IN_PORT; VLAN_VID] | None => [IN_PORT] end) Hok)
    as (kc & Hkc & _); [by destruct vid|].
  exists kp, vid, kc. split_and!; [done..|]. intros ports. cbn [trap_uni_loop].
  rewrite Hkp Hvid. cbn [obind]. destruct vid; by rewrite ?Hkc ?Hkp in Hkc |- *; try injection Hkc as <-; rewrite ?Hkc.
Qed.

Lemma AddFlowsAndGroup_twice dr a b x y x' y' :
  AddFlowsAndGroup (AddFlowsAndGroup (AddFlowsAndGroup (AddFlowsAndGroup dr a x) b y) a x') b y' =
  AddFlowsAndGroup (AddFlowsAndGroup dr a x') b y'.
Proof. apply map_eq. intros id. rewrite !AddFlowsAndGroup_lookup. by repeat case_decide. Qed.

(** a trap flow without an input port is meant for every UNI port, but the
    rules of each port replace those of the port before: only the last port of
    [GetWildcardInputPorts] keeps its trap flows. *)
Theorem wildcard_trap_keeps_last (flow : OfpFlowStats) (h0 h1 : Hop) (o : Z) (ports : list Z) (p : Z) :
  fields_ok flow → la_IsRootPort 0 = false →
  la_GetWildcardInputPorts (hop_Egress h1) = ports ++ [p] →
  processControllerBoundFlow [h0; h1] 0 o flow = trap_uni_loop h0 h1 flow NewDeviceRules [p].
Proof.
  intros Hok Hroot Hports. unfold processControllerBoundFlow. cbn [index lookup list_lookup obind].
  rewrite Hroot Hports. simpl. generalize NewDeviceRules. clear Hports.
  induction ports as [|q ports IH]; intros dr; [done|].
  destruct (trap_uni_loop_one h0 h1 flow dr q Hok) as (kq & vid & kc & Hk & Hv & Hc & Hq).
  cbn [app]. rewrite Hq IH Hk Hv. cbn [obind].
  destruct vid; [rewrite Hc|]; cbn [obind]; by rewrite AddFlowsAndGroup_twice.
Qed.

(** The special case of the parent, on the rules of a parent and a child. *)
Lemma update_two id0 id1 fa0 fa1 :
  id0 ≠ id1 → dm_IsRootDevice id0 = false → dm_IsRootDevice id1 = true →
  ∃ f1, updateOutputPortForControllerBoundFlowForParentDevide
          (AddFlowsAndGroup (AddFlowsAndGroup NewDeviceRules id1 (one_flow fa1)) id0 (one_flow fa0))
        = Ok (<[id0 := one_flow fa0]> {[id1 := mkFG [(fs_Id f1, f1)] []]}) ∧
    built_from fa1 (if existsb is_trap_field (fa_MatchFields fa1)
                    then redirect_output OFPP_CONTROLLER <$> fa_Actions fa1 else fa_Actions fa1) f1.
Proof.
  intros Hne Hr0 Hr1. destruct (redirect_built fa1) as (f1 & Hr & Hb). exists f1. split; [|done].
  assert (AddFlowsAndGroup (AddFlowsAndGroup NewDeviceRules id1 (one_flow fa1)) id0 (one_flow fa0)
    = <[id0 := one_flow fa0]> {[id1 := one_flow fa1]}) as ->.
  { rewrite AddFlowsAndGroup_new. apply map_eq. intros id.
    rewrite AddFlowsAndGroup_lookup !lookup_insert lookup_empty. by repeat case_decide. }
  unfold updateOutputPortForControllerBoundFlowForParentDevide.
  set (dr := <[id0 := one_flow fa0]> {[id1 := one_flow fa1]}).
  assert (redirect_flows id1 (ClearFlows dr id1) (fg_ListFlows (one_flow fa1)) =
    Ok (<[id0 := one_flow fa0]> {[id1 := mkFG [(fs_Id f1, f1)] []]})) as Hflows.
  { assert (fg_ListFlows (one_flow fa1) = [MkFlowStat fa1]) as -> by done.
    cbn [redirect_flows]. rewrite Hr. cbn [obind redirect_flows]. f_equal.
    assert (dr !! id1 = Some (one_flow fa1)) as Hl
      by (unfold dr; rewrite lookup_insert_ne // lookup_insert_eq //).
    unfold dr_AddFlow, ClearFlows. rewrite Hl lookup_insert_eq. unfold dr.
    apply map_eq. intros id. rewrite !lookup_insert lookup_empty. by repeat case_decide; subst. }
  assert (go_range dr ≡ₚ [(id0, one_flow fa0); (id1, one_flow fa1)]) as Hp.
  { rewrite go_range_perm. unfold dr. rewrite map_to_list_insert; last by rewrite lookup_insert_ne.
    by rewrite map_to_list_singleton. }
  symmetry in Hp. apply Permutation_length_2_inv in Hp as [-> | ->]; cbn [redirect_devices];
    rewrite ?Hr0 ?Hr1; cbn [obind]; rewrite ?Hr0 ?Hr1 Hflows; done.
Qed.

(** A trap flow that names a UNI port gets one flow on the OLT and one on the
    ONU.  The ONU flow matches the UNI port and sends to its PON port; the OLT
    flow matches the PON port and the tunnel of the UNI port, and traps EAPOL,
    IGMP and UDP to the controller. *)
Theorem trap_flow_from_uni (flow : OfpFlowStats) (gm : gmap Z OfpGroupEntry) (i : Z) (h0 h1 : Hop) :
  fields_ok flow → effective_in_port flow = Ok i → i ≠ 0 → la_IsRootPort i = false →
  la_GetRoute i (GetOutPort flow) = Ok [h0; h1] → is_controller_bound (GetOutPort flow) = true →
  hop_DeviceID h0 ≠ hop_DeviceID h1 →
  dm_IsRootDevice (hop_DeviceID h0) = false → dm_IsRootDevice (hop_DeviceID h1) = true →
  ∃ f0 f1 fields1, decomposeFlow flow gm =
      Ok (<[hop_DeviceID h0 := mkFG [(fs_Id f0, f0)] []]> {[hop_DeviceID h1 := mkFG [(fs_Id f1, f1)] []]}) ∧
    GetInPort f0 = Ok (hop_Ingress h0) ∧ last (GetActions f0 []) = Some (Output (hop_Egress h0)) ∧
    GetInPort f1 = Ok (hop_Ingress h1) ∧
    GetOfbFields f1 [] = Ok fields1 ∧ Some (TunnelId i) ∈ fields1 ∧
    (∀ all fld, GetOfbFields flow [] = Ok all → Some fld ∈ all → ofb_Type fld ≠ IN_PORT → Some fld ∈ fields1) ∧
    last (GetActions f1 []) =
      Some (Output (if existsb is_trap_field fields1 then OFPP_CONTROLLER else hop_Egress h1)).
Proof.
  intros Hok Hi Hnz Hroot Hr Hcb Hne Hr0 Hr1.
  unfold decomposeFlow. rewrite Hi. cbn [obind]. rewrite Hr. cbn [obind length].
  unfold decompose_on_path. rewrite Hcb. unfold processControllerBoundFlow. cbn [index lookup list_lookup obind].
  rewrite Hroot decide_False //.
  destruct (trap_uni_loop_one h0 h1 flow NewDeviceRules i Hok) as (kp & vid & kc & Hkp & _ & _ & ->).
  cbn [trap_uni_loop obind].
  destruct (update_two (hop_DeviceID h0) (hop_DeviceID h1) (trap_child_args h0 flow i vid kc)
    (trap_parent_args h1 flow i kp) Hne Hr0 Hr1) as (f1 & Hu & (Hf1 & _ & _ & _ & _ & Ha1 & _)).
  exists (MkFlowStat (trap_child_args h0 flow i vid kc)), f1, (fa_MatchFields (trap_parent_args h1 flow i kp)).
  split_and!.
  - exact Hu.
  - unfold GetInPort. rewrite MkFlowStat_fields. done.
  - rewrite MkFlowStat_actions. by destruct vid.
  - unfold GetInPort. rewrite Hf1. done.
  - exact Hf1.
  - simpl. set_solver.
  - intros all fld Hall Hin Hty.
    destruct (GetOfbFields_exclude flow [IN_PORT] Hok ltac:(done)) as (all' & kp' & Hall' & Hkp' & _ & Hiff).
    rewrite Hall in Hall'. injection Hall' as <-. rewrite Hkp in Hkp'. injection Hkp' as <-.
    assert (Some fld ∈ kp) by (apply Hiff; split; [done | set_solver]). simpl. set_solver.
  - rewrite Ha1. by destruct (existsb _ _).
Qed.

End Translation.

(** ** Concrete decompositions *)

(** The topology of [Routes]: UNI port 16 of the ONU, NNI port 65536 of the OLT. *)
Definition sample_agent : LogicalDeviceAgent := {|
  la_GetRoute i o :=
    if decide (i = 16) then Ok [mkHop "onu" 2 1; mkHop "olt" 1 10]
    else if decide (i = 65536) then Ok [mkHop "olt" 10 1; mkHop "onu" 1 2]
    else Err (Status FailedPrecondition "no route");
  la_IsRootPort p := bool_decide (p = 65536);
  la_GetWildcardInputPorts exclude := [16; 17];
  la_GetNNIPorts := [65536]
|}.

Definition sample_manager : DeviceManagerView := {|
  dm_GetDevice id := if decide (id = "olt") then Ok (mkDevice "olt" "" true "" 0 "" "" "" "" "" "" "" 0 "" None "" None
      Admin_ENABLED Oper_ACTIVE "" Conn_REACHABLE [] [] [] None None) else sample_model id;
  dm_IsRootDevice id := bool_decide (id = "olt")
|}.

Lemma sample_laws : @AgentLaws sample_agent sample_manager.
Proof.
  split; simpl.
  - intros i o p. repeat case_decide; intros [= <-]; done.
  - intros i o. repeat case_decide; done.
  - intros id. case_decide; [done | apply sample_model_wf].
Qed.

(** A flow of table [t] that matches [fields] and applies [acts]. *)
Definition sample_flow (t : Z) (fields : list OfpOxmOfbField) (acts : list OfpAction) : OfpFlowStats :=
  let f := table_flow t 1000 0 7
    (Some (mkMatch OFPMT_OXM ((λ f, mkOxm OFPXMC_OPENFLOW_BASIC (Some (F_OfbField (Some f)))) <$> fields)))
    [mkInst OFPIT_APPLY_ACTIONS (Some (I_Actions (Some acts)))] in
  with_Id f (@HashFlowStats sample_text f).

Lemma sample_flow_ok t fields acts : flow_ok (sample_flow t fields acts).
Proof.
  split.
  - exists (Some <$> fields). split.
    + unfold GetOfbFields. simpl. f_equal. unfold basic_fields. simpl.
      induction fields as [|f fields IH]; [done|]. simpl. by f_equal.
    + apply Forall_fmap, Forall_true. intros f. by eexists.
  - repeat constructor. by eexists.
Qed.

Definition upstream_flow := sample_flow 1 [InPort 16; VlanVid 4096] [Output 65536].
Definition eapol_flow := sample_flow 0 [InPort 16; EthType 0x888e] [Output OFPP_CONTROLLER].

Lemma decompose_rules_correct_witness :
  ∃ dr, @DecomposeRules sample_text canonical_range sample_agent sample_manager
          [upstream_flow; eapol_flow] [] = Ok dr ∧
    NoDup (ids_at dr "olt") ∧ length (ids_at dr "olt") = 2%nat.
Proof.
  destruct (@decompose_rules_correct sample_text canonical_range sample_agent sample_manager sample_laws
    [upstream_flow; eapol_flow] []) as (gm & _ & Hr).
  - do 2 (apply Forall_cons; split; [split; [apply sample_flow_ok | done]|]). constructor.
  - constructor.
  - destruct (DecomposeRules [upstream_flow; eapol_flow] []) as [dr|e|] eqn:Hd.
    + exists dr. split; [done|]. split; [apply Hr|].
      vm_compute in Hd. injection Hd as <-. by vm_compute.
    + by vm_compute in Hd.
    + destruct Hr.
Defined.

Lemma decompose_flow_confined_witness :
  ∃ dr, @decomposeFlow sample_text canonical_range sample_agent sample_manager upstream_flow ∅ = Ok dr ∧
    is_Some (dr !! "olt").
Proof.
  pose proof (@decompose_flow_confined sample_text canonical_range sample_agent sample_manager sample_laws
    upstream_flow ∅ (sample_flow_ok _ _ _) eq_refl) as Hr.
  destruct (decomposeFlow upstream_flow ∅) as [dr|e|] eqn:Hd.
  - exists dr. split; [done|]. vm_compute in Hd. injection Hd as <-. vm_compute. by eexists.
  - by vm_compute in Hd.
  - destruct Hr.
Defined.

Lemma decompose_flow_translates_witness :
  ∃ f, @decomposeFlow sample_text canonical_range sample_agent sample_manager upstream_flow ∅
         = Ok {["olt" := mkFG [(fs_Id f, f)] []]} ∧
    GetInPort f = Ok 1 ∧ last (GetActions f []) = Some (Output 10).
Proof.
  pose proof (@decompose_flow_translates sample_text canonical_range sample_agent sample_manager
    upstream_flow ∅ 16 (mkHop "onu" 2 1) (mkHop "olt" 1 10) sample_onu
    (proj1 (sample_flow_ok _ _ _))) as Hr.
  destruct Hr as (f & (Hin & _ & _ & _ & _ & _ & fields & Hf & _ & Hlast) & Hd);
    [by vm_compute | by vm_compute | by vm_compute | by vm_compute | by vm_compute | by vm_compute |].
  exists f. split_and!; [exact Hd | exact Hin |].
  rewrite Hlast. vm_compute in Hd. injection Hd as Hid Hflow. subst f. vm_compute in Hf. injection Hf as <-.
  by vm_compute.
Defined.

Lemma wildcard_trap_keeps_last_witness :
  @processControllerBoundFlow sample_text sample_agent
      [mkHop "onu" 2 1; mkHop "olt" 1 10] 0 OFPP_CONTROLLER eapol_flow =
  @trap_uni_loop sample_text (mkHop "onu" 2 1) (mkHop "olt" 1 10) eapol_flow NewDeviceRules [17].
Proof.
  apply (@wildcard_trap_keeps_last sample_text sample_agent eapol_flow (mkHop "onu" 2 1) (mkHop "olt" 1 10)
    OFPP_CONTROLLER [16] 17); [apply sample_flow_ok | by vm_compute | done].
Defined.

Lemma trap_flow_from_uni_witness :
  ∃ f0 f1, @decomposeFlow sample_text canonical_range sample_agent sample_manager eapol_flow ∅ =
      Ok (<["onu" := mkFG [(fs_Id f0, f0)] []]> {["olt" := mkFG [(fs_Id f1, f1)] []]}) ∧
    last (GetActions f0 []) = Some (Output 1).
Proof.
  destruct (@trap_flow_from_uni sample_text canonical_range sample_agent sample_manager eapol_flow ∅
    16 (mkHop "onu" 2 1) (mkHop "olt" 1 10)) as (f0 & f1 & fields & Hd & _ & Hlast & _);
    [apply sample_flow_ok | by vm_compute | done | by vm_compute | by vm_compute | by vm_compute
    | done | by vm_compute | by vm_compute |].
  exists f0, f1. split; [exact Hd | exact Hlast].
Defined.
