(* ===== verification/DataProxy.v ===== *)
(** * Data model interface

    The paths of the data model ([db/model]) that hold the object of one agent:
    what [clusterDataProxy] offers to the device agents and to the logical
    device agents, and what they rely on. *)

From S2P Require Import Prelude.

(** The outcome of [clusterDataProxy.Update], [AddWithID] and [Remove]: a result,
    a nil result, or an error. *)
Inductive UpdateResult := UpdOk | UpdNil | UpdErr (e : GoError).

(** The data model, seen from one agent: [dp_get] may find no object. *)
Class DataProxy (Obj Store : Type) := {
  dp_get : string → Store → outcome (option Obj);
  dp_update : string → Obj → Store → UpdateResult * Store;
  dp_add : string → Obj → Store → UpdateResult * Store;
  dp_remove : string → Store → UpdateResult * Store
}.

(** [clusterDataProxy.List]: all the objects of a path, or nil. *)
Class DataList (Obj Store : Type) := { dl_list : Store → outcome (option (list Obj)) }.

(** What an agent relies on: a successful write is read back, and a failed
    update leaves the object as it was. *)
Class DataProxyLaws (Obj Store : Type) `{DataProxy Obj Store} : Prop := {
  dp_update_get : ∀ id d s s', dp_update id d s = (UpdOk, s') → dp_get id s' = Ok (Some d);
  dp_update_fail : ∀ id d s r s', dp_update id d s = (r, s') → r ≠ UpdOk → dp_get id s' = dp_get id s;
  dp_add_get : ∀ id d s s', dp_add id d s = (UpdOk, s') → dp_get id s' = Ok (Some d)
}.

(** ** A concrete data model: a finite map *)

Definition map_proxy {Obj : Type} : DataProxy Obj (gmap string Obj) := {|
  dp_get id s := Ok (s !! id);
  dp_update id d s := match s !! id with Some _ => (UpdOk, <[id := d]> s) | None => (UpdNil, s) end;
  dp_add id d s := (UpdOk, <[id := d]> s);
  dp_remove id s := (UpdOk, delete id s)
|}.

Lemma map_proxy_laws {Obj : Type} : @DataProxyLaws Obj _ map_proxy.
Proof.
  split; simpl.
  - intros id d s s'. destruct (s !! id); [|done]. intros [= <-]. by rewrite lookup_insert_eq.
  - intros id d s r s'. destruct (s !! id) eqn:Hl; intros [= <- <-]; [done | by rewrite Hl].
  - intros id d s s' [= <-]. by rewrite lookup_insert_eq.
Qed.

(** ** Several objects in one data model *)

(** The data models an operation on the object [id] can leave behind. *)
Inductive dp_written {Obj Store : Type} `{DataProxy Obj Store} (id : string) (s : Store) : Store → Prop :=
  | written_update d : dp_written id s (dp_update id d s).2
  | written_add d : dp_written id s (dp_add id d s).2
  | written_remove : dp_written id s (dp_remove id s).2.

(** Other objects of the same path are left alone, and a removal leaves the
    object as it was or removes it. *)
Class DataProxyFrame (Obj Store : Type) `{DataProxy Obj Store} : Prop := {
  dp_frame : ∀ id s s' id', dp_written id s s' → id' ≠ id → dp_get id' s' = dp_get id' s;
  dp_remove_get : ∀ id s, dp_get id (dp_remove id s).2 = Ok None ∨ dp_get id (dp_remove id s).2 = dp_get id s
}.

(** The objects of another path are left alone. *)
Class DataProxyApart (Obj Other Store : Type) `{DataProxy Obj Store, DataProxy Other Store} : Prop :=
  dp_apart : ∀ id s s' id', dp_written (Obj := Obj) id s s' →
    dp_get (Obj := Other) id' s' = dp_get (Obj := Other) id' s.

(** *** Two finite maps *)

Definition left_proxy {Obj Store Rest : Type} `{DataProxy Obj Store} : DataProxy Obj (Store * Rest) := {|
  dp_get id s := dp_get id s.1;
  dp_update id d s := let (r, st) := dp_update id d s.1 in (r, (st, s.2));
  dp_add id d s := let (r, st) := dp_add id d s.1 in (r, (st, s.2));
  dp_remove id s := let (r, st) := dp_remove id s.1 in (r, (st, s.2))
|}.
Definition right_proxy {Obj Store Rest : Type} `{DataProxy Obj Store} : DataProxy Obj (Rest * Store) := {|
  dp_get id s := dp_get id s.2;
  dp_update id d s := let (r, st) := dp_update id d s.2 in (r, (s.1, st));
  dp_add id d s := let (r, st) := dp_add id d s.2 in (r, (s.1, st));
  dp_remove id s := let (r, st) := dp_remove id s.2 in (r, (s.1, st))
|}.

Section TwoMaps.
Context {A B : Type}.
#[local] Instance two_left : DataProxy A (gmap string A * gmap string B) := @left_proxy _ _ _ map_proxy.
#[local] Instance two_right : DataProxy B (gmap string A * gmap string B) := @right_proxy _ _ _ map_proxy.

Lemma two_left_laws : DataProxyLaws A (gmap string A * gmap string B).
Proof.
  destruct (map_proxy_laws (Obj := A)) as [Hu Hf Ha]. split; simpl.
  - intros id d [s1 s2] [s1' s2']. simpl. specialize (Hu id d s1). simpl in *.
    destruct (s1 !! id); [intros [= <- <-]; by apply Hu | done].
  - intros id d [s1 s2] r [s1' s2']. simpl. specialize (Hf id d s1). simpl in *.
    destruct (s1 !! id); intros [= <- <- <-]; by eapply Hf.
  - intros id d [s1 s2] [s1' s2'] [= <- <-]. by rewrite lookup_insert_eq.
Qed.

Lemma two_right_laws : DataProxyLaws B (gmap string A * gmap string B).
Proof.
  destruct (map_proxy_laws (Obj := B)) as [Hu Hf Ha]. split; simpl.
  - intros id d [s1 s2] [s1' s2']. simpl. specialize (Hu id d s2). simpl in *.
    destruct (s2 !! id); [intros [= <- <-]; by apply Hu | done].
  - intros id d [s1 s2] r [s1' s2']. simpl. specialize (Hf id d s2). simpl in *.
    destruct (s2 !! id); intros [= <- <- <-]; by eapply Hf.
  - intros id d [s1 s2] [s1' s2'] [= <- <-]. by rewrite lookup_insert_eq.
Qed.

Lemma two_left_frame : DataProxyFrame A (gmap string A * gmap string B).
Proof.
  split.
  - intros id [s1 s2] s' id' Hw Hne. destruct Hw as [d|d|]; simpl.
    + destruct (s1 !! id); simpl; by rewrite ?lookup_insert_ne.
    + by rewrite lookup_insert_ne.
    + by rewrite lookup_delete_ne.
  - intros id [s1 s2]. left. simpl. by rewrite lookup_delete_eq.
Qed.

Lemma two_apart_left : DataProxyApart A B (gmap string A * gmap string B).
Proof. intros id [s1 s2] s' id' [d|d|]; simpl; by destruct (s1 !! id). Qed.
Lemma two_apart_right : DataProxyApart B A (gmap string A * gmap string B).
Proof. intros id [s1 s2] s' id' [d|d|]; simpl; by destruct (s2 !! id). Qed.
End TwoMaps.
