(* ===== verification/DeviceAgent.v ===== *)
(** * Device agent

    [rw_core/core/device_agent.go]: the agent that owns the data of one device.
    It keeps the device in a cache and in the data model, and sends requests to
    the adapter of the device.  The device lock serialises the operations, so
    each is one state transformer. *)

From S2P Require Import Prelude OpenFlow VolthaTypes FlowUtils CoreUtils Ids DataProxy.

(** ** Interfaces *)

Record FlowChanges := mkFlowChanges {
  fc_ToAdd : list OfpFlowStats; fc_ToRemove : list OfpFlowStats }.
Record FlowGroupChanges := mkGroupChanges {
  gc_ToAdd : list OfpGroupEntry; gc_ToRemove : list OfpGroupEntry; gc_ToUpdate : list OfpGroupEntry }.

(** The requests of [AdapterProxy]. *)
Inductive AdapterRequest :=
  | AdoptDevice (d : Device)
  | ReEnableDevice (d : Device)
  | DisableDevice (d : Device)
  | RebootDevice (d : Device)
  | DeleteDevice (d : Device)
  | UpdateFlowsBulk (d : Device) (flows : list OfpFlowStats) (groups : list OfpGroupEntry)
      (md : option FlowMetadata)
  | UpdateFlowsIncremental (d : Device) (fc : FlowChanges) (gc : FlowGroupChanges)
      (md : option FlowMetadata)
  | UpdatePmConfigs (d : Device) (pm : PmConfigs)
  | DownloadImage (d : Device) (img : ImageDownload)
  | CancelImageDownload (d : Device) (img : ImageDownload)
  | ActivateImageUpdate (d : Device) (img : ImageDownload)
  | RevertImageUpdate (d : Device) (img : ImageDownload)
  | PacketOut (deviceType deviceID : string) (outPort : Z) (packet : OfpPacketOut)
  | SimulateAlarm (d : Device) (req : Opaque)
  | DisablePort (d : Device) (p : Port)
  | EnablePort (d : Device) (p : Port)
  | ChildLost (deviceType deviceID : string) (parentPortNo onuID : Z)
  | ReconcileDevice (d : Device).

(** The adapter answers a request, given the requests before it; a flow update is
    answered asynchronously. *)
Class Adapter := {
  adapter_reply : list AdapterRequest → AdapterRequest → option GoError;
  adapter_flow_reply : list AdapterRequest → AdapterRequest → completion
}.

(** [AdapterManager], as far as the agent uses it. *)
Class AdapterMgrView := {
  am_getAdapterName : string → outcome string;
  am_getDeviceType : string → option DeviceType
}.

Section Agent.
Context {Store : Type} `{DataProxy Device Store, Adapter, AdapterMgrView, ProtoText}.

(** ** State *)

(** [da_deviceProxy] tells whether [deviceProxy] was created; it is nil before. *)
Record AgentState := mkAgent {
  da_deviceID : string; da_parentID : string; da_deviceType : string; da_isRootdevice : bool;
  da_device : Device; da_store : Store; da_sent : list AdapterRequest;
  da_defaultTimeout : Z; da_deviceProxy : bool }.

Definition set_device v (s : AgentState) := mkAgent (da_deviceID s) (da_parentID s) (da_deviceType s)
  (da_isRootdevice s) v (da_store s) (da_sent s) (da_defaultTimeout s) (da_deviceProxy s).
Definition set_deviceType v (s : AgentState) := mkAgent (da_deviceID s) (da_parentID s) v
  (da_isRootdevice s) (da_device s) (da_store s) (da_sent s) (da_defaultTimeout s) (da_deviceProxy s).
Definition set_store v (s : AgentState) := mkAgent (da_deviceID s) (da_parentID s) (da_deviceType s)
  (da_isRootdevice s) (da_device s) v (da_sent s) (da_defaultTimeout s) (da_deviceProxy s).
Definition set_sent v (s : AgentState) := mkAgent (da_deviceID s) (da_parentID s) (da_deviceType s)
  (da_isRootdevice s) (da_device s) (da_store s) v (da_defaultTimeout s) (da_deviceProxy s).

Definition set_deviceProxy v (s : AgentState) := mkAgent (da_deviceID s) (da_parentID s) (da_deviceType s)
  (da_isRootdevice s) (da_device s) (da_store s) (da_sent s) (da_defaultTimeout s) v.

(** [read] is the random source of [CreateDeviceID]. *)
Definition newDeviceAgent (read : nat → outcome (list Z)) (device : Device) (store : Store)
    (sent : list AdapterRequest) (timeout : Z) : AgentState :=
  mkAgent (if decide (dev_Id device = EmptyString) then CreateDeviceID read else dev_Id device)
    (dev_ParentId device) (dev_Type device) (dev_Root device) device store sent timeout false.

Definition not_found (id : string) : GoError := Status NotFound ("device-" +:+ id).

(** [CreateProxy] may fail; the callback registration does not. *)
Definition start (deviceToCreate : option Device) (createProxy : outcome unit) : M AgentState Device :=
  let* s := get in
  let* device :=
    match deviceToCreate with
    | None =>
        let* loaded := lift (dp_get (da_deviceID s) (da_store s)) in
        match loaded with
        | None => fail (not_found (da_deviceID s))
        | Some d =>
            let* _ := modify (set_deviceType (dev_Adapter d)) in
            let* _ := modify (set_device d) in
            ret d
        end
    | Some toCreate =>
        let d := set_Flows [] (set_FlowGroups [] (set_AdminState Admin_PREPROVISIONED
                   (set_Id (da_deviceID s) toCreate))) in
        let d := match dev_Root toCreate, dev_ProxyAddress toCreate with
                 | false, Some pa => set_Vlan (pa_ChannelId pa) d
                 | _, _ => d
                 end in
        let (r, st) := dp_add (da_deviceID s) d (da_store s) in
        let* _ := modify (set_store st) in
        match r with
        | UpdErr e => fail e
        | UpdNil => fail (Status Aborted ("failed-adding-device-" +:+ da_deviceID s))
        | UpdOk => let* _ := modify (set_device d) in ret d
        end
    end in
  let* _ := lift createProxy in
  let* _ := modify (set_deviceProxy true) in
  ret device.

(** The callback is unregistered first: an agent that did not start has no proxy,
    and [UnregisterCallback] locks a mutex of the nil proxy.  Errors of [Remove]
    are logged and dropped. *)
Definition stop : M AgentState unit := λ s,
  if da_deviceProxy s
  then let (_, st) := dp_remove (da_deviceID s) (da_store s) in (Ok tt, set_store st s)
  else (Panic, s).

(** Errors are logged and dropped. *)
Definition reconcileWithKVStore : M AgentState unit := λ s,
  match dp_get (da_deviceID s) (da_store s) with
  | Ok (Some d) => (Ok tt, set_device d (set_deviceType (dev_Adapter d) s))
  | Ok None | Err _ => (Ok tt, s)
  | Panic => (Panic, s)
  end.

Definition getDeviceWithoutLock : M AgentState Device := gets da_device.

Definition updateDeviceInStoreWithoutLock (device : Device) : M AgentState unit := λ s,
  let (r, st) := dp_update (da_deviceID s) device (da_store s) in
  match r with
  | UpdOk => (Ok tt, set_device device (set_store st s))
  | _ => (Err (Status Internal ("failed-update-device:" +:+ da_deviceID s)), set_store st s)
  end.

(** A synchronous request to the adapter. *)
Definition send (req : AdapterRequest) : M AgentState unit := λ s,
  let s' := set_sent (da_sent s ++ [req]) s in
  match adapter_reply (da_sent s) req with
  | None => (Ok tt, s')
  | Some e => (Err e, s')
  end.

(** [go agent.send...FlowsToAdapters(...)]: the request is issued and its answer
    completes the response later. *)
Definition send_async (req : AdapterRequest) : M AgentState completion := λ s,
  (Ok (adapter_flow_reply (da_sent s) req), set_sent (da_sent s ++ [req]) s).

(** [coreutils.DoneResponse()] is complete from the start. *)
Definition done_response : completion := Some (0, None).

(** ** Administrative state *)

Definition enableDevice : M AgentState unit :=
  let* cloned := getDeviceWithoutLock in
  let* adapterName := lift (am_getAdapterName (dev_Type cloned)) in
  let cloned := set_Adapter adapterName cloned in
  if decide (dev_AdminState cloned = Admin_ENABLED) then ret tt
  else if decide (dev_AdminState cloned = Admin_DELETED) then
    fail (Status FailedPrecondition ("cannot-enable-a-deleted-device: " +:+ dev_Id cloned +:+ " "))
  else
    let previousAdminState := dev_AdminState cloned in
    let cloned := set_OperStatus Oper_ACTIVATING (set_AdminState Admin_ENABLED cloned) in
    let* _ := updateDeviceInStoreWithoutLock cloned in
    if decide (previousAdminState = Admin_PREPROVISIONED)
    then send (AdoptDevice cloned)
    else send (ReEnableDevice cloned).

Definition disableDevice : M AgentState unit :=
  let* s := get in
  let* cloned := getDeviceWithoutLock in
  if decide (dev_AdminState cloned = Admin_DISABLED) then ret tt
  else if decide (dev_AdminState cloned = Admin_PREPROVISIONED ∨ dev_AdminState cloned = Admin_DELETED) then
    fail (Status FailedPrecondition ("deviceId:" +:+ da_deviceID s +:+ ", invalid-admin-state"))
  else
    let cloned := set_OperStatus Oper_UNKNOWN (set_AdminState Admin_DISABLED cloned) in
    let* _ := updateDeviceInStoreWithoutLock cloned in
    send (DisableDevice cloned).

Definition updateAdminState (adminState : AdminState) : M AgentState unit :=
  let* cloned := getDeviceWithoutLock in
  if decide (dev_AdminState cloned = adminState) then ret tt
  else updateDeviceInStoreWithoutLock (set_AdminState adminState cloned).

Definition rebootDevice : M AgentState unit :=
  let* device := getDeviceWithoutLock in
  send (RebootDevice device).

Definition deleteDevice : M AgentState unit :=
  let* cloned := getDeviceWithoutLock in
  if decide (dev_AdminState cloned = Admin_DELETED) then ret tt
  else
    let* _ := if decide (dev_AdminState cloned = Admin_PREPROVISIONED) then ret tt
              else send (DeleteDevice cloned) in
    updateDeviceInStoreWithoutLock (set_AdminState Admin_DELETED cloned).

Definition setParentID (parentID : string) : M AgentState unit :=
  let* cloned := getDeviceWithoutLock in
  updateDeviceInStoreWithoutLock (set_ParentId parentID cloned).

(** ** Performance metrics *)

Definition updatePmConfigs (pmConfigs : PmConfigs) : M AgentState unit :=
  let* cloned := getDeviceWithoutLock in
  let cloned := set_PmConfigs (Some pmConfigs) cloned in
  let* _ := updateDeviceInStoreWithoutLock cloned in
  send (UpdatePmConfigs cloned pmConfigs).

(** Writes to the store without updating the cache. *)
Definition initPmConfigs (pmConfigs : PmConfigs) : M AgentState unit := λ s,
  let cloned := set_PmConfigs (Some pmConfigs) (da_device s) in
  let (r, st) := dp_update (da_deviceID s) cloned (da_store s) in
  match r with
  | UpdOk => (Ok tt, set_store st s)
  | _ => (Err (Status Internal (da_deviceID s)), set_store st s)
  end.

Definition listPmConfigs : M AgentState (option PmConfigs) :=
  let* device := getDeviceWithoutLock in ret (dev_PmConfigs device).

(** ** Image downloads *)

Definition image_is (img image : ImageDownload) : bool :=
  bool_decide (img_Id image = img_Id img) && bool_decide (img_Name image = img_Name img).

Definition images (device : Device) : list (option ImageDownload) := default [] (dev_ImageDownloads device).

(** A nil entry is dereferenced. *)
Fixpoint find_image (img : ImageDownload) (l : list (option ImageDownload)) : outcome (option ImageDownload) :=
  match l with
  | [] => Ok None
  | p :: l => let? image := deref p in if image_is img image then Ok (Some image) else find_image img l
  end.

Definition isImageRegistered (img : ImageDownload) (device : Device) : outcome bool :=
  let? found := find_image img (images device) in
  Ok (match found with Some _ => true | None => false end).

(** [for _, image := range cloned.ImageDownloads { if same { update } }]. *)
Definition update_images (img : ImageDownload) (f : ImageDownload → ImageDownload) (device : Device)
    : outcome Device :=
  let? l := mapO (λ p, let? image := deref p in
                       Ok (Some (if image_is img image then f image else image))) (images device) in
  Ok (set_ImageDownloads (match dev_ImageDownloads device with None => None | Some _ => Some l end) device).

Definition requires_enabled (id : string) : GoError :=
  Status FailedPrecondition ("deviceId:" +:+ id +:+ ", expected-admin-state:ENABLED").
Definition image_not_registered (id name : string) : GoError :=
  Status FailedPrecondition ("deviceId:" +:+ id +:+ ", image-not-registered:" +:+ name).

(** The first image of a device is only put in a local copy. *)
Definition downloadImage (img : ImageDownload) : M AgentState unit :=
  let* s := get in
  let* device := getDeviceWithoutLock in
  if decide (dev_AdminState device ≠ Admin_ENABLED) then fail (requires_enabled (da_deviceID s))
  else
    let clonedImg := set_img_DownloadState DOWNLOAD_REQUESTED img in
    match dev_ImageDownloads device with
    | None => ret tt
    | Some l =>
        let cloned := set_AdminState Admin_DOWNLOADING_IMAGE
                        (set_ImageDownloads (Some (l ++ [Some clonedImg])) device) in
        let* _ := updateDeviceInStoreWithoutLock cloned in
        send (DownloadImage cloned clonedImg)
    end.

Definition cancelImageDownload (img : ImageDownload) : M AgentState unit :=
  let* s := get in
  let* device := getDeviceWithoutLock in
  let* registered := lift (isImageRegistered img device) in
  if negb registered then fail (image_not_registered (da_deviceID s) (img_Name img))
  else
    let* cloned := lift (update_images img (set_img_DownloadState DOWNLOAD_CANCELLED) device) in
    if decide (dev_AdminState device = Admin_DOWNLOADING_IMAGE) then
      let* _ := updateDeviceInStoreWithoutLock (set_AdminState Admin_ENABLED cloned) in
      send (CancelImageDownload device img)
    else ret tt.

Definition activateImage (img : ImageDownload) : M AgentState unit :=
  let* s := get in
  let* cloned := getDeviceWithoutLock in
  let* registered := lift (isImageRegistered img cloned) in
  if negb registered then fail (image_not_registered (da_deviceID s) (img_Name img))
  else if decide (dev_AdminState cloned = Admin_DOWNLOADING_IMAGE) then
    fail (Status FailedPrecondition ("deviceId:" +:+ da_deviceID s +:+ ", device-in-downloading-state:" +:+ img_Name img))
  else
    let* cloned := lift (update_images img (set_img_ImageState IMAGE_ACTIVATING) cloned) in
    let cloned := set_AdminState Admin_DOWNLOADING_IMAGE cloned in
    let* _ := updateDeviceInStoreWithoutLock cloned in
    send (ActivateImageUpdate cloned img).

Definition revertImage (img : ImageDownload) : M AgentState unit :=
  let* s := get in
  let* cloned := getDeviceWithoutLock in
  let* registered := lift (isImageRegistered img cloned) in
  if negb registered then fail (image_not_registered (da_deviceID s) (img_Name img))
  else if decide (dev_AdminState cloned ≠ Admin_ENABLED) then
    fail (Status FailedPrecondition ("deviceId:" +:+ da_deviceID s +:+ ", device-not-enabled-state:" +:+ img_Name img))
  else
    let* cloned := lift (update_images img (set_img_ImageState IMAGE_REVERTING) cloned) in
    let* _ := updateDeviceInStoreWithoutLock cloned in
    send (RevertImageUpdate cloned img).

(** [make([]*ImageDownload, n)] followed by appends. *)
Fixpoint updated_images (img : ImageDownload) (acc l : list (option ImageDownload))
    : outcome (list (option ImageDownload)) :=
  match l with
  | [] => Ok acc
  | p :: l =>
      let? image := deref p in
      updated_images img
        (if image_is img image && negb (bool_decide (img_DownloadState image = DOWNLOAD_CANCELLED))
         then acc ++ [Some img] else acc) l
  end.

Definition updateImageDownload (img : ImageDownload) : M AgentState unit :=
  let* cloned := getDeviceWithoutLock in
  let n := length (images cloned) in
  let* clonedImages := lift (updated_images img (replicate n None) (images cloned)) in
  let cloned := set_ImageDownloads (Some clonedImages) cloned in
  let cloned :=
    if decide ((img_DownloadState img ≠ DOWNLOAD_REQUESTED ∧ img_DownloadState img ≠ DOWNLOAD_STARTED)
               ∨ img_ImageState img ≠ IMAGE_ACTIVATING)
    then set_AdminState Admin_ENABLED cloned else cloned in
  updateDeviceInStoreWithoutLock cloned.

Definition getImageDownload (img : ImageDownload) : M AgentState ImageDownload :=
  let* cloned := getDeviceWithoutLock in
  let* found := lift (find_image img (images cloned)) in
  match found with
  | Some image => ret image
  | None => fail (Status NotFound ("image-not-found:" +:+ img_Name img))
  end.

Definition listImageDownloads : M AgentState (option (list (option ImageDownload))) :=
  let* cloned := getDeviceWithoutLock in ret (dev_ImageDownloads cloned).

(** ** Flows and groups *)

(** The last element takes the place of the deleted one. *)
Definition deleteFlowWithoutPreservingOrder {A} (l : list A) (i : nat) : list A :=
  match last l with
  | Some x => take (length l - 1) (<[i := x]> l)
  | None => l
  end.
Definition deleteGroupWithoutPreservingOrder {A} (l : list A) (i : nat) : list A :=
  deleteFlowWithoutPreservingOrder l i.

(** (new flows to send, flows to delete, all flows) from the accumulators. *)
Fixpoint flows_to_update (newFlows toDelete all existing : list OfpFlowStats)
    : list OfpFlowStats * list OfpFlowStats * list OfpFlowStats :=
  match existing with
  | [] => (newFlows, toDelete, all ++ newFlows)
  | flow :: existing =>
      match FindFlows newFlows flow with
      | None => flows_to_update newFlows toDelete (all ++ [flow]) existing
      | Some idx =>
          if decide (newFlows !! idx = Some flow) then
            flows_to_update (deleteFlowWithoutPreservingOrder newFlows idx) toDelete (all ++ [flow]) existing
          else flows_to_update newFlows (toDelete ++ [flow]) all existing
      end
  end.

Definition flowsToUpdateToDelete (newFlows existingFlows : list OfpFlowStats)
    : list OfpFlowStats * list OfpFlowStats * list OfpFlowStats :=
  flows_to_update newFlows [] [] existingFlows.

Definition group_id (g : OfpGroupEntry) : outcome Z := let? d := deref (ge_Desc g) in Ok (gd_GroupId d).

Fixpoint groups_to_update (newGroups toDelete all existing : list OfpGroupEntry)
    : outcome (list OfpGroupEntry * list OfpGroupEntry * list OfpGroupEntry) :=
  match existing with
  | [] => Ok (newGroups, toDelete, all ++ newGroups)
  | group :: existing =>
      let? id := group_id group in
      let? found := FindGroup newGroups id in
      match found with
      | None => groups_to_update newGroups toDelete (all ++ [group]) existing
      | Some idx =>
          if decide (newGroups !! idx = Some group) then
            groups_to_update (deleteGroupWithoutPreservingOrder newGroups idx) toDelete (all ++ [group]) existing
          else groups_to_update newGroups (toDelete ++ [group]) all existing
      end
  end.

Definition groupsToUpdateToDelete (newGroups existingGroups : list OfpGroupEntry)
    : outcome (list OfpGroupEntry * list OfpGroupEntry * list OfpGroupEntry) :=
  groups_to_update newGroups [] [] existingGroups.

(** [(len(a) | len(b) | ...) == 0]. *)
Definition all_empty (lens : list nat) : bool := forallb (Nat.eqb 0) lens.

Definition no_device_type (ty : string) : GoError :=
  Status FailedPrecondition ("non-existent device type " +:+ ty).
Definition failure_updating (id : string) : GoError := Status Internal ("failure-updating-" +:+ id).

(** Both slices are non-empty and deeply equal to the existing ones. *)
Definition unchanged (existingGroups groups : list OfpGroupEntry) (existingFlows flows : list OfpFlowStats)
    : bool :=
  bool_decide (groups ≠ [] ∧ existingGroups = groups ∧ flows ≠ [] ∧ existingFlows = flows).

(** [updateDeviceWithoutLock], its error replaced. *)
Definition store_flows (device : Device) (flows : list OfpFlowStats) (groups : list OfpGroupEntry)
    : M AgentState unit :=
  let* s := get in
  let* r := attempt (updateDeviceInStoreWithoutLock (set_FlowGroups groups (set_Flows flows device))) in
  match r with
  | inl _ => ret tt
  | inr _ => fail (failure_updating (da_deviceID s))
  end.

Definition addFlowsAndGroupsToAdapter (newFlows : list OfpFlowStats) (newGroups : list OfpGroupEntry)
    (md : option FlowMetadata) : M AgentState completion :=
  if all_empty [length newFlows; length newGroups] then ret done_response
  else
    let* device := getDeviceWithoutLock in
    let '(newFlows, flowsToDelete, updatedAllFlows) := flowsToUpdateToDelete newFlows (dev_Flows device) in
    let* r := lift (groupsToUpdateToDelete newGroups (dev_FlowGroups device)) in
    let '(newGroups, groupsToDelete, updatedAllGroups) := r in
    if all_empty [length updatedAllFlows; length flowsToDelete; length updatedAllGroups; length groupsToDelete]
    then ret done_response
    else
      match am_getDeviceType (dev_Type device) with
      | None => fail (no_device_type (dev_Type device))
      | Some dType =>
          if negb (dt_AcceptsAddRemoveFlowUpdates dType) then
            if unchanged (dev_FlowGroups device) updatedAllGroups (dev_Flows device) updatedAllFlows
            then ret done_response
            else
              let* response := send_async (UpdateFlowsBulk device updatedAllFlows updatedAllGroups md) in
              let* _ := store_flows device updatedAllFlows updatedAllGroups in
              ret response
          else
            let* response := send_async (UpdateFlowsIncremental device
              (mkFlowChanges newFlows flowsToDelete) (mkGroupChanges newGroups groupsToDelete []) md) in
            let* _ := store_flows device updatedAllFlows updatedAllGroups in
            ret response
      end.

(** Existing flows that match none of [flows]. *)
Definition flows_not_in (flows existing : list OfpFlowStats) : list OfpFlowStats :=
  List.filter (λ flow, match FindFlows flows flow with None => true | Some _ => false end) existing.

Fixpoint groups_filter (keep : option nat → bool) (groups existing : list OfpGroupEntry)
    : outcome (list OfpGroupEntry) :=
  match existing with
  | [] => Ok []
  | group :: existing =>
      let? id := group_id group in
      let? found := FindGroup groups id in
      let? rest := groups_filter keep groups existing in
      Ok (if keep found then group :: rest else rest)
  end.
Definition is_absent (i : option nat) : bool := match i with None => true | Some _ => false end.
Definition is_present (i : option nat) : bool := negb (is_absent i).

Definition deleteFlowsAndGroupsFromAdapter (flowsToDel : list OfpFlowStats) (groupsToDel : list OfpGroupEntry)
    (md : option FlowMetadata) : M AgentState completion :=
  if all_empty [length flowsToDel; length groupsToDel] then ret done_response
  else
    let* device := getDeviceWithoutLock in
    let flowsToKeep := flows_not_in flowsToDel (dev_Flows device) in
    let* groupsToKeep := lift (groups_filter is_absent groupsToDel (dev_FlowGroups device)) in
    if all_empty [length flowsToKeep; length flowsToDel; length groupsToKeep; length groupsToDel]
    then ret done_response
    else
      match am_getDeviceType (dev_Type device) with
      | None => fail (no_device_type (dev_Type device))
      | Some dType =>
          if negb (dt_AcceptsAddRemoveFlowUpdates dType) then
            if unchanged (dev_FlowGroups device) groupsToKeep (dev_Flows device) flowsToKeep
            then ret done_response
            else
              let* response := send_async (UpdateFlowsBulk device flowsToKeep groupsToKeep md) in
              let* _ := store_flows device flowsToKeep groupsToKeep in
              ret response
          else
            let* response := send_async (UpdateFlowsIncremental device
              (mkFlowChanges [] flowsToDel) (mkGroupChanges [] groupsToDel []) md) in
            let* _ := store_flows device flowsToKeep groupsToKeep in
            ret response
      end.

(** The incremental changes of an update: what is added and what is removed. *)
Definition incremental_changes (updatedFlows existingFlows : list OfpFlowStats)
    (updatedGroups existingGroups : list OfpGroupEntry) : outcome (FlowChanges * FlowGroupChanges) :=
  let flowsToAdd := flows_not_in existingFlows updatedFlows in
  let flowsToDelete := List.filter (λ flow, is_present (FindFlows updatedFlows flow)) existingFlows in
  let? groupsToAdd := groups_filter is_absent existingGroups updatedGroups in
  let? groupsToDelete := groups_filter is_present updatedGroups existingGroups in
  Ok (mkFlowChanges flowsToAdd flowsToDelete, mkGroupChanges groupsToAdd groupsToDelete updatedGroups).

Definition updateFlowsAndGroupsToAdapter (updatedFlows : list OfpFlowStats) (updatedGroups : list OfpGroupEntry)
    (md : option FlowMetadata) : M AgentState completion :=
  if all_empty [length updatedFlows; length updatedGroups] then ret done_response
  else
    let* device := getDeviceWithoutLock in
    if unchanged (dev_FlowGroups device) updatedGroups (dev_Flows device) updatedFlows
    then ret done_response
    else
      match am_getDeviceType (dev_Type device) with
      | None => fail (no_device_type (dev_Type device))
      | Some dType =>
          if negb (dt_AcceptsAddRemoveFlowUpdates dType) then
            let* response := send_async (UpdateFlowsBulk device updatedFlows updatedGroups None) in
            let* _ := store_flows device updatedFlows updatedGroups in
            ret response
          else
            let* changes := lift (incremental_changes updatedFlows (dev_Flows device)
                                    updatedGroups (dev_FlowGroups device)) in
            let (fc, gc) := (changes : FlowChanges * FlowGroupChanges) in
            if all_empty [length (fc_ToAdd fc); length (fc_ToRemove fc); length (gc_ToAdd gc);
                          length (gc_ToRemove gc); length updatedGroups]
            then ret done_response
            else
              let* response := send_async (UpdateFlowsIncremental device fc gc md) in
              let* _ := store_flows device updatedFlows updatedGroups in
              ret response
      end.

(** The synchronous variants wait for the answer of the adapter. *)
Definition await (tie : nat → bool) (op : M AgentState completion) : M AgentState unit :=
  let* s := get in
  let* response := op in
  match (WaitForNilOrErrorResponses tie (da_defaultTimeout s) [response]).1 with
  | None => ret tt
  | Some _ => fail (Status Aborted "errors")
  end.

Definition addFlowsAndGroups tie flows groups md := await tie (addFlowsAndGroupsToAdapter flows groups md).
Definition deleteFlowsAndGroups tie flows groups md := await tie (deleteFlowsAndGroupsFromAdapter flows groups md).
Definition updateFlowsAndGroups tie flows groups md := await tie (updateFlowsAndGroupsToAdapter flows groups md).

(** ** Ports *)

Definition same_port (t : PortType) (no : Z) (p : Port) : bool :=
  bool_decide (port_Type p = t) && (port_PortNo p =? no).

Definition updatePortsOperState (operStatus : OperStatus) : M AgentState unit :=
  let* cloned := getDeviceWithoutLock in
  updateDeviceInStoreWithoutLock (set_Ports (set_port_OperStatus operStatus <$> dev_Ports cloned) cloned).

Definition updatePortState (portType : PortType) (portNo : Z) (operStatus : OperStatus) : M AgentState unit :=
  let* cloned := getDeviceWithoutLock in
  if negb (port_type_named portType) then fail (Status InvalidArgument "port-type")
  else updateDeviceInStoreWithoutLock (set_Ports
    ((λ p, if same_port portType portNo p then set_port_OperStatus operStatus p else p) <$> dev_Ports cloned) cloned).

Definition deleteAllPorts : M AgentState unit :=
  let* cloned := getDeviceWithoutLock in
  if decide (dev_AdminState cloned ≠ Admin_DISABLED ∧ dev_AdminState cloned ≠ Admin_DELETED) then
    fail (Status FailedPrecondition "invalid-state")
  else if decide (dev_Ports cloned = []) then ret tt
  else updateDeviceInStoreWithoutLock (set_Ports [] cloned).

Definition addPort (port : Port) : M AgentState unit :=
  let* cloned := getDeviceWithoutLock in
  if existsb (same_port (port_Type port) (port_PortNo port)) (dev_Ports cloned) then ret tt
  else updateDeviceInStoreWithoutLock
         (set_Ports (dev_Ports cloned ++ [set_port_AdminState Admin_ENABLED port]) cloned).

(** Updates the first port with number [no]. *)
Fixpoint update_first (no : Z) (f : Port → Port) (ports : list Port) : list Port :=
  match ports with
  | [] => []
  | p :: ports => if port_PortNo p =? no then f p :: ports else p :: update_first no f ports
  end.

(** The peer is filed under the port with the number of the peer port. *)
Definition addPeerPort (port : PeerPort) : M AgentState unit :=
  let* cloned := getDeviceWithoutLock in
  updateDeviceInStoreWithoutLock (set_Ports (update_first (peer_PortNo port)
    (λ p, set_port_Peers (port_Peers p ++ [port]) p) (dev_Ports cloned)) cloned).

Definition deletePeerPorts (deviceID : string) : M AgentState unit :=
  let* cloned := getDeviceWithoutLock in
  updateDeviceInStoreWithoutLock (set_Ports ((λ p, set_port_Peers
    (List.filter (λ peer, negb (bool_decide (peer_DeviceId peer = deviceID))) (port_Peers p)) p)
    <$> dev_Ports cloned) cloned).

(** [disablePort] and [enablePort] differ in the state and the request. *)
Definition change_port (admin : AdminState) (req : Device → Port → AdapterRequest) (portNo : Z)
    : M AgentState unit :=
  let* device := getDeviceWithoutLock in
  match list_find (λ p, port_PortNo p = portNo) (dev_Ports device) with
  | None => fail (Status InvalidArgument (pretty portNo))
  | Some (_, p) =>
      let cp := set_port_AdminState admin p in
      let device := set_Ports (update_first portNo (set_port_AdminState admin) (dev_Ports device)) device in
      if decide (port_Type cp ≠ PON_OLT) then fail (Status InvalidArgument "port-type-unimplemented")
      else
        let* _ := updateDeviceInStoreWithoutLock device in
        send (req device cp)
  end.
Definition disablePort (portNo : Z) := change_port Admin_DISABLED DisablePort portNo.
Definition enablePort (portNo : Z) := change_port Admin_ENABLED EnablePort portNo.

(** ** Status and attributes *)

Definition mergeDeviceInfoFromAdapter (device : Device) : M AgentState Device :=
  let* cloned := getDeviceWithoutLock in
  ret (set_Reason (dev_Reason device) (set_Vlan (dev_Vlan device) (set_MacAddress (dev_MacAddress device)
      (set_SerialNumber (dev_SerialNumber device) (set_Model (dev_Model device)
      (set_Vendor (dev_Vendor device) (set_Root (dev_Root device) cloned))))))).

Definition updateDeviceUsingAdapterData (device : Device) : M AgentState unit :=
  let* updatedDevice := mergeDeviceInfoFromAdapter device in
  updateDeviceInStoreWithoutLock updatedDevice.

Definition updateDeviceWithoutLock (device : Device) : M AgentState unit :=
  updateDeviceInStoreWithoutLock device.

Definition updateDeviceStatus (operStatus : OperStatus) (connStatus : ConnectStatus) : M AgentState unit :=
  let* cloned := getDeviceWithoutLock in
  let cloned := if conn_named connStatus then set_ConnectStatus connStatus cloned else cloned in
  let cloned := if oper_named operStatus then set_OperStatus operStatus cloned else cloned in
  updateDeviceInStoreWithoutLock cloned.

Definition updateDeviceReason (reason : string) : M AgentState unit :=
  let* cloned := getDeviceWithoutLock in
  updateDeviceInStoreWithoutLock (set_Reason reason cloned).

(** The dynamic value of [updateDeviceAttribute]. *)
Inductive AttrValue := AttrString (v : string) | AttrUint32 (v : Z) | AttrBool (v : bool).

(** Sets a field of kind string, uint32 or bool by name; the type assertion on
    the value panics when it has another type.  [None]: no such field. *)
Definition set_attribute (name : string) (value : AttrValue) (d : Device) : outcome (option Device) :=
  let str set := match value with AttrString v => Ok (Some (set v d)) | _ => Panic end in
  let num set := match value with AttrUint32 v => Ok (Some (set v d)) | _ => Panic end in
  let flag set := match value with AttrBool v => Ok (Some (set v d)) | _ => Panic end in
  if decide (name = "Id") then str set_Id
  else if decide (name = "Type") then str set_Type
  else if decide (name = "Root") then flag set_Root
  else if decide (name = "ParentId") then str set_ParentId
  else if decide (name = "ParentPortNo") then num set_ParentPortNo
  else if decide (name = "Vendor") then str set_Vendor
  else if decide (name = "Model") then str set_Model
  else if decide (name = "HardwareVersion") then str set_HardwareVersion
  else if decide (name = "FirmwareVersion") then str set_FirmwareVersion
  else if decide (name = "SerialNumber") then str set_SerialNumber
  else if decide (name = "VendorId") then str set_VendorId
  else if decide (name = "Adapter") then str set_Adapter
  else if decide (name = "Vlan") then num set_Vlan
  else if decide (name = "MacAddress") then str set_MacAddress
  else if decide (name = "ExtraArgs") then str set_ExtraArgs
  else if decide (name = "Reason") then str set_Reason
  else Ok None.

(** The device is stored whether a field was set or not; the error is dropped. *)
Definition updateDeviceAttribute (name : string) (value : option AttrValue) : M AgentState unit :=
  match value with
  | None => ret tt
  | Some value =>
      let* cloned := getDeviceWithoutLock in
      let* updated := lift (set_attribute name value cloned) in
      let* _ := attempt (updateDeviceInStoreWithoutLock (default cloned updated)) in
      ret tt
  end.

(** ** Requests that leave the device unchanged *)

Definition simulateAlarm (req : Opaque) : M AgentState unit :=
  let* cloned := getDeviceWithoutLock in send (SimulateAlarm cloned req).

Definition packetOut (outPort : Z) (packet : OfpPacketOut) : M AgentState unit :=
  let* s := get in
  let* _ := if decide (da_deviceType s = EmptyString) then reconcileWithKVStore else ret tt in
  let* s := get in
  send (PacketOut (da_deviceType s) (da_deviceID s) outPort packet).

(** [device.ProxyAddress] is dereferenced; the removal of the peer ports of the
    parent runs in the background, through the device manager. *)
Definition ChildDeviceLost (device : Device) : M AgentState unit :=
  let* s := get in
  let* pa := lift (deref (dev_ProxyAddress device)) in
  send (ChildLost (da_deviceType s) (da_deviceID s) (dev_ParentPortNo device) (pa_OnuId pa)).

End Agent.

(** ** Computing the changes *)

Lemma delete_swap_Permutation {A} (l : list A) i x :
  l !! i = Some x → l ≡ₚ x :: deleteFlowWithoutPreservingOrder l i.
Proof.
  intros Hi. unfold deleteFlowWithoutPreservingOrder.
  destruct (last l) as [y|] eqn:Hl; [|by apply last_None in Hl as ->].
  apply last_Some in Hl as [l0 ->]. apply lookup_lt_Some in Hi as Hlt.
  rewrite length_app /= in Hlt. rewrite length_app /=.
  replace (length l0 + 1 - 1)%nat with (length l0) by lia.
  destruct (decide (i = length l0)) as [->|Hne].
  - rewrite list_lookup_middle // in Hi. injection Hi as ->.
    rewrite insert_app_r_alt; last lia. rewrite Nat.sub_diag /= take_app_length.
    by rewrite Permutation_app_comm.
  - rewrite lookup_app_l in Hi; last lia. rewrite insert_app_l; last lia.
    rewrite take_app_length'; last by rewrite length_insert.
    rewrite insert_take_drop; last lia. rewrite -{1}(take_drop_middle l0 i x Hi).
    rewrite (Permutation_app_comm _ [y]) /= -!Permutation_middle. apply perm_swap.
Qed.

Section Changes.
Context `{ProtoText}.

Lemma keys_elem f (l : list OfpFlowStats) : f ∈ l → flow_key f ∈ flow_key <$> l.
Proof. intros Hf. by apply list_elem_of_fmap_2. Qed.

Lemma NoDup_key_inj (l : list OfpFlowStats) f g :
  NoDup (flow_key <$> l) → f ∈ l → g ∈ l → flow_key f = flow_key g → f = g.
Proof.
  intros Hnd Hf Hg Heq. apply list_elem_of_lookup in Hf as [i Hi], Hg as [j Hj].
  assert (i = j) as ->; [|congruence].
  eapply NoDup_lookup; [exact Hnd | |]; rewrite list_lookup_fmap.
  - rewrite Hi. done.
  - rewrite Hj /=. by rewrite Heq.
Qed.

(** What the loop computes from its accumulators. *)
Definition update_result (new del all ex : list OfpFlowStats)
    (r : list OfpFlowStats * list OfpFlowStats * list OfpFlowStats) : Prop :=
  let '(new', del', all') := r in
  (∀ f, f ∈ new' ↔ f ∈ new ∧ f ∉ ex) ∧
  (∀ f, f ∈ del' ↔ f ∈ del ∨ f ∈ ex ∧ f ∉ new ∧ flow_key f ∈ flow_key <$> new) ∧
  (∀ f, f ∈ all' ↔ f ∈ all ∨ f ∈ new ∨ f ∈ ex ∧ flow_key f ∉ flow_key <$> new) ∧
  NoDup (flow_key <$> all').

(** The flows still to process do not collide with those already kept. *)
Definition update_ready (new all ex : list OfpFlowStats) : Prop :=
  NoDup (flow_key <$> new) ∧ NoDup (flow_key <$> ex) ∧ NoDup (flow_key <$> all) ∧
  ∀ f g, f ∈ all → g ∈ new ++ ex → flow_key f ≠ flow_key g.

Lemma update_ready_cons new all flow ex :
  update_ready new all (flow :: ex) →
  flow_key flow ∉ flow_key <$> ex ∧ (∀ f, f ∈ ex → flow_key f ≠ flow_key flow) ∧ update_ready new all ex.
Proof.
  intros (Hn & Hex & Ha & Hd). rewrite fmap_cons NoDup_cons in Hex. destruct Hex as [Hf Hex].
  split_and!; [done| |split_and!; try done].
  - intros f Hin Heq. apply Hf. rewrite -Heq. by apply keys_elem.
  - intros f g Hfa Hg. apply Hd; [done|]. rewrite !elem_of_app elem_of_cons in Hg |- *. tauto.
Qed.

(** An existing flow is kept once no new flow has its key. *)
Lemma update_ready_keep new all flow ex :
  update_ready new all (flow :: ex) → flow_key flow ∉ flow_key <$> new →
  update_ready new (all ++ [flow]) ex.
Proof.
  intros Hr Hnew. destruct (update_ready_cons _ _ _ _ Hr) as (Hf & Hne & _).
  destruct Hr as (Hn & Hex & Ha & Hd). rewrite fmap_cons NoDup_cons in Hex.
  split_and!; [done | tauto | |].
  - rewrite fmap_app. apply NoDup_app. split_and!; [done| |apply NoDup_singleton].
    intros k (f & -> & Hfa)%list_elem_of_fmap Hk. apply list_elem_of_singleton in Hk.
    apply (Hd f flow); [done | | done]. rewrite elem_of_app elem_of_cons. auto.
  - intros f g [Hfa| ->%list_elem_of_singleton]%elem_of_app [Hg|Hg]%elem_of_app.
    + apply Hd; [done|]. rewrite elem_of_app. auto.
    + apply Hd; [done|]. rewrite elem_of_app elem_of_cons. auto.
    + intros Heq. apply Hnew. rewrite Heq. by apply keys_elem.
    + intros Heq. by apply (Hne g).
Qed.

Lemma update_step_absent new del all flow ex r :
  flow_key flow ∉ flow_key <$> new →
  update_result new del (all ++ [flow]) ex r → update_result new del all (flow :: ex) r.
Proof.
  intros Hk. assert (flow ∉ new) by (intros ?; by apply Hk, keys_elem).
  destruct r as [[new' del'] all']. intros (E1 & E2 & E3 & E4). split_and!; [| | |done]; intros f.
  - rewrite E1 elem_of_cons. split; [|tauto]. intros [? ?]. split; [done|]. by intros [->|?].
  - rewrite E2 elem_of_cons. split; [tauto|]. intros [?|([->|?] & ? & ?)]; tauto.
  - rewrite E3 elem_of_app list_elem_of_singleton elem_of_cons. split.
    + intros [[?| ->]|[?|?]]; tauto.
    + intros [?|[?|[[->|?] ?]]]; tauto.
Qed.

Lemma update_step_same new new1 del all flow ex r :
  new ≡ₚ flow :: new1 → NoDup (flow_key <$> new) →
  (∀ f, f ∈ ex → flow_key f ≠ flow_key flow) →
  update_result new1 del (all ++ [flow]) ex r → update_result new del all (flow :: ex) r.
Proof.
  intros Hperm Hnd Hex. rewrite Hperm fmap_cons NoDup_cons in Hnd. destruct Hnd as [Hk _].
  assert (flow ∉ new1) by (intros ?; by apply Hk, keys_elem).
  assert (∀ f, f ∈ new ↔ f = flow ∨ f ∈ new1) as Hin by (intros f; by rewrite Hperm elem_of_cons).
  assert (∀ f, f ∈ ex → f ≠ flow) as Hne by (intros f Hf ->; by destruct (Hex flow)).
  assert (∀ f, f ∈ ex → flow_key f ∈ flow_key <$> new ↔ flow_key f ∈ flow_key <$> new1) as Hkex.
  { intros f Hf. rewrite Hperm fmap_cons elem_of_cons. split; [|by right].
    intros [Heq|?]; [by destruct (Hex f) | done]. }
  assert (flow_key flow ∈ flow_key <$> new) by (apply keys_elem, Hin; by left).
  destruct r as [[new' del'] all']. intros (E1 & E2 & E3 & E4). split_and!; [| | |done]; intros f.
  - rewrite E1 Hin elem_of_cons. split; [|naive_solver].
    intros [Hf Hn]. split; [by right|]. intros [->|?]; done.
  - rewrite E2 Hin elem_of_cons. split.
    + intros [?|(Hf & Hn & Hkf)]; [by left|]. right. rewrite Hkex //. specialize (Hne f Hf). tauto.
    + intros [?|([->|Hf] & Hn & Hkf)]; [by left | tauto |]. right. rewrite Hkex // in Hkf. tauto.
  - rewrite E3 Hin elem_of_app list_elem_of_singleton elem_of_cons. split.
    + intros [[?| ->]|[?|[Hf Hkf]]]; [tauto..|]. right; right. rewrite Hkex //. tauto.
    + intros [?|[[->|?]|[[->|Hf] Hkf]]]; [tauto..|]. right; right. rewrite Hkex // in Hkf.
Qed.

Lemma update_step_changed new del all flow ex r :
  flow ∉ new → flow_key flow ∈ flow_key <$> new →
  update_result new (del ++ [flow]) all ex r → update_result new del all (flow :: ex) r.
Proof.
  intros Hn Hk. destruct r as [[new' del'] all']. intros (E1 & E2 & E3 & E4).
  split_and!; [| | |done]; intros f.
  - rewrite E1 elem_of_cons. split; [|tauto]. intros [? ?]. split; [done|]. by intros [->|?].
  - rewrite E2 elem_of_app list_elem_of_singleton elem_of_cons. split.
    + intros [[?| ->]|?]; tauto.
    + intros [?|([->|?] & ? & ?)]; tauto.
  - rewrite E3 elem_of_cons. split; [tauto|]. intros [?|[?|[[->|?] ?]]]; tauto.
Qed.

Lemma flows_to_update_spec new del all ex :
  update_ready new all ex → update_result new del all ex (flows_to_update new del all ex).
Proof.
  revert new del all. induction ex as [|flow ex IH]; intros new del all Hr.
  { destruct Hr as (Hn & _ & Ha & Hd). simpl. split_and!; intros; rewrite ?elem_of_app ?elem_of_nil; try tauto.
    rewrite fmap_app. apply NoDup_app. split_and!; [done| |done].
    intros k (f & -> & Hf)%list_elem_of_fmap (g & Hk & Hg)%list_elem_of_fmap.
    apply (Hd f g); [done | by rewrite app_nil_r | done]. }
  destruct (update_ready_cons _ _ _ _ Hr) as (Hfresh & Hne & Hr'). cbn [flows_to_update].
  destruct (FindFlows new flow) as [idx|] eqn:Hfind.
  2: { apply FindFlows_None in Hfind. apply update_step_absent; [done|]. by apply IH, update_ready_keep. }
  destruct (FindFlows_Some _ _ _ Hfind) as (g & Hg & Hkey).
  assert (g ∈ new) as Hgin by by eapply list_elem_of_lookup_2.
  assert (NoDup (flow_key <$> new)) as Hnd by apply Hr.
  destruct (decide (new !! idx = Some flow)) as [Heq|Hneq].
  - pose proof (delete_swap_Permutation new idx flow Heq) as Hperm.
    apply (update_step_same _ _ _ _ _ _ _ Hperm); [done..|]. apply IH.
    rewrite Hperm fmap_cons NoDup_cons in Hnd. destruct Hnd as [Hk Hnd].
    apply update_ready_keep; [|done]. destruct Hr as (_ & Hex & Ha & Hd). split_and!; [done..|].
    intros f x Hf Hx. apply Hd; [done|]. rewrite Hperm. rewrite !elem_of_app ?elem_of_cons in Hx |- *. tauto.
  - apply update_step_changed; [| |by apply IH].
    + intros Hf. apply Hneq. rewrite Hg. f_equal. by eapply NoDup_key_inj.
    + rewrite -Hkey. by apply keys_elem.
Qed.

End Changes.

(** C19: the changes computed for new flows, when no two flows of a list have the
    same key (table, priority, flags, cookie, match).  Only the new flows the
    device does not have are sent; only the flows a new flow replaces are
    deleted; what is stored is what the device ends up with after removing the
    one and adding the other, has every new flow and every old flow no new flow
    replaces, and again has no duplicate key. *)
Theorem add_flows_changes `{ProtoText} (newFlows existing : list OfpFlowStats) :
  NoDup (flow_key <$> newFlows) → NoDup (flow_key <$> existing) →
  let '(toAdd, toDelete, all) := flowsToUpdateToDelete newFlows existing in
  (∀ f, f ∈ toAdd ↔ f ∈ newFlows ∧ f ∉ existing) ∧
  (∀ f, f ∈ toDelete ↔ f ∈ existing ∧ f ∉ newFlows ∧ flow_key f ∈ flow_key <$> newFlows) ∧
  (∀ f, f ∈ all ↔ f ∈ newFlows ∨ f ∈ existing ∧ flow_key f ∉ flow_key <$> newFlows) ∧
  (∀ f, f ∈ all ↔ (f ∈ existing ∧ f ∉ toDelete) ∨ f ∈ toAdd) ∧
  NoDup (flow_key <$> all).
Proof.
  intros Hn He. unfold flowsToUpdateToDelete.
  pose proof (flows_to_update_spec newFlows [] [] existing) as Hs.
  destruct (flows_to_update newFlows [] [] existing) as [[toAdd toDelete] all].
  destruct Hs as (E1 & E2 & E3 & E4).
  { split_and!; [done | done | constructor |]. intros f g Hf. by apply elem_of_nil in Hf. }
  assert (∀ f, f ∈ toDelete ↔ f ∈ existing ∧ f ∉ newFlows ∧ flow_key f ∈ flow_key <$> newFlows) as D.
  { intros f. rewrite E2 elem_of_nil. tauto. }
  assert (∀ f, f ∈ all ↔ f ∈ newFlows ∨ f ∈ existing ∧ flow_key f ∉ flow_key <$> newFlows) as A.
  { intros f. rewrite E3 elem_of_nil. tauto. }
  split_and!; [done..| |done]. intros f. rewrite A D E1.
  destruct (decide (f ∈ newFlows)), (decide (f ∈ existing)),
    (decide (flow_key f ∈ flow_key <$> newFlows)); tauto.
Qed.

(** Two flows of one key: the new one replaces the old one. *)
Lemma add_flows_changes_witness :
  let old := sample_table_flow 5 in
  let new := sample_table_flow 6 in
  @flowsToUpdateToDelete sample_text [new] [old] = ([new], [old], [new]) ∧
  ∀ f, f ∈ [old] ↔ f ∈ [old] ∧ f ∉ [new] ∧
    @flow_key sample_text f ∈ @flow_key sample_text <$> [new].
Proof.
  intros old new.
  pose proof (@add_flows_changes sample_text [new] [old] (NoDup_singleton _) (NoDup_singleton _)) as Hc.
  assert (@flowsToUpdateToDelete sample_text [new] [old] = ([new], [old], [new])) as Heq by by vm_compute.
  rewrite Heq in Hc. split; [exact Heq | exact (proj1 (proj2 Hc))].
Defined.

(** ** The operations as steps *)

Section Steps.
Context {Store : Type} `{DataProxy Device Store, Adapter, AdapterMgrView, ProtoText}.
Notation AgentState := (AgentState (Store := Store)).

Inductive agent_op :=
  | op_enableDevice | op_disableDevice | op_updateAdminState (a : AdminState) | op_rebootDevice
  | op_deleteDevice | op_setParentID (p : string) | op_updatePmConfigs (pm : PmConfigs)
  | op_downloadImage (img : ImageDownload) | op_cancelImageDownload (img : ImageDownload)
  | op_activateImage (img : ImageDownload) | op_revertImage (img : ImageDownload)
  | op_updateImageDownload (img : ImageDownload)
  | op_addFlows (tie : nat → bool) (fs : list OfpFlowStats) (gs : list OfpGroupEntry) (md : option FlowMetadata)
  | op_deleteFlows (tie : nat → bool) (fs : list OfpFlowStats) (gs : list OfpGroupEntry) (md : option FlowMetadata)
  | op_updateFlows (tie : nat → bool) (fs : list OfpFlowStats) (gs : list OfpGroupEntry) (md : option FlowMetadata)
  | op_updatePortsOperState (o : OperStatus) | op_updatePortState (t : PortType) (no : Z) (o : OperStatus)
  | op_deleteAllPorts | op_addPort (p : Port) | op_addPeerPort (p : PeerPort)
  | op_deletePeerPorts (id : string) | op_disablePort (no : Z) | op_enablePort (no : Z)
  | op_updateDeviceUsingAdapterData (d : Device) | op_updateDeviceStatus (o : OperStatus) (c : ConnectStatus)
  | op_updateDeviceReason (r : string) | op_updateDeviceAttribute (name : string) (v : option AttrValue)
  | op_simulateAlarm (r : Opaque) | op_packetOut (p : Z) (pk : OfpPacketOut)
  | op_ChildDeviceLost (d : Device) | op_reconcileWithKVStore.

Definition run_op (op : agent_op) : M AgentState unit :=
  match op with
  | op_enableDevice => enableDevice
  | op_disableDevice => disableDevice
  | op_updateAdminState a => updateAdminState a
  | op_rebootDevice => rebootDevice
  | op_deleteDevice => deleteDevice
  | op_setParentID p => setParentID p
  | op_updatePmConfigs pm => updatePmConfigs pm
  | op_downloadImage img => downloadImage img
  | op_cancelImageDownload img => cancelImageDownload img
  | op_activateImage img => activateImage img
  | op_revertImage img => revertImage img
  | op_updateImageDownload img => updateImageDownload img
  | op_addFlows tie fs gs md => addFlowsAndGroups tie fs gs md
  | op_deleteFlows tie fs gs md => deleteFlowsAndGroups tie fs gs md
  | op_updateFlows tie fs gs md => updateFlowsAndGroups tie fs gs md
  | op_updatePortsOperState o => updatePortsOperState o
  | op_updatePortState t no o => updatePortState t no o
  | op_deleteAllPorts => deleteAllPorts
  | op_addPort p => addPort p
  | op_addPeerPort p => addPeerPort p
  | op_deletePeerPorts id => deletePeerPorts id
  | op_disablePort no => disablePort no
  | op_enablePort no => enablePort no
  | op_updateDeviceUsingAdapterData d => updateDeviceUsingAdapterData d
  | op_updateDeviceStatus o c => updateDeviceStatus o c
  | op_updateDeviceReason r => updateDeviceReason r
  | op_updateDeviceAttribute name v => updateDeviceAttribute name v
  | op_simulateAlarm r => simulateAlarm r
  | op_packetOut p pk => packetOut p pk
  | op_ChildDeviceLost d => ChildDeviceLost d
  | op_reconcileWithKVStore => reconcileWithKVStore
  end.

(** A history of operations; an operation that fails does not stop the agent. *)
Definition run_ops (ops : list agent_op) (s : AgentState) : AgentState :=
  foldl (λ s op, (run_op op s).2) s ops.

(** The flows handed to an operation have distinct keys. *)
Definition op_ok (op : agent_op) : Prop :=
  match op with
  | op_addFlows _ fs _ _ | op_updateFlows _ fs _ _ => NoDup (flow_key <$> fs)
  | _ => True
  end.

Definition port_key (p : Port) : PortType * Z := (port_Type p, port_PortNo p).

(** No two ports of a type have the same number, no two flows the same key. *)
Definition device_wf (d : Device) : Prop :=
  NoDup (port_key <$> dev_Ports d) ∧ NoDup (flow_key <$> dev_Flows d).

(** The cache holds what the data model holds, and the device satisfies [good]. *)
Definition agent_holds (good : Device → Prop) (s : AgentState) : Prop :=
  dp_get (da_deviceID s) (da_store s) = Ok (Some (da_device s)) ∧ good (da_device s).

Definition agent_inv : AgentState → Prop := agent_holds device_wf.

(** *** The statements of an operation *)

Context `{!DataProxyLaws Device Store}.

Lemma inv_update (good : Device → Prop) d :
  good d → preserves (agent_holds good) (updateDeviceInStoreWithoutLock d).
Proof.
  intros Hd s [Hget Hwf]. unfold updateDeviceInStoreWithoutLock.
  destruct (dp_update (da_deviceID s) d (da_store s)) as [r st] eqn:Hu.
  destruct r as [| |e]; simpl; split; simpl; try done.
  - by eapply dp_update_get.
  - rewrite (dp_update_fail _ _ _ _ _ Hu) //.
  - rewrite (dp_update_fail _ _ _ _ _ Hu) //.
Qed.

Lemma inv_send good req : preserves (agent_holds good) (send req).
Proof. intros s Hs. unfold send. by destruct (adapter_reply _ _). Qed.
Lemma inv_send_async good req : preserves (agent_holds good) (send_async req).
Proof. intros s Hs. exact Hs. Qed.
Lemma inv_reconcile good : preserves (agent_holds good) reconcileWithKVStore.
Proof.
  intros s [Hget Hwf]. unfold reconcileWithKVStore. rewrite Hget. by split.
Qed.

(** The device an operation starts from satisfies [good]. *)
Lemma inv_device {A} (good : Device → Prop) (k : Device → M AgentState A) :
  (∀ d, good d → preserves (agent_holds good) (k d)) →
  preserves (agent_holds good) (sbind getDeviceWithoutLock k).
Proof. intros Hk s Hs. apply Hk; [apply Hs | done]. Qed.

(** Splits an operation into its statements, keeping what is known of the device. *)
Ltac agent_step :=
  first [ apply inv_device; intros ?d ?Hd | apply inv_update | apply inv_send | apply inv_send_async
        | apply inv_reconcile | preserves_step ].
Ltac agent_tac := repeat agent_step; try assumption.

(** *** Device updates that keep a device well-formed *)

Lemma wf_ports d ports :
  device_wf d → NoDup (port_key <$> ports) → device_wf (set_Ports ports d).
Proof. by intros [_ Hf] Hp. Qed.

Lemma wf_ports_map d (f : Port → Port) :
  (∀ p, port_key (f p) = port_key p) → device_wf d → device_wf (set_Ports (f <$> dev_Ports d) d).
Proof.
  intros Hf Hd. apply wf_ports; [done|]. rewrite -list_fmap_compose.
  erewrite list_fmap_ext; [apply Hd|]. intros _ p _. by apply Hf.
Qed.

Lemma update_first_keys no f ports :
  (∀ p, port_key (f p) = port_key p) → port_key <$> update_first no f ports = port_key <$> ports.
Proof.
  intros Hf. induction ports as [|p ports IH]; [done|]. simpl.
  destruct (_ =? _); rewrite !fmap_cons; [by rewrite Hf | by rewrite IH].
Qed.

Lemma wf_ports_first d no f :
  (∀ p, port_key (f p) = port_key p) → device_wf d → device_wf (set_Ports (update_first no f (dev_Ports d)) d).
Proof. intros Hf Hd. apply wf_ports; [done|]. rewrite update_first_keys //. apply Hd. Qed.

Lemma wf_flows d flows groups :
  device_wf d → NoDup (flow_key <$> flows) → device_wf (set_FlowGroups groups (set_Flows flows d)).
Proof. by intros [Hp _] Hf. Qed.

Lemma wf_add_port d p :
  device_wf d → existsb (same_port (port_Type p) (port_PortNo p)) (dev_Ports d) = false →
  device_wf (set_Ports (dev_Ports d ++ [set_port_AdminState Admin_ENABLED p]) d).
Proof.
  intros Hd Hex. apply wf_ports; [done|]. rewrite fmap_app. apply NoDup_app.
  split_and!; [apply Hd | | apply NoDup_singleton].
  intros k (q & -> & Hq)%list_elem_of_fmap Hk%list_elem_of_singleton. unfold port_key in Hk. simpl in Hk.
  apply not_true_iff_false in Hex. apply Hex, existsb_exists. exists q.
  rewrite -list_elem_of_In. split; [done|]. unfold same_port.
  injection Hk as -> ->. by rewrite bool_decide_true // Z.eqb_refl.
Qed.

Lemma NoDup_filter_keys (p : OfpFlowStats → bool) (l : list OfpFlowStats) :
  NoDup (flow_key <$> l) → NoDup (flow_key <$> List.filter p l).
Proof.
  induction l as [|f l IH]; [done|]. cbn [List.filter]. rewrite !fmap_cons NoDup_cons. intros [Hf Hl].
  destruct (p f); [|by apply IH]. rewrite fmap_cons NoDup_cons. split; [|by apply IH].
  intros (g & Hk & Hg)%list_elem_of_fmap. apply Hf. rewrite Hk. apply keys_elem.
  apply list_elem_of_In. apply list_elem_of_In, filter_In in Hg. tauto.
Qed.

Lemma wf_update_images img f d d' : device_wf d → update_images img f d = Ok d' → device_wf d'.
Proof.
  intros Hd. unfold update_images.
  destruct (mapO _ _); simpl; [intros [= <-]; exact Hd | done | done].
Qed.

Lemma inv_store_flows good d flows groups :
  good (set_FlowGroups groups (set_Flows flows d)) →
  preserves (agent_holds good) (store_flows d flows groups).
Proof. intros Hd. unfold store_flows. agent_tac. Qed.

Lemma inv_await good tie op : preserves (agent_holds good) op → preserves (agent_holds good) (await tie op).
Proof. intros Hop. unfold await. agent_tac. Qed.

Lemma inv_addFlows fs gs md :
  NoDup (flow_key <$> fs) → preserves agent_inv (addFlowsAndGroupsToAdapter fs gs md).
Proof.
  intros Hfs. unfold addFlowsAndGroupsToAdapter. destruct (all_empty _); [agent_tac|].
  apply inv_device; intros d Hd. pose proof (add_flows_changes fs (dev_Flows d) Hfs (proj2 Hd)) as Hc.
  destruct (flowsToUpdateToDelete fs (dev_Flows d)) as [[toAdd toDelete] all].
  destruct Hc as (_ & _ & _ & _ & Hall).
  repeat first [apply inv_store_flows; by apply wf_flows | agent_step].
Qed.

Lemma inv_deleteFlows fs gs md : preserves agent_inv (deleteFlowsAndGroupsFromAdapter fs gs md).
Proof.
  unfold deleteFlowsAndGroupsFromAdapter. destruct (all_empty _); [agent_tac|].
  apply inv_device; intros d Hd.
  assert (NoDup (flow_key <$> flows_not_in fs (dev_Flows d))) as Hall by apply NoDup_filter_keys, Hd.
  repeat first [apply inv_store_flows; by apply wf_flows | agent_step].
Qed.

Lemma inv_updateFlows fs gs md :
  NoDup (flow_key <$> fs) → preserves agent_inv (updateFlowsAndGroupsToAdapter fs gs md).
Proof.
  intros Hfs. unfold updateFlowsAndGroupsToAdapter. destruct (all_empty _); [agent_tac|].
  apply inv_device; intros d Hd.
  repeat first [apply inv_store_flows; by apply wf_flows | agent_step].
Qed.

Lemma inv_change_port admin req no : preserves agent_inv (change_port admin req no).
Proof.
  unfold change_port. apply inv_device; intros d Hd.
  destruct (list_find _ _) as [[i p]|]; [|agent_tac]. agent_tac. by apply wf_ports_first.
Qed.

Lemma inv_attribute name v d u : device_wf d → set_attribute name v d = Ok u → device_wf (default d u).
Proof.
  intros Hd. unfold set_attribute.
  repeat (destruct (decide _); [destruct v; [try done..]; try (intros [= <-]; exact Hd); done|]).
  intros [= <-]. exact Hd.
Qed.

Create HintDb device_wf discriminated.
Hint Resolve wf_ports_map wf_ports_first wf_add_port wf_update_images inv_attribute : device_wf.

(** The head of an application. *)
Ltac head_of t := lazymatch t with ?f _ => head_of f | _ => t end.

Lemma inv_adapterData d : preserves agent_inv (updateDeviceUsingAdapterData d).
Proof. intros s Hs. refine (inv_update _ _ _ s Hs). exact (proj2 Hs). Qed.

Lemma run_op_inv op : op_ok op → preserves agent_inv (run_op op).
Proof.
  intros Hok. destruct op; cbn [run_op op_ok] in *;
    try (apply inv_await; first [by apply inv_addFlows | by apply inv_deleteFlows | by apply inv_updateFlows]);
    try apply inv_change_port; try apply inv_reconcile; try apply inv_adapterData.
  all: lazymatch goal with |- preserves _ ?m => let h := head_of m in unfold h end.
  all: agent_tac.
  all: try (eauto 3 with device_wf; fail).
  all: try match goal with
       | Hd : device_wf ?d, Hu : update_images _ _ ?d = Ok ?d' |- device_wf _ =>
           exact (wf_update_images _ _ _ _ Hd Hu)
       end.
  - by case_decide.
  - apply wf_ports_map; [|done]. intros p. by destruct (same_port _ _ p).
  - apply wf_ports; [done | constructor].
  - by repeat case_match.
Qed.


(** *** A deleted device *)

(** The operations that set the administrative state without regard for the
    state the device is in. *)
Definition overrides_admin_state (op : agent_op) : bool :=
  match op with
  | op_updateAdminState _ | op_updateImageDownload _ | op_activateImage _ => true
  | _ => false
  end.

Definition is_deleted (d : Device) : Prop := dev_AdminState d = Admin_DELETED.

Lemma deleted_update_images img f d d' : is_deleted d → update_images img f d = Ok d' → is_deleted d'.
Proof.
  intros Hd. unfold update_images. destruct (mapO _ _); simpl; [intros [= <-]; exact Hd | done | done].
Qed.

Lemma deleted_attribute name v d u : is_deleted d → set_attribute name v d = Ok u → is_deleted (default d u).
Proof.
  intros Hd. unfold set_attribute.
  repeat (destruct (decide _); [destruct v; [try done..]; try (intros [= <-]; exact Hd); done|]).
  intros [= <-]. exact Hd.
Qed.

Lemma inv_adapterData_deleted d : preserves (agent_holds is_deleted) (updateDeviceUsingAdapterData d).
Proof. intros s Hs. refine (inv_update _ _ _ s Hs). exact (proj2 Hs). Qed.

Lemma run_op_deleted op :
  overrides_admin_state op = false → preserves (agent_holds is_deleted) (run_op op).
Proof.
  intros Hop. destruct op; try done; cbn [run_op];
    try apply inv_await; try apply inv_reconcile; try apply inv_adapterData_deleted.
  all: lazymatch goal with |- preserves _ ?m => let h := head_of m in unfold h end.
  all: try unfold change_port.
  all: repeat first [apply inv_store_flows | agent_step]; try assumption.
  all: try match goal with
       | Hd : is_deleted ?d, Hu : update_images _ _ ?d = Ok ?d' |- _ =>
           first [exact (deleted_update_images _ _ _ _ Hd Hu) | unfold is_deleted in *; congruence]
       | Hd : is_deleted ?d, Hu : set_attribute _ _ ?d = Ok ?u |- _ =>
           exact (deleted_attribute _ _ _ _ Hd Hu)
       end.
  all: try (exfalso; unfold is_deleted in Hd; match goal with
            | Hn : ¬ (_ ≠ _) |- _ => apply Hn; congruence
            | Hn : ¬ (_ ∨ _) |- _ => apply Hn; by right
            | Hn : _ ≠ Admin_DELETED |- _ => exact (Hn Hd)
            end).
  all: by repeat case_match.
Qed.


(** *** Enabling, disabling, deleting *)

(** The fields an administrative operation leaves alone. *)
Definition same_but_status (d d' : Device) : Prop :=
  d' = set_AdminState (dev_AdminState d') (set_OperStatus (dev_OperStatus d')
         (set_Adapter (dev_Adapter d') d)).

(** What is known after a store update followed by a request carrying it. *)
Lemma store_then_send d req s :
  match (let* _ := updateDeviceInStoreWithoutLock d in send req) s with
  | (Ok _, s') => da_device s' = d ∧ da_sent s' = da_sent s ++ [req] ∧
      dp_get (da_deviceID s) (da_store s') = Ok (Some d)
  | (Err _, s') =>
      (da_device s' = da_device s ∧ da_sent s' = da_sent s ∧
       dp_get (da_deviceID s) (da_store s') = dp_get (da_deviceID s) (da_store s)) ∨
      (da_device s' = d ∧ da_sent s' = da_sent s ++ [req] ∧
       dp_get (da_deviceID s) (da_store s') = Ok (Some d))
  | (Panic, _) => False
  end.
Proof.
  unfold sbind, updateDeviceInStoreWithoutLock.
  destruct (dp_update (da_deviceID s) d (da_store s)) as [r st] eqn:Hu.
  destruct r as [| |e].
  - apply dp_update_get in Hu. unfold send. simpl. destruct (adapter_reply _ _); simpl; [right|]; done.
  - left. simpl. split_and!; [done..|]. by apply (dp_update_fail _ _ _ _ _ Hu).
  - left. simpl. split_and!; [done..|]. by apply (dp_update_fail _ _ _ _ _ Hu).
Qed.


(** [deleteDevice] asks the adapter first, unless the device is only
    pre-provisioned; the device becomes DELETED, in the cache and in the store,
    only when the adapter agreed, and nothing else of it changes. *)
Theorem delete_device_correct (s : AgentState) :
  let d := da_device s in
  let sent := if decide (dev_AdminState d = Admin_PREPROVISIONED) then [] else [DeleteDevice d] in
  match deleteDevice s with
  | (Ok _, s') =>
      dev_AdminState d = Admin_DELETED ∧ s' = s ∨
      dev_AdminState d ≠ Admin_DELETED ∧ da_sent s' = da_sent s ++ sent ∧
      da_device s' = set_AdminState Admin_DELETED d ∧
      dp_get (da_deviceID s) (da_store s') = Ok (Some (set_AdminState Admin_DELETED d))
  | (Err _, s') => dev_AdminState d ≠ Admin_DELETED ∧ da_device s' = d ∧ da_sent s' = da_sent s ++ sent ∧
      dp_get (da_deviceID s) (da_store s') = dp_get (da_deviceID s) (da_store s)
  | (Panic, _) => False
  end.
Proof.
  intros d sent. unfold deleteDevice. unfold sbind at 1, getDeviceWithoutLock, gets. fold d.
  destruct (decide (dev_AdminState d = Admin_DELETED)) as [Hd|Hd]; [by left|].
  assert (∀ s1, da_device s1 = d → da_deviceID s1 = da_deviceID s → da_store s1 = da_store s →
    da_sent s1 = da_sent s ++ sent →
    match updateDeviceInStoreWithoutLock (set_AdminState Admin_DELETED d) s1 with
    | (Ok _, s') => da_sent s' = da_sent s ++ sent ∧ da_device s' = set_AdminState Admin_DELETED d ∧
        dp_get (da_deviceID s) (da_store s') = Ok (Some (set_AdminState Admin_DELETED d))
    | (Err _, s') => da_device s' = d ∧ da_sent s' = da_sent s ++ sent ∧
        dp_get (da_deviceID s) (da_store s') = dp_get (da_deviceID s) (da_store s)
    | (Panic, _) => False
    end) as Hupd.
  { intros s1 Hdev Hid Hst Hsent. unfold updateDeviceInStoreWithoutLock. rewrite Hid Hst.
    destruct (dp_update (da_deviceID s) _ (da_store s)) as [r st] eqn:Hu.
    destruct r; simpl; split_and!; try done; [by eapply dp_update_get | |];
      by apply (dp_update_fail _ _ _ _ _ Hu). }
  destruct (decide (dev_AdminState d = Admin_PREPROVISIONED)).
  - specialize (Hupd s eq_refl eq_refl eq_refl ltac:(by rewrite app_nil_r)). unfold sbind at 1, ret.
    destruct (updateDeviceInStoreWithoutLock _ s) as [[[]|err|] s']; [by right | done | done].
  - unfold sbind at 1, send. destruct (adapter_reply _ _); [done|].
    specialize (Hupd (set_sent (da_sent s ++ [DeleteDevice d]) s) eq_refl eq_refl eq_refl eq_refl).
    destruct (updateDeviceInStoreWithoutLock _ _) as [[[]|err|] s']; [by right | done | done].
Qed.

End Steps.

(** ** Flows and images: further behaviour *)

Section Behaviour.
Context {Store : Type} `{DataProxy Device Store, Adapter, AdapterMgrView, ProtoText, !DataProxyLaws Device Store}.
Notation AgentState := (AgentState (Store := Store)).

(** A successful update. *)
Lemma update_Ok d s u s' :
  updateDeviceInStoreWithoutLock d s = (Ok u, s') →
  da_device s' = d ∧ da_deviceID s' = da_deviceID s ∧ dp_get (da_deviceID s) (da_store s') = Ok (Some d).
Proof.
  unfold updateDeviceInStoreWithoutLock.
  destruct (dp_update _ d (da_store s)) as [[| |e] st] eqn:Hu; [|done|done].
  intros [= <- <-]. split_and!; [done..|]. by eapply dp_update_get.
Qed.

(** New flows whose keys the device does not use are appended. *)
Lemma flows_to_update_fresh new del all ex :
  (∀ f, f ∈ ex → flow_key f ∉ flow_key <$> new) →
  flows_to_update new del all ex = (new, del, all ++ ex ++ new).
Proof.
  revert all. induction ex as [|f ex IH]; intros all Hd; [done|]. cbn [flows_to_update].
  rewrite (proj2 (FindFlows_None new f)); last (apply Hd; set_solver).
  rewrite IH; last (intros g Hg; apply Hd; set_solver). by rewrite -app_assoc.
Qed.

Lemma groups_to_update_none del all ex r :
  groups_to_update [] del all ex = Ok r → r = ([], del, all ++ ex).
Proof.
  revert all. induction ex as [|g ex IH]; intros all; cbn [groups_to_update].
  { intros [= <-]. done. }
  destruct (group_id g); cbn [obind FindGroup]; [|done|done]. intros Hr%IH. by rewrite Hr -app_assoc.
Qed.

Lemma groups_filter_none ex r : groups_filter is_absent [] ex = Ok r → r = ex.
Proof.
  revert r. induction ex as [|g ex IH]; intros r; cbn [groups_filter]; [by intros [= <-]|].
  destruct (group_id g); cbn [obind FindGroup]; [|done|done].
  destruct (groups_filter is_absent [] ex) eqn:Hg; cbn [obind]; [|done|done].
  intros [= <-]. cbn. f_equal. by apply IH.
Qed.

Lemma flows_not_in_fresh new ex :
  (∀ f, f ∈ ex → flow_key f ∉ flow_key <$> new) → flows_not_in new (ex ++ new) = ex.
Proof.
  intros Hd. unfold flows_not_in. rewrite List.filter_app.
  assert (List.filter (λ flow, match FindFlows new flow with None => true | Some _ => false end) new = []) as ->.
  { assert (∀ l, l ⊆ new → List.filter (λ flow, match FindFlows new flow with None => true | Some _ => false end) l = []) as Hall.
    { induction l as [|f l IH]; intros Hsub; [done|]. cbn [List.filter].
      destruct (FindFlows new f) eqn:Hf; [apply IH; set_solver|].
      apply FindFlows_None in Hf. destruct Hf. apply keys_elem. set_solver. }
    by apply Hall. }
  rewrite app_nil_r. induction ex as [|f ex IH]; [done|]. cbn [List.filter].
  rewrite (proj2 (FindFlows_None new f)); last (apply Hd; set_solver).
  f_equal. apply IH. intros g Hg. apply Hd. set_solver.
Qed.

(** What a successful flow update leaves in the cache. *)
Lemma send_and_store_flows {req : AdapterRequest} (d : Device) flows groups (s : AgentState) r s' :
  (let* response := send_async req in let* _ := store_flows d flows groups in ret response) s = (Ok r, s') →
  da_device s' = set_FlowGroups groups (set_Flows flows d).
Proof.
  intros (resp & s1 & _ & Hk)%sbind_Ok. apply sbind_Ok in Hk as (u & s2 & Hst & Hret).
  unfold ret in Hret. injection Hret as _ <-. unfold store_flows in Hst.
  apply sbind_Ok in Hst as (s0 & s3 & [= <- <-] & Hst).
  apply sbind_Ok in Hst as (res & s4 & Hatt & Hfin). unfold attempt in Hatt.
  destruct (updateDeviceInStoreWithoutLock _ s1) as [[u'|e|] s5] eqn:Hu; simplify_eq.
  unfold ret in Hfin. injection Hfin as _ <-. by apply update_Ok in Hu as [? _].
Qed.

(** A flow is told apart from the others by its key. *)
Lemma fresh_not_unchanged (ex new : list OfpFlowStats) gs gs' : new ≠ [] → unchanged gs gs' ex (ex ++ new) = false.
Proof.
  intros Hne. apply bool_decide_eq_false. intros (_ & _ & _ & Heq).
  rewrite -{1}(app_nil_r ex) in Heq. apply app_inv_head in Heq. done.
Qed.

(** Adding flows with new keys and then deleting them is a round trip: when
    both calls succeed the device has the flows it had, in their order, and its
    groups; in between it has the old flows followed by the new ones. *)
Theorem add_delete_flows_roundtrip (newFlows : list OfpFlowStats) (md md' : option FlowMetadata)
    (s s1 s2 : AgentState) (r r' : completion) :
  newFlows ≠ [] →
  (∀ f, f ∈ dev_Flows (da_device s) → flow_key f ∉ flow_key <$> newFlows) →
  addFlowsAndGroupsToAdapter newFlows [] md s = (Ok r, s1) →
  deleteFlowsAndGroupsFromAdapter newFlows [] md' s1 = (Ok r', s2) →
  dev_Flows (da_device s1) = dev_Flows (da_device s) ++ newFlows ∧
  dev_Flows (da_device s2) = dev_Flows (da_device s) ∧
  dev_FlowGroups (da_device s2) = dev_FlowGroups (da_device s).
Proof.
  intros Hne Hfresh Hadd Hdel. set (d := da_device s) in *.
  assert (∀ l : list nat, all_empty (length newFlows :: l) = false ∧
    ∀ n, all_empty (n :: length newFlows :: l) = false ∧
    all_empty (length (dev_Flows d ++ newFlows) :: l) = false) as Hemp.
  { intros l. destruct newFlows as [|f fs]; [done|]. split; [done|]. intros n. split; [by destruct n|].
    unfold all_empty. cbn [forallb]. rewrite length_app Nat.add_comm. done. }
  assert (da_device s1 = set_FlowGroups (dev_FlowGroups d) (set_Flows (dev_Flows d ++ newFlows) d)) as Hs1.
  { revert Hadd. unfold addFlowsAndGroupsToAdapter. rewrite (proj1 (Hemp _)).
    unfold sbind at 1, getDeviceWithoutLock, gets. fold d.
    unfold flowsToUpdateToDelete. rewrite flows_to_update_fresh // app_nil_l.
    unfold sbind at 1, lift, groupsToUpdateToDelete.
    destruct (groups_to_update [] [] [] (dev_FlowGroups d)) as [g|e|] eqn:Hg; [|done|done].
    apply groups_to_update_none in Hg as ->. rewrite app_nil_l (proj2 (proj2 (Hemp _) 0%nat)).
    destruct (am_getDeviceType (dev_Type d)) as [t|]; [|done].
    destruct (negb _); [rewrite fresh_not_unchanged //|]; by intros ?%send_and_store_flows. }
  split; [by rewrite Hs1|].
  assert (da_device s2 = set_FlowGroups (dev_FlowGroups d) (set_Flows (dev_Flows d) (da_device s1))) as ->; [|done].
  revert Hdel. unfold deleteFlowsAndGroupsFromAdapter. rewrite (proj1 (Hemp _)).
  unfold sbind at 1, getDeviceWithoutLock, gets. rewrite Hs1. cbn [dev_Flows set_Flows set_FlowGroups dev_FlowGroups].
  rewrite flows_not_in_fresh //. unfold sbind at 1, lift.
  destruct (groups_filter is_absent [] (dev_FlowGroups d)) as [g|e|] eqn:Hg; [|done|done].
  apply groups_filter_none in Hg as ->. rewrite (proj1 (proj2 (Hemp _) _)).
  destruct (am_getDeviceType _) as [t|]; [|done].
  assert (unchanged (dev_FlowGroups d) (dev_FlowGroups d) (dev_Flows d ++ newFlows) (dev_Flows d) = false) as ->.
  { apply bool_decide_eq_false. intros (_ & _ & _ & Heq). rewrite -{2}(app_nil_r (dev_Flows d)) in Heq.
    apply app_inv_head in Heq. done. }
  destruct (negb _); by intros ?%send_and_store_flows.
Qed.

Lemma List_filter_elem {A} (p : A → bool) (l : list A) x : x ∈ List.filter p l ↔ x ∈ l ∧ p x = true.
Proof. by rewrite !list_elem_of_In filter_In. Qed.

Lemma is_present_FindFlows flows f : is_present (FindFlows flows f) = true ↔ flow_key f ∈ flow_key <$> flows.
Proof.
  destruct (FindFlows flows f) as [i|] eqn:Hf; simpl.
  - split; [|done]. intros _. destruct (FindFlows_Some _ _ _ Hf) as (g & Hg & <-).
    apply keys_elem. by eapply list_elem_of_lookup_2.
  - split; [done|]. intros Hk. by apply FindFlows_None in Hf.
Qed.

(** the incremental update of flows removes the wrong flows: a flow of the
    device that the update drops is never removed from the adapter, while every
    flow the update keeps is removed and not added back. *)
Theorem incremental_update_inverted (updated existing : list OfpFlowStats) ug eg fc gc :
  incremental_changes updated existing ug eg = Ok (fc, gc) →
  (∀ f, f ∈ existing → flow_key f ∉ flow_key <$> updated → f ∉ fc_ToRemove fc) ∧
  (∀ f, f ∈ existing → f ∈ updated → f ∈ fc_ToRemove fc ∧ f ∉ fc_ToAdd fc) ∧
  (∀ f, f ∈ updated → flow_key f ∉ flow_key <$> existing → f ∈ fc_ToAdd fc).
Proof.
  unfold incremental_changes. destruct (groups_filter is_absent eg ug); cbn [obind]; [|done|done].
  destruct (groups_filter is_present ug eg); cbn [obind]; [|done|done]. intros [= <- <-]. cbn [fc_ToRemove fc_ToAdd].
  assert (∀ l f, match FindFlows l f with None => true | Some _ => false end = negb (is_present (FindFlows l f)))
    as Hneg by (intros l f; by destruct (FindFlows l f)).
  split_and!.
  - intros f _ Hk [_ Hp%is_present_FindFlows]%List_filter_elem. done.
  - intros f He Hu. split.
    + apply List_filter_elem. split; [done|]. by apply is_present_FindFlows, keys_elem.
    + intros [_ Hp]%List_filter_elem. rewrite Hneg in Hp. apply negb_true_iff, not_true_iff_false in Hp.
      by apply Hp, is_present_FindFlows, keys_elem.
  - intros f Hu Hk. apply List_filter_elem. split; [done|]. rewrite Hneg.
    apply negb_true_iff, not_true_iff_false. by rewrite is_present_FindFlows.
Qed.

(** [initPmConfigs] does not refresh the cache: the metrics it stored are
    overwritten with the old ones by the next update of the device. *)
Theorem init_pm_configs_lost (pm : PmConfigs) (reason : string) (s s1 s2 : AgentState) :
  initPmConfigs pm s = (Ok tt, s1) → updateDeviceReason reason s1 = (Ok tt, s2) →
  dp_get (da_deviceID s) (da_store s1) = Ok (Some (set_PmConfigs (Some pm) (da_device s))) ∧
  da_device s1 = da_device s ∧
  ∃ d, dp_get (da_deviceID s) (da_store s2) = Ok (Some d) ∧ dev_PmConfigs d = dev_PmConfigs (da_device s).
Proof.
  unfold initPmConfigs. destruct (dp_update _ _ (da_store s)) as [[| |e] st] eqn:Hu; [|done|done].
  intros [= <-] Hr. apply dp_update_get in Hu. split_and!; [done..|].
  unfold updateDeviceReason, getDeviceWithoutLock in Hr. apply sbind_Ok in Hr as (d & s3 & [= <- <-] & Hr).
  apply update_Ok in Hr as (_ & _ & Hget). eexists. split; [exact Hget | done].
Qed.

Lemma updated_images_prefix img acc l r :
  updated_images img acc l = Ok r → ∃ rest, r = acc ++ rest.
Proof.
  revert acc. induction l as [|p l IH]; intros acc; cbn [updated_images].
  { intros [= <-]. exists []. by rewrite app_nil_r. }
  destruct p as [image|]; cbn [deref obind]; [|done]. intros (rest & ->)%IH.
  destruct (_ && _); [|by eexists]. rewrite -app_assoc. by eexists.
Qed.

(** [updateImageDownload] starts its result with one nil entry per image:
    after a successful call on a device with images, every operation that looks
    for an image of the device panics. *)
Theorem update_image_download_poisons (img other : ImageDownload) (s s' : AgentState) :
  images (da_device s) ≠ [] → updateImageDownload img s = (Ok tt, s') →
  (cancelImageDownload other s').1 = Panic ∧ (activateImage other s').1 = Panic ∧
  (revertImage other s').1 = Panic ∧ (getImageDownload other s').1 = Panic ∧
  (updateImageDownload other s').1 = Panic.
Proof.
  intros Hne. unfold updateImageDownload at 1. unfold sbind at 1, getDeviceWithoutLock, gets.
  unfold sbind at 1, lift. destruct (updated_images img _ _) as [l|e|] eqn:Hl; [|done|done].
  apply updated_images_prefix in Hl as [rest ->]. set (d' := if decide _ then _ else _).
  intros (Hs' & _ & _)%update_Ok.
  assert (∃ l, images d' = None :: l) as [l Hl].
  { destruct (images (da_device s)) as [|i is_] eqn:Hi; [done|].
    exists (replicate (length is_) None ++ rest). unfold d'. by case_decide. }
  unfold cancelImageDownload, activateImage, revertImage, getImageDownload, updateImageDownload,
    isImageRegistered. cbv beta iota zeta delta [sbind get gets lift getDeviceWithoutLock]. by rewrite Hs' Hl.
Qed.

(** An image status revives a deleted device: unless the image is both
    being downloaded and being activated, [updateImageDownload] stores the
    device ENABLED whatever its administrative state was. *)
Theorem update_image_download_enables (img : ImageDownload) (s s' : AgentState) :
  img_ImageState img ≠ IMAGE_ACTIVATING → updateImageDownload img s = (Ok tt, s') →
  dev_AdminState (da_device s') = Admin_ENABLED ∧
  ∃ d, dp_get (da_deviceID s) (da_store s') = Ok (Some d) ∧ dev_AdminState d = Admin_ENABLED.
Proof.
  intros Hi. unfold updateImageDownload. unfold sbind at 1, getDeviceWithoutLock, gets.
  unfold sbind at 1, lift. destruct (updated_images img _ _) as [l|e|]; [|done|done].
  rewrite decide_True; last by right.
  intros (Hs' & _ & Hget)%update_Ok. rewrite Hs'. split; [done|]. eexists. by split.
Qed.

End Behaviour.

(** ** A concrete agent

    The data model is a finite map, the adapter accepts everything. *)

Definition sample_adapter : Adapter := {|
  adapter_reply _ _ := None; adapter_flow_reply _ _ := Some (10, None) |}.
Definition sample_adapter_mgr : AdapterMgrView := {|
  am_getAdapterName _ := Ok "openolt";
  am_getDeviceType ty := Some (mkDeviceType ty "" [] "openolt" true false false) |}.

Definition sample_agent_device (admin : AdminState) (imgs : option (list (option ImageDownload))) : Device :=
  set_ImageDownloads imgs (set_AdminState admin (sample_device_of "olt")).

Definition sample_state (d : Device) : @AgentState (gmap string Device) :=
  mkAgent "olt" "" "" true d {["olt" := d]} [] 1000 true.

Definition sample_image : ImageDownload :=
  mkImageDownload "i" "fw" "" 0 DOWNLOAD_SUCCEEDED "" 0 0 "" false "" IMAGE_INACTIVE 0.

Lemma sample_state_holds (good : Device → Prop) d :
  good d → @agent_holds _ map_proxy good (sample_state d).
Proof. intros Hd. split; [|done]. simpl. by rewrite lookup_singleton_eq. Qed.




Lemma delete_device_correct_witness :
  ∃ s', @deleteDevice _ map_proxy sample_adapter
          (sample_state (sample_agent_device Admin_ENABLED None)) = (Ok tt, s') ∧
    da_sent s' = [DeleteDevice (sample_agent_device Admin_ENABLED None)].
Proof.
  pose proof (@delete_device_correct _ map_proxy sample_adapter map_proxy_laws
    (sample_state (sample_agent_device Admin_ENABLED None))) as Hc.
  destruct (deleteDevice _) as [[[]|e|] s'] eqn:Heq.
  - exists s'. split; [done|]. destruct Hc as [[Ha _]|(_ & Hsent & _)]; [done | exact Hsent].
  - by vm_compute in Heq.
  - destruct Hc.
Defined.

Lemma add_delete_flows_roundtrip_witness :
  ∃ s1 s2,
    @addFlowsAndGroupsToAdapter _ map_proxy sample_adapter sample_adapter_mgr sample_text [sample_table_flow 1] [] None
      (sample_state (sample_agent_device Admin_ENABLED None)) = (Ok (Some (10, None)), s1) ∧
    @deleteFlowsAndGroupsFromAdapter _ map_proxy sample_adapter sample_adapter_mgr sample_text
      [sample_table_flow 1] [] None s1 = (Ok (Some (10, None)), s2) ∧
    dev_Flows (da_device s2) = [].
Proof.
  destruct (@addFlowsAndGroupsToAdapter _ map_proxy sample_adapter sample_adapter_mgr sample_text
    [sample_table_flow 1] [] None (sample_state (sample_agent_device Admin_ENABLED None))) as [r1 s1] eqn:H1.
  destruct (@deleteFlowsAndGroupsFromAdapter _ map_proxy sample_adapter sample_adapter_mgr sample_text
      [sample_table_flow 1] [] None s1) as [r2 s2] eqn:H2.
  assert (r1 = Ok (Some (10, None))) as -> by (vm_compute in H1; by injection H1 as <- _).
  assert (r2 = Ok (Some (10, None))) as ->.
  { vm_compute in H1. injection H1 as <-. vm_compute in H2. by injection H2 as <- _. }
  exists s1, s2. split_and!; [done | done |].
  pose proof (@add_delete_flows_roundtrip _ map_proxy sample_adapter sample_adapter_mgr sample_text
    map_proxy_laws [sample_table_flow 1] None None
    (sample_state (sample_agent_device Admin_ENABLED None)) s1 s2 (Some (10, None)) (Some (10, None)) ltac:(done)) as Hrt.
  specialize (Hrt (λ f Hf, match proj1 (elem_of_nil f) Hf with end) H1 H2).
  exact (proj1 (proj2 Hrt)).
Defined.

Lemma incremental_update_inverted_witness :
  ∃ fc gc, @incremental_changes sample_text [sample_table_flow 1] [sample_table_flow 1] [] [] = Ok (fc, gc) ∧
    sample_table_flow 1 ∈ fc_ToRemove fc.
Proof.
  destruct (@incremental_changes sample_text [sample_table_flow 1] [sample_table_flow 1] [] [])
    as [[fc gc]|e|] eqn:Hc; [|by vm_compute in Hc..].
  exists fc, gc. split; [done|].
  apply (proj1 (proj2 (@incremental_update_inverted sample_text _ _ _ _ _ _ Hc))); by apply list_elem_of_singleton.
Defined.

Lemma init_pm_configs_lost_witness :
  let s := sample_state (sample_agent_device Admin_ENABLED None) in
  ∃ s1 s2, @initPmConfigs _ map_proxy (mkPmConfigs "p" 100 true false [] []) s = (Ok tt, s1) ∧
    @updateDeviceReason _ map_proxy "up" s1 = (Ok tt, s2) ∧ da_device s1 = da_device s.
Proof.
  intros s.
  destruct (@initPmConfigs _ map_proxy (mkPmConfigs "p" 100 true false [] []) s) as [r1 s1] eqn:H1.
  destruct (@updateDeviceReason _ map_proxy "up" s1) as [r2 s2] eqn:H2.
  assert (r1 = Ok tt) as -> by (vm_compute in H1; by injection H1 as <- _).
  assert (r2 = Ok tt) as ->.
  { vm_compute in H1. injection H1 as <-. vm_compute in H2. by injection H2 as <- _. }
  exists s1, s2. split_and!; [done | done |].
  exact (proj1 (proj2 (@init_pm_configs_lost _ map_proxy map_proxy_laws _ _ _ _ _ H1 H2))).
Defined.

Lemma update_image_download_poisons_witness :
  let s := sample_state (sample_agent_device Admin_DOWNLOADING_IMAGE (Some [Some sample_image])) in
  ∃ s', @updateImageDownload _ map_proxy sample_image s = (Ok tt, s') ∧
    (@cancelImageDownload _ map_proxy sample_adapter sample_image s').1 = Panic.
Proof.
  intros s. destruct (@updateImageDownload _ map_proxy sample_image s) as [r s'] eqn:H1.
  assert (r = Ok tt) as -> by (vm_compute in H1; by injection H1 as <- _).
  exists s'. split; [done|].
  exact (proj1 (@update_image_download_poisons _ map_proxy sample_adapter map_proxy_laws sample_image sample_image s s'
    ltac:(done) H1)).
Defined.

Lemma update_image_download_enables_witness :
  let s := sample_state (sample_agent_device Admin_DELETED None) in
  ∃ s', @updateImageDownload _ map_proxy sample_image s = (Ok tt, s') ∧
    dev_AdminState (da_device s') = Admin_ENABLED.
Proof.
  intros s. destruct (@updateImageDownload _ map_proxy sample_image s) as [r s'] eqn:H1.
  assert (r = Ok tt) as -> by (vm_compute in H1; by injection H1 as <- _).
  exists s'. split; [done|].
  exact (proj1 (@update_image_download_enables _ map_proxy map_proxy_laws sample_image s s' ltac:(done) H1)).
Defined.
