(* ===== verification/LogicalAgent.v ===== *)
(** * Logical device agent: state, routes and interfaces

    [rw_core/core/logical_device_agent.go]: the agent that owns one logical
    device, the switch the controller sees.  It keeps the logical device in a
    cache and in the data model, the routes between its ports, and the set of
    its port numbers.  This file holds the state, the access to the data model,
    the routes and what the agent offers to the flow decomposer; LogicalTables
    has the flow, meter and group tables, LogicalPorts the ports and the life
    cycle.  The lock of the logical device serialises the operations, so each is
    one state transformer. *)

From S2P Require Import Prelude OpenFlow VolthaTypes FlowUtils Routes Decomposer CoreUtils DataProxy.

(** ** Interfaces *)

(** What the agent asks the device manager to change, and the events it sends to
    the controller. *)
Inductive Request :=
  | CallAddFlows (deviceID : string) (flows : list OfpFlowStats) (groups : list OfpGroupEntry)
      (md : option FlowMetadata)
  | CallDeleteFlows (deviceID : string) (flows : list OfpFlowStats) (groups : list OfpGroupEntry)
      (md : option FlowMetadata)
  | CallUpdateFlows (deviceID : string) (flows : list OfpFlowStats) (groups : list OfpGroupEntry)
      (md : option FlowMetadata)
  | CallPacketOut (deviceID : string) (outPort : Z) (packet : OfpPacketOut)
  | EventPortStatus (logicalDeviceID : string) (reason : Z) (desc : OfpPort)
  | EventPacketIn (logicalDeviceID transactionID : string) (packet : OfpPacketIn).

(** [DeviceManager], as far as the agent uses it.  A call that changes a device
    completes after some time, given the requests before it; [dmc_tie] says
    which of a response and the timer the runtime sees first when both are due. *)
Class DeviceManagerCalls := {
  dmc_getPortCapability : string → Z → outcome PortCapability;
  dmc_getSwitchCapability : string → outcome SwitchCapability;
  dmc_getAllChildDevices : string → outcome (list Device);
  dmc_reply : list Request → Request → completion;
  dmc_tie : nat → bool
}.

(** What the agent runs in a goroutine of its own. *)
Inductive Task := SetupLogicalPorts | BuildRoutes | UpdateRoutes (lp : LogicalPort).

Section Agent.
Context {Store : Type} `{DataProxy LogicalDevice Store}.

(** ** State *)

(** [logicalPortsNo] maps the port numbers to whether the port is an NNI;
    [lda_tasks] are the goroutines that did not run yet. *)
Record LogicalState := mkLDA {
  lda_logicalDeviceID : string; lda_rootDeviceID : string;
  lda_deviceRoutes : option DeviceRoutes; lda_logicalPortsNo : gmap Z bool;
  lda_logicalDevice : option LogicalDevice; lda_store : Store;
  lda_sent : list Request; lda_tasks : list Task; lda_defaultTimeout : Z }.

Definition set_rootDeviceID v (s : LogicalState) := mkLDA (lda_logicalDeviceID s) v
  (lda_deviceRoutes s) (lda_logicalPortsNo s) (lda_logicalDevice s) (lda_store s) (lda_sent s)
  (lda_tasks s) (lda_defaultTimeout s).
Definition set_deviceRoutes v (s : LogicalState) := mkLDA (lda_logicalDeviceID s) (lda_rootDeviceID s)
  v (lda_logicalPortsNo s) (lda_logicalDevice s) (lda_store s) (lda_sent s)
  (lda_tasks s) (lda_defaultTimeout s).
Definition set_logicalPortsNo v (s : LogicalState) := mkLDA (lda_logicalDeviceID s) (lda_rootDeviceID s)
  (lda_deviceRoutes s) v (lda_logicalDevice s) (lda_store s) (lda_sent s)
  (lda_tasks s) (lda_defaultTimeout s).
Definition set_logicalDevice v (s : LogicalState) := mkLDA (lda_logicalDeviceID s) (lda_rootDeviceID s)
  (lda_deviceRoutes s) (lda_logicalPortsNo s) v (lda_store s) (lda_sent s)
  (lda_tasks s) (lda_defaultTimeout s).
Definition set_lda_store v (s : LogicalState) := mkLDA (lda_logicalDeviceID s) (lda_rootDeviceID s)
  (lda_deviceRoutes s) (lda_logicalPortsNo s) (lda_logicalDevice s) v (lda_sent s)
  (lda_tasks s) (lda_defaultTimeout s).
Definition set_lda_sent v (s : LogicalState) := mkLDA (lda_logicalDeviceID s) (lda_rootDeviceID s)
  (lda_deviceRoutes s) (lda_logicalPortsNo s) (lda_logicalDevice s) (lda_store s) v
  (lda_tasks s) (lda_defaultTimeout s).
Definition set_tasks v (s : LogicalState) := mkLDA (lda_logicalDeviceID s) (lda_rootDeviceID s)
  (lda_deviceRoutes s) (lda_logicalPortsNo s) (lda_logicalDevice s) (lda_store s) (lda_sent s)
  v (lda_defaultTimeout s).

Definition newLogicalDeviceAgent (id deviceID : string) (store : Store) (sent : list Request)
    (timeout : Z) : LogicalState :=
  mkLDA id deviceID None ∅ None store sent [] timeout.

(** [go func() { ... }()]. *)
Definition spawn (t : Task) : M LogicalState unit := modify (λ s, set_tasks (lda_tasks s ++ [t]) s).

(** ** The logical device *)

Definition GetLogicalDevice : M LogicalState (option LogicalDevice) := gets lda_logicalDevice.

(** The copy is dereferenced by every caller. *)
Definition getLogicalDeviceWithoutLock : M LogicalState LogicalDevice :=
  λ s, (deref (lda_logicalDevice s), s).

Definition ListLogicalDeviceFlows : M LogicalState (list OfpFlowStats) :=
  let* ld := getLogicalDeviceWithoutLock in ret (default [] (ld_Flows ld)).
Definition ListLogicalDeviceMeters : M LogicalState (list OfpMeterEntry) :=
  let* ld := getLogicalDeviceWithoutLock in ret (default [] (ld_Meters ld)).
Definition ListLogicalDeviceFlowGroups : M LogicalState (list OfpGroupEntry) :=
  let* ld := getLogicalDeviceWithoutLock in ret (default [] (ld_FlowGroups ld)).
Definition ListLogicalDevicePorts : M LogicalState (list LogicalPort) :=
  let* ld := getLogicalDeviceWithoutLock in ret (ld_Ports ld).

Definition updateLogicalDeviceWithoutLock (logicalDevice : LogicalDevice) : M LogicalState unit := λ s,
  let (r, st) := dp_update (lda_logicalDeviceID s) logicalDevice (lda_store s) in
  match r with
  | UpdErr e => (Err e, set_lda_store st s)
  | UpdNil => (Err (Status Internal ("failed-updating-logical-device:" +:+ lda_logicalDeviceID s)),
               set_lda_store st s)
  | UpdOk => (Ok tt, set_logicalDevice (Some logicalDevice) (set_lda_store st s))
  end.

Definition updateLogicalDeviceFlowsWithoutLock (flows : list OfpFlowStats) : M LogicalState unit :=
  let* ld := getLogicalDeviceWithoutLock in
  updateLogicalDeviceWithoutLock (set_ld_Flows (Some flows) ld).
Definition updateLogicalDeviceMetersWithoutLock (meters : list OfpMeterEntry) : M LogicalState unit :=
  let* ld := getLogicalDeviceWithoutLock in
  updateLogicalDeviceWithoutLock (set_ld_Meters (Some meters) ld).
Definition updateLogicalDeviceFlowGroupsWithoutLock (flowGroups : list OfpGroupEntry) : M LogicalState unit :=
  let* ld := getLogicalDeviceWithoutLock in
  updateLogicalDeviceWithoutLock (set_ld_FlowGroups (Some flowGroups) ld).

(** ** Port numbers *)

(** [m[portNo]] is false for an absent port: a number that is known to be an NNI
    stays one, any other entry is overwritten. *)
Definition add_port_no (portNo : Z) (nniPort : bool) (m : gmap Z bool) : gmap Z bool :=
  if default false (m !! portNo) then m else <[portNo := nniPort]> m.

Definition addLogicalPortToMap (portNo : Z) (nniPort : bool) : M LogicalState unit :=
  modify (λ s, set_logicalPortsNo (add_port_no portNo nniPort (lda_logicalPortsNo s)) s).
Definition addLogicalPortsToMap (lps : list LogicalPort) : M LogicalState unit :=
  modify (λ s, set_logicalPortsNo
    (foldl (λ m lp, add_port_no (lp_DevicePortNo lp) (lp_RootPort lp) m) (lda_logicalPortsNo s) lps) s).
Definition deleteLogicalPortsFromMap (portsNo : list Z) : M LogicalState unit :=
  modify (λ s, set_logicalPortsNo (foldl (λ m pNo, delete pNo m) (lda_logicalPortsNo s) portsNo) s).

Definition isNNIPort (s : LogicalState) (portNo : Z) : bool := default false (lda_logicalPortsNo s !! portNo).

Section Ranges.
Context `{GoRange}.

Definition GetNNIPorts (s : LogicalState) : list Z :=
  (List.filter (λ kv : Z * bool, kv.2) (go_range (lda_logicalPortsNo s))).*1.

Definition getFirstNNIPort (s : LogicalState) : outcome Z :=
  match GetNNIPorts s with
  | portNo :: _ => Ok portNo
  | [] => Err (Status NotFound "No NNI port found")
  end.

(** ** Routes *)

Definition device_routes (s : LogicalState) : outcome (gmap PathID (list Hop)) :=
  let? dr := deref (lda_deviceRoutes s) in Ok (dr_Routes dr).

Definition no_route (what : string) (i o : Z) : GoError :=
  Status FailedPrecondition (what +:+ " from:" +:+ pretty i +:+ " to:" +:+ pretty o).

Fixpoint pre_calculated (i o : Z) (routes : list (PathID * list Hop)) : outcome (list Hop) :=
  match routes with
  | [] => Err (no_route "no route" i o)
  | (routeLink, route) :: routes =>
      if decide (i = path_Ingress routeLink ∧ o = path_Egress routeLink) then Ok route
      else pre_calculated i o routes
  end.

Definition getPreCalculatedRoute (s : LogicalState) (ingress egress : Z) : outcome (list Hop) :=
  let? routes := device_routes s in pre_calculated ingress egress (go_range routes).

Definition empty_hop : Hop := mkHop "" 0 0.

(** The second hop of the first upstream route. *)
Fixpoint half_upstream (s : LogicalState) (i o : Z) (routes : list (PathID * list Hop)) : outcome (list Hop) :=
  match routes with
  | [] => Err (no_route "no upstream route" i o)
  | (routeLink, path) :: routes =>
      if isNNIPort s (path_Egress routeLink)
      then let? h := index path 1 in Ok [empty_hop; h]
      else half_upstream s i o routes
  end.

(** The first hop of the first route from the port. *)
Fixpoint half_downstream (i o : Z) (routes : list (PathID * list Hop)) : outcome (list Hop) :=
  match routes with
  | [] => Err (no_route "no downstream route" i o)
  | (routeLink, path) :: routes =>
      if decide (path_Ingress routeLink = i)
      then let? h := index path 0 in Ok [h; empty_hop]
      else half_downstream i o routes
  end.

Definition is_controller (egressPortNo : Z) : bool :=
  negb (egressPortNo =? 0) && (Z.land egressPortNo 0x7fffffff =? OFPP_CONTROLLER).

(** The routes once the controller port has been replaced. *)
Definition route_to_port (s : LogicalState) (ingressPortNo egressPortNo : Z) : outcome (list Hop) :=
  if (ingressPortNo =? 0) && isNNIPort s egressPortNo then
    let? routes := device_routes s in
    half_upstream s ingressPortNo egressPortNo (go_range routes)
  else if egressPortNo =? 0 then
    let? routes := device_routes s in
    half_downstream ingressPortNo egressPortNo (go_range routes)
  else getPreCalculatedRoute s ingressPortNo egressPortNo.

Definition GetRoute (s : LogicalState) (ingressPortNo egressPortNo : Z) : outcome (list Hop) :=
  if is_controller egressPortNo then
    if isNNIPort s ingressPortNo then
      let? routes := device_routes s in
      if decide (size routes = 0%nat) then
        let hop := mkHop (lda_rootDeviceID s) ingressPortNo ingressPortNo in Ok [hop; hop]
      else half_upstream s ingressPortNo egressPortNo (go_range routes)
    else
      let? egressPortNo := getFirstNNIPort s in
      route_to_port s ingressPortNo egressPortNo
  else route_to_port s ingressPortNo egressPortNo.

(** Without exclusion the excluded port number is 0. *)
Definition GetWildcardInputPorts (s : LogicalState) (excludePort : list Z) : outcome (list Z) :=
  let exclPort := match excludePort with [p] => p | _ => 0 end in
  let? lDevice := deref (lda_logicalDevice s) in
  Ok (List.filter (λ portNo, negb (portNo =? exclPort)) (lp_PortNo <$> ld_Ports lDevice)).

Definition GetDeviceRoutes (s : LogicalState) : option DeviceRoutes := lda_deviceRoutes s.

(** What the flow decomposer sees of the agent.  It asks for the routes, and for
    the wildcard ports, only after a route was found, when neither the routes
    nor the logical device are nil. *)
Definition agent_view (s : LogicalState) : LogicalDeviceAgent := {|
  la_GetRoute := GetRoute s;
  la_IsRootPort port := match GetDeviceRoutes s with Some dr => IsRootPort dr port | None => false end;
  la_GetWildcardInputPorts exclude :=
    match GetWildcardInputPorts s [exclude] with Ok ports => ports | _ => [] end;
  la_GetNNIPorts := GetNNIPorts s |}.

(** ** Building the routes *)

Context `{DeviceManagerView}.

Definition with_routes (m : M DeviceRoutes unit) : M LogicalState unit := λ s,
  match lda_deviceRoutes s with
  | None => (Panic, s)
  | Some dr => let (r, dr') := m dr in (r, set_deviceRoutes (Some dr') s)
  end.

Definition ensure_routes : M LogicalState unit :=
  modify (λ s, match lda_deviceRoutes s with
               | None => set_deviceRoutes (Some NewDeviceRoutes) s
               | Some _ => s
               end).

Definition buildRoutes : M LogicalState unit :=
  let* _ := ensure_routes in
  let* lDevice := getLogicalDeviceWithoutLock in
  with_routes (ComputeRoutes dm_GetDevice (ld_Ports lDevice)).

Definition updateRoutes (lp : LogicalPort) : M LogicalState unit :=
  let* _ := ensure_routes in
  let* lDevice := getLogicalDeviceWithoutLock in
  with_routes (AddPort dm_GetDevice lp (ld_Ports lDevice)).

Definition generateDeviceRoutesIfNeeded : M LogicalState unit :=
  let* ld := GetLogicalDevice in
  let* routes := gets lda_deviceRoutes in
  match routes with
  | Some dr => if IsUpToDate dr ld then ret tt else buildRoutes
  | None => buildRoutes
  end.

End Ranges.
End Agent.

(** ** The routes the decomposer gets *)

Section RouteFacts.
Context {Store : Type} `{DataProxy LogicalDevice Store, GoRange}.
Implicit Types (s : @LogicalState Store) (R : gmap PathID (list Hop)).

(** Second hop of an upstream route, first hop of a route from [i]. *)
Definition upstream_half s R (r : list Hop) : Prop :=
  ∃ p h0 h1, R !! p = Some [h0; h1] ∧ isNNIPort s (path_Egress p) = true ∧ r = [empty_hop; h1].
Definition downstream_half R (i : Z) (r : list Hop) : Prop :=
  ∃ p h0 h1, R !! p = Some [h0; h1] ∧ path_Ingress p = i ∧ r = [h0; empty_hop].

(** The answers for an egress port, 0 standing for any port. *)
Definition route_via s R (i o : Z) (r : list Hop) : Prop :=
  if (i =? 0) && isNNIPort s o then upstream_half s R r
  else if o =? 0 then downstream_half R i r
  else R !! mkPath i o = Some r.

(** The controller is reached through an NNI port. *)
Definition egress_for s (i o o' : Z) : Prop :=
  if is_controller o then isNNIPort s i = false ∧ isNNIPort s o' = true else o' = o.

Lemma in_range R p r : (p, r) ∈ go_range R ↔ R !! p = Some r.
Proof. by rewrite go_range_perm elem_of_map_to_list. Qed.

Lemma range_two_hops R p r : two_hops R → (p, r) ∈ go_range R → ∃ h0 h1, r = [h0; h1].
Proof. intros HR Hin%in_range%HR. destruct r as [|h0 [|h1 [|]]]; try done. by exists h0, h1. Qed.

Lemma pre_calculated_spec i o routes :
  match pre_calculated i o routes with
  | Ok r => (mkPath i o, r) ∈ routes
  | Err _ => ∀ r, (mkPath i o, r) ∉ routes
  | Panic => False
  end.
Proof.
  induction routes as [|[[i' o'] r] routes IH]; cbn [pre_calculated path_Ingress path_Egress].
  { intros r Hin. by apply elem_of_nil in Hin. }
  destruct (decide (i = i' ∧ o = o')) as [[-> ->]|Hne]; [by left|].
  destruct (pre_calculated i o routes); [by right | | done].
  intros r' Hin. apply elem_of_cons in Hin as [[= -> -> _]|Hin]; [by apply Hne | by apply (IH r')].
Qed.

Lemma half_upstream_spec s i o routes :
  (∀ p r, (p, r) ∈ routes → ∃ h0 h1, r = [h0; h1]) →
  match half_upstream s i o routes with
  | Ok r => ∃ p h0 h1, (p, [h0; h1]) ∈ routes ∧ isNNIPort s (path_Egress p) = true ∧ r = [empty_hop; h1]
  | Err _ => ∀ p r, (p, r) ∈ routes → isNNIPort s (path_Egress p) = false
  | Panic => False
  end.
Proof.
  induction routes as [|[p r] routes IH]; intros H2; cbn [half_upstream].
  { intros p r Hin. by apply elem_of_nil in Hin. }
  destruct (H2 p r) as (h0 & h1 & ->); [by left|].
  destruct (isNNIPort s (path_Egress p)) eqn:Hp; cbn [index obind].
  { exists p, h0, h1. split_and!; [by left | done | done]. }
  specialize (IH (λ p r Hin, H2 p r (list_elem_of_further _ _ _ Hin))).
  destruct (half_upstream s i o routes); [| |done].
  - destruct IH as (q & k0 & k1 & Hin & ?). exists q, k0, k1. split; [by right | done].
  - intros q r [[= -> ->]|Hin]%elem_of_cons; [done | by eapply IH].
Qed.

Lemma half_downstream_spec i o routes :
  (∀ p r, (p, r) ∈ routes → ∃ h0 h1, r = [h0; h1]) →
  match half_downstream i o routes with
  | Ok r => ∃ p h0 h1, (p, [h0; h1]) ∈ routes ∧ path_Ingress p = i ∧ r = [h0; empty_hop]
  | Err _ => ∀ p r, (p, r) ∈ routes → path_Ingress p ≠ i
  | Panic => False
  end.
Proof.
  induction routes as [|[p r] routes IH]; intros H2; cbn [half_downstream].
  { intros p r Hin. by apply elem_of_nil in Hin. }
  destruct (H2 p r) as (h0 & h1 & ->); [by left|].
  destruct (decide (path_Ingress p = i)) as [Hp|Hp]; cbn [index obind].
  { exists p, h0, h1. split_and!; [by left | done | done]. }
  specialize (IH (λ p r Hin, H2 p r (list_elem_of_further _ _ _ Hin))).
  destruct (half_downstream i o routes); [| |done].
  - destruct IH as (q & k0 & k1 & Hin & ?). exists q, k0, k1. split; [by right | done].
  - intros q r [[= -> ->]|Hin]%elem_of_cons; [done | by eapply IH].
Qed.

Lemma GetNNIPorts_elem s p : p ∈ GetNNIPorts s ↔ isNNIPort s p = true.
Proof.
  unfold GetNNIPorts, isNNIPort. rewrite list_elem_of_fmap. split.
  - intros ([q b] & -> & [Hin Hb]%list_elem_of_In%filter_In). simpl in *.
    apply list_elem_of_In in Hin. rewrite go_range_perm elem_of_map_to_list in Hin. by rewrite Hin.
  - intros Hp. destruct (lda_logicalPortsNo s !! p) as [b|] eqn:Hl; [|done]. simpl in Hp.
    exists (p, b). split; [done|]. apply list_elem_of_In, filter_In. split; [|done].
    apply list_elem_of_In. by rewrite go_range_perm elem_of_map_to_list.
Qed.

Lemma route_to_port_spec s dr i o :
  lda_deviceRoutes s = Some dr → two_hops (dr_Routes dr) →
  match route_to_port s i o with
  | Ok r => length r = 2%nat ∧ route_via s (dr_Routes dr) i o r
  | Err _ => ∀ r, ¬ route_via s (dr_Routes dr) i o r
  | Panic => False
  end.
Proof.
  intros Hs HR. unfold route_to_port, route_via, getPreCalculatedRoute, device_routes. rewrite Hs. cbn [deref obind].
  pose proof (λ p r, range_two_hops (dr_Routes dr) p r HR) as H2.
  destruct (_ && _); [|destruct (o =? 0)].
  - pose proof (half_upstream_spec s i o _ H2) as Hu. destruct (half_upstream s i o _); [| |done].
    + destruct Hu as (p & h0 & h1 & Hin%in_range & Hp & ->). split; [done|]. by exists p, h0, h1.
    + intros r (p & h0 & h1 & Hin%in_range & Hp & _). by rewrite (Hu p _ Hin) in Hp.
  - pose proof (half_downstream_spec i o _ H2) as Hu. destruct (half_downstream i o _); [| |done].
    + destruct Hu as (p & h0 & h1 & Hin%in_range & Hp & ->). split; [done|]. by exists p, h0, h1.
    + intros r (p & h0 & h1 & Hin%in_range & Hp & _). by destruct (Hu p _ Hin).
  - pose proof (pre_calculated_spec i o (go_range (dr_Routes dr))) as Hu.
    destruct (pre_calculated i o _); [| |done].
    + apply in_range in Hu. split; [by eapply HR | done].
    + intros r Hin%in_range. by eapply Hu.
Qed.

(** [GetRoute] answers every request exactly, whatever the iteration order of
    the maps is, and never panics once the routes exist.  A flow to the controller
    from an NNI port gets the upstream half of some route (or a trivial route when
    there are none); any other flow to the controller is routed to one of the
    NNI ports.  A request with two port numbers gets the route of the table;
    an unknown ingress or egress port gets the matching half of a route.  An
    error is returned only when no such answer exists for the egress port. *)
Theorem get_route_correct s dr (i o : Z) :
  lda_deviceRoutes s = Some dr → two_hops (dr_Routes dr) →
  match GetRoute s i o with
  | Ok r => length r = 2%nat ∧
      (is_controller o = true ∧ isNNIPort s i = true ∧
         (if decide (dr_Routes dr = ∅) then r = replicate 2 (mkHop (lda_rootDeviceID s) i i)
          else upstream_half s (dr_Routes dr) r) ∨
       ∃ o', egress_for s i o o' ∧ route_via s (dr_Routes dr) i o' r)
  | Err _ =>
      (is_controller o = true ∧ isNNIPort s i = true ∧ dr_Routes dr ≠ ∅ ∧
         ∀ r, ¬ upstream_half s (dr_Routes dr) r) ∨
      (∀ o', ¬ egress_for s i o o') ∨
      (∃ o', egress_for s i o o' ∧ ∀ r, ¬ route_via s (dr_Routes dr) i o' r)
  | Panic => False
  end.
Proof.
  intros Hs HR. unfold GetRoute, egress_for. destruct (is_controller o) eqn:Hc.
  - destruct (isNNIPort s i) eqn:Hi.
    + unfold device_routes. rewrite Hs. cbn [deref obind].
      destruct (decide (size (dr_Routes dr) = 0%nat)) as [Hz|Hz].
      { apply map_size_empty_iff in Hz. rewrite decide_True //. split; [done | by left]. }
      rewrite map_size_empty_iff in Hz.
      pose proof (half_upstream_spec s i o _ (λ p r, range_two_hops (dr_Routes dr) p r HR)) as Hu.
      destruct (half_upstream s i o _); [| |done].
      * destruct Hu as (p & h0 & h1 & Hin%in_range & Hp & ->). split; [done|]. left.
        split_and!; [done..|]. rewrite decide_False //. by exists p, h0, h1.
      * left. split_and!; [done..|]. intros r (p & h0 & h1 & Hin%in_range & Hp & _). by rewrite (Hu p _ Hin) in Hp.
    + unfold getFirstNNIPort. destruct (GetNNIPorts s) as [|n ns] eqn:Hn; cbn [obind].
      { right; left. intros o' [_ Ho%GetNNIPorts_elem]. rewrite Hn in Ho. by apply elem_of_nil in Ho. }
      assert (isNNIPort s n = true) as Hnn by (apply GetNNIPorts_elem; rewrite Hn; by left).
      pose proof (route_to_port_spec s dr i n Hs HR) as Hr. destruct (route_to_port s i n); [| |done].
      * destruct Hr as [Hl Hv]. split; [done|]. right. by exists n.
      * right; right. by exists n.
  - pose proof (route_to_port_spec s dr i o Hs HR) as Hr. destruct (route_to_port s i o); [| |done].
    + destruct Hr as [Hl Hv]. split; [done|]. right. by exists o.
    + right; right. by exists o.
Qed.

(** a route between two ports starts at the ingress port and ends at the
    egress port: when the route table is well formed, the first hop enters the
    device of the logical port [i] at its port, and the second hop leaves the
    device of the logical port [o] at its port. *)
Theorem get_route_endpoints s dr (i o : Z) (h0 h1 : Hop) :
  lda_deviceRoutes s = Some dr → tables_wf dr → is_controller o = false → i ≠ 0 → o ≠ 0 →
  GetRoute s i o = Ok [h0; h1] →
  ∃ lpi lpo, lpi ∈ dr_logicalPorts dr ∧ lpo ∈ dr_logicalPorts dr ∧
    lp_PortNo lpi = i ∧ lp_PortNo lpo = o ∧ lp_RootPort lpi = negb (lp_RootPort lpo) ∧
    hop_DeviceID h0 = lp_DeviceId lpi ∧ hop_Ingress h0 = lp_DevicePortNo lpi ∧
    hop_DeviceID h1 = lp_DeviceId lpo ∧ hop_Egress h1 = lp_DevicePortNo lpo.
Proof.
  intros Hs [_ Hp] Hc Hi Ho. unfold GetRoute, route_to_port. rewrite Hc (proj2 (Z.eqb_neq i 0) Hi) (proj2 (Z.eqb_neq o 0) Ho).
  cbn [andb]. unfold getPreCalculatedRoute, device_routes. rewrite Hs. cbn [deref obind]. intros Hr.
  pose proof (pre_calculated_spec i o (go_range (dr_Routes dr))) as Hu. rewrite Hr in Hu. apply in_range in Hu.
  destruct (Hp _ _ Hu) as (n & u & d & (nni & uni & a & b & Hn & Hun & Hrt & Hut & <- & <- & ->) & [Hdown Hup] & Hcase).
  destruct Hcase as [[= -> ->]|[= -> ->]].
  - rewrite Hdown in Hu. injection Hu as <- <-. exists nni, uni. rewrite Hrt Hut. by split_and!.
  - rewrite Hup in Hu. injection Hu as <- <-. exists uni, nni. rewrite Hrt Hut. by split_and!.
Qed.

(** The agent keeps its promises to the decomposer. *)
Lemma agent_view_laws `{DeviceManagerView} s dr :
  lda_deviceRoutes s = Some dr → two_hops (dr_Routes dr) → (∀ id, dm_GetDevice id ≠ Panic) →
  @AgentLaws (agent_view s) _.
Proof.
  intros Hs HR Hdm. split; cbn [agent_view la_GetRoute]; [| |done].
  - intros i o p Hp. pose proof (get_route_correct s dr i o Hs HR) as Hg. rewrite Hp in Hg. by destruct Hg.
  - intros i o Hp. pose proof (get_route_correct s dr i o Hs HR) as Hg. by rewrite Hp in Hg.
Qed.

End RouteFacts.

(** ** A concrete agent

    The topology of [Routes], with the routes it computes. *)

Definition sample_ld (flows : list OfpFlowStats) (groups : list OfpGroupEntry) (meters : list OfpMeterEntry)
    : LogicalDevice :=
  mkLogicalDevice "ld" 1 "" "" "olt" sample_lps (Some flows) (Some groups) (Some meters).

Definition sample_lda (ld : LogicalDevice) : @LogicalState (gmap string LogicalDevice) :=
  mkLDA "ld" "olt" (Some sample_routes) {[65536 := true; 16 := false]} (Some ld) {["ld" := ld]} [] [] 1000.

Lemma sample_routes_hops : two_hops (dr_Routes sample_routes).
Proof.
  pose proof (ComputeRoutes_safe (H := canonical_range) sample_model (proj2 sample_model_wf) sample_lps NewDeviceRoutes) as Hs.
  unfold sample_routes. specialize (Hs (hops_ok_reset NewDeviceRoutes)).
  assert (∃ dr', ComputeRoutes (H := canonical_range) sample_model sample_lps NewDeviceRoutes = (Ok tt, dr'))
    as [dr' Heq] by (eexists; by vm_compute).
  rewrite Heq in Hs |- *. exact Hs.
Qed.

Lemma get_route_correct_witness :
  let s := sample_lda (sample_ld [] [] []) in
  ∃ r, GetRoute (H0 := canonical_range) s 16 OFPP_CONTROLLER = Ok r ∧ length r = 2%nat ∧
    ∃ o', isNNIPort s o' = true ∧ dr_Routes sample_routes !! mkPath 16 o' = Some r.
Proof.
  intros s. pose proof (get_route_correct (H0 := canonical_range) s sample_routes 16 OFPP_CONTROLLER eq_refl sample_routes_hops) as Hr.
  destruct (GetRoute s 16 OFPP_CONTROLLER) as [r|e|] eqn:Hg; [|by vm_compute in Hg..].
  exists r. split; [done|]. destruct Hr as [Hlen [(_ & Hnni & _)|(o' & [_ Ho] & Hv)]]; [by vm_compute in Hnni|].
  split; [done|]. exists o'. split; [done|]. unfold route_via in Hv. cbn [Z.eqb andb] in Hv.
  destruct (o' =? 0) eqn:Hz; [|done]. apply Z.eqb_eq in Hz as ->. by vm_compute in Ho.
Defined.

Lemma get_route_endpoints_witness :
  let s := sample_lda (sample_ld [] [] []) in
  GetRoute (H0 := canonical_range) s 16 65536 = Ok [mkHop "onu" 2 1; mkHop "olt" 1 10] ∧
  ∃ lpi lpo, lp_PortNo lpi = 16 ∧ lp_PortNo lpo = 65536 ∧ lp_DeviceId lpi = "onu" ∧ lp_DeviceId lpo = "olt".
Proof.
  intros s. assert (GetRoute (H0 := canonical_range) s 16 65536 = Ok [mkHop "onu" 2 1; mkHop "olt" 1 10]) as Hg by by vm_compute.
  split; [exact Hg|].
  destruct (get_route_endpoints (H0 := canonical_range) s sample_routes 16 65536 _ _ eq_refl sample_tables_wf eq_refl
    ltac:(done) ltac:(done) Hg) as (lpi & lpo & _ & _ & Hi & Ho & _ & Hdi & _ & Hdo & _).
  exists lpi, lpo. by split_and!.
Defined.
