(* ===== verification/LogicalTables.v ===== *)
(** * Logical device agent: flow, meter and group tables

    [rw_core/core/logical_device_agent.go]: the modifications of the OpenFlow
    tables of the logical device.  A change is decomposed into rules of the
    devices, sent to them, and stored when they all accepted it. *)

From S2P Require Import Prelude OpenFlow VolthaTypes FlowUtils Routes Decomposer CoreUtils DataProxy.
From S2P Require Import LogicalAgent.

Section Tables.
Context {Store : Type} `{DataProxy LogicalDevice Store, GoRange, DeviceManagerView, DeviceManagerCalls, ProtoText}.

(** ** Sending the rules to the devices *)

(** A call to the device manager. *)
Definition call (req : Request) : M (@LogicalState Store) completion := λ s,
  (Ok (dmc_reply (lda_sent s) req), set_lda_sent (lda_sent s ++ [req]) s).

(** [response.Error(status.Errorf(codes.Internal, ...))] replaces the error. *)
Definition relabel (failed deviceID : string) (c : completion) : completion :=
  match c with
  | Some (t, Some _) => Some (t, Some (Status Internal (failed +:+ ": " +:+ deviceID)))
  | _ => c
  end.

Fixpoint call_devices (req : string → list OfpFlowStats → list OfpGroupEntry → Request) (failed : string)
    (rules : list (string * FlowsAndGroups)) : M (@LogicalState Store) (list completion) :=
  match rules with
  | [] => ret []
  | (deviceID, value) :: rules =>
      let* c := call (req deviceID (fg_ListFlows value) (fg_ListGroups value)) in
      let* responses := call_devices req failed rules in
      ret (relabel failed deviceID c :: responses)
  end.

(** One goroutine per device; the call waits for all of them. *)
Definition send_rules (req : string → list OfpFlowStats → list OfpGroupEntry → Request) (failed : string)
    (deviceRules : DeviceRules) : M (@LogicalState Store) unit :=
  let* s := get in
  let* responses := call_devices req failed (go_range deviceRules) in
  match (WaitForNilOrErrorResponses dmc_tie (lda_defaultTimeout s) responses).1 with
  | None => ret tt
  | Some _ => fail (Status Aborted "errors")
  end.

Definition addDeviceFlowsAndGroups (deviceRules : DeviceRules) (md : option FlowMetadata) :=
  send_rules (λ id flows groups, CallAddFlows id flows groups md) "flow-add-failed" deviceRules.
Definition deleteDeviceFlowsAndGroups (deviceRules : DeviceRules) (md : option FlowMetadata) :=
  send_rules (λ id flows groups, CallDeleteFlows id flows groups md) "flow-delete-failed" deviceRules.
Definition updateDeviceFlowsAndGroups (deviceRules : DeviceRules) (md : option FlowMetadata) :=
  send_rules (λ id flows groups, CallUpdateFlows id flows groups md) "flow-update-failed" deviceRules.

(** [agent.flowDecomposer.DecomposeRules(ctx, agent, ...)]. *)
Definition decompose (flows : list OfpFlowStats) (groups : list OfpGroupEntry)
    : M (@LogicalState Store) DeviceRules :=
  λ s, (@DecomposeRules _ _ (agent_view s) _ flows groups, s).

(** ** Meters of a flow *)

Definition meter_id (meter : OfpMeterEntry) : Z := mc_MeterId (me_Config meter).

(** [seen] is the map of the meters already in the metadata. *)
Fixpoint meter_configs (seen : list Z) (metadata : FlowMetadata) (flows : list OfpFlowStats)
    (meters : list OfpMeterEntry) : outcome FlowMetadata :=
  match flows with
  | [] => Ok metadata
  | flow :: flows =>
      let flowMeterID := GetMeterIdFromFlow flow in
      if negb (flowMeterID =? 0) && negb (existsb (Z.eqb flowMeterID) seen) then
        match list_find (λ meter, flowMeterID = meter_id meter) meters with
        | Some (_, meter) =>
            meter_configs (flowMeterID :: seen) (metadata ++ [me_Config meter]) flows meters
        | None => Err (Plain "Meter-referred-by-flow-is-not-found-in-logicaldevice")
        end
      else meter_configs seen metadata flows meters
  end.

Definition GetMeterConfig (flows : list OfpFlowStats) (meters : list OfpMeterEntry) : outcome FlowMetadata :=
  meter_configs [] [] flows meters.

Definition set_FlowCount (n : Z) (meter : OfpMeterEntry) : OfpMeterEntry :=
  let st := me_Stats meter in
  mkMeterEntry (me_Config meter) (mkMeterStats (ms_MeterId st) n (ms_PacketInCount st)
    (ms_ByteInCount st) (ms_DurationSec st) (ms_DurationNsec st) (ms_BandStats st)).

(** The loop stops at the first meter with the id; the counter is a uint32. *)
Fixpoint count_flow (flowCommand meterID : Z) (meters : list OfpMeterEntry) : bool * list OfpMeterEntry :=
  match meters with
  | [] => (false, [])
  | meter :: meters =>
      if meterID =? meter_id meter then
        let count := ms_FlowCount (me_Stats meter) in
        if flowCommand =? OFPFC_ADD then (true, set_FlowCount (u32 (count + 1)) meter :: meters)
        else if flowCommand =? OFPFC_DELETE_STRICT then (true, set_FlowCount (u32 (count - 1)) meter :: meters)
        else (false, meter :: meters)
      else let '(changed, meters) := count_flow flowCommand meterID meters in (changed, meter :: meters)
  end.

Definition updateFlowCountOfMeterStats (modCommand : OfpFlowMod) (meters : list OfpMeterEntry)
    (flow : OfpFlowStats) : bool * list OfpMeterEntry :=
  let meterID := GetMeterIdFromFlow flow in
  if meterID =? 0 then (false, meters) else count_flow (fm_Command modCommand) meterID meters.

(** ** Flows *)

Definition with_counts (byteCount packetCount : Z) (f : OfpFlowStats) : OfpFlowStats :=
  mkFlowStats (fs_Id f) (fs_TableId f) (fs_DurationSec f) (fs_DurationNsec f) (fs_Priority f)
    (fs_IdleTimeout f) (fs_HardTimeout f) (fs_Flags f) (fs_Cookie f) packetCount byteCount
    (fs_Match f) (fs_Instructions f).

Definition has_flag (flags flag : Z) : bool := negb (Z.land flags flag =? 0).

(** The flow to install, the flows of the logical device with it, and whether it
    replaces a flow; [None] when nothing changes. *)
Definition flow_to_add (flows : list OfpFlowStats) (mod_ : OfpFlowMod)
    : outcome (option (OfpFlowStats * list OfpFlowStats * bool)) :=
  if has_flag (fm_Flags mod_) OFPFF_CHECK_OVERLAP then
    match FindOverlappingFlows flows mod_ with
    | _ :: _ => Ok None
    | [] => let flow := FlowStatsEntryFromFlowModMessage mod_ in Ok (Some (flow, flows ++ [flow], false))
    end
  else
    let flow := FlowStatsEntryFromFlowModMessage mod_ in
    match FindFlows flows flow with
    | Some idx =>
        let? oldFlow := index flows idx in
        let flow := if has_flag (fm_Flags mod_) OFPFF_RESET_COUNTS
                    then with_counts (fs_ByteCount oldFlow) (fs_PacketCount oldFlow) flow else flow in
        Ok (if decide (oldFlow = flow) then None else Some (flow, <[idx := flow]> flows, true))
    | None => Ok (Some (flow, flows ++ [flow], false))
    end.

(** [metersToUpdate] stays empty when the logical device has no meters. *)
Definition meters_to_update (lDevice : LogicalDevice) (meters : list OfpMeterEntry) : list OfpMeterEntry :=
  match ld_Meters lDevice with Some _ => meters | None => [] end.

Definition flowAdd (mod_ : OfpFlowMod) : M (@LogicalState Store) unit :=
  let* lDevice := getLogicalDeviceWithoutLock in
  let flows := default [] (ld_Flows lDevice) in
  let meters := default [] (ld_Meters lDevice) in
  let* change := lift (flow_to_add flows mod_) in
  match change with
  | None => ret tt
  | Some (flow, flows, updated) =>
      let* flowMetadata := lift (GetMeterConfig [flow] meters) in
      let* flowGroups := lift (deref (ld_FlowGroups lDevice)) in
      let* deviceRules := decompose [flow] flowGroups in
      let* _ := addDeviceFlowsAndGroups deviceRules (Some flowMetadata) in
      let* _ := updateLogicalDeviceFlowsWithoutLock flows in
      if (updated : bool) then ret tt
      else
        let '(changedMeterStats, meters) := updateFlowCountOfMeterStats mod_ meters flow in
        if (changedMeterStats : bool)
        then updateLogicalDeviceMetersWithoutLock (meters_to_update lDevice meters) else ret tt
  end.

(** Whether a deletion removes the flow. *)
Definition to_delete (mod_ : OfpFlowMod) (f : OfpFlowStats) : bool :=
  FlowMatch f (FlowStatsEntryFromFlowModMessage mod_) || FlowMatchesMod f mod_.

Definition flowDelete (mod_ : OfpFlowMod) : M (@LogicalState Store) unit :=
  let* lDevice := getLogicalDeviceWithoutLock in
  let flows := default [] (ld_Flows lDevice) in
  let meters := default [] (ld_Meters lDevice) in
  let flowGroups := default [] (ld_FlowGroups lDevice) in
  let toKeep := List.filter (λ f, negb (to_delete mod_ f)) flows in
  let toDelete := List.filter (to_delete mod_) flows in
  if decide (0 < length toDelete)%nat then
    let* flowMetadata := lift (match GetMeterConfig toDelete meters with
                               | Err _ => Err (Plain "Meter-referred-in-flows-not-present")
                               | r => r
                               end) in
    let* deviceRules := decompose toDelete flowGroups in
    let* _ := deleteDeviceFlowsAndGroups deviceRules (Some flowMetadata) in
    updateLogicalDeviceFlowsWithoutLock toKeep
  else ret tt.

(** The counter of the meter is stored before the devices are asked. *)
Definition flowDeleteStrict (mod_ : OfpFlowMod) : M (@LogicalState Store) unit :=
  let* lDevice := getLogicalDeviceWithoutLock in
  let meters := default [] (ld_Meters lDevice) in
  let flows := default [] (ld_Flows lDevice) in
  let flowGroups := default [] (ld_FlowGroups lDevice) in
  let flow := FlowStatsEntryFromFlowModMessage mod_ in
  match FindFlows flows flow with
  | None => fail (Plain "Cannot delete flow")
  | Some idx =>
      let* found := lift (index flows idx) in
      let '(changedMeter, meters) := updateFlowCountOfMeterStats mod_ meters found in
      let flowsToDelete := [found] in
      let flows := delete_at idx flows in
      let* _ := if (changedMeter : bool)
                then updateLogicalDeviceMetersWithoutLock (meters_to_update lDevice meters) else ret tt in
      let* flowMetadata := lift (GetMeterConfig flowsToDelete meters) in
      let* deviceRules := decompose flowsToDelete flowGroups in
      let* _ := deleteDeviceFlowsAndGroups deviceRules (Some flowMetadata) in
      updateLogicalDeviceFlowsWithoutLock flows
  end.

Definition flowModify (mod_ : OfpFlowMod) : M (@LogicalState Store) unit :=
  fail (Plain "flowModify not implemented").
Definition flowModifyStrict (mod_ : OfpFlowMod) : M (@LogicalState Store) unit :=
  fail (Plain "flowModifyStrict not implemented").

Definition unhandled_command (id : string) : GoError :=
  Status Internal ("unhandled-command: lDeviceId:" +:+ id).

(** A nil message is ignored; the routes are computed first. *)
Definition updateFlowTable (flow : option OfpFlowMod) : M (@LogicalState Store) unit :=
  match flow with
  | None => ret tt
  | Some flow =>
      let* _ := generateDeviceRoutesIfNeeded in
      let command := fm_Command flow in
      if decide (command = OFPFC_ADD) then flowAdd flow
      else if decide (command = OFPFC_DELETE) then flowDelete flow
      else if decide (command = OFPFC_DELETE_STRICT) then flowDeleteStrict flow
      else if decide (command = OFPFC_MODIFY) then flowModify flow
      else if decide (command = OFPFC_MODIFY_STRICT) then flowModifyStrict flow
      else let* s := get in fail (unhandled_command (lda_logicalDeviceID s))
  end.

(** ** Meters *)

Definition meterAdd (meterMod : OfpMeterMod) : M (@LogicalState Store) unit :=
  let* lDevice := getLogicalDeviceWithoutLock in
  let meters := default [] (ld_Meters lDevice) in
  if existsb (λ meter, mm_MeterId meterMod =? meter_id meter) meters then ret tt
  else updateLogicalDeviceMetersWithoutLock (meters ++ [MeterEntryFromMeterMod meterMod]).

(** [for index := n - 1; index >= 0; index--]: the matching flows are cut out. *)
Fixpoint delete_by_meter (meterID : Z) (n : nat) (changed : bool) (flows : list OfpFlowStats)
    : outcome (bool * list OfpFlowStats) :=
  match n with
  | O => Ok (changed, flows)
  | S index' =>
      let? flow := index flows index' in
      let mID := GetMeterIdFromFlow flow in
      if negb (mID =? 0) && (mID =? meterID)
      then delete_by_meter meterID index' true (delete_at index' flows)
      else delete_by_meter meterID index' changed flows
  end.

Definition getUpdatedFlowsAfterDeletebyMeterID (flows : list OfpFlowStats) (meterID : Z)
    : outcome (bool * list OfpFlowStats) :=
  delete_by_meter meterID (length flows) false flows.

(** Nothing is sent to the devices. *)
Definition meterDelete (meterMod : OfpMeterMod) : M (@LogicalState Store) unit :=
  let* lDevice := getLogicalDeviceWithoutLock in
  let meters := default [] (ld_Meters lDevice) in
  match find_index (λ meter, mm_MeterId meterMod =? meter_id meter) meters with
  | None => ret tt
  | Some index =>
      let* flows := lift (deref (ld_Flows lDevice)) in
      let* r := lift (getUpdatedFlowsAfterDeletebyMeterID flows (mm_MeterId meterMod)) in
      let '(changedFow, updatedFlows) := r in
      let meters := delete_at index meters in
      let* _ := updateLogicalDeviceMetersWithoutLock (meters_to_update lDevice meters) in
      if (changedFow : bool) then updateLogicalDeviceFlowsWithoutLock updatedFlows else ret tt
  end.

(** The new entry keeps the flow count of the old one. *)
Definition meterModify (meterMod : OfpMeterMod) : M (@LogicalState Store) unit :=
  let* lDevice := getLogicalDeviceWithoutLock in
  let meters := default [] (ld_Meters lDevice) in
  match find_index (λ meter, mm_MeterId meterMod =? meter_id meter) meters with
  | None => fail (Plain ("no-logical-device-present:" +:+ pretty (mm_MeterId meterMod)))
  | Some i =>
      let* meter := lift (index meters i) in
      let newmeterEntry := set_FlowCount (ms_FlowCount (me_Stats meter)) (MeterEntryFromMeterMod meterMod) in
      updateLogicalDeviceMetersWithoutLock (meters_to_update lDevice (<[i := newmeterEntry]> meters))
  end.

Definition updateMeterTable (meterMod : option OfpMeterMod) : M (@LogicalState Store) unit :=
  match meterMod with
  | None => ret tt
  | Some meterMod =>
      let* _ := generateDeviceRoutesIfNeeded in
      let command := mm_Command meterMod in
      if decide (command = OFPMC_ADD) then meterAdd meterMod
      else if decide (command = OFPMC_DELETE) then meterDelete meterMod
      else if decide (command = OFPMC_MODIFY) then meterModify meterMod
      else let* s := get in fail (unhandled_command (lda_logicalDeviceID s))
  end.

(** ** Groups *)

(** The rules that carry one group to the root device. *)
Definition group_rules (rootDeviceID : string) (groupMod : OfpGroupMod) : outcome DeviceRules :=
  let deviceRules := CreateEntryIfNotExist NewDeviceRules rootDeviceID in
  let? fg := fg_AddGroup NewFlowsAndGroups (GroupEntryFromGroupMod groupMod) in
  Ok (AddFlowsAndGroup deviceRules rootDeviceID fg).

Definition groupAdd (groupMod : OfpGroupMod) : M (@LogicalState Store) unit :=
  let* s := get in
  let* lDevice := getLogicalDeviceWithoutLock in
  let* groups := lift (deref (ld_FlowGroups lDevice)) in
  let* idx := lift (FindGroup groups (gm_GroupId groupMod)) in
  match idx with
  | Some _ => fail (Plain ("Groups " +:+ pretty (gm_GroupId groupMod) +:+ " already present"))
  | None =>
      let groups := groups ++ [GroupEntryFromGroupMod groupMod] in
      let* deviceRules := lift (group_rules (lda_rootDeviceID s) groupMod) in
      let* _ := addDeviceFlowsAndGroups deviceRules (Some []) in
      updateLogicalDeviceFlowGroupsWithoutLock groups
  end.

(** The groups and flows that remain, and whether flows were removed; [None] when
    there is no such group.  Deleting all groups keeps the flows. *)
Definition group_to_delete (groupID : Z) (groups : list OfpGroupEntry) (flows : list OfpFlowStats)
    : outcome (option (list OfpGroupEntry * bool * list OfpFlowStats)) :=
  if decide (groupID = OFPG_ALL) then Ok (Some ([], false, flows))
  else
    let? idx := FindGroup groups groupID in
    match idx with
    | None => Ok None
    | Some idx =>
        let (flowsChanged, flows) := FlowsDeleteByGroupId flows groupID in
        Ok (Some (delete_at idx groups, flowsChanged, flows))
    end.

Definition groupDelete (groupMod : OfpGroupMod) : M (@LogicalState Store) unit :=
  let* lDevice := getLogicalDeviceWithoutLock in
  let* groups := lift (deref (ld_FlowGroups lDevice)) in
  let* flows := lift (deref (ld_Flows lDevice)) in
  let* change := lift (group_to_delete (gm_GroupId groupMod) groups flows) in
  match change with
  | None => ret tt
  | Some (groups, flowsChanged, flows) =>
      let* deviceRules := decompose flows groups in
      let* _ := updateDeviceFlowsAndGroups deviceRules None in
      let* _ := updateLogicalDeviceFlowGroupsWithoutLock groups in
      if (flowsChanged : bool) then updateLogicalDeviceFlowsWithoutLock flows else ret tt
  end.

Definition groupModify (groupMod : OfpGroupMod) : M (@LogicalState Store) unit :=
  let* s := get in
  let* lDevice := getLogicalDeviceWithoutLock in
  let* groups := lift (deref (ld_FlowGroups lDevice)) in
  let* idx := lift (FindGroup groups (gm_GroupId groupMod)) in
  match idx with
  | None => fail (Plain ("group-absent:" +:+ pretty (gm_GroupId groupMod)))
  | Some idx =>
      let groups := <[idx := GroupEntryFromGroupMod groupMod]> groups in
      let* deviceRules := lift (group_rules (lda_rootDeviceID s) groupMod) in
      let* _ := updateDeviceFlowsAndGroups deviceRules (Some []) in
      updateLogicalDeviceFlowGroupsWithoutLock groups
  end.

Definition updateGroupTable (groupMod : option OfpGroupMod) : M (@LogicalState Store) unit :=
  match groupMod with
  | None => ret tt
  | Some groupMod =>
      let* _ := generateDeviceRoutesIfNeeded in
      let command := gm_Command groupMod in
      if decide (command = OFPGC_ADD) then groupAdd groupMod
      else if decide (command = OFPGC_DELETE) then groupDelete groupMod
      else if decide (command = OFPGC_MODIFY) then groupModify groupMod
      else let* s := get in fail (unhandled_command (lda_logicalDeviceID s))
  end.

End Tables.

(** ** Steps of an operation *)

Section Steps.
Context {Store : Type} `{DataProxy LogicalDevice Store, GoRange, DeviceManagerView, DeviceManagerCalls, ProtoText}.
Implicit Types (s : @LogicalState Store) (ld : LogicalDevice).

(** The cache and the data model both hold [ld]. *)
Definition holds ld s : Prop :=
  lda_logicalDevice s = Some ld ∧ dp_get (lda_logicalDeviceID s) (lda_store s) = Ok (Some ld).

(** [s'] is [s] with the logical device [ld] and the requests [sent]. *)
Definition now s ld (sent : list Request) s' : Prop :=
  lda_logicalDeviceID s' = lda_logicalDeviceID s ∧ lda_rootDeviceID s' = lda_rootDeviceID s ∧
  lda_deviceRoutes s' = lda_deviceRoutes s ∧ lda_logicalPortsNo s' = lda_logicalPortsNo s ∧
  lda_tasks s' = lda_tasks s ∧ lda_defaultTimeout s' = lda_defaultTimeout s ∧
  lda_sent s' = sent ∧ holds ld s'.

(** The routes are ready: they exist and have two hops. *)
Definition routes_ready s : Prop := ∃ dr, lda_deviceRoutes s = Some dr ∧ two_hops (dr_Routes dr).

Lemma now_refl ld s : holds ld s → now s ld (lda_sent s) s.
Proof. by intros. Qed.

Lemma now_trans s ld1 sent1 s1 ld2 sent2 s2 :
  now s ld1 sent1 s1 → now s1 ld2 sent2 s2 → now s ld2 sent2 s2.
Proof. unfold now. intros. destruct_and?. split_and!; (congruence || done). Qed.

Context `{!DataProxyLaws LogicalDevice Store}.

Lemma getLogicalDevice_run ld s : holds ld s → getLogicalDeviceWithoutLock s = (Ok ld, s).
Proof. intros [Hc _]. unfold getLogicalDeviceWithoutLock. by rewrite Hc. Qed.

Lemma update_run ld ld' s : holds ld s →
  ∃ r s', updateLogicalDeviceWithoutLock ld' s = (r, s') ∧
    (r = Ok tt ∧ now s ld' (lda_sent s) s' ∨ (∃ e, r = Err e) ∧ now s ld (lda_sent s) s').
Proof.
  intros [Hc Hget]. unfold updateLogicalDeviceWithoutLock.
  destruct (dp_update _ ld' (lda_store s)) as [r st] eqn:Hu.
  assert (r ≠ UpdOk → now s ld (lda_sent s) (set_lda_store st s)) as Hfail.
  { intros Hr. split_and!; try done. split; [done|]. cbn. by rewrite (dp_update_fail _ _ _ _ _ Hu Hr). }
  destruct r as [| |e]; eexists _, _; (split; [done|]).
  - left. split; [done|]. split_and!; try done. split; [done|]. cbn. by apply dp_update_get in Hu.
  - right. split; [eauto | by apply Hfail].
  - right. split; [eauto | by apply Hfail].
Qed.

Lemma updateFlows_run ld fl s : holds ld s →
  ∃ r s', updateLogicalDeviceFlowsWithoutLock fl s = (r, s') ∧
    (r = Ok tt ∧ now s (set_ld_Flows (Some fl) ld) (lda_sent s) s' ∨ (∃ e, r = Err e) ∧ now s ld (lda_sent s) s').
Proof.
  intros Hs. unfold updateLogicalDeviceFlowsWithoutLock. rewrite (sbind_run _ _ _ _ _ (getLogicalDevice_run ld s Hs)).
  by apply update_run.
Qed.
Lemma updateMeters_run ld ms s : holds ld s →
  ∃ r s', updateLogicalDeviceMetersWithoutLock ms s = (r, s') ∧
    (r = Ok tt ∧ now s (set_ld_Meters (Some ms) ld) (lda_sent s) s' ∨ (∃ e, r = Err e) ∧ now s ld (lda_sent s) s').
Proof.
  intros Hs. unfold updateLogicalDeviceMetersWithoutLock. rewrite (sbind_run _ _ _ _ _ (getLogicalDevice_run ld s Hs)).
  by apply update_run.
Qed.
Lemma updateGroups_run ld gs s : holds ld s →
  ∃ r s', updateLogicalDeviceFlowGroupsWithoutLock gs s = (r, s') ∧
    (r = Ok tt ∧ now s (set_ld_FlowGroups (Some gs) ld) (lda_sent s) s' ∨ (∃ e, r = Err e) ∧ now s ld (lda_sent s) s').
Proof.
  intros Hs. unfold updateLogicalDeviceFlowGroupsWithoutLock. rewrite (sbind_run _ _ _ _ _ (getLogicalDevice_run ld s Hs)).
  by apply update_run.
Qed.

(** The requests that carry the rules, and the devices having accepted them all. *)
Definition device_calls (req : string → list OfpFlowStats → list OfpGroupEntry → Request)
    (rules : DeviceRules) : list Request :=
  (λ kv : string * FlowsAndGroups, req kv.1 (fg_ListFlows kv.2) (fg_ListGroups kv.2)) <$> go_range rules.
Definition accepted (timeout : Z) (sent reqs : list Request) : Prop :=
  ∀ i req, reqs !! i = Some req → ∃ t, dmc_reply (sent ++ take i reqs) req = Some (t, None) ∧ t ≤ Z.max 0 timeout.

Lemma call_devices_run req failed rules s :
  let reqs := (λ kv : string * FlowsAndGroups, req kv.1 (fg_ListFlows kv.2) (fg_ListGroups kv.2)) <$> rules in
  ∃ cs, call_devices req failed rules s = (Ok cs, set_lda_sent (lda_sent s ++ reqs) s) ∧ length cs = length rules ∧
    ∀ i r, reqs !! i = Some r → ∃ id, cs !! i = Some (relabel failed id (dmc_reply (lda_sent s ++ take i reqs) r)).
Proof.
  revert s. induction rules as [|[id fg] rules IH]; intros s; cbn [call_devices fmap list_fmap].
  { exists []. rewrite app_nil_r. split_and!; [by destruct s | done | done]. }
  destruct (IH (set_lda_sent (lda_sent s ++ [req id (fg_ListFlows fg) (fg_ListGroups fg)]) s)) as (cs & Hcs & Hlen & Hall).
  exists (relabel failed id (dmc_reply (lda_sent s) (req id (fg_ListFlows fg) (fg_ListGroups fg))) :: cs).
  unfold sbind, call. cbn [fst snd]. rewrite Hcs. split_and!.
  - cbn. by rewrite -app_assoc.
  - cbn. by rewrite Hlen.
  - intros [|i] r Hi; cbn in Hi.
    + injection Hi as <-. exists id. cbn. by rewrite app_nil_r.
    + destruct (Hall i r Hi) as [id' Hid']. exists id'. cbn in *. by rewrite -app_assoc in Hid'.
Qed.

Lemma send_rules_run req failed rules s :
  ∃ r, send_rules req failed rules s = (r, set_lda_sent (lda_sent s ++ device_calls req rules) s) ∧
    (r = Ok tt ∧ accepted (lda_defaultTimeout s) (lda_sent s) (device_calls req rules) ∨ ∃ e, r = Err e).
Proof.
  unfold send_rules. rewrite (sbind_run get _ s s s) //.
  destruct (call_devices_run req failed (go_range rules) s) as (cs & Hcs & _ & Hall).
  rewrite (sbind_run _ _ _ _ _ Hcs).
  destruct (WaitForNilOrErrorResponses _ _ cs).1 eqn:Hw; (eexists; split; [done|]); [by right; eexists | left].
  split; [done|]. intros i r Hi. destruct (Hall i r Hi) as [id Hid].
  destruct (wait_nil _ _ _ Hw _ (list_elem_of_lookup_2 _ _ _ Hid)) as (t & Hr & Ht). exists t. split; [|done].
  unfold device_calls. destruct (dmc_reply _ r) as [[t' [e|]]|]; by simplify_eq/=.
Qed.

Lemma now_sent s ld reqs : holds ld s → now s ld (lda_sent s ++ reqs) (set_lda_sent (lda_sent s ++ reqs) s).
Proof. by intros. Qed.

End Steps.

(** ** What the table operations compute *)

Section TableFacts.
Context `{ProtoText}.

Lemma meter_configs_no_panic seen md flows meters : meter_configs seen md flows meters ≠ Panic.
Proof.
  revert seen md. induction flows as [|f flows IH]; intros seen md; cbn [meter_configs]; [done|].
  destruct (_ && _); [|done]. by destruct (list_find _ meters) as [[]|].
Qed.

Lemma GetMeterConfig_no_panic flows meters : GetMeterConfig flows meters ≠ Panic.
Proof. apply meter_configs_no_panic. Qed.

Lemma has_flag_dec flags flag : has_flag flags flag = true ∨ has_flag flags flag = false.
Proof. destruct (has_flag flags flag); auto. Qed.

(** The entry of a flow modification. *)
#[local] Notation entry mod_ := (FlowStatsEntryFromFlowModMessage mod_).

(** The entry that replaces [old]. *)
Definition replacement (mod_ : OfpFlowMod) (old : OfpFlowStats) : OfpFlowStats :=
  if has_flag (fm_Flags mod_) OFPFF_RESET_COUNTS
  then with_counts (fs_ByteCount old) (fs_PacketCount old) (entry mod_) else entry mod_.

(** The flow table after an addition that changes it. *)
Definition added (mod_ : OfpFlowMod) (flows : list OfpFlowStats) (flow : OfpFlowStats)
    (flows' : list OfpFlowStats) (updated : bool) : Prop :=
  if updated then
    has_flag (fm_Flags mod_) OFPFF_CHECK_OVERLAP = false ∧
    ∃ pre old post, flows = pre ++ old :: post ∧ flow_key old = flow_key (entry mod_) ∧
      flow_key (entry mod_) ∉ flow_key <$> pre ∧
      flow = replacement mod_ old ∧ flow ≠ old ∧ flows' = pre ++ flow :: post
  else
    flow = entry mod_ ∧ flows' = flows ++ [flow] ∧
    (has_flag (fm_Flags mod_) OFPFF_CHECK_OVERLAP = false → flow_key flow ∉ flow_key <$> flows).

(** The flow is there already. *)
Definition already_there (mod_ : OfpFlowMod) (flows : list OfpFlowStats) : Prop :=
  has_flag (fm_Flags mod_) OFPFF_CHECK_OVERLAP = false ∧ ∃ old, old ∈ flows ∧ old = replacement mod_ old.

Lemma flow_key_replacement mod_ old : flow_key (replacement mod_ old) = flow_key (entry mod_).
Proof. unfold replacement. by destruct (has_flag _ _). Qed.

Lemma find_index_split {A} (p : A → bool) l i :
  find_index p l = Some i →
  ∃ pre x post, l = pre ++ x :: post ∧ length pre = i ∧ p x = true ∧ ∀ y, y ∈ pre → p y = false.
Proof.
  intros (x & Hx & Hp & Hmin)%find_index_Some. exists (take i l), x, (drop (S i) l).
  pose proof (lookup_lt_Some _ _ _ Hx). split_and!; [by apply delete_at_middle | by rewrite length_take_le; last lia | done |].
  intros y (j & Hj)%list_elem_of_lookup. rewrite lookup_take_Some in Hj. destruct Hj. by eapply (Hmin j).
Qed.

Lemma FindFlows_split flows flow i :
  FindFlows flows flow = Some i →
  ∃ pre f post, flows = pre ++ f :: post ∧ length pre = i ∧ flow_key f = flow_key flow ∧
    flow_key flow ∉ flow_key <$> pre.
Proof.
  intros (pre & f & post & -> & Hlen & Hf%FlowMatch_spec & Hmin)%find_index_split. exists pre, f, post.
  split_and!; [done..|]. intros (g & Heq & Hg)%list_elem_of_fmap.
  specialize (Hmin g Hg). apply FlowMatch_false in Hmin. congruence.
Qed.

Lemma flow_to_add_spec flows mod_ :
  match flow_to_add flows mod_ with
  | Ok None => already_there mod_ flows
  | Ok (Some (flow, flows', updated)) => added mod_ flows flow flows' updated
  | _ => False
  end.
Proof.
  unfold flow_to_add. destruct (has_flag (fm_Flags mod_) OFPFF_CHECK_OVERLAP) eqn:Ho.
  { cbn [FindOverlappingFlows added]. rewrite Ho. by split_and!. }
  destruct (FindFlows flows (entry mod_)) as [idx|] eqn:Hf.
  - apply FindFlows_split in Hf as (pre & old & post & -> & <- & Hk & Hpre).
    unfold index. rewrite list_lookup_middle //. cbn [obind]. fold (replacement mod_ old).
    destruct (decide (old = replacement mod_ old)) as [Heq|Hne].
    + split; [done|]. exists old. split; [set_solver|done].
    + split; [done|]. exists pre, old, post. split_and!; try done.
      rewrite insert_app_r_alt; last lia. by rewrite Nat.sub_diag.
  - apply FindFlows_None in Hf. by split_and!.
Qed.

(** Adding a flow keeps the keys distinct, and leaves the other flows alone. *)
Lemma added_keys mod_ flows flow flows' updated :
  has_flag (fm_Flags mod_) OFPFF_CHECK_OVERLAP = false → added mod_ flows flow flows' updated →
  NoDup (flow_key <$> flows) → NoDup (flow_key <$> flows').
Proof.
  intros Ho Hadd Hnd. destruct updated; cbn [added] in Hadd.
  - destruct Hadd as (_ & pre & old & post & -> & Hk & _ & -> & _ & ->).
    rewrite !fmap_app !fmap_cons in Hnd |- *. by rewrite flow_key_replacement -Hk.
  - destruct Hadd as (-> & -> & Hfresh). rewrite fmap_app. apply NoDup_app. split_and!; [done | | apply NoDup_singleton].
    intros k Hk1 Hk2%list_elem_of_singleton. subst. by apply Hfresh.
Qed.

Lemma entry_ok mod_ old : flow_ok (entry mod_) → flows_ok [replacement mod_ old] ∧ flows_ok [entry mod_].
Proof. intros Hok. unfold replacement. split; apply Forall_singleton; [by destruct (has_flag (fm_Flags mod_) OFPFF_RESET_COUNTS) | done]. Qed.

Lemma added_ok mod_ flows flow flows' updated :
  flow_ok (entry mod_) → added mod_ flows flow flows' updated → flows_ok [flow].
Proof.
  intros Hok Hadd. destruct updated; cbn [added] in Hadd.
  - destruct Hadd as (_ & pre & old & post & _ & _ & _ & -> & _). by apply entry_ok.
  - destruct Hadd as (-> & _). by apply (entry_ok mod_ (entry mod_)).
Qed.

(** ** Meter counters *)

Lemma count_flow_true c m meters meters' :
  count_flow c m meters = (true, meters') →
  ∃ pre x post, meters = pre ++ x :: post ∧ meter_id x = m ∧ m ∉ meter_id <$> pre ∧
    ((c = OFPFC_ADD ∧ meters' = pre ++ set_FlowCount (u32 (ms_FlowCount (me_Stats x) + 1)) x :: post) ∨
     (c = OFPFC_DELETE_STRICT ∧ meters' = pre ++ set_FlowCount (u32 (ms_FlowCount (me_Stats x) - 1)) x :: post)).
Proof.
  revert meters'. induction meters as [|x meters IH]; intros meters'; cbn [count_flow]; [done|].
  destruct (m =? meter_id x) eqn:Hm.
  - apply Z.eqb_eq in Hm as ->. destruct (c =? OFPFC_ADD) eqn:Ha; [|destruct (c =? OFPFC_DELETE_STRICT) eqn:Hd; [|done]];
      intros [= <-]; exists [], x, meters; (split_and!; [done | done | set_solver |]); [left | right]; split; (lia || done).
  - apply Z.eqb_neq in Hm. destruct (count_flow c m meters) as [b ms] eqn:Hc. intros [= -> <-].
    destruct (IH _ eq_refl) as (pre & y & post & -> & Hy & Hpre & Hms). exists (x :: pre), y, post.
    split_and!; [done | done | cbn; set_solver |].
    destruct Hms as [[? ->]|[? ->]]; [left | right]; done.
Qed.

Lemma count_flow_false c m meters meters' : count_flow c m meters = (false, meters') → meters' = meters.
Proof.
  revert meters'. induction meters as [|x meters IH]; intros meters'; cbn [count_flow]; [congruence|].
  destruct (m =? meter_id x); [destruct (c =? OFPFC_ADD); [done|]; destruct (c =? OFPFC_DELETE_STRICT); congruence|].
  destruct (count_flow c m meters) as [b ms] eqn:Hc. intros [= -> <-]. by rewrite (IH _ eq_refl).
Qed.

(** Counting a flow in and out again. *)
Lemma count_flow_roundtrip m meters :
  Forall (λ x, 0 ≤ ms_FlowCount (me_Stats x) < 2 ^ 32) meters →
  (count_flow OFPFC_DELETE_STRICT m (count_flow OFPFC_ADD m meters).2).2 = meters ∧
  (count_flow OFPFC_DELETE_STRICT m (count_flow OFPFC_ADD m meters).2).1 = (count_flow OFPFC_ADD m meters).1.
Proof.
  induction 1 as [|x meters Hx Hms IH]; [done|]. cbn [count_flow]. destruct (m =? meter_id x) eqn:Hm; cbn [fst snd].
  - rewrite Z.eqb_refl. cbn [fst snd count_flow]. unfold meter_id in *. cbn [me_Config set_FlowCount]. rewrite Hm.
    cbn [Z.eqb OFPFC_DELETE_STRICT OFPFC_ADD Pos.eqb fst snd]. split; [|done]. f_equal.
    unfold set_FlowCount, u32. cbn. destruct x as [c [i n p b d dn bs]]. cbn in *. do 2 f_equal.
    rewrite Zminus_mod_idemp_l. rewrite Z.add_simpl_r. by apply Z.mod_small.
  - destruct (count_flow OFPFC_ADD m meters) as [b ms]. cbn [fst snd count_flow] in *. rewrite Hm.
    destruct (count_flow OFPFC_DELETE_STRICT m ms) as [b' ms']. cbn [fst snd] in *. by destruct IH as [-> ->].
Qed.

Lemma count_flow_ids c m meters : meter_id <$> (count_flow c m meters).2 = meter_id <$> meters.
Proof.
  induction meters as [|x meters IH]; [done|]. cbn [count_flow]. destruct (m =? meter_id x).
  - by destruct (c =? OFPFC_ADD); [|destruct (c =? OFPFC_DELETE_STRICT)].
  - destruct (count_flow c m meters) as [b ms]. cbn in *. by rewrite IH.
Qed.

End TableFacts.

(** ** Flow modifications *)

Section FlowMods.
Context {Store : Type} `{DataProxy LogicalDevice Store, GoRange, DeviceManagerView, DeviceManagerCalls, ProtoText}.
Context `{!DataProxyLaws LogicalDevice Store}.
Implicit Types (s : @LogicalState Store) (ld : LogicalDevice).
#[local] Notation entry mod_ := (FlowStatsEntryFromFlowModMessage mod_).

(** A logical device whose operations do not dereference nil: it has flow groups,
    they are described, its flows are well formed, and the device manager
    answers. *)
Definition usable ld s : Prop :=
  holds ld s ∧ routes_ready s ∧ (∀ id, dm_GetDevice id ≠ Panic) ∧
  (∃ groups, ld_FlowGroups ld = Some groups ∧ Forall (λ g, is_Some (ge_Desc g)) groups) ∧
  flows_ok (default [] (ld_Flows ld)).

Lemma decompose_run ld s flows groups :
  routes_ready s → (∀ id, dm_GetDevice id ≠ Panic) → flows_ok flows →
  Forall (λ g, is_Some (ge_Desc g)) groups →
  (∃ rules, decompose flows groups s = (Ok rules, s) ∧ @DecomposeRules _ _ (agent_view s) _ flows groups = Ok rules) ∨
  (∃ e, decompose flows groups s = (Err e, s)).
Proof.
  intros (dr & Hdr & Htwo) Hdm Hf Hg. unfold decompose.
  pose proof (@DecomposeRules_no_panic _ _ (agent_view s) _ (agent_view_laws s dr Hdr Htwo Hdm) flows groups Hf Hg) as Hnp.
  destruct (DecomposeRules flows groups) as [rules|e|] eqn:Hd; [left | right | done].
  - by exists rules.
  - by exists e.
Qed.

(** The logical device with the flow counted in, or out. *)
Definition counted (mod_ : OfpFlowMod) (flow : OfpFlowStats) ld : LogicalDevice :=
  let r := updateFlowCountOfMeterStats mod_ (default [] (ld_Meters ld)) flow in
  if r.1 then set_ld_Meters (Some (meters_to_update ld r.2)) ld else ld.

(** The requests of an operation, and what the devices were asked for. *)
Definition rules_sent (req : FlowMetadata → string → list OfpFlowStats → list OfpGroupEntry → Request)
    (meters : list OfpMeterEntry) (groups : list OfpGroupEntry) (flows : list OfpFlowStats) s (reqs : list Request)
  : Prop :=
  ∃ md rules, GetMeterConfig flows meters = Ok md ∧
    @DecomposeRules _ _ (agent_view s) _ flows groups = Ok rules ∧ reqs = device_calls (req md) rules ∧
    accepted (lda_defaultTimeout s) (lda_sent s) reqs.

Definition add_call md id fl gs := CallAddFlows id fl gs (Some md).
Definition delete_call md id fl gs := CallDeleteFlows id fl gs (Some md).

(** The common part of the flow modifications: the flows are decomposed and sent. *)
Lemma send_run ld s flows groups (op : DeviceRules → option FlowMetadata → M LogicalState unit)
    req (failed : string) (k : M LogicalState unit) (md : FlowMetadata) :
  (∀ rules, op rules (Some md) = send_rules (req md) failed rules) →
  holds ld s → routes_ready s → (∀ id, dm_GetDevice id ≠ Panic) → flows_ok flows →
  Forall (λ g, is_Some (ge_Desc g)) groups → GetMeterConfig flows (default [] (ld_Meters ld)) = Ok md →
  let m := let* deviceRules := decompose flows groups in
           let* _ := op deviceRules (Some md) in k in
  (∃ reqs, rules_sent req (default [] (ld_Meters ld)) groups flows s reqs ∧
     m s = k (set_lda_sent (lda_sent s ++ reqs) s)) ∨
  (∃ e reqs, m s = (Err e, set_lda_sent (lda_sent s ++ reqs) s)).
Proof.
  intros Hop Hs Hr Hdm Hf Hg Hmd m. subst m.
  destruct (decompose_run ld s flows groups Hr Hdm Hf Hg) as [(rules & Hrun & Hrules)|(e & Hrun)].
  2: { right. exists e, []. rewrite (sbind_err _ _ _ _ _ Hrun) app_nil_r. by destruct s. }
  rewrite (sbind_run _ _ _ _ _ Hrun) Hop.
  destruct (send_rules_run (req md) failed rules s) as (r & Hsend & [[-> Hacc]|[e ->]]).
  - left. exists (device_calls (req md) rules). rewrite (sbind_run _ _ _ _ _ Hsend). split; [|done]. by exists md, rules.
  - right. rewrite (sbind_err _ _ _ _ _ Hsend). by eexists _, _.
Qed.

Lemma flowAdd_run mod_ ld groups s :
  holds ld s → routes_ready s → (∀ id, dm_GetDevice id ≠ Panic) → flow_ok (entry mod_) →
  ld_FlowGroups ld = Some groups → Forall (λ g, is_Some (ge_Desc g)) groups →
  match flow_to_add (default [] (ld_Flows ld)) mod_ with
  | Ok None => flowAdd mod_ s = (Ok tt, s)
  | Ok (Some (flow, flows', updated)) =>
      let ld1 := set_ld_Flows (Some flows') ld in
      ∃ r s' reqs, flowAdd mod_ s = (r, s') ∧
      (r = Ok tt ∧ rules_sent add_call (default [] (ld_Meters ld)) groups [flow] s reqs ∧
         now s (if updated : bool then ld1 else counted mod_ flow ld1) (lda_sent s ++ reqs) s' ∨
       (∃ e, r = Err e) ∧ now s ld (lda_sent s ++ reqs) s' ∨
       (∃ e, r = Err e) ∧ updated = false ∧ rules_sent add_call (default [] (ld_Meters ld)) groups [flow] s reqs ∧
         now s ld1 (lda_sent s ++ reqs) s')
  | _ => False
  end.
Proof.
  intros Hs Hr Hdm Hok Hgr Hg. unfold flowAdd. rewrite (sbind_run _ _ _ _ _ (getLogicalDevice_run ld s Hs)).
  pose proof (flow_to_add_spec (default [] (ld_Flows ld)) mod_) as Hadd.
  destruct (flow_to_add _ mod_) as [[[[flow flows'] updated]|]|e|]; [|done..].
  rewrite (sbind_run (lift _) _ s (Some (flow, flows', updated)) s) //.
  destruct (GetMeterConfig [flow] (default [] (ld_Meters ld))) as [md|e|] eqn:Hmd.
  2: { eexists _, s, []. split; [reflexivity|]. right; left. rewrite app_nil_r. split; [eauto | by apply now_refl]. }
  2: { by destruct (GetMeterConfig_no_panic [flow] (default [] (ld_Meters ld))). }
  rewrite (sbind_run (lift (Ok md)) _ s md s) //.
  rewrite Hgr. rewrite (sbind_run (lift _) _ s groups s) //. cbn [deref].
  destruct (send_run ld s [flow] groups addDeviceFlowsAndGroups add_call "flow-add-failed"
    (let* _ := updateLogicalDeviceFlowsWithoutLock flows' in
     if updated then ret tt
     else let '(c, ms) := updateFlowCountOfMeterStats mod_ (default [] (ld_Meters ld)) flow in
          if c : bool then updateLogicalDeviceMetersWithoutLock (meters_to_update ld ms) else ret tt) md)
    as [(reqs & Hsent & ->)|(e & reqs & ->)]; [done | done | done | done | by eapply added_ok | done | done | |].
  2: { exists (Err e), (set_lda_sent (lda_sent s ++ reqs) s), reqs. split; [done|]. right; left. by split; [eauto | apply now_sent]. }
  pose proof (now_sent s ld reqs Hs) as Hn1. set (s1 := set_lda_sent _ s) in *.
  destruct (updateFlows_run ld flows' s1) as (r2 & s2 & Hu2 & [[-> Hn2]|[[e ->] Hn2]]); [apply Hn1 | |].
  2: { rewrite (sbind_err _ _ _ _ _ Hu2). eexists _, s2, reqs. split; [done|]. right; left. split; [eauto | eapply now_trans; [exact Hn1 | exact Hn2]]. }
  rewrite (sbind_run _ _ _ _ _ Hu2). assert (now s (set_ld_Flows (Some flows') ld) (lda_sent s ++ reqs) s2) as Hn.
  { eapply now_trans; [exact Hn1 | exact Hn2]. }
  destruct updated.
  { eexists _, s2, reqs. split; [done|]. by left. }
  unfold counted. change (ld_Meters (set_ld_Flows (Some flows') ld)) with (ld_Meters ld).
  destruct (updateFlowCountOfMeterStats mod_ _ flow) as [[] ms]; cbn [fst snd].
  2: { eexists _, s2, reqs. split; [done|]. by left. }
  destruct (updateMeters_run (set_ld_Flows (Some flows') ld) (meters_to_update ld ms) s2) as (r3 & s3 & Hu3 & Hn3); [apply Hn|].
  rewrite Hu3. exists r3, s3, reqs. split; [done|].
  assert (lda_sent s2 = lda_sent s ++ reqs) as Hs2 by apply Hn. rewrite Hs2 in Hn3.
  destruct Hn3 as [[-> Hn3]|[[e ->] Hn3]]; [left | right; right].
  - split_and!; [done | done |]. eapply now_trans; [exact Hn | exact Hn3].
  - split_and!; [eauto | done | done |]. eapply now_trans; [exact Hn | exact Hn3].
Qed.

(** C17: [flowAdd] changes the flow table exactly when the devices accept the
    change.  On success either the flow was there already and nothing happened,
    or the table gained the flow (at the end, or in the place of the flow with
    the same key), the rules of this one flow were sent, every device accepted
    them in time, and the meter of a new flow counts it.  After an error the
    table is as before, unless the devices and the table have the flow and only
    the meter counter could not be stored. *)
Theorem flow_add_correct mod_ ld groups s :
  holds ld s → routes_ready s → (∀ id, dm_GetDevice id ≠ Panic) → flow_ok (entry mod_) →
  ld_FlowGroups ld = Some groups → Forall (λ g, is_Some (ge_Desc g)) groups →
  let flows := default [] (ld_Flows ld) in
  let meters := default [] (ld_Meters ld) in
  match flowAdd mod_ s with
  | (Ok _, s') =>
      already_there mod_ flows ∧ s' = s ∨
      ∃ flow flows' updated reqs, added mod_ flows flow flows' updated ∧
        rules_sent add_call meters groups [flow] s reqs ∧
        let ld1 := set_ld_Flows (Some flows') ld in
        now s (if updated : bool then ld1 else counted mod_ flow ld1) (lda_sent s ++ reqs) s'
  | (Err _, s') => ∃ reqs, now s ld (lda_sent s ++ reqs) s' ∨
      ∃ flow flows', added mod_ flows flow flows' false ∧
        rules_sent add_call meters groups [flow] s reqs ∧
        now s (set_ld_Flows (Some flows') ld) (lda_sent s ++ reqs) s'
  | (Panic, _) => False
  end.
Proof.
  intros Hs Hr Hdm Hok Hgr Hg flows meters.
  pose proof (flowAdd_run mod_ ld groups s Hs Hr Hdm Hok Hgr Hg) as Hrun.
  pose proof (flow_to_add_spec flows mod_) as Hadd. fold flows meters in Hrun.
  destruct (flow_to_add flows mod_) as [[[[flow flows'] updated]|]|e|]; [|rewrite Hrun; by left | done | done].
  destruct Hrun as (r & s' & reqs & -> & [(-> & Hsent & Hn)|[([e ->] & Hn)|([e ->] & -> & Hsent & Hn)]]).
  - right. by exists flow, flows', updated, reqs.
  - exists reqs. by left.
  - exists reqs. right. by exists flow, flows'.
Qed.

(** C33: adding a flow twice is adding it once: after a successful addition
    without overlap check, the same message finds its flow in the table, and
    neither the state changes nor is anything sent to the devices. *)
Theorem flow_add_idempotent mod_ ld groups s s' :
  holds ld s → routes_ready s → (∀ id, dm_GetDevice id ≠ Panic) → flow_ok (entry mod_) →
  ld_FlowGroups ld = Some groups → Forall (λ g, is_Some (ge_Desc g)) groups →
  has_flag (fm_Flags mod_) OFPFF_CHECK_OVERLAP = false →
  flowAdd mod_ s = (Ok tt, s') → flowAdd mod_ s' = (Ok tt, s').
Proof.
  intros Hs Hr Hdm Hok Hgr Hg Ho Hadd1.
  pose proof (flowAdd_run mod_ ld groups s Hs Hr Hdm Hok Hgr Hg) as Hrun.
  pose proof (flow_to_add_spec (default [] (ld_Flows ld)) mod_) as Hadd.
  destruct (flow_to_add _ mod_) as [[[[flow flows'] updated]|]|e|] eqn:Hfta; [| |done..].
  2: { rewrite Hrun in Hadd1. injection Hadd1 as <-. exact Hrun. }
  destruct Hrun as (r & s1 & reqs & Hrun & Hcases). rewrite Hadd1 in Hrun. injection Hrun as <- <-.
  assert (now s (if updated then set_ld_Flows (Some flows') ld else counted mod_ flow (set_ld_Flows (Some flows') ld))
    (lda_sent s ++ reqs) s') as Hn by (destruct Hcases as [(_ & _ & Hn)|[([e ?] & _)|([e ?] & _)]]; done).
  clear Hcases. set (ld' := if updated then _ else _) in Hn.
  assert (ld_Flows ld' = Some flows' ∧ ld_FlowGroups ld' = Some groups) as [Hf' Hg'].
  { unfold ld', counted. destruct updated; [done|]. by destruct (updateFlowCountOfMeterStats _ _ _) as [[] ?]. }
  assert (flow_to_add flows' mod_ = Ok None) as Hnone.
  { unfold flow_to_add. rewrite Ho.
    assert (∃ idx, FindFlows flows' (entry mod_) = Some idx ∧ flows' !! idx = Some flow ∧ flow = replacement mod_ flow)
      as (idx & Hidx & Hlk & Hrep).
    { destruct updated; cbn [added] in Hadd.
      - destruct Hadd as (_ & pre & old & post & _ & Hk & Hpre & -> & _ & ->). exists (length pre).
        rewrite list_lookup_middle //. split_and!; [|done|].
        + apply find_index_Some. exists (replacement mod_ old). rewrite list_lookup_middle //. split_and!; [done | |].
          * apply FlowMatch_spec. apply flow_key_replacement.
          * intros j y Hj Hy. rewrite lookup_app_l in Hy; last done. apply FlowMatch_false. intros Heq. apply Hpre.
            apply list_elem_of_fmap. exists y. split; [done | by eapply list_elem_of_lookup_2].
        + unfold replacement. by destruct (has_flag (fm_Flags mod_) OFPFF_RESET_COUNTS).
      - destruct Hadd as (-> & -> & Hfresh). exists (length (default [] (ld_Flows ld))).
        rewrite list_lookup_middle //. split_and!; [|done|].
        + apply find_index_Some. exists (entry mod_). rewrite list_lookup_middle //. split_and!; [done | apply FlowMatch_refl |].
          intros j y Hj Hy. rewrite lookup_app_l in Hy; last done. apply FlowMatch_false. intros Heq. apply (Hfresh Ho).
          apply list_elem_of_fmap. exists y. split; [done | by eapply list_elem_of_lookup_2].
        + unfold replacement. by destruct (has_flag (fm_Flags mod_) OFPFF_RESET_COUNTS). }
    rewrite Hidx. unfold index. rewrite Hlk. cbn [obind]. fold (replacement mod_ flow). by rewrite decide_True. }
  destruct Hn as (_ & _ & Hdr & _ & _ & _ & _ & Hs'). destruct Hr as (dr & Hdr0 & Htwo).
  pose proof (flowAdd_run mod_ ld' groups s' Hs' (ex_intro _ dr (conj (eq_trans Hdr Hdr0) Htwo)) Hdm Hok Hg' Hg) as Hrun.
  rewrite Hf' in Hrun. cbn [default] in Hrun. by rewrite Hnone in Hrun.
Qed.

(** with the CHECK_OVERLAP flag a flow that is already in the table is added
    a second time: no overlap is ever found, so whatever the table holds, a
    successful addition appends the flow, and the keys are no longer distinct. *)
Theorem check_overlap_duplicates mod_ ld groups s s' :
  holds ld s → routes_ready s → (∀ id, dm_GetDevice id ≠ Panic) → flow_ok (entry mod_) →
  ld_FlowGroups ld = Some groups → Forall (λ g, is_Some (ge_Desc g)) groups →
  has_flag (fm_Flags mod_) OFPFF_CHECK_OVERLAP = true →
  flow_key (entry mod_) ∈ flow_key <$> default [] (ld_Flows ld) →
  flowAdd mod_ s = (Ok tt, s') →
  ∃ ld', holds ld' s' ∧ ld_Flows ld' = Some (default [] (ld_Flows ld) ++ [entry mod_]) ∧
    ¬ NoDup (flow_key <$> default [] (ld_Flows ld')).
Proof.
  intros Hs Hr Hdm Hok Hgr Hg Ho Hin Hadd1.
  pose proof (flowAdd_run mod_ ld groups s Hs Hr Hdm Hok Hgr Hg) as Hrun.
  unfold flow_to_add in Hrun. rewrite Ho in Hrun. cbn [FindOverlappingFlows] in Hrun.
  destruct Hrun as (r & s1 & reqs & Hrun & Hcases). rewrite Hadd1 in Hrun. injection Hrun as <- <-.
  destruct Hcases as [(_ & _ & Hn)|[([e ?] & _)|([e ?] & _)]]; [|done..].
  eexists. split; [apply Hn|].
  assert (∀ ld1 flow, ld_Flows (counted mod_ flow ld1) = ld_Flows ld1) as Hc.
  { intros ld1 flow. unfold counted. by destruct (updateFlowCountOfMeterStats _ _ _) as [[] ?]. }
  rewrite Hc. split; [done|]. cbn. rewrite fmap_app. intros (_ & Hnd & _)%NoDup_app.
  apply (Hnd _ Hin). by apply list_elem_of_singleton.
Qed.

Lemma flowDelete_run mod_ ld s :
  usable ld s →
  let flows := default [] (ld_Flows ld) in
  let groups := default [] (ld_FlowGroups ld) in
  let del := List.filter (to_delete mod_) flows in
  let keep := List.filter (λ f, negb (to_delete mod_ f)) flows in
  del = [] ∧ flowDelete mod_ s = (Ok tt, s) ∨
  ∃ r s' reqs, flowDelete mod_ s = (r, s') ∧ del ≠ [] ∧
    (r = Ok tt ∧ rules_sent delete_call (default [] (ld_Meters ld)) groups del s reqs ∧
       now s (set_ld_Flows (Some keep) ld) (lda_sent s ++ reqs) s' ∨
     (∃ e, r = Err e) ∧ now s ld (lda_sent s ++ reqs) s').
Proof.
  intros (Hs & Hr & Hdm & (groups & Hgr & Hg) & Hok) flows groups' del keep. subst groups'.
  unfold flowDelete. rewrite (sbind_run _ _ _ _ _ (getLogicalDevice_run ld s Hs)). fold flows. fold del. fold keep.
  destruct (decide (0 < length del)%nat) as [Hlen|Hlen].
  2: { left. split; [by destruct del; [|simpl in Hlen; lia] | done]. }
  right. assert (del ≠ []) as Hne by (by destruct del; [simpl in Hlen; lia|]).
  destruct (GetMeterConfig del (default [] (ld_Meters ld))) as [md|e|] eqn:Hmd.
  2: { eexists _, s, []. split; [reflexivity|]. split; [done|]. right. rewrite app_nil_r. split; [eauto | by apply now_refl]. }
  2: { by destruct (GetMeterConfig_no_panic del (default [] (ld_Meters ld))). }
  rewrite (sbind_run (lift (Ok md)) _ s md s) //.
  rewrite Hgr. change (default [] (Some groups)) with groups.
  destruct (send_run ld s del groups deleteDeviceFlowsAndGroups delete_call "flow-delete-failed"
    (updateLogicalDeviceFlowsWithoutLock keep) md)
    as [(reqs & Hsent & ->)|(e & reqs & ->)]; [done | done | done | done | | done | done | |].
  { apply Forall_forall. intros f [Hf _]%list_elem_of_In%filter_In. apply list_elem_of_In in Hf.
    by eapply (proj1 (Forall_forall _ _) Hok). }
  2: { exists (Err e), (set_lda_sent (lda_sent s ++ reqs) s), reqs. split; [done|]. split; [done|]. right. by split; [eauto | apply now_sent]. }
  pose proof (now_sent s ld reqs Hs) as Hn1. set (s1 := set_lda_sent _ s) in *.
  destruct (updateFlows_run ld keep s1) as (r2 & s2 & -> & Hn2); [apply Hn1|].
  exists r2, s2, reqs. split; [done|]. split; [done|].
  destruct Hn2 as [[-> Hn2]|[[e ->] Hn2]]; [left | right].
  - split_and!; [done | done |]. eapply now_trans; [exact Hn1 | exact Hn2].
  - split; [eauto|]. eapply now_trans; [exact Hn1 | exact Hn2].
Qed.

(** C18: [flowDelete] removes exactly the matching flows, all or none.  On
    success the flows that remain are those, in their order, that neither have
    the key of the message nor match it with its wildcards, the rules of the
    removed flows were sent, and every device accepted the deletion in time; the
    meters are untouched.  After an error the logical device is as before. *)
Theorem flow_delete_correct mod_ ld s :
  usable ld s →
  let flows := default [] (ld_Flows ld) in
  match flowDelete mod_ s with
  | (Ok _, s') => ∃ keep del reqs ld', flows ≡ₚ keep ++ del ∧ keep `sublist_of` flows ∧
      (∀ f, f ∈ flows → f ∈ keep ↔ flow_key f ≠ flow_key (entry mod_) ∧ FlowMatchesMod f mod_ = false) ∧
      (del = [] ∧ reqs = [] ∨
       rules_sent delete_call (default [] (ld_Meters ld)) (default [] (ld_FlowGroups ld)) del s reqs) ∧
      now s ld' (lda_sent s ++ reqs) s' ∧ default [] (ld_Flows ld') = keep ∧
      set_ld_Flows (ld_Flows ld) ld' = ld
  | (Err _, s') => ∃ reqs, now s ld (lda_sent s ++ reqs) s'
  | (Panic, _) => False
  end.
Proof.
  intros Hu flows. pose proof (flowDelete_run mod_ ld s Hu) as Hrun. cbv zeta in Hrun. fold flows in Hrun.
  set (del := List.filter (to_delete mod_) flows) in *. set (keep := List.filter (λ f, negb (to_delete mod_ f)) flows) in *.
  assert (flows ≡ₚ keep ++ del) as Hperm.
  { unfold keep, del. clear. induction flows as [|f flows IH]; [done|]. cbn [List.filter].
    destruct (to_delete mod_ f); cbn [negb app]; [by rewrite -Permutation_middle -IH | by rewrite -IH]. }
  assert (keep `sublist_of` flows) as Hsub.
  { unfold keep. clear. induction flows as [|f flows IH]; [constructor|]. cbn [List.filter].
    destruct (negb _); by constructor. }
  assert (∀ f, f ∈ flows → f ∈ keep ↔ flow_key f ≠ flow_key (entry mod_) ∧ FlowMatchesMod f mod_ = false) as Hin.
  { intros f Hf. unfold keep. rewrite list_elem_of_In filter_In -list_elem_of_In negb_true_iff. unfold to_delete.
    rewrite orb_false_iff FlowMatch_false. tauto. }
  destruct Hrun as [[Hdel ->]|(r & s' & reqs & -> & _ & [(-> & Hsent & Hn)|[[e ->] Hn]])].
  - exists keep, del, [], ld. rewrite app_nil_r. split_and!; try done; [by left | by apply now_refl, Hu | | by destruct ld].
    unfold keep, del in *. clear -Hdel. fold flows. induction flows as [|f flows IH]; [done|]. cbn [List.filter] in *.
    destruct (to_delete mod_ f); [done|]. cbn [negb]. by rewrite -IH.
  - exists keep, del, reqs, (set_ld_Flows (Some keep) ld). split_and!; try done; [by right | by destruct ld].
  - by exists reqs.
Qed.

Lemma counted_meters mod_ f ld :
  default [] (ld_Meters (counted mod_ f ld)) = (updateFlowCountOfMeterStats mod_ (default [] (ld_Meters ld)) f).2.
Proof.
  unfold counted, updateFlowCountOfMeterStats, meters_to_update.
  destruct (GetMeterIdFromFlow f =? 0); [done|].
  destruct (count_flow _ _ _) as [[] ms] eqn:Hc; cbn [fst snd].
  - apply count_flow_true in Hc as (pre & x & post & Hms & _). destruct (ld_Meters ld); [done|]. by destruct pre.
  - by apply count_flow_false in Hc as ->.
Qed.

Lemma counted_other mod_ f ld :
  ld_Flows (counted mod_ f ld) = ld_Flows ld ∧ ld_FlowGroups (counted mod_ f ld) = ld_FlowGroups ld ∧
  ld_Ports (counted mod_ f ld) = ld_Ports ld.
Proof. unfold counted. by destruct (updateFlowCountOfMeterStats _ _ _) as [[] ?]. Qed.

Lemma counted_run mod_ f ld s :
  holds ld s →
  ∃ r s', (let '(changedMeter, meters) := updateFlowCountOfMeterStats mod_ (default [] (ld_Meters ld)) f in
           if changedMeter : bool then updateLogicalDeviceMetersWithoutLock (meters_to_update ld meters)
           else ret tt) s = (r, s') ∧
    (r = Ok tt ∧ now s (counted mod_ f ld) (lda_sent s) s' ∨ (∃ e, r = Err e) ∧ now s ld (lda_sent s) s').
Proof.
  intros Hs. unfold counted. destruct (updateFlowCountOfMeterStats _ _ _) as [[] ms]; cbn [fst snd].
  - by apply updateMeters_run.
  - exists (Ok tt), s. split; [done|]. left. by split; [|apply now_refl].
Qed.

Lemma flowDeleteStrict_run mod_ ld s :
  usable ld s →
  let flows := default [] (ld_Flows ld) in
  match FindFlows flows (entry mod_) with
  | None => ∃ e, flowDeleteStrict mod_ s = (Err e, s)
  | Some idx => ∃ found r s' reqs, flows !! idx = Some found ∧ flowDeleteStrict mod_ s = (r, s') ∧
      let ld1 := counted mod_ found ld in
      ((∃ e, r = Err e) ∧ reqs = [] ∧ now s ld (lda_sent s) s' ∨
       (∃ e, r = Err e) ∧ now s ld1 (lda_sent s ++ reqs) s' ∨
       r = Ok tt ∧ (∃ s1, now s ld1 (lda_sent s) s1 ∧
         rules_sent delete_call (default [] (ld_Meters ld1)) (default [] (ld_FlowGroups ld)) [found] s1 reqs) ∧
       now s (set_ld_Flows (Some (delete_at idx flows)) ld1) (lda_sent s ++ reqs) s')
  end.
Proof.
  intros (Hs & Hr & Hdm & (groups & Hgr & Hg) & Hok) flows.
  unfold flowDeleteStrict. rewrite (sbind_run _ _ _ _ _ (getLogicalDevice_run ld s Hs)). fold flows.
  destruct (FindFlows flows (entry mod_)) as [idx|] eqn:Hf; [|by eexists].
  destruct (FindFlows_Some _ _ _ Hf) as (found & Hlk & _). exists found. unfold index. rewrite Hlk.
  rewrite (sbind_run (lift (Ok found)) _ s found s) //. rewrite Hgr. change (default [] (Some groups)) with groups.
  destruct (counted_run mod_ found ld s Hs) as (r1 & s1 & Hrun1 & Hn1). rewrite counted_meters.
  destruct (updateFlowCountOfMeterStats mod_ _ found) as [cm ms] eqn:Hc. cbn [snd].
  destruct Hn1 as [[-> Hn1]|[[e ->] Hn1]].
  2: { rewrite (sbind_err _ _ _ _ _ Hrun1). eexists _, s1, []. split; [done|]. split; [reflexivity|]. left. split_and!; [eauto | done..]. }
  rewrite (sbind_run _ _ _ _ _ Hrun1).
  assert (ms = default [] (ld_Meters (counted mod_ found ld))) as Hms by by rewrite counted_meters Hc.
  assert (holds (counted mod_ found ld) s1) as Hs1 by apply Hn1.
  assert (routes_ready s1) as Hr1.
  { destruct Hr as (dr & Hdr & Htwo). exists dr. split; [|done]. destruct Hn1 as (_ & _ & -> & _). done. }
  assert (lda_sent s1 = lda_sent s) as Hsent1 by apply Hn1.
  rewrite Hms. destruct (GetMeterConfig [found] _) as [md|e|] eqn:Hmd.
  2: { eexists _, s1, []. split; [done|]. split; [reflexivity|]. right; left. rewrite app_nil_r. split; [eauto | done]. }
  2: { by destruct (GetMeterConfig_no_panic [found] (default [] (ld_Meters (counted mod_ found ld)))). }
  rewrite (sbind_run (lift (Ok md)) _ s1 md s1) //.
  destruct (send_run (counted mod_ found ld) s1 [found] groups deleteDeviceFlowsAndGroups delete_call "flow-delete-failed"
    (updateLogicalDeviceFlowsWithoutLock (delete_at idx flows)) md)
    as [(reqs & Hsent & ->)|(e & reqs & ->)]; [done | done | done | done | | done | done | |].
  { apply Forall_singleton. eapply (proj1 (Forall_forall _ _) Hok). by eapply list_elem_of_lookup_2. }
  2: { eexists _, _, reqs. split; [done|]. split; [reflexivity|]. right; left. split; [eauto|].
       rewrite -Hsent1. eapply now_trans; [exact Hn1 | by apply now_sent]. }
  pose proof (now_sent s1 (counted mod_ found ld) reqs Hs1) as Hn2. set (s2 := set_lda_sent _ s1) in *.
  destruct (updateFlows_run (counted mod_ found ld) (delete_at idx flows) s2) as (r3 & s3 & -> & Hn3); [apply Hn2|].
  exists r3, s3, reqs. split; [done|]. split; [done|]. right. rewrite -Hsent1.
  destruct Hn3 as [[-> Hn3]|[[e ->] Hn3]]; [right | left].
  - split_and!; [done | exists s1; split; [by rewrite Hsent1 | done] |].
    eapply now_trans; [exact Hn1|]. eapply now_trans; [exact Hn2 | exact Hn3].
  - split; [eauto|]. eapply now_trans; [exact Hn1|]. eapply now_trans; [exact Hn2 | exact Hn3].
Qed.

(** [flowDeleteStrict] removes the first flow with the key of the message
    and counts it out of its meter.  A message without such a flow is an error
    that changes nothing.  After any other error the flow is still there; but
    once a request was sent to a device, the meter has been stored with the flow
    counted out, although the flow remains. *)
Theorem flow_delete_strict_correct mod_ ld s :
  usable ld s →
  let flows := default [] (ld_Flows ld) in
  match flowDeleteStrict mod_ s with
  | (Ok _, s') => ∃ pre f post reqs, flows = pre ++ f :: post ∧ flow_key f = flow_key (entry mod_) ∧
      flow_key f ∉ flow_key <$> pre ∧
      (∃ s1, now s (counted mod_ f ld) (lda_sent s) s1 ∧
         rules_sent delete_call (default [] (ld_Meters (counted mod_ f ld))) (default [] (ld_FlowGroups ld)) [f] s1 reqs) ∧
      now s (set_ld_Flows (Some (pre ++ post)) (counted mod_ f ld)) (lda_sent s ++ reqs) s'
  | (Err _, s') =>
      flow_key (entry mod_) ∉ flow_key <$> flows ∧ s' = s ∨
      ∃ f reqs, f ∈ flows ∧ flow_key f = flow_key (entry mod_) ∧
        (reqs = [] ∧ now s ld (lda_sent s) s' ∨ now s (counted mod_ f ld) (lda_sent s ++ reqs) s')
  | (Panic, _) => False
  end.
Proof.
  intros Hu flows. pose proof (flowDeleteStrict_run mod_ ld s Hu) as Hrun. cbv zeta in Hrun. fold flows in Hrun.
  destruct (FindFlows flows (entry mod_)) as [idx|] eqn:Hf.
  2: { destruct Hrun as [e ->]. left. by apply FindFlows_None in Hf. }
  apply FindFlows_split in Hf as (pre & f & post & Hfl & <- & Hk & Hpre).
  rewrite Hfl list_lookup_middle // in Hrun. destruct Hrun as (f' & r & s' & reqs & [= <-] & -> & Hcases).
  assert (f ∈ flows) by (rewrite Hfl; set_solver).
  destruct Hcases as [([e ->] & -> & Hn)|[([e ->] & Hn)|(-> & Hs1 & Hn)]].
  - right. exists f, []. split_and!; [done | done |]. by left.
  - right. exists f, reqs. split_and!; [done | done |]. by right.
  - exists pre, f, post, reqs. rewrite Hk. split_and!; try done.
    by rewrite delete_at_app in Hn.
Qed.

Definition with_Command (c : Z) (m : OfpFlowMod) : OfpFlowMod :=
  mkFlowMod (fm_Cookie m) (fm_CookieMask m) (fm_TableId m) c (fm_IdleTimeout m) (fm_HardTimeout m)
    (fm_Priority m) (fm_BufferId m) (fm_OutPort m) (fm_OutGroup m) (fm_Flags m) (fm_Match m) (fm_Instructions m).

(** C32: deleting a flow undoes its addition: when the flow is new, a successful
    addition followed by a successful strict deletion of the same message gives
    back the flow table and the meters with their counters, and leaves the
    groups and ports alone. *)
Theorem flow_add_strict_delete_roundtrip mod_ ld s s1 s2 :
  usable ld s → flow_ok (entry mod_) → fm_Command mod_ = OFPFC_ADD →
  flow_key (entry mod_) ∉ flow_key <$> default [] (ld_Flows ld) →
  Forall (λ x, 0 ≤ ms_FlowCount (me_Stats x) < 2 ^ 32) (default [] (ld_Meters ld)) →
  flowAdd mod_ s = (Ok tt, s1) → flowDeleteStrict (with_Command OFPFC_DELETE_STRICT mod_) s1 = (Ok tt, s2) →
  ∃ ld2, holds ld2 s2 ∧ default [] (ld_Flows ld2) = default [] (ld_Flows ld) ∧
    default [] (ld_Meters ld2) = default [] (ld_Meters ld) ∧
    ld_FlowGroups ld2 = ld_FlowGroups ld ∧ ld_Ports ld2 = ld_Ports ld.
Proof.
  intros Hu Hok Hcmd Hfresh Hcounts Hadd Hdel.
  pose proof Hu as (Hs & Hr & Hdm & (groups & Hgr & Hg) & Hfl). set (flows := default [] (ld_Flows ld)) in *.
  pose proof (flowAdd_run mod_ ld groups s Hs Hr Hdm Hok Hgr Hg) as Hrun. fold flows in Hrun.
  pose proof (flow_to_add_spec flows mod_) as Hspec.
  assert (flow_to_add flows mod_ = Ok (Some (entry mod_, flows ++ [entry mod_], false))) as Hfta.
  { unfold flow_to_add. apply FindFlows_None in Hfresh. rewrite Hfresh. by destruct (has_flag (fm_Flags mod_) OFPFF_CHECK_OVERLAP). }
  rewrite Hfta in Hrun. destruct Hrun as (r & s' & reqs & Hrun & Hcases). rewrite Hadd in Hrun. injection Hrun as <- <-.
  destruct Hcases as [(_ & _ & Hn)|[([e ?] & _)|([e ?] & _)]]; [|done..].
  set (ld0 := set_ld_Flows (Some (flows ++ [entry mod_])) ld) in *. set (ld1 := counted mod_ (entry mod_) ld0) in *.
  destruct (counted_other mod_ (entry mod_) ld0) as (Hf1 & Hg1 & Hp1). fold ld1 in Hf1, Hg1, Hp1.
  assert (usable ld1 s1) as Hu1.
  { destruct Hr as (dr & Hdr & Htwo). destruct Hn as (_ & _ & Hdr1 & _ & _ & _ & _ & Hh).
    split_and!; [done | exists dr; split; [by rewrite Hdr1 | done] | done | exists groups; by rewrite Hg1 |].
    rewrite Hf1. apply Forall_app. split; [done|]. by apply (entry_ok mod_ (entry mod_)). }
  pose proof (flowDeleteStrict_run (with_Command OFPFC_DELETE_STRICT mod_) ld1 s1 Hu1) as Hrun. cbv zeta in Hrun.
  rewrite Hf1 in Hrun. cbn [ld0 set_ld_Flows ld_Flows default] in Hrun.
  change (entry (with_Command OFPFC_DELETE_STRICT mod_)) with (entry mod_) in Hrun.
  change (from_option id [] (Some (flows ++ [entry mod_]))) with (flows ++ [entry mod_]) in Hrun.
  assert (FindFlows (flows ++ [entry mod_]) (entry mod_) = Some (length flows)) as Hidx.
  { apply find_index_Some. exists (entry mod_). rewrite list_lookup_middle //. split_and!; [done | apply FlowMatch_refl |].
    intros j y Hj Hy. rewrite lookup_app_l in Hy; last done. apply FlowMatch_false. intros Heq. apply Hfresh.
    apply list_elem_of_fmap. exists y. split; [done | by eapply list_elem_of_lookup_2]. }
  rewrite Hidx list_lookup_middle // in Hrun. destruct Hrun as (f & r & s' & reqs' & [= <-] & Hrun & Hcases).
  rewrite Hdel in Hrun. injection Hrun as <- <-.
  destruct Hcases as [([e ?] & _)|[([e ?] & _)|(_ & _ & Hn2)]]; [done..|].
  eexists. split; [apply Hn2|].
  destruct (counted_other (with_Command OFPFC_DELETE_STRICT mod_) (entry mod_) ld1) as (Hf2 & Hg2 & Hp2).
  cbn [set_ld_Flows ld_Flows ld_FlowGroups ld_Ports ld_Meters]. rewrite Hg2 Hp2 Hg1 Hp1. split_and!; [| |done..].
  - change (delete_at (length flows) (flows ++ [entry mod_]) = flows). by rewrite delete_at_app app_nil_r.
  - rewrite counted_meters. unfold ld1. rewrite counted_meters. change (ld_Meters ld0) with (ld_Meters ld).
    unfold updateFlowCountOfMeterStats. destruct (GetMeterIdFromFlow (entry mod_) =? 0); [done|]. rewrite Hcmd.
    by apply count_flow_roundtrip.
Qed.

End FlowMods.

(** ** Meters and groups *)

Section MeterGroupMods.
Context {Store : Type} `{DataProxy LogicalDevice Store, GoRange, DeviceManagerView, DeviceManagerCalls, ProtoText}.
Context `{!DataProxyLaws LogicalDevice Store}.
Implicit Types (s : @LogicalState Store) (ld : LogicalDevice).

(** The flow refers to the meter. *)
Definition uses_meter (meterID : Z) (f : OfpFlowStats) : bool :=
  negb (GetMeterIdFromFlow f =? 0) && (GetMeterIdFromFlow f =? meterID).

(** The backward loop computes a filter. *)
Lemma delete_by_meter_spec meterID changed l1 l2 :
  delete_by_meter meterID (length l1) changed (l1 ++ l2) =
  Ok (changed || existsb (uses_meter meterID) l1, List.filter (λ f, negb (uses_meter meterID f)) l1 ++ l2).
Proof.
  revert changed l2. induction l1 as [|f l1 IH] using rev_ind; intros changed l2.
  { by rewrite orb_false_r. }
  rewrite length_app Nat.add_comm. cbn [length Nat.add delete_by_meter].
  rewrite -app_assoc. unfold index. rewrite list_lookup_middle //. cbn [obind]. fold (uses_meter meterID f).
  rewrite existsb_app List.filter_app. cbn [existsb List.filter]. rewrite orb_false_r.
  destruct (uses_meter meterID f); cbn [negb].
  - change ([f] ++ l2) with (f :: l2). rewrite delete_at_app IH app_nil_r !orb_true_r. done.
  - rewrite IH orb_false_r -app_assoc. done.
Qed.

Lemma getUpdatedFlows_spec flows meterID :
  getUpdatedFlowsAfterDeletebyMeterID flows meterID =
  Ok (existsb (uses_meter meterID) flows, List.filter (λ f, negb (uses_meter meterID f)) flows).
Proof.
  unfold getUpdatedFlowsAfterDeletebyMeterID. pose proof (delete_by_meter_spec meterID false flows []) as Hd.
  by rewrite !app_nil_r in Hd.
Qed.

Lemma filter_unchanged {A} (p : A → bool) l : existsb p l = false → List.filter (λ x, negb (p x)) l = l.
Proof.
  induction l as [|x l IH]; [done|]. cbn. intros [Hx Hl]%orb_false_iff. rewrite Hx. cbn. by rewrite IH.
Qed.

(** [meterDelete] removes the first meter with the id together with exactly
    the flows that use it, and sends nothing to the devices: they keep the flows
    the logical device has forgotten.  An unknown meter changes nothing.  When the
    flows cannot be stored the meter is gone and its flows are still there. *)
Theorem meter_delete_correct (mm : OfpMeterMod) ld flows s :
  holds ld s → ld_Flows ld = Some flows →
  let meters := default [] (ld_Meters ld) in
  match meterDelete mm s with
  | (Ok _, s') =>
      mm_MeterId mm ∉ meter_id <$> meters ∧ s' = s ∨
      ∃ pre m post, meters = pre ++ m :: post ∧ meter_id m = mm_MeterId mm ∧ mm_MeterId mm ∉ meter_id <$> pre ∧
        now s (set_ld_Flows (Some (List.filter (λ f, negb (uses_meter (mm_MeterId mm) f)) flows))
                 (set_ld_Meters (Some (pre ++ post)) ld)) (lda_sent s) s'
  | (Err _, s') => now s ld (lda_sent s) s' ∨
      ∃ pre m post, meters = pre ++ m :: post ∧ meter_id m = mm_MeterId mm ∧
        now s (set_ld_Meters (Some (pre ++ post)) ld) (lda_sent s) s'
  | (Panic, _) => False
  end.
Proof.
  intros Hs Hfl meters. unfold meterDelete. rewrite (sbind_run _ _ _ _ _ (getLogicalDevice_run ld s Hs)). fold meters.
  destruct (find_index (λ meter, mm_MeterId mm =? meter_id meter) meters) as [i|] eqn:Hi.
  2: { left. split; [|done]. rewrite find_index_None in Hi. intros (m & Heq & Hm)%list_elem_of_fmap.
       specialize (Hi m Hm). apply Z.eqb_neq in Hi. congruence. }
  apply find_index_split in Hi as (pre & m & post & Hms & <- & Hm%Z.eqb_eq & Hpre).
  assert (mm_MeterId mm ∉ meter_id <$> pre) as Hnot.
  { intros (y & Heq & Hy)%list_elem_of_fmap. specialize (Hpre y Hy). apply Z.eqb_neq in Hpre. congruence. }
  rewrite Hfl. rewrite (sbind_run (lift _) _ s flows s) //. rewrite getUpdatedFlows_spec.
  erewrite (sbind_run (lift _)); last done. cbv beta iota.
  assert (meters_to_update ld (delete_at (length pre) meters) = pre ++ post) as ->.
  { unfold meters_to_update, meters in *. destruct (ld_Meters ld) as [ms|]; [|by destruct pre]. cbn in Hms. subst ms.
    apply delete_at_app. }
  destruct (updateMeters_run ld (pre ++ post) s Hs) as (r1 & s1 & Hu1 & [[-> Hn1]|[[e ->] Hn1]]).
  2: { rewrite (sbind_err _ _ _ _ _ Hu1). by left. }
  rewrite (sbind_run _ _ _ _ _ Hu1). destruct (existsb (uses_meter (mm_MeterId mm)) flows) eqn:Hex.
  - set (fl := List.filter _ flows).
    destruct (updateFlows_run _ fl s1 ltac:(apply Hn1)) as (r2 & s2 & -> & [[-> Hn2]|[[e ->] Hn2]]);
      assert (lda_sent s1 = lda_sent s) as Hsent by apply Hn1; rewrite Hsent in Hn2.
    + right. exists pre, m, post. split_and!; [done..|]. eapply now_trans; [exact Hn1 | exact Hn2].
    + right. exists pre, m, post. split_and!; [done..|]. eapply now_trans; [exact Hn1 | exact Hn2].
  - right. exists pre, m, post. split_and!; [done..|]. rewrite filter_unchanged //.
    assert (set_ld_Flows (Some flows) (set_ld_Meters (Some (pre ++ post)) ld) = set_ld_Meters (Some (pre ++ post)) ld) as ->.
    { destruct ld. cbn in *. by rewrite Hfl. }
    done.
Qed.

(** The groups after [groupDelete], the flows, and whether flows were removed. *)
Definition groups_deleted (groupID : Z) (groups : list OfpGroupEntry) (flows : list OfpFlowStats)
    (groups' : list OfpGroupEntry) (flows' : list OfpFlowStats) : Prop :=
  if decide (groupID = OFPG_ALL) then groups' = [] ∧ flows' = flows
  else ∃ pre g d post, groups = pre ++ g :: post ∧ groups' = pre ++ post ∧ ge_Desc g = Some d ∧ gd_GroupId d = groupID ∧
    flows' = List.filter (λ f, negb (FlowHasOutGroup f groupID)) flows.

Lemma FindGroup_spec groups groupID :
  Forall (λ g, is_Some (ge_Desc g)) groups →
  match FindGroup groups groupID with
  | Ok (Some i) => ∃ pre g d post, groups = pre ++ g :: post ∧ length pre = i ∧ ge_Desc g = Some d ∧
      gd_GroupId d = groupID ∧ Forall (λ g, gd_GroupId <$> ge_Desc g ≠ Some groupID) pre
  | Ok None => Forall (λ g, gd_GroupId <$> ge_Desc g ≠ Some groupID) groups
  | _ => False
  end.
Proof.
  induction 1 as [|g groups [d Hd] _ IH]; cbn [FindGroup]; [done|]. rewrite Hd. cbn [deref obind].
  case_decide as Hid; [by exists [], g, d, groups|].
  destruct (FindGroup groups groupID) as [[i|]|e|]; cbn [obind fmap option_fmap option_map]; [| |done..].
  - destruct IH as (pre & g' & d' & post & -> & <- & ? & ? & ?). exists (g :: pre), g', d', post.
    split_and!; [done..|]. apply Forall_cons. split; [|done]. rewrite Hd. cbn. congruence.
  - apply Forall_cons. split; [|done]. rewrite Hd. cbn. congruence.
Qed.

Lemma filter_length {A} (p : A → bool) l : (length (List.filter p l) ≤ length l)%nat.
Proof. induction l as [|x l IH]; [done|]. cbn. destruct (p x); cbn; lia. Qed.

Lemma filter_full {A} (p : A → bool) l : length (List.filter p l) = length l → List.filter p l = l.
Proof.
  induction l as [|x l IH]; [done|]. cbn. destruct (p x); cbn; intros Hl; [f_equal; apply IH; lia|].
  pose proof (filter_length p l). lia.
Qed.

Lemma group_to_delete_spec groupID groups flows :
  Forall (λ g, is_Some (ge_Desc g)) groups →
  match group_to_delete groupID groups flows with
  | Ok (Some (groups', changed, flows')) => groups_deleted groupID groups flows groups' flows' ∧
      groups' `sublist_of` groups ∧ flows' `sublist_of` flows ∧ (changed = false → flows' = flows)
  | Ok None => groupID ≠ OFPG_ALL ∧ Forall (λ g, gd_GroupId <$> ge_Desc g ≠ Some groupID) groups
  | _ => False
  end.
Proof.
  intros Hg. unfold group_to_delete, groups_deleted. case_decide as Hall.
  { split_and!; [done.. | apply sublist_nil_l | done | done]. }
  pose proof (FindGroup_spec groups groupID Hg) as Hf. destruct (FindGroup groups groupID) as [[i|]|e|]; [| |done..]; [|done].
  destruct Hf as (pre & g & d & post & -> & <- & Hd & Hid & _). cbn [obind]. unfold FlowsDeleteByGroupId.
  rewrite delete_at_app.
  split_and!.
  - by exists pre, g, d, post.
  - apply sublist_app; [done|]. by apply sublist_cons.
  - clear. induction flows as [|f flows IH]; [constructor|]. cbn. destruct (negb _); by constructor.
  - intros Hc%bool_decide_eq_false. apply filter_full.
    pose proof (filter_length (λ f, negb (FlowHasOutGroup f groupID)) flows). lia.
Qed.

Definition update_call (md : option FlowMetadata) id fl gs := CallUpdateFlows id fl gs md.

(** [groupDelete] removes the group and exactly the flows that output to it,
    after every device of the remaining flows accepted the rules of the whole
    remaining flow table; deleting all the groups keeps every flow, also those
    that output to the groups.  An unknown group changes nothing.  After an error
    the flows are as before, and the groups are too unless the flows could not be
    stored after them. *)
Theorem group_delete_correct (gm : OfpGroupMod) ld groups flows s :
  usable ld s → ld_FlowGroups ld = Some groups → ld_Flows ld = Some flows →
  let id := gm_GroupId gm in
  match groupDelete gm s with
  | (Ok _, s') =>
      id ≠ OFPG_ALL ∧ Forall (λ g, gd_GroupId <$> ge_Desc g ≠ Some id) groups ∧ s' = s ∨
      ∃ groups' flows' rules reqs, groups_deleted id groups flows groups' flows' ∧
        @DecomposeRules _ _ (agent_view s) _ flows' groups' = Ok rules ∧
        reqs = device_calls (update_call None) rules ∧ accepted (lda_defaultTimeout s) (lda_sent s) reqs ∧
        now s (set_ld_Flows (Some flows') (set_ld_FlowGroups (Some groups') ld)) (lda_sent s ++ reqs) s'
  | (Err _, s') => ∃ reqs, now s ld (lda_sent s ++ reqs) s' ∨
      ∃ groups' flows', groups_deleted id groups flows groups' flows' ∧
        now s (set_ld_FlowGroups (Some groups') ld) (lda_sent s ++ reqs) s'
  | (Panic, _) => False
  end.
Proof.
  intros (Hs & Hr & Hdm & (groups0 & Hgr0 & Hg) & Hok) Hgr Hfl id. rewrite Hgr in Hgr0. injection Hgr0 as <-.
  rewrite Hfl in Hok. change (flows_ok flows) in Hok.
  unfold groupDelete. rewrite (sbind_run _ _ _ _ _ (getLogicalDevice_run ld s Hs)) Hgr Hfl.
  rewrite (sbind_run (lift (deref (Some groups))) _ s groups s) // (sbind_run (lift (deref (Some flows))) _ s flows s) //.
  fold id. pose proof (group_to_delete_spec id groups flows Hg) as Hspec.
  destruct (group_to_delete id groups flows) as [[[[groups' changed] flows']|]|e|]; [| |done..].
  2: { left. by destruct Hspec. }
  destruct Hspec as (Hdel & Hsub & Hsubf & Hsame).
  rewrite (sbind_run (lift _) _ s (Some (groups', changed, flows')) s) //.
  destruct (decompose_run ld s flows' groups' Hr Hdm) as [(rules & Hrun & Hrules)|(e & Hrun)].
  { apply Forall_forall. intros f Hf. eapply (proj1 (Forall_forall _ _) Hok). by eapply elem_of_sublist. }
  { apply Forall_forall. intros g Hin. eapply (proj1 (Forall_forall _ _) Hg). by eapply elem_of_sublist. }
  2: { rewrite (sbind_err _ _ _ _ _ Hrun). exists []. left. rewrite app_nil_r. by apply now_refl. }
  rewrite (sbind_run _ _ _ _ _ Hrun). set (reqs := device_calls (update_call None) rules).
  destruct (send_rules_run (update_call None) "flow-update-failed" rules s) as (r & Hsend & Hacc). fold reqs in Hsend, Hacc.
  change (updateDeviceFlowsAndGroups rules None) with (send_rules (Store := Store) (update_call None) "flow-update-failed" rules).
  destruct Hacc as [[-> Hacc]|[e ->]].
  2: { rewrite (sbind_err _ _ _ _ _ Hsend). exists reqs. left. by apply now_sent. }
  rewrite (sbind_run _ _ _ _ _ Hsend). pose proof (now_sent s ld reqs Hs) as Hn1. set (s1 := set_lda_sent _ s) in *.
  destruct (updateGroups_run ld groups' s1) as (r2 & s2 & Hu2 & [[-> Hn2]|[[e ->] Hn2]]); [apply Hn1 | |].
  2: { rewrite (sbind_err _ _ _ _ _ Hu2). exists reqs. left. eapply now_trans; [exact Hn1 | exact Hn2]. }
  rewrite (sbind_run _ _ _ _ _ Hu2).
  assert (now s (set_ld_FlowGroups (Some groups') ld) (lda_sent s ++ reqs) s2) as Hn by (eapply now_trans; [exact Hn1 | exact Hn2]).
  destruct changed.
  - destruct (updateFlows_run (set_ld_FlowGroups (Some groups') ld) flows' s2 ltac:(apply Hn)) as (r3 & s3 & -> & Hn3).
    assert (lda_sent s2 = lda_sent s ++ reqs) as Hsent by apply Hn. rewrite Hsent in Hn3.
    destruct Hn3 as [[-> Hn3]|[[e ->] Hn3]].
    + right. exists groups', flows', rules, reqs. split_and!; [done..|]. eapply now_trans; [exact Hn | exact Hn3].
    + exists reqs. right. exists groups', flows'. split; [done|]. eapply now_trans; [exact Hn | exact Hn3].
  - right. exists groups', flows', rules, reqs. split_and!; [done..|]. rewrite (Hsame eq_refl).
    assert (set_ld_Flows (Some flows) (set_ld_FlowGroups (Some groups') ld) = set_ld_FlowGroups (Some groups') ld) as ->; [|done].
    destruct ld. cbn in *. by rewrite Hfl.
Qed.

(** The rules of a group go to the root device alone. *)
Lemma group_rules_spec root gm :
  group_rules root gm = Ok {[root := mkFG [] [(gm_GroupId gm, GroupEntryFromGroupMod gm)]]}.
Proof.
  unfold group_rules, AddFlowsAndGroup, CreateEntryIfNotExist, NewDeviceRules. rewrite lookup_empty. cbn -[insert].
  by rewrite lookup_insert_eq insert_insert_eq.
Qed.

Lemma device_calls_singleton req root fg :
  device_calls req {[root := fg]} = [req root (fg_ListFlows fg) (fg_ListGroups fg)].
Proof.
  unfold device_calls. assert (go_range ({[root := fg]} : DeviceRules) = [(root, fg)]) as ->; [|done].
  apply Permutation_singleton_r. by rewrite go_range_perm map_to_list_singleton.
Qed.

(** Sending one group to the root device and storing the groups. *)
Lemma group_send_run (gm : OfpGroupMod) ld groups' s failed
    (req : string → list OfpFlowStats → list OfpGroupEntry → Request) :
  holds ld s →
  let reqs := [req (lda_rootDeviceID s) [] [GroupEntryFromGroupMod gm]] in
  ∃ r s', (let* deviceRules := lift (group_rules (lda_rootDeviceID s) gm) in
           let* _ := send_rules req failed deviceRules in
           updateLogicalDeviceFlowGroupsWithoutLock groups') s = (r, s') ∧
    (r = Ok tt ∧ accepted (lda_defaultTimeout s) (lda_sent s) reqs ∧
       now s (set_ld_FlowGroups (Some groups') ld) (lda_sent s ++ reqs) s' ∨
     (∃ e, r = Err e) ∧ now s ld (lda_sent s ++ reqs) s').
Proof.
  intros Hs reqs. rewrite group_rules_spec. erewrite (sbind_run (lift _)); last done.
  destruct (send_rules_run req failed {[lda_rootDeviceID s := mkFG [] [(gm_GroupId gm, GroupEntryFromGroupMod gm)]]} s)
    as (r & Hsend & Hacc). rewrite device_calls_singleton in Hsend, Hacc. fold reqs in Hsend, Hacc.
  change (req (lda_rootDeviceID s) _ _) with (req (lda_rootDeviceID s) [] [GroupEntryFromGroupMod gm]) in Hsend, Hacc.
  fold reqs in Hsend, Hacc. pose proof (now_sent s ld reqs Hs) as Hn1.
  destruct Hacc as [[-> Hacc]|[e ->]].
  2: { rewrite (sbind_err _ _ _ _ _ Hsend). eexists _, _. split; [done|]. right. by split; [eauto|]. }
  rewrite (sbind_run _ _ _ _ _ Hsend). set (s1 := set_lda_sent _ s) in *.
  destruct (updateGroups_run ld groups' s1 ltac:(apply Hn1)) as (r2 & s2 & -> & Hn2). exists r2, s2. split; [done|].
  destruct Hn2 as [[-> Hn2]|[[e ->] Hn2]]; [left | right].
  - split_and!; [done | done |]. eapply now_trans; [exact Hn1 | exact Hn2].
  - split; [eauto|]. eapply now_trans; [exact Hn1 | exact Hn2].
Qed.

(** adding and modifying groups.  [groupAdd] accepts only a new group number
    and appends the group; [groupModify] accepts only a known one and replaces
    the first group with it.  Both send exactly this group to the root device
    first and store it only when the device accepted it in time; after an error
    the logical device is as before. *)
Theorem group_add_modify_correct (gm : OfpGroupMod) ld groups s :
  holds ld s → ld_FlowGroups ld = Some groups → Forall (λ g, is_Some (ge_Desc g)) groups →
  let id := gm_GroupId gm in
  let g := GroupEntryFromGroupMod gm in
  let add := [CallAddFlows (lda_rootDeviceID s) [] [g] (Some [])] in
  let modify := [CallUpdateFlows (lda_rootDeviceID s) [] [g] (Some [])] in
  match groupAdd gm s with
  | (Ok _, s') => Forall (λ g, gd_GroupId <$> ge_Desc g ≠ Some id) groups ∧
      accepted (lda_defaultTimeout s) (lda_sent s) add ∧
      now s (set_ld_FlowGroups (Some (groups ++ [g])) ld) (lda_sent s ++ add) s'
  | (Err _, s') => now s ld (lda_sent s ++ add) s' ∨ Exists (λ g, gd_GroupId <$> ge_Desc g = Some id) groups ∧ s' = s
  | (Panic, _) => False
  end ∧
  match groupModify gm s with
  | (Ok _, s') => ∃ pre old post, groups = pre ++ old :: post ∧ gd_GroupId <$> ge_Desc old = Some id ∧
      Forall (λ g, gd_GroupId <$> ge_Desc g ≠ Some id) pre ∧
      accepted (lda_defaultTimeout s) (lda_sent s) modify ∧
      now s (set_ld_FlowGroups (Some (pre ++ g :: post)) ld) (lda_sent s ++ modify) s'
  | (Err _, s') => now s ld (lda_sent s ++ modify) s' ∨
      Forall (λ g, gd_GroupId <$> ge_Desc g ≠ Some id) groups ∧ s' = s
  | (Panic, _) => False
  end.
Proof.
  intros Hs Hgr Hg id g add modify. unfold groupAdd, groupModify.
  rewrite !(sbind_run get _ s s s) // !(sbind_run _ _ _ _ _ (getLogicalDevice_run ld s Hs)) Hgr.
  rewrite !(sbind_run (lift (deref (Some groups))) _ s groups s) //.
  fold id. pose proof (FindGroup_spec groups id Hg) as Hspec.
  destruct (FindGroup groups id) as [[i|]|e|]; [| |done..].
  - destruct Hspec as (pre & old & d & post & -> & <- & Hd & Hid & Hpre). split.
    + rewrite (sbind_run (lift _) _ s (Some (length pre)) s) //. right. split; [|done].
      apply Exists_app. right. apply Exists_cons. left. rewrite Hd. cbn. by rewrite Hid.
    + rewrite (sbind_run (lift _) _ s (Some (length pre)) s) //. fold g.
      rewrite insert_app_r_alt; last lia. rewrite Nat.sub_diag.
      destruct (group_send_run gm ld (pre ++ g :: post) s "flow-update-failed" (update_call (Some [])) Hs)
        as (r & s' & Hrun & Hcase).
      unfold updateDeviceFlowsAndGroups. unfold update_call in Hrun. cbn [list_insert insert] in Hrun |- *. rewrite Hrun.
      destruct Hcase as [(-> & Hacc & Hn)|[[e ->] Hn]]; [|by left].
      exists pre, old, post. split_and!; try done. rewrite Hd. cbn. by rewrite Hid.
  - split.
    + rewrite (sbind_run (lift _) _ s None s) //. fold g.
      destruct (group_send_run gm ld (groups ++ [g]) s "flow-add-failed" (add_call []) Hs) as (r & s' & Hrun & Hcase).
      unfold addDeviceFlowsAndGroups. unfold add_call in Hrun. rewrite Hrun.
      destruct Hcase as [(-> & Hacc & Hn)|[[e ->] Hn]]; [done | by left].
    + rewrite (sbind_run (lift _) _ s None s) //. by right.
Qed.

End MeterGroupMods.

(** ** The invariant of the logical device *)

Section Invariant.
Context {Store : Type} `{DataProxy LogicalDevice Store, GoRange, DeviceManagerView, DeviceManagerCalls, ProtoText}.
Context `{!DataProxyLaws LogicalDevice Store}.
Implicit Types (s : @LogicalState Store) (ld : LogicalDevice).

(** No two flows with the same key, meters with the same id, groups with the same
    number, or ports with the same name on the same device port; the number of a
    logical port is the one of its device port. *)
Definition flows_good ld : Prop := NoDup (flow_key <$> default [] (ld_Flows ld)).
Definition meters_good ld : Prop := NoDup (meter_id <$> default [] (ld_Meters ld)).
Definition groups_good ld : Prop :=
  Forall (λ g, is_Some (ge_Desc g)) (default [] (ld_FlowGroups ld)) ∧
  NoDup ((λ g, gd_GroupId <$> ge_Desc g) <$> default [] (ld_FlowGroups ld)).
Definition port_key (lp : LogicalPort) : string * Z * string := (lp_DeviceId lp, lp_DevicePortNo lp, lp_Id lp).
Definition ports_good (ports : list LogicalPort) : Prop :=
  NoDup (port_key <$> ports) ∧ Forall (λ lp, lp_PortNo lp = lp_DevicePortNo lp) ports.
Definition ld_good ld : Prop := flows_good ld ∧ meters_good ld ∧ groups_good ld ∧ ports_good (ld_Ports ld).

(** The cache and the data model agree on a good logical device, and the routes
    have two hops. *)
Definition agent_ok s : Prop :=
  (∃ ld, holds ld s ∧ ld_good ld) ∧ ∀ dr, lda_deviceRoutes s = Some dr → two_hops (dr_Routes dr).

Lemma agent_ok_frame s s' :
  lda_logicalDeviceID s' = lda_logicalDeviceID s → lda_deviceRoutes s' = lda_deviceRoutes s →
  lda_logicalDevice s' = lda_logicalDevice s → lda_store s' = lda_store s → agent_ok s → agent_ok s'.
Proof.
  intros Hid Hdr Hld Hst [(ld & [Hc Hget] & Hgood) Hr]. split; [|by rewrite Hdr].
  exists ld. split; [|done]. split; [by rewrite Hld | by rewrite Hid Hst].
Qed.

Lemma preserves_modify_frame f :
  (∀ s, lda_logicalDeviceID (f s) = lda_logicalDeviceID s ∧ lda_deviceRoutes (f s) = lda_deviceRoutes s ∧
        lda_logicalDevice (f s) = lda_logicalDevice s ∧ lda_store (f s) = lda_store s) →
  preserves agent_ok (modify f).
Proof. intros Hf. apply preserves_modify. intros s. destruct (Hf s) as (?&?&?&?). by apply agent_ok_frame. Qed.

(** What an operation reads from the logical device is good. *)
Lemma preserves_read {A} (k : LogicalDevice → M (@LogicalState Store) A) :
  (∀ ld, ld_good ld → preserves agent_ok (k ld)) → preserves agent_ok (sbind getLogicalDeviceWithoutLock k).
Proof.
  intros Hk s Hs. pose proof Hs as [(ld & Hh & Hgood) _]. rewrite (sbind_run _ _ _ _ _ (getLogicalDevice_run ld s Hh)).
  by apply Hk.
Qed.

Lemma preserves_update ld' : ld_good ld' → preserves agent_ok (updateLogicalDeviceWithoutLock ld').
Proof.
  intros Hgood s [(ld & Hh & Hgood0) Hr]. destruct (update_run ld ld' s Hh) as (r & s' & -> & Hcase).
  destruct Hcase as [[-> Hn]|[_ Hn]]; (split; [eexists; split; [apply Hn | done]|]);
    intros dr Hdr; apply Hr; destruct Hn as (_ & _ & <- & _); done.
Qed.

Lemma preserves_updateFlows fl : NoDup (flow_key <$> fl) → preserves agent_ok (updateLogicalDeviceFlowsWithoutLock fl).
Proof. intros Hfl. apply preserves_read. intros ld (_ & Hm & Hg & Hp). by apply preserves_update. Qed.
Lemma preserves_updateMeters ms : NoDup (meter_id <$> ms) → preserves agent_ok (updateLogicalDeviceMetersWithoutLock ms).
Proof. intros Hms. apply preserves_read. intros ld (Hf & _ & Hg & Hp). by apply preserves_update. Qed.
Lemma preserves_updateGroups gs :
  Forall (λ g, is_Some (ge_Desc g)) gs → NoDup ((λ g, gd_GroupId <$> ge_Desc g) <$> gs) →
  preserves agent_ok (updateLogicalDeviceFlowGroupsWithoutLock gs).
Proof. intros Hgs Hnd. apply preserves_read. intros ld (Hf & Hm & _ & Hp). by apply preserves_update. Qed.

Lemma preserves_send_rules req failed rules : preserves agent_ok (send_rules req failed rules).
Proof.
  intros s Hs. destruct (send_rules_run req failed rules s) as (r & -> & _). by eapply agent_ok_frame.
Qed.

Lemma preserves_addDevice rules md : preserves agent_ok (addDeviceFlowsAndGroups rules md).
Proof. apply preserves_send_rules. Qed.
Lemma preserves_deleteDevice rules md : preserves agent_ok (deleteDeviceFlowsAndGroups rules md).
Proof. apply preserves_send_rules. Qed.
Lemma preserves_updateDevice rules md : preserves agent_ok (updateDeviceFlowsAndGroups rules md).
Proof. apply preserves_send_rules. Qed.

Lemma preserves_decompose flows groups : preserves agent_ok (decompose flows groups).
Proof. intros s Hs. exact Hs. Qed.

(** Routes are only built from what the device manager answers. *)
Lemma preserves_with_routes (m : M DeviceRoutes unit) :
  spec hops_ok m (λ _, hops_ok) (λ _, hops_ok) → preserves agent_ok (with_routes m).
Proof.
  intros Hm s [(ld & Hh & Hgood) Hr]. unfold with_routes. destruct (lda_deviceRoutes s) as [dr|] eqn:Hdr; [|by split; [exists ld | rewrite Hdr]].
  specialize (Hm dr (Hr dr eq_refl)). destruct (m dr) as [[[]|e|] dr']; [| |done];
    (split; [by exists ld | by intros ? [= <-]]).
Qed.

Lemma preserves_ensure_routes : preserves agent_ok ensure_routes.
Proof.
  intros s [Hld Hr]. unfold ensure_routes, modify. destruct (lda_deviceRoutes s) as [dr|] eqn:Hdr.
  - split; [done|]. by rewrite Hdr.
  - split; [done|]. intros dr [= <-]. intros p r. by rewrite lookup_empty.
Qed.

Section WithManager.
Hypothesis manager_answers : ∀ id, dm_GetDevice id ≠ Panic.

Lemma preserves_buildRoutes : preserves agent_ok buildRoutes.
Proof.
  apply preserves_bind; [apply preserves_ensure_routes|]. intros _. apply preserves_read. intros ld _.
  by apply preserves_with_routes, ComputeRoutes_safe.
Qed.

Lemma preserves_updateRoutes lp : preserves agent_ok (updateRoutes lp).
Proof.
  apply preserves_bind; [apply preserves_ensure_routes|]. intros _. apply preserves_read. intros ld _.
  by apply preserves_with_routes, AddPort_safe.
Qed.

Lemma preserves_generateDeviceRoutesIfNeeded : preserves agent_ok generateDeviceRoutesIfNeeded.
Proof.
  apply preserves_bind; [apply preserves_gets|]. intros ld. apply preserves_bind; [apply preserves_gets|].
  intros [dr|]; [destruct (IsUpToDate dr ld); [apply preserves_ret|]|]; apply preserves_buildRoutes.
Qed.
End WithManager.

#[local] Hint Resolve preserves_send_rules preserves_addDevice preserves_deleteDevice
  preserves_updateDevice preserves_decompose : preserves.

(** ** The table operations preserve it *)

Lemma deref_Ok {A} (p : option A) a : deref p = Ok a → p = Some a.
Proof. destruct p; [by intros [= ->] | done]. Qed.

Lemma NoDup_filter_key {A B} (f : A → B) (p : A → bool) l : NoDup (f <$> l) → NoDup (f <$> List.filter p l).
Proof.
  intros Hnd. eapply sublist_NoDup; [exact Hnd|]. clear. induction l as [|x l IH]; [done|]. cbn.
  destruct (p x); cbn; by constructor.
Qed.

Lemma NoDup_delete_at_key {A B} (f : A → B) i l : NoDup (f <$> l) → NoDup (f <$> delete_at i l).
Proof. intros Hnd. eapply sublist_NoDup; [exact Hnd|]. apply fmap_sublist, delete_at_sublist. Qed.

Lemma meters_to_update_good ld ms : NoDup (meter_id <$> ms) → NoDup (meter_id <$> meters_to_update ld ms).
Proof. unfold meters_to_update. destruct (ld_Meters ld); [done | intros _; constructor]. Qed.

Lemma updateFlowCount_ids mod_ ms f :
  meter_id <$> (updateFlowCountOfMeterStats mod_ ms f).2 = meter_id <$> ms.
Proof. unfold updateFlowCountOfMeterStats. destruct (_ =? 0); [done|]. apply count_flow_ids. Qed.

Lemma preserves_flowAdd mod_ :
  has_flag (fm_Flags mod_) OFPFF_CHECK_OVERLAP = false → preserves agent_ok (flowAdd mod_).
Proof.
  intros Ho. apply preserves_read. intros ld (Hf & Hm & _). apply preserves_lift_bind. intros [[[flow flows'] updated]|] Hfta; [|apply preserves_ret].
  pose proof (flow_to_add_spec (default [] (ld_Flows ld)) mod_) as Hadd. rewrite Hfta in Hadd.
  preserves_tac; [by apply preserves_updateFlows, (added_keys _ _ _ _ _ Ho Hadd) |].
  apply preserves_updateMeters, meters_to_update_good.
  pose proof (updateFlowCount_ids mod_ (default [] (ld_Meters ld)) flow) as Hids.
  match goal with Heq : updateFlowCountOfMeterStats _ _ _ = _ |- _ => rewrite Heq in Hids end. cbn in Hids. by rewrite Hids.
Qed.

Lemma preserves_flowDelete mod_ : preserves agent_ok (flowDelete mod_).
Proof.
  apply preserves_read. intros ld (Hf & _). cbv zeta. preserves_tac. by apply preserves_updateFlows, NoDup_filter_key.
Qed.

Lemma preserves_flowDeleteStrict mod_ : preserves agent_ok (flowDeleteStrict mod_).
Proof.
  apply preserves_read. intros ld (Hf & Hm & _). cbv zeta.
  destruct (FindFlows (default [] (ld_Flows ld)) (FlowStatsEntryFromFlowModMessage mod_)) as [idx|]; [|apply preserves_fail].
  apply preserves_lift_bind. intros found _. destruct (updateFlowCountOfMeterStats mod_ (default [] (ld_Meters ld)) found) as [cm ms] eqn:Hc.
  preserves_tac; [|by apply preserves_updateFlows, NoDup_delete_at_key].
  apply preserves_updateMeters, meters_to_update_good.
  pose proof (updateFlowCount_ids mod_ (default [] (ld_Meters ld)) found) as Hids. rewrite Hc in Hids. cbn in Hids. by rewrite Hids.
Qed.

Lemma preserves_meterAdd mm : preserves agent_ok (meterAdd mm).
Proof.
  apply preserves_read. intros ld (_ & Hm & _). cbv zeta.
  destruct (existsb (λ meter, mm_MeterId mm =? meter_id meter) (default [] (ld_Meters ld))) eqn:Hex; [apply preserves_ret|].
  apply preserves_updateMeters. rewrite fmap_app. apply NoDup_app. split_and!; [done | | apply NoDup_singleton].
  intros k (m & -> & Hin)%list_elem_of_fmap Hk%list_elem_of_singleton. apply not_true_iff_false in Hex. apply Hex.
  apply existsb_exists. exists m. split; [by apply list_elem_of_In|]. apply Z.eqb_eq. by rewrite Hk.
Qed.

Lemma preserves_meterDelete mm : preserves agent_ok (meterDelete mm).
Proof.
  apply preserves_read. intros ld (Hf & Hm & _). cbv zeta. destruct (find_index (λ meter, mm_MeterId mm =? meter_id meter) (default [] (ld_Meters ld))) as [i|]; [|apply preserves_ret].
  apply preserves_lift_bind. intros flows Hfl. rewrite getUpdatedFlows_spec.
  apply preserves_lift_bind. intros [c fl] [= <- <-]. preserves_tac.
  - by apply preserves_updateMeters, meters_to_update_good, NoDup_delete_at_key.
  - apply preserves_updateFlows, NoDup_filter_key. unfold flows_good in Hf. by rewrite (deref_Ok _ _ Hfl) in Hf.
Qed.

Lemma preserves_meterModify mm : preserves agent_ok (meterModify mm).
Proof.
  apply preserves_read. intros ld (_ & Hm & _). cbv zeta. destruct (find_index (λ meter, mm_MeterId mm =? meter_id meter) (default [] (ld_Meters ld))) as [i|] eqn:Hi; [|apply preserves_fail].
  apply preserves_lift_bind. intros m _. apply preserves_updateMeters, meters_to_update_good.
  apply find_index_Some in Hi as (m' & Hlk & Hid%Z.eqb_eq & _). rewrite list_fmap_insert list_insert_id; [exact Hm|].
  rewrite list_lookup_fmap Hlk. cbn. f_equal. symmetry. exact Hid.
Qed.

Lemma preserves_group_send root gm req failed groups' :
  Forall (λ g, is_Some (ge_Desc g)) groups' → NoDup ((λ g, gd_GroupId <$> ge_Desc g) <$> groups') →
  preserves agent_ok (let* deviceRules := lift (group_rules root gm) in
                      let* _ := send_rules req failed deviceRules in
                      updateLogicalDeviceFlowGroupsWithoutLock groups').
Proof. intros Hd Hnd. preserves_tac. by apply preserves_updateGroups. Qed.

(** The groups an operation reads. *)
Lemma groups_read ld groups : ld_good ld → deref (ld_FlowGroups ld) = Ok groups →
  Forall (λ g, is_Some (ge_Desc g)) groups ∧ NoDup ((λ g, gd_GroupId <$> ge_Desc g) <$> groups).
Proof. intros (_ & _ & Hg & _) Hgr. unfold groups_good in Hg. by rewrite (deref_Ok _ _ Hgr) in Hg. Qed.

Lemma preserves_groupAdd gm : preserves agent_ok (groupAdd gm).
Proof.
  apply preserves_bind; [apply preserves_get|]. intros s. apply preserves_read. intros ld Hgood.
  apply preserves_lift_bind. intros groups Hgr. destruct (groups_read ld groups Hgood Hgr) as [Hd Hnd].
  apply preserves_lift_bind. intros [i|] Hfind; [apply preserves_fail|].
  pose proof (FindGroup_spec groups (gm_GroupId gm) Hd) as Hspec. rewrite Hfind in Hspec.
  apply preserves_group_send; [by apply Forall_app; split; [|repeat constructor]|].
  rewrite fmap_app. apply NoDup_app. split_and!; [done | | apply NoDup_singleton].
  intros k (g & -> & Hin)%list_elem_of_fmap Hk%list_elem_of_singleton.
  eapply Forall_forall in Hspec; [|done]. by apply Hspec.
Qed.

Lemma preserves_groupModify gm : preserves agent_ok (groupModify gm).
Proof.
  apply preserves_bind; [apply preserves_get|]. intros s. apply preserves_read. intros ld Hgood.
  apply preserves_lift_bind. intros groups Hgr. destruct (groups_read ld groups Hgood Hgr) as [Hd Hnd].
  apply preserves_lift_bind. intros [i|] Hfind; [|apply preserves_fail].
  pose proof (FindGroup_spec groups (gm_GroupId gm) Hd) as Hspec. rewrite Hfind in Hspec.
  destruct Hspec as (pre & g & d & post & Heq & <- & Hgd & Hid & _).
  apply preserves_group_send.
  - apply Forall_insert; [done | by eexists].
  - rewrite list_fmap_insert list_insert_id; [exact Hnd|]. rewrite list_lookup_fmap Heq list_lookup_middle //. cbn. by rewrite Hgd /= Hid.
Qed.

Lemma preserves_groupDelete gm : preserves agent_ok (groupDelete gm).
Proof.
  apply preserves_read. intros ld Hgood. apply preserves_lift_bind. intros groups Hgr.
  destruct (groups_read ld groups Hgood Hgr) as [Hd Hnd].
  apply preserves_lift_bind. intros flows Hfl. apply preserves_lift_bind. intros [[[groups' changed] flows']|] Hdel; [|apply preserves_ret].
  pose proof (group_to_delete_spec (gm_GroupId gm) groups flows Hd) as Hspec. rewrite Hdel in Hspec.
  destruct Hspec as (_ & Hsub & Hsubf & _). preserves_tac.
  - apply preserves_updateGroups; [|eapply sublist_NoDup; [exact Hnd | by apply fmap_sublist]].
    apply Forall_forall. intros g Hin. eapply (proj1 (Forall_forall _ _) Hd). by eapply elem_of_sublist.
  - apply preserves_updateFlows. eapply sublist_NoDup; [|by apply fmap_sublist]. destruct Hgood as [Hf _].
    unfold flows_good in Hf. by rewrite (deref_Ok _ _ Hfl) in Hf.
Qed.

(** The messages of the controller: the flows do not ask for an overlap check. *)
Inductive TableMod :=
  | FlowTableMod (flow : option OfpFlowMod)
  | GroupTableMod (groupMod : option OfpGroupMod)
  | MeterTableMod (meterMod : option OfpMeterMod).
Definition updateTable (m : TableMod) : M (@LogicalState Store) unit :=
  match m with
  | FlowTableMod flow => updateFlowTable flow
  | GroupTableMod groupMod => updateGroupTable groupMod
  | MeterTableMod meterMod => updateMeterTable meterMod
  end.
Definition no_overlap_check (m : TableMod) : Prop :=
  match m with
  | FlowTableMod (Some flow) => has_flag (fm_Flags flow) OFPFF_CHECK_OVERLAP = false
  | _ => True
  end.

Lemma preserves_updateTable m :
  (∀ id, dm_GetDevice id ≠ Panic) → no_overlap_check m → preserves agent_ok (updateTable m).
Proof.
  intros Hdm Hm. pose proof (preserves_generateDeviceRoutesIfNeeded Hdm) as Hgen.
  destruct m as [[flow|]|[gm|]|[mm|]]; cbn [updateTable updateFlowTable updateGroupTable updateMeterTable];
    try apply preserves_ret; (apply preserves_bind; [exact Hgen|]); intros _; cbv zeta; repeat case_decide;
    try (apply preserves_bind; [apply preserves_get | intros s; apply preserves_fail]).
  - by apply preserves_flowAdd.
  - apply preserves_flowDelete.
  - apply preserves_flowDeleteStrict.
  - apply preserves_fail.
  - apply preserves_fail.
  - apply preserves_groupAdd.
  - apply preserves_groupDelete.
  - apply preserves_groupModify.
  - apply preserves_meterAdd.
  - apply preserves_meterDelete.
  - apply preserves_meterModify.
Qed.

End Invariant.

(** ** Concrete modifications *)

(** A device manager that reports every port and accepts every change. *)
Definition sample_calls : DeviceManagerCalls := {|
  dmc_getPortCapability _ no := Ok (Some (sample_lp no "" 0 false));
  dmc_getSwitchCapability _ := Ok (mkSwitchCapability "" "");
  dmc_getAllChildDevices _ := Ok [];
  dmc_reply _ _ := Some (10, None);
  dmc_tie _ := true
|}.

#[local] Existing Instances map_proxy map_proxy_laws canonical_range sample_manager sample_calls sample_text.

(** An upstream flow of table 1 that is policed by a meter. *)
Definition sample_mod (command flags meterID : Z) : OfpFlowMod :=
  mkFlowMod 7 0 1 command 0 0 1000 0 OFPP_ANY OFPG_ANY flags
    (Some (mkMatch OFPMT_OXM ((λ f, mkOxm OFPXMC_OPENFLOW_BASIC (Some (F_OfbField (Some f)))) <$> [InPort 16; VlanVid 4096])))
    [mkInst OFPIT_METER (Some (I_Meter (Some meterID)));
     mkInst OFPIT_APPLY_ACTIONS (Some (I_Actions (Some [Output 65536])))].
Definition sample_entry flags meterID := FlowStatsEntryFromFlowModMessage (sample_mod OFPFC_ADD flags meterID).

Lemma sample_mod_ok command flags meterID : flow_ok (FlowStatsEntryFromFlowModMessage (sample_mod command flags meterID)).
Proof.
  split.
  - exists [Some (InPort 16); Some (VlanVid 4096)]. split; [done|].
    do 2 (apply Forall_cons; split; [by eexists|]). apply Forall_nil_2.
  - apply Forall_cons. split; [done|]. apply Forall_singleton. intros _. by eexists.
Qed.

Definition sample_meter (meterID count : Z) : OfpMeterEntry :=
  set_FlowCount count (MeterEntryFromMeterMod (mkMeterMod OFPMC_ADD 0 meterID [])).
Definition sample_group_mod (id : Z) : OfpGroupMod := mkGroupMod OFPGC_ADD OFPGT_ALL id [].

Lemma sample_holds ld : holds ld (sample_lda ld).
Proof. split; [done|]. simpl. by rewrite lookup_singleton_eq. Qed.

Lemma sample_ready ld : routes_ready (sample_lda ld).
Proof. exists sample_routes. split; [done | apply sample_routes_hops]. Qed.

Lemma sample_answers id : dm_GetDevice id ≠ Panic.
Proof. apply sample_laws. Qed.

Lemma sample_usable flows groups meters :
  flows_ok flows → Forall (λ g, is_Some (ge_Desc g)) groups →
  usable (sample_ld flows groups meters) (sample_lda (sample_ld flows groups meters)).
Proof.
  intros Hf Hg. split_and!; [apply sample_holds | apply sample_ready | apply sample_answers | by exists groups | done].
Qed.

Lemma sample_entries_ok flags meterID : flows_ok [sample_entry flags meterID].
Proof. apply Forall_singleton. split; [apply sample_mod_ok | done]. Qed.

Lemma flow_add_correct_witness :
  let ld := sample_ld [] [] [sample_meter 1 4] in
  ∃ s', flowAdd (sample_mod OFPFC_ADD 0 1) (sample_lda ld) = (Ok tt, s') ∧
    ListLogicalDeviceFlows s' = (Ok [sample_entry 0 1], s') ∧
    ∃ reqs, lda_sent s' = reqs ∧ accepted 1000 [] reqs.
Proof.
  intros ld. pose proof (flow_add_correct (sample_mod OFPFC_ADD 0 1) ld [] (sample_lda ld) (sample_holds ld)
    (sample_ready ld) sample_answers (sample_mod_ok _ _ _) eq_refl (Forall_nil_2 _)) as Hc.
  destruct (flowAdd _ _) as [[[]|e|] s'] eqn:Heq; [|by vm_compute in Heq..].
  exists s'. destruct Hc as [[[_ (old & Hin & _)] _]|(flow & flows' & updated & reqs & Hadd & (md & rules & _ & _ & _ & Hacc) & Hn)];
    [exfalso; inversion Hin|].
  split; [done|]. assert (updated = false) as ->.
  { destruct updated; [|done]. destruct Hadd as (_ & pre & old & post & Hnil & _). by destruct pre. }
  destruct Hadd as (-> & -> & _). split.
  - destruct Hn as (_ & _ & _ & _ & _ & _ & _ & Hc & _). unfold ListLogicalDeviceFlows, getLogicalDeviceWithoutLock, sbind.
    rewrite Hc. reflexivity.
  - exists reqs. split; [apply Hn | exact Hacc].
Defined.

Lemma flow_add_idempotent_witness :
  let ld := sample_ld [] [] [sample_meter 1 4] in
  ∃ s', flowAdd (sample_mod OFPFC_ADD 0 1) (sample_lda ld) = (Ok tt, s') ∧
    flowAdd (sample_mod OFPFC_ADD 0 1) s' = (Ok tt, s').
Proof.
  intros ld. destruct (flowAdd (sample_mod OFPFC_ADD 0 1) (sample_lda ld)) as [[[]|e|] s'] eqn:Heq; [|by vm_compute in Heq..].
  exists s'. split; [done|].
  exact (flow_add_idempotent (sample_mod OFPFC_ADD 0 1) ld [] (sample_lda ld) s' (sample_holds ld)
    (sample_ready ld) sample_answers (sample_mod_ok _ _ _) eq_refl (Forall_nil_2 _) eq_refl Heq).
Defined.

Lemma check_overlap_duplicates_witness :
  let ld := sample_ld [sample_entry 2 1] [] [sample_meter 1 4] in
  ∃ s' ld', flowAdd (sample_mod OFPFC_ADD 2 1) (sample_lda ld) = (Ok tt, s') ∧ holds ld' s' ∧
    ld_Flows ld' = Some [sample_entry 2 1; sample_entry 2 1].
Proof.
  intros ld. destruct (flowAdd (sample_mod OFPFC_ADD 2 1) (sample_lda ld)) as [[[]|e|] s'] eqn:Heq; [|by vm_compute in Heq..].
  destruct (check_overlap_duplicates (sample_mod OFPFC_ADD 2 1) ld [] (sample_lda ld) s' (sample_holds ld)
    (sample_ready ld) sample_answers (sample_mod_ok _ _ _) eq_refl (Forall_nil_2 _) eq_refl
    (proj2 (list_elem_of_singleton _ _) eq_refl) Heq) as (ld' & Hh & Hf & _).
  exists s', ld'. by split_and!.
Defined.

Lemma flow_delete_correct_witness :
  let ld := sample_ld [sample_entry 0 1] [] [sample_meter 1 4] in
  ∃ s', flowDelete (sample_mod OFPFC_DELETE 0 1) (sample_lda ld) = (Ok tt, s') ∧
    ∃ ld', holds ld' s' ∧ default [] (ld_Flows ld') = [] ∧ ld_Meters ld' = Some [sample_meter 1 4].
Proof.
  intros ld. pose proof (flow_delete_correct (sample_mod OFPFC_DELETE 0 1) ld (sample_lda ld)
    (sample_usable _ _ _ (sample_entries_ok _ _) (Forall_nil_2 _))) as Hc.
  destruct (flowDelete _ _) as [[[]|e|] s'] eqn:Heq; [|by vm_compute in Heq..].
  exists s'. split; [done|]. destruct Hc as (keep & del & reqs & ld' & _ & Hsub & Hkeep & _ & Hn & Hf & Hld).
  exists ld'. split; [apply Hn|]. rewrite Hf. split.
  - destruct keep as [|f keep]; [done|]. assert (f ∈ [sample_entry 0 1]) as Hin by (eapply elem_of_sublist; [by left | exact Hsub]).
    pose proof Hin as Hf1. apply list_elem_of_singleton in Hf1. subst f. destruct (proj1 (Hkeep _ Hin) (list_elem_of_here _ _)) as [Hne _].
    by destruct Hne.
  - assert (ld_Meters ld' = ld_Meters ld) as ->; [|done]. by rewrite -Hld.
Defined.

Lemma flow_delete_strict_correct_witness :
  let ld := sample_ld [sample_entry 0 1] [] [sample_meter 1 4] in
  ∃ s' ld', flowDeleteStrict (sample_mod OFPFC_DELETE_STRICT 0 1) (sample_lda ld) = (Ok tt, s') ∧ holds ld' s' ∧
    ld_Flows ld' = Some [].
Proof.
  intros ld. pose proof (flow_delete_strict_correct (sample_mod OFPFC_DELETE_STRICT 0 1) ld (sample_lda ld)
    (sample_usable _ _ _ (sample_entries_ok _ _) (Forall_nil_2 _))) as Hc.
  destruct (flowDeleteStrict _ _) as [[[]|e|] s'] eqn:Heq; [|by vm_compute in Heq..].
  destruct Hc as (pre & f & post & reqs & Hfl & _ & _ & _ & Hn). exists s'. eexists. split; [done|].
  split; [apply Hn|]. cbn in Hfl |- *. f_equal. destruct pre as [|g [|]]; [by injection Hfl as _ <- | by injection Hfl | by injection Hfl].
Defined.

Lemma flow_add_strict_delete_roundtrip_witness :
  let ld := sample_ld [] [] [sample_meter 1 4] in
  let m := sample_mod OFPFC_ADD 0 1 in
  ∃ s1 s2 ld2, flowAdd m (sample_lda ld) = (Ok tt, s1) ∧
    flowDeleteStrict (with_Command OFPFC_DELETE_STRICT m) s1 = (Ok tt, s2) ∧ holds ld2 s2 ∧
    default [] (ld_Meters ld2) = [sample_meter 1 4].
Proof.
  intros ld m. destruct (flowAdd m (sample_lda ld)) as [[[]|e|] s1] eqn:H1; [|by vm_compute in H1..].
  destruct (flowDeleteStrict (with_Command OFPFC_DELETE_STRICT m) s1) as [r s2] eqn:H2.
  assert (r = Ok tt) as ->. { vm_compute in H1. injection H1 as <-. vm_compute in H2. by injection H2 as <- _. }
  destruct (flow_add_strict_delete_roundtrip m ld (sample_lda ld) s1 s2
    (sample_usable _ _ _ (Forall_nil_2 _) (Forall_nil_2 _)) (sample_mod_ok _ _ _) eq_refl) as (ld2 & Hh & _ & Hm & _);
    [intros Hin; inversion Hin | apply Forall_singleton; cbn; lia | exact H1 | exact H2 |].
  exists s1, s2, ld2. split_and!; [reflexivity | exact H2 | exact Hh | exact Hm].
Defined.

Lemma meter_delete_correct_witness :
  let ld := sample_ld [sample_entry 0 1] [] [sample_meter 1 4; sample_meter 2 0] in
  ∃ s' ld', meterDelete (mkMeterMod OFPMC_DELETE 0 1 []) (sample_lda ld) = (Ok tt, s') ∧ holds ld' s' ∧
    ld_Flows ld' = Some [] ∧ lda_sent s' = [].
Proof.
  intros ld. pose proof (meter_delete_correct (mkMeterMod OFPMC_DELETE 0 1 []) ld [sample_entry 0 1] (sample_lda ld)
    (sample_holds ld) eq_refl) as Hc.
  destruct (meterDelete _ _) as [[[]|e|] s'] eqn:Heq; [|by vm_compute in Heq..].
  destruct Hc as [[Hnot _]|(pre & m & post & _ & _ & _ & Hn)]; [destruct Hnot; by left|].
  exists s'. eexists. split_and!; [done | apply Hn | done | apply Hn].
Defined.

Lemma sample_groups_ok : Forall (λ g, is_Some (ge_Desc g)) [GroupEntryFromGroupMod (sample_group_mod 5)].
Proof. apply Forall_singleton. by eexists. Qed.

Lemma group_delete_correct_witness :
  let ld := sample_ld [] [GroupEntryFromGroupMod (sample_group_mod 5)] [] in
  ∃ s' ld', groupDelete (sample_group_mod 5) (sample_lda ld) = (Ok tt, s') ∧ holds ld' s' ∧ ld_FlowGroups ld' = Some [].
Proof.
  intros ld. pose proof (group_delete_correct (sample_group_mod 5) ld [GroupEntryFromGroupMod (sample_group_mod 5)] []
    (sample_lda ld) (sample_usable _ [GroupEntryFromGroupMod (sample_group_mod 5)] _ (Forall_nil_2 _)
      sample_groups_ok) eq_refl eq_refl) as Hc. cbv zeta in Hc.
  destruct (groupDelete _ _) as [[[]|e|] s'] eqn:Heq; [|by vm_compute in Heq..].
  destruct Hc as [(_ & Hnot & _)|(groups' & flows' & rules & reqs & Hd & _ & _ & _ & Hn)].
  - apply Forall_inv in Hnot. exfalso. apply Hnot. reflexivity.
  - exists s'. eexists. split; [done|]. split; [apply Hn|]. cbn. f_equal. unfold groups_deleted in Hd.
    destruct (decide _) as [Heq'|_]; [done|]. destruct Hd as (pre & g & d & post & Hg & -> & _).
    destruct pre as [|? [|]]; [by injection Hg as _ <- | by injection Hg..].
Defined.

Lemma group_add_modify_correct_witness :
  let ld := sample_ld [] [] [] in
  ∃ s', groupAdd (sample_group_mod 5) (sample_lda ld) = (Ok tt, s') ∧
    lda_sent s' = [CallAddFlows "olt" [] [GroupEntryFromGroupMod (sample_group_mod 5)] (Some [])].
Proof.
  intros ld. destruct (group_add_modify_correct (sample_group_mod 5) ld [] (sample_lda ld) (sample_holds ld) eq_refl
    (Forall_nil_2 _)) as [Hc _].
  destruct (groupAdd _ _) as [[[]|e|] s'] eqn:Heq; [|by vm_compute in Heq..].
  exists s'. split; [done|]. destruct Hc as (_ & _ & Hn). apply Hn.
Defined.
