(* ===== verification/LogicalPorts.v ===== *)
(** * Logical device agent: ports and life cycle

    [rw_core/core/logical_device_agent.go]: the ports of the logical device, the
    events they cause, packets, and the start and stop of the agent.  Adding a
    port gives up the lock while the capability of the port is read: [others] is
    what the other goroutines do meanwhile. *)

From S2P Require Import Prelude OpenFlow VolthaTypes FlowUtils Routes Decomposer CoreUtils DataProxy Ids.
From S2P Require Import LogicalAgent LogicalTables.

Section Ports.
Context {Store : Type} `{DataProxy LogicalDevice Store, GoRange, DeviceManagerView, DeviceManagerCalls}.

(** ** Building a port *)

Definition set_lp_OfpPort v (lp : LogicalPort) : LogicalPort :=
  mkLogicalPort (lp_Id lp) v (lp_DeviceId lp) (lp_DevicePortNo lp) (lp_RootPort lp).

Definition nni_name (portNo : Z) : string := "nni-" +:+ pretty portNo.

Definition nni_port (cap : LogicalPort) (device : Device) (port : Port) : LogicalPort :=
  let id := nni_name (port_PortNo port) in
  mkLogicalPort id (set_op_Name id (set_op_PortNo (port_PortNo port) (lp_OfpPort cap)))
    (dev_Id device) (port_PortNo port) true.

Definition uni_port (cap : LogicalPort) (childDevice : Device) (port : Port) : LogicalPort :=
  mkLogicalPort (port_Label port) (set_op_PortNo (port_PortNo port) (lp_OfpPort cap))
    (dev_Id childDevice) (port_PortNo port) false.

Definition same_logical_port (device : Device) (port : Port) (lPort : LogicalPort) : bool :=
  bool_decide (lp_DeviceId lPort = dev_Id device) && (lp_DevicePortNo lPort =? port_PortNo port)
  && bool_decide (lp_Id lPort = port_Label port).

(** The port is looked up under its label. *)
Definition portExist (device : Device) (port : Port) : M (@LogicalState Store) bool :=
  let* ldevice := getLogicalDeviceWithoutLock in
  ret (existsb (same_logical_port device port) (ld_Ports ldevice)).

Definition device_ready (device : Device) : bool :=
  bool_decide (dev_AdminState device = Admin_ENABLED ∧ dev_OperStatus device = Oper_ACTIVE).

(** ** Adding ports *)

Section Others.
Variable others : @LogicalState Store → @LogicalState Store.

(** [addNNILogicalPort] and [addUNILogicalPort] differ in the port they build. *)
Definition add_logical_port (build : LogicalPort → Device → Port → LogicalPort) (device : Device) (port : Port)
    : M (@LogicalState Store) bool :=
  if negb (device_ready device) then ret false
  else
    let* found := portExist device port in
    if (found : bool) then ret false
    else
      let* _ := modify others in
      let* portCap := lift (dmc_getPortCapability (dev_Id device) (port_PortNo port)) in
      let* found := portExist device port in
      if (found : bool) then ret false
      else
        let* cap := lift (deref portCap) in
        let lp := build cap device port in
        let* ld := getLogicalDeviceWithoutLock in
        let* _ := updateLogicalDeviceWithoutLock (set_ld_Ports (ld_Ports ld ++ [lp]) ld) in
        let* _ := spawn (UpdateRoutes lp) in
        ret true.
Definition addNNILogicalPort := add_logical_port nni_port.
Definition addUNILogicalPort := add_logical_port uni_port.

Definition updateLogicalPort (device : Device) (port : Port) : M (@LogicalState Store) unit :=
  if decide (port_Type port = ETHERNET_NNI) then
    let* _ := addNNILogicalPort device port in addLogicalPortToMap (port_PortNo port) true
  else if decide (port_Type port = ETHERNET_UNI) then
    let* _ := addUNILogicalPort device port in addLogicalPortToMap (port_PortNo port) false
  else
    let* _ := attempt buildRoutes in ret tt.

Definition err_of {A} (r : A + GoError) : option GoError := match r with inl _ => None | inr e => Some e end.

(** [err] holds the outcome of the last NNI port; the number is recorded even
    when the port could not be added. *)
Fixpoint setup_nni (device : Device) (err : option GoError) (ports : list Port)
    : M (@LogicalState Store) (option GoError) :=
  match ports with
  | [] => ret err
  | port :: ports =>
      if decide (port_Type port = ETHERNET_NNI) then
        let* r := attempt (addNNILogicalPort device port) in
        let* _ := addLogicalPortToMap (port_PortNo port) true in
        setup_nni device (err_of r) ports
      else setup_nni device err ports
  end.

Definition return_err (err : option GoError) : M (@LogicalState Store) unit :=
  match err with Some e => fail e | None => ret tt end.

Definition setupNNILogicalPorts (deviceID : string) : M (@LogicalState Store) unit :=
  let* device := lift (dm_GetDevice deviceID) in
  let* err := setup_nni device None (dev_Ports device) in
  return_err err.

Fixpoint setup_uni (childDevice : Device) (err : option GoError) (ports : list Port)
    : M (@LogicalState Store) (option GoError) :=
  match ports with
  | [] => ret err
  | port :: ports =>
      if decide (port_Type port = ETHERNET_UNI) then
        let* r := attempt (addUNILogicalPort childDevice port) in
        let* _ := match r with
                  | inl true => addLogicalPortToMap (port_PortNo port) false
                  | _ => ret tt
                  end in
        setup_uni childDevice (err_of r) ports
      else setup_uni childDevice err ports
  end.

Definition setupUNILogicalPorts (childDevice : Device) : M (@LogicalState Store) unit :=
  let* err := setup_uni childDevice None (dev_Ports childDevice) in
  return_err err.

(** The goroutines of the children, one after the other; what one of them does
    between two steps of another is in [others].  [durations] says when each one
    completes. *)
Fixpoint setup_children (durations : list (option Z)) (children : list Device)
    : M (@LogicalState Store) (list completion) :=
  match children with
  | [] => ret []
  | child :: children =>
      let* r := attempt (setupUNILogicalPorts child) in
      let c := match durations with
               | Some t :: _ => Some (t, match err_of r with
                                         | Some _ => Some (Status Internal ("UNI-ports-setup-failed: " +:+ dev_Id child))
                                         | None => None
                                         end)
               | _ => None
               end in
      let* cs := setup_children (tail durations) children in
      ret (c :: cs)
  end.

Definition setupLogicalPorts (durations : list (option Z)) : M (@LogicalState Store) unit :=
  let* s := get in
  let* _ := setupNNILogicalPorts (lda_rootDeviceID s) in
  let* children := lift (dmc_getAllChildDevices (lda_rootDeviceID s)) in
  let* responses := setup_children durations children in
  match (WaitForNilOrErrorResponses dmc_tie (lda_defaultTimeout s) responses).1 with
  | None => ret tt
  | Some _ => fail (Status Aborted "errors")
  end.

(** A goroutine logs its error. *)
Definition run_task (durations : list (option Z)) (t : Task) : M (@LogicalState Store) unit :=
  let* _ := attempt (match t with
                     | SetupLogicalPorts => setupLogicalPorts durations
                     | BuildRoutes => buildRoutes
                     | UpdateRoutes lp => updateRoutes lp
                     end) in
  ret tt.

(** The scheduler runs the [i]-th goroutine that is waiting. *)
Definition schedule (durations : list (option Z)) (i : nat) : M (@LogicalState Store) unit :=
  let* s := get in
  match lda_tasks s !! i with
  | None => ret tt
  | Some t => let* _ := modify (λ s, set_tasks (delete_at i (lda_tasks s)) s) in run_task durations t
  end.

End Others.

(** ** The state of the ports *)

Definition port_up (p : OfpPort) : OfpPort :=
  set_op_State OFPPS_LIVE (set_op_Config (Z.land (op_Config p) (not32 OFPPC_PORT_DOWN)) p).
Definition port_down (p : OfpPort) : OfpPort :=
  set_op_State OFPPS_LINK_DOWN (set_op_Config (Z.lor (op_Config p) OFPPC_PORT_DOWN) p).

Definition set_port_state (operStatus : OperStatus) (lp : LogicalPort) : LogicalPort :=
  set_lp_OfpPort ((if decide (operStatus = Oper_ACTIVE) then port_up else port_down) (lp_OfpPort lp)) lp.

(** The first port that satisfies [p] is changed by [f]. *)
Definition change_first (p : LogicalPort → bool) (f : LogicalPort → LogicalPort) (notFound : GoError)
    : M (@LogicalState Store) unit :=
  let* cloned := getLogicalDeviceWithoutLock in
  match find_index p (ld_Ports cloned) with
  | None => fail notFound
  | Some i =>
      let* lp := lift (index (ld_Ports cloned) i) in
      updateLogicalDeviceWithoutLock (set_ld_Ports (<[i := f lp]> (ld_Ports cloned)) cloned)
  end.

Definition updatePortState (deviceID : string) (portNo : Z) (operStatus : OperStatus) : M (@LogicalState Store) unit :=
  change_first (λ lPort, bool_decide (lp_DeviceId lPort = deviceID) && (lp_DevicePortNo lPort =? portNo))
    (set_port_state operStatus) (Status NotFound ("port-" +:+ pretty portNo +:+ "-not-exist")).

Definition updatePortsState (device : Device) (state : OperStatus) : M (@LogicalState Store) unit :=
  let* cloned := getLogicalDeviceWithoutLock in
  updateLogicalDeviceWithoutLock (set_ld_Ports
    ((λ lport, if decide (lp_DeviceId lport = dev_Id device) then set_port_state state lport else lport)
       <$> ld_Ports cloned) cloned).

Definition no_such_port (lPortID id : string) : GoError :=
  Status NotFound ("Port " +:+ lPortID +:+ " on Logical Device " +:+ id).

Definition enableLogicalPort (lPortID : string) : M (@LogicalState Store) unit :=
  let* s := get in
  change_first (λ lPort, bool_decide (lp_Id lPort = lPortID))
    (λ lp, set_lp_OfpPort (set_op_Config (Z.land (op_Config (lp_OfpPort lp)) (not32 OFPPC_PORT_DOWN)) (lp_OfpPort lp)) lp)
    (no_such_port lPortID (lda_logicalDeviceID s)).

Definition disableLogicalPort (lPortID : string) : M (@LogicalState Store) unit :=
  let* s := get in
  change_first (λ lPort, bool_decide (lp_Id lPort = lPortID))
    (λ lp, set_lp_OfpPort (set_op_Config
       (Z.lor (Z.land (op_Config (lp_OfpPort lp)) (not32 OFPPC_PORT_DOWN)) OFPPC_PORT_DOWN) (lp_OfpPort lp)) lp)
    (no_such_port lPortID (lda_logicalDeviceID s)).

(** ** Deleting ports *)

(** The set of port numbers keeps the deleted ports. *)
Definition deleteAllLogicalPorts (device : Device) : M (@LogicalState Store) unit :=
  let* cloned := getLogicalDeviceWithoutLock in
  let updateLogicalPorts :=
    List.filter (λ lport, negb (bool_decide (lp_DeviceId lport = dev_Id device))) (ld_Ports cloned) in
  if decide (length updateLogicalPorts < length (ld_Ports cloned))%nat
  then updateLogicalDeviceWithoutLock (set_ld_Ports updateLogicalPorts cloned)
  else ret tt.

Definition deleteLogicalPort (lPort : LogicalPort) : M (@LogicalState Store) unit :=
  let* logicalDevice := getLogicalDeviceWithoutLock in
  match find_index (λ logicalPort, bool_decide (lp_Id logicalPort = lp_Id lPort)) (ld_Ports logicalDevice) with
  | None => ret tt
  | Some i =>
      let* _ := updateLogicalDeviceWithoutLock (set_ld_Ports (delete_at i (ld_Ports logicalDevice)) logicalDevice) in
      let* _ := deleteLogicalPortsFromMap [lp_DevicePortNo lPort] in
      spawn BuildRoutes
  end.

Definition deleteLogicalPorts (deviceID : string) : M (@LogicalState Store) unit :=
  let* logicalDevice := getLogicalDeviceWithoutLock in
  let keep lport := negb (bool_decide (lp_DeviceId lport = deviceID)) in
  let lPortstoKeep := List.filter keep (ld_Ports logicalDevice) in
  let lPortsNoToDelete := lp_DevicePortNo <$> List.filter (λ lport, negb (keep lport)) (ld_Ports logicalDevice) in
  let* _ := updateLogicalDeviceWithoutLock (set_ld_Ports lPortstoKeep logicalDevice) in
  let* _ := deleteLogicalPortsFromMap lPortsNoToDelete in
  spawn BuildRoutes.

(** ** Events and packets *)

Definition has_id (id : string) (lp : LogicalPort) : bool := bool_decide (lp_Id lp = id).

(** The new, changed and deleted ports. *)
Definition diff (oldList newList : list LogicalPort) : list LogicalPort * list LogicalPort * list LogicalPort :=
  let newPorts := List.filter (λ n, negb (existsb (has_id (lp_Id n)) oldList)) newList in
  let changedPorts := List.filter (λ n,
    match find (has_id (lp_Id n)) oldList with
    | Some o => negb (bool_decide (o = n))
    | None => false
    end) newList in
  let deletedPorts := List.filter (λ o, negb (existsb (has_id (lp_Id o)) newList)) oldList in
  (newPorts, changedPorts, deletedPorts).

(** The callback of an update of the logical device; a value of another type is
    logged.  One goroutine per event. *)
Definition portUpdated (args : option LogicalDevice * option LogicalDevice) : M (@LogicalState Store) unit :=
  match args with
  | (Some oldLD, Some newlD) =>
      if decide (ld_Ports oldLD = ld_Ports newlD) then ret tt
      else
        let '(newPorts, changedPorts, deletedPorts) := diff (ld_Ports oldLD) (ld_Ports newlD) in
        let* s := get in
        let event reason lp := EventPortStatus (lda_logicalDeviceID s) reason (lp_OfpPort lp) in
        modify (λ s, set_lda_sent (lda_sent s ++ (event OFPPR_ADD <$> newPorts)
          ++ (event OFPPR_MODIFY <$> changedPorts) ++ (event OFPPR_DELETE <$> deletedPorts)) s)
  | _ => ret tt
  end.

(** The error is logged. *)
Definition packetOut (packet : OfpPacketOut) : M (@LogicalState Store) unit :=
  let* s := get in
  let* outPort := lift (GetPacketOutPort packet) in
  let* _ := call (CallPacketOut (lda_rootDeviceID s) outPort packet) in
  ret tt.

Definition packetIn (port : Z) (transactionID : string) (packet : list Z) : M (@LogicalState Store) unit :=
  modify (λ s, set_lda_sent (lda_sent s ++
    [EventPacketIn (lda_logicalDeviceID s) transactionID (MkPacketIn port packet)]) s).

(** ** Life cycle *)

Definition logical_device_not_found (id : string) : GoError := Status NotFound ("logical_device-" +:+ id).

(** [createProxy] is the outcome of the four [CreateProxy] calls; the last one may
    give a nil proxy ([false]).  The ports and the routes are set up later. *)
Definition start (loadFromdB : bool) (createProxy : string → outcome bool) : M (@LogicalState Store) unit :=
  let* s := get in
  let* _ :=
    if loadFromdB then
      match dp_get (lda_logicalDeviceID s) (lda_store s) with
      | Ok (Some ld) =>
          let* _ := modify (set_rootDeviceID (ld_RootDeviceId ld)) in
          let* _ := modify (set_logicalDevice (Some ld)) in
          addLogicalPortsToMap (ld_Ports ld)
      | Ok None | Err _ => fail (logical_device_not_found (lda_logicalDeviceID s))
      | Panic => panic
      end
    else
      let* switchCap := lift (dmc_getSwitchCapability (lda_rootDeviceID s)) in
      let* datapathID := lift (CreateDataPathID (lda_logicalDeviceID s)) in
      let ld := mkLogicalDevice (lda_logicalDeviceID s) datapathID (sc_Desc switchCap) (sc_SwitchFeatures switchCap)
                  (lda_rootDeviceID s) [] (Some []) (Some []) None in
      let (r, st) := dp_add (lda_logicalDeviceID s) ld (lda_store s) in
      let* _ := modify (set_lda_store st) in
      match r with
      | UpdErr e => fail e
      | _ => let* _ := modify (set_logicalDevice (Some ld)) in spawn SetupLogicalPorts
      end in
  let* _ := lift (createProxy "flows") in
  let* _ := lift (createProxy "meters") in
  let* _ := lift (createProxy "flow_groups") in
  let* ldProxy := lift (createProxy "") in
  let* _ := if (ldProxy : bool) then ret tt else fail (Status Internal "logical-device-proxy-null") in
  if loadFromdB then spawn BuildRoutes else ret tt.

(** A nil result is logged. *)
Definition stop : M (@LogicalState Store) unit := λ s,
  let (r, st) := dp_remove (lda_logicalDeviceID s) (lda_store s) in
  match r with
  | UpdErr e => (Err e, set_lda_store st s)
  | _ => (Ok tt, set_lda_store st s)
  end.

End Ports.

(** ** The invariant of the whole agent *)

Section PortFacts.
Context {Store : Type} `{DataProxy LogicalDevice Store, GoRange, DeviceManagerView, DeviceManagerCalls, ProtoText}.
Context `{!DataProxyLaws LogicalDevice Store}.
Implicit Types (s : @LogicalState Store) (ld : LogicalDevice).

Lemma preserves_spawn t : preserves agent_ok (spawn t).
Proof. by apply preserves_modify_frame. Qed.
Lemma preserves_addLogicalPortToMap n b : preserves agent_ok (addLogicalPortToMap n b).
Proof. by apply preserves_modify_frame. Qed.
Lemma preserves_addLogicalPortsToMap lps : preserves agent_ok (addLogicalPortsToMap lps).
Proof. by apply preserves_modify_frame. Qed.
Lemma preserves_deleteLogicalPortsFromMap ns : preserves agent_ok (deleteLogicalPortsFromMap ns).
Proof. by apply preserves_modify_frame. Qed.
#[local] Hint Resolve preserves_spawn preserves_addLogicalPortToMap preserves_deleteLogicalPortsFromMap : preserves.

Lemma preserves_set_ports ld ports : ld_good ld → ports_good ports →
  preserves agent_ok (updateLogicalDeviceWithoutLock (set_ld_Ports ports ld)).
Proof. intros (Hf & Hm & Hg & _) Hp. by apply preserves_update. Qed.

(** The port built under the name it is looked up with. *)
Definition well_named (build : LogicalPort → Device → Port → LogicalPort) (device : Device) (port : Port) : Prop :=
  ∀ cap, port_key (build cap device port) = (dev_Id device, port_PortNo port, port_Label port) ∧
    lp_PortNo (build cap device port) = port_PortNo port ∧ lp_DevicePortNo (build cap device port) = port_PortNo port.

Lemma uni_well_named device port : well_named uni_port device port.
Proof. by intros cap. Qed.
Lemma nni_well_named device port : port_Label port = nni_name (port_PortNo port) → well_named nni_port device port.
Proof. intros Hl cap. unfold port_key. by rewrite Hl. Qed.

Lemma portExist_run device port ld s : holds ld s →
  portExist device port s = (Ok (existsb (same_logical_port device port) (ld_Ports ld)), s).
Proof. intros Hs. unfold portExist. by rewrite (sbind_run _ _ _ _ _ (getLogicalDevice_run ld s Hs)). Qed.

Lemma same_logical_port_key device port lp :
  same_logical_port device port lp = true ↔ port_key lp = (dev_Id device, port_PortNo port, port_Label port).
Proof.
  unfold same_logical_port, port_key. rewrite !andb_true_iff !bool_decide_eq_true Z.eqb_eq.
  split; [by intros [[-> ->] ->] | by intros [= -> -> ->]].
Qed.

(** A port that was not found can be appended. *)
Lemma ports_good_snoc build device port cap ports :
  well_named build device port → ports_good ports →
  existsb (same_logical_port device port) ports = false → ports_good (ports ++ [build cap device port]).
Proof.
  intros Hw [Hnd Hno] Hex. destruct (Hw cap) as (Hk & Hn & Hd). split.
  - rewrite fmap_app. apply NoDup_app. split_and!; [done | | apply NoDup_singleton].
    intros k (lp & -> & Hin)%list_elem_of_fmap Heq%list_elem_of_singleton. apply not_true_iff_false in Hex. apply Hex.
    apply existsb_exists. exists lp. split; [by apply list_elem_of_In|]. apply same_logical_port_key. congruence.
  - apply Forall_app. split; [done|]. apply Forall_singleton. congruence.
Qed.

Section WithOthers.
Variable others : @LogicalState Store → @LogicalState Store.
Hypothesis others_ok : ∀ s, agent_ok s → agent_ok (others s).
Hypothesis manager_answers : ∀ id, dm_GetDevice id ≠ Panic.

Lemma preserves_add_logical_port build device port :
  well_named build device port → preserves agent_ok (add_logical_port others build device port).
Proof.
  intros Hw. unfold add_logical_port. destruct (negb _); [apply preserves_ret|].
  apply preserves_bind; [preserves_tac; apply preserves_read; intros; apply preserves_ret|].
  intros [|]; [apply preserves_ret|]. apply preserves_bind; [by apply preserves_modify|]. intros _.
  apply preserves_lift_bind. intros portCap _. intros s Hs. pose proof Hs as [(ld & Hh & Hgood) Hr].
  rewrite (sbind_run _ _ _ _ _ (portExist_run device port ld s Hh)).
  destruct (existsb _ (ld_Ports ld)) eqn:Hex; [done|].
  destruct portCap as [cap|]; [|done]. rewrite (sbind_run (lift _) _ s cap s) //. cbv zeta.
  rewrite (sbind_run _ _ _ _ _ (getLogicalDevice_run ld s Hh)). revert s Hs Hh Hr. intros s Hs _ _. revert s Hs.
  apply preserves_bind; [|intros _; preserves_tac].
  apply preserves_set_ports; [done|]. apply ports_good_snoc; [done | apply Hgood | done].
Qed.

Definition port_named (port : Port) : Prop :=
  port_Type port = ETHERNET_NNI → port_Label port = nni_name (port_PortNo port).

Lemma preserves_updateLogicalPort device port :
  port_named port → preserves agent_ok (updateLogicalPort others device port).
Proof.
  intros Hn. unfold updateLogicalPort. case_decide; [|case_decide].
  - apply preserves_bind; [apply preserves_add_logical_port, nni_well_named; auto | intros; preserves_tac].
  - apply preserves_bind; [apply preserves_add_logical_port, uni_well_named | intros; preserves_tac].
  - apply preserves_bind; [by apply preserves_attempt, preserves_buildRoutes | intros; preserves_tac].
Qed.

Lemma preserves_setup_nni device err ports :
  Forall port_named ports → preserves agent_ok (setup_nni others device err ports).
Proof.
  intros Hp. revert err. induction Hp as [|port ports Hn _ IH]; intros err; cbn [setup_nni]; [apply preserves_ret|].
  case_decide; [|done]. apply preserves_bind; [|intros r; apply preserves_bind; [preserves_tac | done]].
  apply preserves_attempt, preserves_add_logical_port, nni_well_named; auto.
Qed.

Lemma preserves_setup_uni device err ports : preserves agent_ok (setup_uni others device err ports).
Proof.
  revert err. induction ports as [|port ports IH]; intros err; cbn [setup_uni]; [apply preserves_ret|].
  case_decide; [|done]. apply preserves_bind; [|intros r; apply preserves_bind; [preserves_tac | done]].
  apply preserves_attempt, preserves_add_logical_port, uni_well_named.
Qed.

Lemma preserves_return_err err : preserves agent_ok (return_err err).
Proof. destruct err; [apply preserves_fail | apply preserves_ret]. Qed.

Lemma preserves_setup_children durations children : preserves agent_ok (setup_children others durations children).
Proof.
  revert durations. induction children as [|child children IH]; intros ds; cbn [setup_children]; [apply preserves_ret|].
  apply preserves_bind; [apply preserves_attempt|intros r; apply preserves_bind; [apply IH | intros; apply preserves_ret]].
  unfold setupUNILogicalPorts. apply preserves_bind; [apply preserves_setup_uni | intros; apply preserves_return_err].
Qed.

(** The NNI ports of the devices are labelled after their numbers. *)
Hypothesis nni_labels : ∀ id device, dm_GetDevice id = Ok device → Forall port_named (dev_Ports device).

Lemma preserves_setupLogicalPorts durations : preserves agent_ok (setupLogicalPorts others durations).
Proof.
  unfold setupLogicalPorts, setupNNILogicalPorts. preserves_tac.
  - apply preserves_setup_nni. eauto.
  - apply preserves_return_err.
  - apply preserves_setup_children.
Qed.

Lemma preserves_run_task durations t : preserves agent_ok (run_task others durations t).
Proof.
  unfold run_task. apply preserves_bind; [apply preserves_attempt | intros; apply preserves_ret].
  destruct t; [apply preserves_setupLogicalPorts | by apply preserves_buildRoutes | by apply preserves_updateRoutes].
Qed.

Lemma preserves_schedule durations i : preserves agent_ok (schedule others durations i).
Proof.
  unfold schedule. apply preserves_bind; [apply preserves_get|]. intros s. destruct (lda_tasks s !! i) as [t|]; [|apply preserves_ret].
  apply preserves_bind; [by apply preserves_modify_frame | intros; apply preserves_run_task].
Qed.

(** A change that keeps the keys and numbers of the ports. *)
Lemma ports_good_map f ports :
  (∀ lp, port_key (f lp) = port_key lp ∧ lp_PortNo (f lp) = lp_PortNo lp) → ports_good ports → ports_good (f <$> ports).
Proof.
  intros Hf [Hnd Hno]. split.
  - rewrite -list_fmap_compose. rewrite (list_fmap_ext _ port_key); [done|]. intros i lp _. apply Hf.
  - apply Forall_fmap. eapply Forall_impl; [exact Hno|]. intros lp Heq. cbn. destruct (Hf lp) as [Hk ->].
    unfold port_key in Hk. congruence.
Qed.

Lemma ports_good_insert f i lp ports :
  (∀ lp, port_key (f lp) = port_key lp ∧ lp_PortNo (f lp) = lp_PortNo lp) → ports !! i = Some lp →
  ports_good ports → ports_good (<[i := f lp]> ports).
Proof.
  intros Hf Hi [Hnd Hno]. destruct (Hf lp) as [Hk Hn]. split.
  - rewrite list_fmap_insert list_insert_id; [done|]. by rewrite list_lookup_fmap Hi Hk.
  - apply Forall_insert; [done|]. rewrite Hn. unfold port_key in Hk. injection Hk as _ -> _.
    eapply Forall_lookup in Hno; [exact Hno | done].
Qed.

Lemma ports_good_sublist ports ports' : ports' `sublist_of` ports → ports_good ports → ports_good ports'.
Proof.
  intros Hs [Hnd Hno]. split; [eapply sublist_NoDup; [exact Hnd | by apply fmap_sublist]|].
  apply Forall_forall. intros lp Hin. eapply (proj1 (Forall_forall _ _) Hno). by eapply elem_of_sublist.
Qed.

Lemma filter_sublist {A} (p : A → bool) l : List.filter p l `sublist_of` l.
Proof. induction l as [|x l IH]; [constructor|]. cbn. destruct (p x); by constructor. Qed.

Lemma preserves_change_first p f e :
  (∀ lp, port_key (f lp) = port_key lp ∧ lp_PortNo (f lp) = lp_PortNo lp) → preserves agent_ok (change_first p f e).
Proof.
  intros Hf. apply preserves_read. intros ld Hgood. destruct (find_index p _) as [i|]; [|apply preserves_fail].
  apply preserves_lift_bind. intros lp Hi. apply preserves_set_ports; [done|].
  apply ports_good_insert; [done | | apply Hgood]. unfold index in Hi. by destruct (_ !! i); simplify_eq.
Qed.

Lemma set_port_state_keeps st lp :
  port_key (set_port_state st lp) = port_key lp ∧ lp_PortNo (set_port_state st lp) = lp_PortNo lp.
Proof. unfold set_port_state. by case_decide. Qed.

(** The operations on the ports and the life of the agent after its start. *)
Inductive PortOp :=
  | op_updateLogicalPort (device : Device) (port : Port)
  | op_schedule (durations : list (option Z)) (i : nat)
  | op_updatePortState (deviceID : string) (portNo : Z) (operStatus : OperStatus)
  | op_updatePortsState (device : Device) (state : OperStatus)
  | op_enableLogicalPort (lPortID : string)
  | op_disableLogicalPort (lPortID : string)
  | op_deleteAllLogicalPorts (device : Device)
  | op_deleteLogicalPort (lPort : LogicalPort)
  | op_deleteLogicalPorts (deviceID : string)
  | op_portUpdated (args : option LogicalDevice * option LogicalDevice)
  | op_packetOut (packet : OfpPacketOut)
  | op_packetIn (port : Z) (transactionID : string) (packet : list Z)
  | op_table (m : TableMod).

Definition run_op (op : PortOp) : M (@LogicalState Store) unit :=
  match op with
  | op_updateLogicalPort device port => updateLogicalPort others device port
  | op_schedule durations i => schedule others durations i
  | op_updatePortState id no st => updatePortState id no st
  | op_updatePortsState device st => updatePortsState device st
  | op_enableLogicalPort id => enableLogicalPort id
  | op_disableLogicalPort id => disableLogicalPort id
  | op_deleteAllLogicalPorts device => deleteAllLogicalPorts device
  | op_deleteLogicalPort lp => deleteLogicalPort lp
  | op_deleteLogicalPorts id => deleteLogicalPorts id
  | op_portUpdated args => portUpdated args
  | op_packetOut packet => packetOut packet
  | op_packetIn port tid packet => packetIn port tid packet
  | op_table m => updateTable m
  end.

Definition op_ok (op : PortOp) : Prop :=
  match op with
  | op_updateLogicalPort _ port => port_named port
  | op_table m => no_overlap_check m
  | _ => True
  end.

Lemma preserves_run_op op : op_ok op → preserves agent_ok (run_op op).
Proof.
  destruct op; cbn [run_op op_ok]; intros Hop.
  - by apply preserves_updateLogicalPort.
  - apply preserves_schedule.
  - apply preserves_change_first, set_port_state_keeps.
  - apply preserves_read. intros ld Hgood. apply preserves_set_ports; [done|]. apply ports_good_map; [|apply Hgood].
    intros lp. case_decide; [apply set_port_state_keeps | done].
  - apply preserves_bind; [apply preserves_get|]. intros s. by apply preserves_change_first.
  - apply preserves_bind; [apply preserves_get|]. intros s. by apply preserves_change_first.
  - apply preserves_read. intros ld Hgood. cbv zeta. case_decide; [|apply preserves_ret].
    apply preserves_set_ports; [done|]. eapply ports_good_sublist; [apply filter_sublist | apply Hgood].
  - apply preserves_read. intros ld Hgood. destruct (find_index _ _) as [i|]; [|apply preserves_ret]. preserves_tac.
    apply preserves_set_ports; [done|]. eapply ports_good_sublist; [apply delete_at_sublist | apply Hgood].
  - apply preserves_read. intros ld Hgood. cbv zeta. preserves_tac.
    apply preserves_set_ports; [done|]. eapply ports_good_sublist; [apply filter_sublist | apply Hgood].
  - unfold portUpdated. destruct args as [[oldLD|] [newLD|]]; try apply preserves_ret. case_decide; [apply preserves_ret|].
    destruct (diff _ _) as [[a b] c]. apply preserves_bind; [apply preserves_get|]. intros s. by apply preserves_modify_frame.
  - unfold packetOut. preserves_tac.
  - by apply preserves_modify_frame.
  - by apply preserves_updateTable.
Qed.
End WithOthers.

(** ** Adding a port *)

Section AddPortFacts.
Variable others : @LogicalState Store → @LogicalState Store.

(** C34: [addUNILogicalPort] adds a port at most once, whatever the other
    goroutines do while the lock is free.  It reports an addition only when no
    port with this name was there at the moment it appended it, and then the
    cache and the data model have it at the end of the ports, the routes are
    scheduled to learn it, and nothing else changed; it reports no addition only
    when the device is not ready or the port is there; after an error the
    logical device is as the others left it. *)
Theorem add_uni_logical_port_correct (childDevice : Device) (port : Port) s :
  (∃ ld, holds ld s) → (∃ ld, holds ld (others s)) →
  dmc_getPortCapability (dev_Id childDevice) (port_PortNo port) ≠ Panic →
  let key := (dev_Id childDevice, port_PortNo port, port_Label port) in
  match addUNILogicalPort others childDevice port s with
  | (Ok true, s') => device_ready childDevice = true ∧
      ∃ ld cap s1, holds ld (others s) ∧ key ∉ port_key <$> ld_Ports ld ∧
        dmc_getPortCapability (dev_Id childDevice) (port_PortNo port) = Ok (Some cap) ∧
        now (others s) (set_ld_Ports (ld_Ports ld ++ [uni_port cap childDevice port]) ld) (lda_sent (others s)) s1 ∧
        s' = set_tasks (lda_tasks s1 ++ [UpdateRoutes (uni_port cap childDevice port)]) s1
  | (Ok false, s') => device_ready childDevice = false ∧ s' = s ∨
      (s' = s ∨ s' = others s) ∧ ∃ ld, holds ld s' ∧ key ∈ port_key <$> ld_Ports ld
  | (Err _, s') => ∃ ld, holds ld (others s) ∧ now (others s) ld (lda_sent (others s)) s'
  | (Panic, _) => dmc_getPortCapability (dev_Id childDevice) (port_PortNo port) = Ok None
  end.
Proof.
  intros [ld Hs] [ldo Hso] Hnp key. unfold addUNILogicalPort, add_logical_port.
  assert (∀ ports, existsb (same_logical_port childDevice port) ports = true ↔ key ∈ port_key <$> ports) as Hex.
  { intros ports. rewrite existsb_exists list_elem_of_fmap. split; intros (lp & Hp1 & Hp2); exists lp.
    - rewrite -list_elem_of_In in Hp1. apply same_logical_port_key in Hp2. done.
    - rewrite -list_elem_of_In. split; [done|]. by apply same_logical_port_key. }
  destruct (device_ready childDevice) eqn:Hready; cbn [negb]; [|by left].
  rewrite (sbind_run _ _ _ _ _ (portExist_run childDevice port ld s Hs)).
  destruct (existsb _ (ld_Ports ld)) eqn:Hex1; cbv iota.
  { right. split; [by left|]. exists ld. split; [done|]. by apply Hex. }
  rewrite (sbind_run (modify others) _ s tt (others s)) //.
  destruct (dmc_getPortCapability _ _) as [cap|e|] eqn:Hcap; [| |done].
  2: { rewrite (sbind_err (lift _) _ _ e (others s)) //. exists ldo. split; [done | by apply now_refl]. }
  rewrite (sbind_run (lift (Ok cap)) _ _ cap (others s)) //.
  rewrite (sbind_run _ _ _ _ _ (portExist_run childDevice port ldo (others s) Hso)).
  destruct (existsb _ (ld_Ports ldo)) eqn:Hex2; cbv iota.
  { right. split; [by right|]. exists ldo. split; [done|]. by apply Hex. }
  destruct cap as [cap|]; [|done]. rewrite (sbind_run (lift _) _ (others s) cap (others s)) //. cbv zeta.
  rewrite (sbind_run _ _ _ _ _ (getLogicalDevice_run ldo (others s) Hso)).
  destruct (update_run ldo (set_ld_Ports (ld_Ports ldo ++ [uni_port cap childDevice port]) ldo) (others s) Hso)
    as (r & s1 & Hu & [[-> Hn]|[[e ->] Hn]]).
  - rewrite (sbind_run _ _ _ _ _ Hu). cbn. split; [done|]. exists ldo, cap, s1. split_and!; try done.
    rewrite -Hex Hex2. done.
  - rewrite (sbind_err _ _ _ _ _ Hu). by exists ldo.
Qed.

End AddPortFacts.

(** an NNI port is looked up under its label but stored under the name
    "nni-" followed by its number: for a port with any other label, a second
    addition does not find the first one, and the logical device gets two ports
    with the same device, number and name. *)
Theorem nni_port_added_twice (device : Device) (port : Port) ld s s1 s2 (b1 b2 : bool) :
  holds ld s → device_ready device = true → port_Label port ≠ nni_name (port_PortNo port) →
  (dev_Id device, port_PortNo port, port_Label port) ∉ port_key <$> ld_Ports ld →
  addNNILogicalPort id device port s = (Ok b1, s1) → addNNILogicalPort id device port s1 = (Ok b2, s2) →
  b1 = true ∧ b2 = true ∧ ∃ ld2, holds ld2 s2 ∧ ¬ NoDup (port_key <$> ld_Ports ld2).
Proof.
  intros Hs Hready Hlabel Hnew.
  assert (∀ ld s s' b, holds ld s → (dev_Id device, port_PortNo port, port_Label port) ∉ port_key <$> ld_Ports ld →
    addNNILogicalPort id device port s = (Ok b, s') →
    b = true ∧ ∃ cap, holds (set_ld_Ports (ld_Ports ld ++ [nni_port cap device port]) ld) s') as Hadd.
  { clear -Hready DataProxyLaws0. intros ld s s' b Hs Hnew. unfold addNNILogicalPort, add_logical_port. rewrite Hready. cbn [negb].
    assert (existsb (same_logical_port device port) (ld_Ports ld) = false) as Hex.
    { apply not_true_iff_false. rewrite existsb_exists. intros (lp & Hin%list_elem_of_In & Hk%same_logical_port_key).
      apply Hnew. apply list_elem_of_fmap. by exists lp. }
    rewrite (sbind_run _ _ _ _ _ (portExist_run device port ld s Hs)) Hex (sbind_run (modify id) _ s tt s) //.
    destruct (dmc_getPortCapability _ _) as [cap|e|]; [|done|done]. rewrite (sbind_run (lift (Ok cap)) _ s cap s) //.
    rewrite (sbind_run _ _ _ _ _ (portExist_run device port ld s Hs)) Hex.
    destruct cap as [cap|]; [|done]. rewrite (sbind_run (lift _) _ s cap s) //. cbv zeta.
    rewrite (sbind_run _ _ _ _ _ (getLogicalDevice_run ld s Hs)).
    destruct (update_run ld (set_ld_Ports (ld_Ports ld ++ [nni_port cap device port]) ld) s Hs)
      as (r & s1 & Hu & [[-> Hn]|[[e ->] Hn]]).
    - rewrite (sbind_run _ _ _ _ _ Hu). intros [= <- <-]. split; [done|]. exists cap. apply Hn.
    - by rewrite (sbind_err _ _ _ _ _ Hu). }
  intros [-> [cap1 Hs1]]%(Hadd _ _ _ _ Hs Hnew) Hsecond.
  apply (Hadd _ _ _ _ Hs1) in Hsecond as [-> [cap2 Hs2]].
  - split_and!; [done..|]. eexists. split; [exact Hs2|]. cbn. rewrite !fmap_app. intros (_ & Hnd & _)%NoDup_app.
    eapply Hnd; [apply elem_of_app; right; by apply list_elem_of_singleton | by apply list_elem_of_singleton].
  - cbn. rewrite fmap_app elem_of_app. intros [Hin|Hin%list_elem_of_singleton]; [done|]. by injection Hin.
Qed.

(** ** Port events *)

Lemma existsb_id id ports : existsb (has_id id) ports = true ↔ id ∈ lp_Id <$> ports.
Proof.
  rewrite existsb_exists list_elem_of_fmap. split; intros (lp & Hp1 & Hp2); exists lp; rewrite ?list_elem_of_In in Hp1 Hp2 |- *.
  - by apply bool_decide_eq_true in Hp2.
  - split; [done|]. by apply bool_decide_eq_true.
Qed.

Lemma find_id ports id : NoDup (lp_Id <$> ports) → ∀ lp, find (has_id id) ports = Some lp ↔ lp ∈ ports ∧ lp_Id lp = id.
Proof.
  induction ports as [|p ports IH]; intros Hnd lp; cbn [find].
  { split; [done|]. by intros [Hin%elem_of_nil _]. }
  cbn in Hnd. apply NoDup_cons in Hnd as [Hp Hnd]. unfold has_id at 1. case_bool_decide as Hid.
  - split; [intros [= <-]; split; [by left | done]|]. intros [[->|Hin]%elem_of_cons Hlp]; [done|].
    destruct Hp. apply list_elem_of_fmap. exists lp. by rewrite Hlp.
  - rewrite (IH Hnd) elem_of_cons. split; [tauto|]. intros [[->|Hin] Hlp]; [done | tauto].
Qed.

(** An update of the ports tells the controller exactly what changed.  When
    the names of the ports are distinct in the old and in the new logical
    device, the events sent are one ADD per new name, one MODIFY per name whose
    port differs, and one DELETE per name that is gone, each with the OpenFlow
    port concerned. *)
Theorem port_updated_events (oldLD newLD : LogicalDevice) s s' :
  NoDup (lp_Id <$> ld_Ports oldLD) → NoDup (lp_Id <$> ld_Ports newLD) →
  portUpdated (Some oldLD, Some newLD) s = (Ok tt, s') →
  let old := ld_Ports oldLD in
  let new := ld_Ports newLD in
  ∃ events, lda_sent s' = lda_sent s ++ events ∧
    ∀ e, e ∈ events ↔ ∃ reason lp, e = EventPortStatus (lda_logicalDeviceID s) reason (lp_OfpPort lp) ∧
      (reason = OFPPR_ADD ∧ lp ∈ new ∧ lp_Id lp ∉ lp_Id <$> old ∨
       reason = OFPPR_MODIFY ∧ lp ∈ new ∧ (∃ o, o ∈ old ∧ lp_Id o = lp_Id lp ∧ o ≠ lp) ∨
       reason = OFPPR_DELETE ∧ lp ∈ old ∧ lp_Id lp ∉ lp_Id <$> new).
Proof.
  intros Ho Hn Hrun old new. unfold portUpdated in Hrun. fold old new in Hrun, Ho, Hn.
  assert (∀ (p : LogicalPort → bool) l lp, lp ∈ List.filter p l ↔ lp ∈ l ∧ p lp = true) as Hfilter.
  { intros p l lp. by rewrite !list_elem_of_In filter_In. }
  assert (∀ lp l, negb (existsb (has_id (lp_Id lp)) l) = true ↔ lp_Id lp ∉ lp_Id <$> l) as Hneg.
  { intros lp l. rewrite negb_true_iff -not_true_iff_false existsb_id. done. }
  assert (∀ lp, match find (has_id (lp_Id lp)) old with Some o => negb (bool_decide (o = lp)) | None => false end = true
     ↔ ∃ o, o ∈ old ∧ lp_Id o = lp_Id lp ∧ o ≠ lp) as Hch.
  { intros lp. pose proof (find_id old (lp_Id lp) Ho) as Hf. destruct (find _ old) as [o|]; split.
    - intros Hb%negb_true_iff%bool_decide_eq_false. exists o. destruct (proj1 (Hf o) eq_refl). done.
    - intros (o' & Hin & Hid & Hne). assert (Some o = Some o') as [= ->] by by apply Hf.
      by apply negb_true_iff, bool_decide_eq_false.
    - done.
    - intros (o & Hin & Hid & _). by assert (None = Some o) by by apply Hf. }
  case_decide as Heq.
  - injection Hrun as <-. exists []. rewrite app_nil_r. split; [done|]. intros e. split; [by intros Hin%elem_of_nil|].
    intros (reason & lp & _ & [(_ & Hin & Hno)|[(_ & Hin & (o & Hin' & Hid & Hne))|(_ & Hin & Hno)]]); exfalso.
    + apply Hno. rewrite Heq. apply list_elem_of_fmap. by exists lp.
    + apply Hne. rewrite -Heq in Hin. pose proof (find_id old (lp_Id lp) Ho) as Hf.
      assert (Some o = Some lp) as [= ->]; [|done]. rewrite -(proj2 (Hf o)) //. by apply Hf.
    + apply Hno. rewrite -Heq. apply list_elem_of_fmap. by exists lp.
  - cbn in Hrun. injection Hrun as <-. eexists. split; [reflexivity|]. intros e. rewrite !elem_of_app !list_elem_of_fmap. split.
    + intros [(lp & -> & [Hin Hp]%Hfilter)|[(lp & -> & [Hin Hp]%Hfilter)|(lp & -> & [Hin Hp]%Hfilter)]]; eexists _, lp; (split; [done|]).
      * left. by apply Hneg in Hp.
      * right; left. by apply Hch in Hp.
      * right; right. by apply Hneg in Hp.
    + intros (reason & lp & -> & [(-> & Hin & Hp)|[(-> & Hin & Hp)|(-> & Hin & Hp)]]).
      * left. exists lp. split; [done|]. apply Hfilter. split; [done | by apply Hneg].
      * right; left. exists lp. split; [done|]. apply Hfilter. split; [done | by apply Hch].
      * right; right. exists lp. split; [done|]. apply Hfilter. split; [done | by apply Hneg].
Qed.

End PortFacts.

(** ** Runs of the agent *)

Section Runs.
Context {Store : Type} `{DataProxy LogicalDevice Store, ProtoText, !DataProxyLaws LogicalDevice Store}.

(** The states an agent can reach from [s].  Each operation meets a device
    manager and an iteration order of its own, and other goroutines that may do
    anything the agent does. *)
Inductive reaches : @LogicalState Store → @LogicalState Store → Prop :=
  | reaches_refl s : reaches s s
  | reaches_op (range : GoRange) (view : DeviceManagerView) (calls : DeviceManagerCalls)
      (others : LogicalState → LogicalState) op s s1 :
      reaches s s1 → (∀ s2, reaches s2 (others s2)) →
      (∀ id, dm_GetDevice id ≠ Panic) →
      (∀ id device, dm_GetDevice id = Ok device → Forall port_named (dev_Ports device)) →
      op_ok op → reaches s (run_op others op s1).2.

(** C6: the state of the logical device agent stays sound under every
    interleaving of its operations.  A started agent (with a new logical device,
    or with a good one loaded from the data model) reaches only states in which
    the cache and the data model hold the same logical device, no two flows have
    the same key, no two meters the same id, no two groups the same number, no
    two ports the same name on the same device port, every logical port has the
    number of its device port, and every route has two hops; provided no flow
    asks for an overlap check and the NNI ports are labelled after their
    numbers. *)
Theorem logical_agent_invariant (range : GoRange) (view : DeviceManagerView) (calls : DeviceManagerCalls)
    (loadFromdB : bool) (createProxy : string → outcome bool) s0 s s' :
  lda_deviceRoutes s0 = None →
  (loadFromdB = true → ∀ ld, dp_get (lda_logicalDeviceID s0) (lda_store s0) = Ok (Some ld) → ld_good ld) →
  (∀ ld st, dp_add (lda_logicalDeviceID s0) ld (lda_store s0) ≠ (UpdNil, st)) →
  start loadFromdB createProxy s0 = (Ok tt, s) → reaches s s' → agent_ok s'.
Proof.
  intros Hdr Hload Hadd Hstart Hreach.
  assert (agent_ok s) as Hs.
  { unfold start in Hstart. apply sbind_Ok in Hstart as (s1 & s1' & [= <- <-] & Hstart).
    apply sbind_Ok in Hstart as ([] & s1 & Hinit & Hrest).
    assert (agent_ok s1) as Hs1.
    { destruct loadFromdB.
      - destruct (dp_get _ _) as [[ld|]| |] eqn:Hget; [|done..]. cbn in Hinit. injection Hinit as <-.
        split; [|cbn; by rewrite Hdr]. exists ld. split; [|by apply Hload]. by split.
      - apply sbind_Ok in Hinit as (cap & s2 & [= _ <-] & Hinit). apply sbind_Ok in Hinit as (dpid & s2 & [= _ <-] & Hinit).
        destruct (dp_add _ _ _) as [r st] eqn:Hr. cbn in Hinit.
        destruct r as [| |e]; cbn in Hinit; [|by destruct (Hadd _ _ Hr)|done]. injection Hinit as <-.
        split; [|cbn; by rewrite Hdr]. eexists. split; [split; [reflexivity | exact (dp_add_get _ _ _ _ Hr)]|].
        unfold ld_good, flows_good, meters_good, groups_good, ports_good; cbn.
        split_and!; first [apply NoDup_nil_2 | apply Forall_nil_2]. }
    assert (preserves agent_ok
      (let* _ := lift (createProxy "flows") in let* _ := lift (createProxy "meters") in
       let* _ := lift (createProxy "flow_groups") in let* ldProxy := lift (createProxy "") in
       let* _ := (if (ldProxy : bool) then ret tt else fail (Status Internal "logical-device-proxy-null")) in
       if loadFromdB then spawn (Store := Store) BuildRoutes else ret tt)) as Hpres.
    { pose proof (preserves_spawn (Store := Store)). preserves_tac. }
    specialize (Hpres s1 Hs1). by rewrite Hrest in Hpres. }
  clear Hstart Hload Hadd. revert Hs. induction Hreach as [|range' view' calls' others op s s1 _ IH Hothers IHothers Hdm Hlabels Hop]; [done|].
  intros Hs. by apply preserves_run_op; [apply IHothers | | | | apply IH].
Qed.
End Runs.

(** ** Concrete ports *)

#[local] Existing Instances map_proxy map_proxy_laws canonical_range sample_manager sample_calls sample_text.

Definition sample_uni : Port := mkPort 17 "uni-17" ETHERNET_UNI Admin_ENABLED Oper_ACTIVE "" [] 0 0 0 0 0 0.
Definition sample_nni (label : string) : Port := mkPort 10 label ETHERNET_NNI Admin_ENABLED Oper_ACTIVE "" [] 0 0 0 0 0 0.

Lemma add_uni_logical_port_correct_witness :
  let s := sample_lda (sample_ld [] [] []) in
  ∃ s' ld', addUNILogicalPort id sample_onu sample_uni s = (Ok true, s') ∧ holds ld' s' ∧
    lp_Id <$> last (ld_Ports ld') = Some "uni-17".
Proof.
  intros s. assert (dmc_getPortCapability (dev_Id sample_onu) (port_PortNo sample_uni) ≠ Panic) as Hnp by by vm_compute.
  pose proof (add_uni_logical_port_correct id sample_onu sample_uni s
    (ex_intro (λ ld, holds ld s) _ (sample_holds _)) (ex_intro (λ ld, holds ld s) _ (sample_holds _)) Hnp) as Hc. cbv zeta in Hc.
  destruct (addUNILogicalPort id sample_onu sample_uni s) as [[[]|e|] s'] eqn:Heq; [|by vm_compute in Heq..].
  destruct Hc as (_ & ld & cap & s1 & _ & _ & _ & Hn & ->).
  exists (set_tasks (lda_tasks s1 ++ [UpdateRoutes (uni_port cap sample_onu sample_uni)]) s1). eexists. split; [reflexivity|].
  split; [apply Hn|]. cbn [ld_Ports set_ld_Ports]. by rewrite last_snoc.
Defined.

Lemma nni_port_added_twice_witness :
  let s := sample_lda (sample_ld [] [] []) in
  ∃ s1 s2 ld2, addNNILogicalPort id sample_olt (sample_nni "pon") s = (Ok true, s1) ∧
    addNNILogicalPort id sample_olt (sample_nni "pon") s1 = (Ok true, s2) ∧
    holds ld2 s2 ∧ ¬ NoDup (port_key <$> ld_Ports ld2).
Proof.
  intros s.
  destruct (addNNILogicalPort id sample_olt (sample_nni "pon") s) as [r1 s1] eqn:H1.
  destruct (addNNILogicalPort id sample_olt (sample_nni "pon") s1) as [r2 s2] eqn:H2.
  assert (r1 = Ok true) as -> by (vm_compute in H1; by injection H1 as <- _).
  assert (r2 = Ok true) as ->.
  { vm_compute in H1. injection H1 as <-. vm_compute in H2. by injection H2 as <- _. }
  destruct (nni_port_added_twice sample_olt (sample_nni "pon") (sample_ld [] [] []) s s1 s2 true true
    (sample_holds _) eq_refl) as (_ & _ & ld2 & Hh & Hnd);
    [by vm_compute | apply (bool_decide_unpack _); by vm_compute | exact H1 | exact H2 |].
  exists s1, s2, ld2. split_and!; [reflexivity | exact H2 | exact Hh | exact Hnd].
Defined.

Lemma port_updated_events_witness :
  let s := sample_lda (sample_ld [] [] []) in
  let old := sample_ld [] [] [] in
  let added := uni_port (sample_lp 0 "" 0 false) sample_onu sample_uni in
  let new := set_ld_Ports [added] old in
  ∃ s', portUpdated (Some (set_ld_Ports [] old), Some new) s = (Ok tt, s') ∧
    EventPortStatus "ld" OFPPR_ADD (lp_OfpPort added) ∈ lda_sent s'.
Proof.
  intros s old added new.
  destruct (portUpdated (Some (set_ld_Ports [] old), Some new) s) as [r s'] eqn:Heq.
  assert (r = Ok tt) as -> by (vm_compute in Heq; by injection Heq as <- _).
  destruct (port_updated_events (set_ld_Ports [] old) new s s' (NoDup_nil_2) (NoDup_singleton _) Heq) as (events & Hs & Hiff).
  exists s'. split; [done|]. rewrite Hs. apply elem_of_app. right. apply Hiff. exists OFPPR_ADD, added.
  split; [done|]. left. split_and!; [done | by left | intros Hin; inversion Hin].
Defined.

Definition new_agent : @LogicalState (gmap string LogicalDevice) := newLogicalDeviceAgent "0a" "olt" ∅ [] 1000.

Lemma logical_agent_invariant_witness :
  ∃ s, start false (λ _, Ok true) new_agent = (Ok tt, s) ∧
    agent_ok (run_op id (op_updateLogicalPort sample_onu sample_uni) s).2.
Proof.
  destruct (start false (λ _, Ok true) new_agent) as [r s] eqn:Hstart.
  assert (r = Ok tt) as -> by (vm_compute in Hstart; by injection Hstart as <- _).
  exists s. split; [done|].
  apply (logical_agent_invariant canonical_range sample_manager sample_calls false (λ _, Ok true) new_agent s);
    [done | done | done | exact Hstart |].
  apply reaches_op; [apply reaches_refl | intros s2; apply reaches_refl | apply sample_answers | |done].
  intros id device. unfold dm_GetDevice, sample_manager, sample_model.
  repeat case_decide; intros [= <-]; repeat (apply Forall_cons; split); try apply Forall_nil_2; done.
Defined.
