(* ===== verification/KVStore.v ===== *)
(** * Key-value store interface

    The client of the key-value store ([kvstore.Client], a vendored library
    backed by etcd), as far as the ownership of devices and the transactions
    between cores use it, with what they rely on.  Both are proved against the
    interface; [map_kv] is a store that satisfies it. *)

From S2P Require Import Prelude.

(** A value of the store is an [interface{}]. *)
Inductive KVValue := KVString (s : string) | KVBytes (s : string) | KVOther (type : string).

Definition ToString (value : KVValue) : outcome string :=
  match value with
  | KVBytes s | KVString s => Ok s
  | KVOther t => Err (Plain ("unexpected-type-" +:+ t))
  end.

(** The operations of the client [client].  [kv_view] is the content of the
    store: the value of each key that is present and whose lease did not expire. *)
Class KVClient (KV : Type) := {
  kv_Reserve : ∀ (client key value : string) (ttl : Z), KV → option KVValue * option GoError * KV;
  kv_RenewReservation : ∀ (client key : string), KV → option GoError * KV;
  kv_Get : ∀ (client key : string), KV → option KVValue * option GoError;
  kv_Put : ∀ (client key value : string), KV → option GoError * KV;
  kv_Delete : ∀ (client key : string), KV → option GoError * KV;
  kv_view : KV → string → option string
}.

(** The documentation of the client: a value returned by [Reserve] is the value
    now assigned to the key, the one passed in or that of an earlier owner; a
    reservation changes no key that is taken, and neither does a renewal. *)
Class KVLaws (KV : Type) `{KVClient KV} : Prop := {
  kv_reserve_value : ∀ c k v ttl s x e s',
    kv_Reserve c k v ttl s = (Some x, e, s') → ∃ w, ToString x = Ok w ∧ kv_view s' k = Some w;
  kv_reserve_taken : ∀ c k v ttl s k' w,
    kv_view s k' = Some w → kv_view (kv_Reserve c k v ttl s).2 k' = Some w;
  kv_renew_view : ∀ c k s k', kv_view (kv_RenewReservation c k s).2 k' = kv_view s k'
}.

(** A store that answers: the reservation of a free key succeeds, and a key is
    read as it is.  A write may still fail, leaving the key as it was. *)
Class KVReliable (KV : Type) `{KVClient KV} : Prop := {
  kv_reserve_free : ∀ c k v ttl s,
    kv_view s k = None → (kv_Reserve c k v ttl s).1 = (Some (KVString v), None);
  kv_get_absent : ∀ c k s, kv_view s k = None → (kv_Get c k s).1 = None;
  kv_get_present : ∀ c k s w,
    kv_view s k = Some w → ∃ x, (kv_Get c k s).1 = Some x ∧ ToString x = Ok w;
  kv_put_view : ∀ c k v s,
    kv_view (kv_Put c k v s).2 k = Some v ∨ kv_view (kv_Put c k v s).2 k = kv_view s k
}.

(** ** A concrete store: a finite map from keys to values *)

Definition map_kv : KVClient (gmap string string) := {|
  kv_Reserve c k v ttl s :=
    match s !! k with
    | Some w => (Some (KVBytes w), None, s)
    | None => (Some (KVString v), None, <[k := v]> s)
    end;
  kv_RenewReservation c k s :=
    (match s !! k with
     | Some w => if decide (w = c) then None else Some (Plain "lease-expired")
     | None => Some (Plain "lease-may-have-expired")
     end, s);
  kv_Get c k s := (KVBytes <$> s !! k, None);
  kv_Put c k v s := (None, <[k := v]> s);
  kv_Delete c k s := (None, delete k s);
  kv_view s k := s !! k
|}.

Lemma map_kv_laws : @KVLaws _ map_kv.
Proof.
  split; simpl.
  - intros c k v ttl s x e s'. destruct (s !! k) eqn:Hk; intros [= <- <- <-]; eexists; (split; [done|]).
    + done.
    + by rewrite lookup_insert_eq.
  - intros c k v ttl s k' w Hw. destruct (s !! k) eqn:Hk; simpl; [done|].
    rewrite lookup_insert_ne; [done | congruence].
  - done.
Qed.

Lemma map_kv_reliable : @KVReliable _ map_kv.
Proof.
  split; simpl.
  - intros c k v ttl s Hk. by rewrite Hk.
  - intros c k s Hk. by rewrite Hk.
  - intros c k s w Hk. rewrite Hk. by eexists.
  - intros c k v s. left. by rewrite lookup_insert_eq.
Qed.
