(* ===== verification/Ownership.v ===== *)
(** * Device ownership

    [rw_core/core/device_ownership.go]: which root devices this core manages.
    The core reserves a key of the key-value store per root device, with a lease
    that a goroutine per device renews; another core takes the device over when
    the lease expires.  Each method runs under the locks of the structure and is
    one state transformer; the monitoring goroutines are part of the state, and
    take steps of their own. *)

From S2P Require Import Prelude VolthaTypes KVStore.

(** The identifier a request carries: an [interface{}]. *)
Inductive RequestID :=
  | NilID
  | DeviceID (ID : string)
  | LogicalDeviceID (ID : string)
  | OtherID (printed : string).

(** The managers, as far as the ownership uses them: [None] is a nil device. *)
Record Managers := mkManagers {
  mg_GetDevice : string → option Device;
  mg_getLogicalDevice : string → option LogicalDevice }.

Section Ownership.
Context {KV : Type} `{KVClient KV, GoRange}.

(** ** State *)

(** A channel is a number; [do_closed] are the closed ones. *)
Record ownership := mkOwnership { own_id : string; own_owned : bool; own_chnl : nat }.

(** [do_monitors] are the running monitoring goroutines, with the key and the
    channel each was started with; [do_exitChannel] is the number of messages in
    the buffer of [exitChannel]. *)
Record DeviceOwnership := mkDO {
  do_instanceID : string; do_ownershipPrefix : string; do_reservationTimeout : Z;
  do_exitChannel : nat; do_deviceMap : gmap string ownership; do_deviceToKeyMap : gmap string string;
  do_kvClient : KV; do_nextChnl : nat; do_closed : gset nat; do_monitors : list (string * nat) }.

Definition set_exitChannel v (s : DeviceOwnership) := mkDO (do_instanceID s) (do_ownershipPrefix s)
  (do_reservationTimeout s) v (do_deviceMap s) (do_deviceToKeyMap s) (do_kvClient s) (do_nextChnl s)
  (do_closed s) (do_monitors s).
Definition set_deviceMap v (s : DeviceOwnership) := mkDO (do_instanceID s) (do_ownershipPrefix s)
  (do_reservationTimeout s) (do_exitChannel s) v (do_deviceToKeyMap s) (do_kvClient s) (do_nextChnl s)
  (do_closed s) (do_monitors s).
Definition set_deviceToKeyMap v (s : DeviceOwnership) := mkDO (do_instanceID s) (do_ownershipPrefix s)
  (do_reservationTimeout s) (do_exitChannel s) (do_deviceMap s) v (do_kvClient s) (do_nextChnl s)
  (do_closed s) (do_monitors s).
Definition set_kvClient v (s : DeviceOwnership) := mkDO (do_instanceID s) (do_ownershipPrefix s)
  (do_reservationTimeout s) (do_exitChannel s) (do_deviceMap s) (do_deviceToKeyMap s) v (do_nextChnl s)
  (do_closed s) (do_monitors s).
Definition set_nextChnl v (s : DeviceOwnership) := mkDO (do_instanceID s) (do_ownershipPrefix s)
  (do_reservationTimeout s) (do_exitChannel s) (do_deviceMap s) (do_deviceToKeyMap s) (do_kvClient s) v
  (do_closed s) (do_monitors s).
Definition set_closed v (s : DeviceOwnership) := mkDO (do_instanceID s) (do_ownershipPrefix s)
  (do_reservationTimeout s) (do_exitChannel s) (do_deviceMap s) (do_deviceToKeyMap s) (do_kvClient s)
  (do_nextChnl s) v (do_monitors s).
Definition set_monitors v (s : DeviceOwnership) := mkDO (do_instanceID s) (do_ownershipPrefix s)
  (do_reservationTimeout s) (do_exitChannel s) (do_deviceMap s) (do_deviceToKeyMap s) (do_kvClient s)
  (do_nextChnl s) (do_closed s) v.

Definition NewDeviceOwnership (id : string) (kvClient : KV) (ownershipPrefix : string)
    (reservationTimeout : Z) : DeviceOwnership :=
  mkDO id ownershipPrefix reservationTimeout 0 ∅ ∅ kvClient 0 ∅ [].

(** [make(chan int)] and [close(ch)]: closing a closed channel panics. *)
Definition make_chnl : M DeviceOwnership nat := λ s,
  (Ok (do_nextChnl s), set_nextChnl (S (do_nextChnl s)) s).
Definition close_chnl (ch : nat) : M DeviceOwnership unit := λ s,
  if decide (ch ∈ do_closed s) then (Panic, s) else (Ok tt, set_closed ({[ch]} ∪ do_closed s) s).

(** ** Reservations *)

Definition kv_key (prefix id : string) : string := prefix +:+ "_" +:+ id.
Definition kvKey (s : DeviceOwnership) (id : string) : string := kv_key (do_ownershipPrefix s) id.

(** An owner of an unexpected type reads as the empty string. *)
Definition owner_string (value : KVValue) : string :=
  match ToString value with Ok o => o | _ => EmptyString end.

Definition tryToReserveKey (id : string) : M DeviceOwnership bool := λ s,
  let '(value, err, kv) := kv_Reserve (do_instanceID s) (kvKey s id) (do_instanceID s)
                             (do_reservationTimeout s) (do_kvClient s) in
  (Ok match value with
      | Some v => bool_decide (owner_string v = do_instanceID s)
      | None => false
      end, set_kvClient kv s).

Definition renewReservation (id : string) : M DeviceOwnership bool := λ s,
  let (err, kv) := kv_RenewReservation (do_instanceID s) (kvKey s id) (do_kvClient s) in
  (Ok match err with Some _ => false | None => true end, set_kvClient kv s).

(** ** The table of the devices *)

Definition getOwnership (id : string) : M DeviceOwnership (bool * bool) := gets (λ s,
  match do_deviceMap s !! id with
  | Some o => (true, own_owned o)
  | None => (false, false)
  end).

Definition set_owned (owner : bool) (o : ownership) := mkOwnership (own_id o) owner (own_chnl o).

Definition setOwnership (id : string) (owner : bool) : M DeviceOwnership unit :=
  let* s := get in
  match do_deviceMap s !! id with
  | Some o => put (set_deviceMap (<[id := set_owned owner o]> (do_deviceMap s)) s)
  | None => fail (Status NotFound ("id-inexistent-" +:+ id))
  end.

Definition GetAllDeviceIdsOwnedByMe : M DeviceOwnership (list string) := gets (λ s,
  own_id ∘ snd <$> List.filter (λ e, own_owned e.2) (go_range (do_deviceMap s))).

(** ** The key of a request *)

(** The error of an unknown logical device prints [dID], which is nil there. *)
Definition getOwnershipKey (mg : Managers) (id : RequestID)
    : M DeviceOwnership (string * string * bool) :=
  let* s := get in
  match id with
  | NilID => fail (Status InvalidArgument "nil-id")
  | DeviceID dID =>
      match do_deviceToKeyMap s !! dID with
      | Some val => ret (val, dID, true)
      | None =>
          match mg_GetDevice mg dID with
          | None => fail (Status NotFound ("id-absent-&{" +:+ dID +:+ "}"))
          | Some device =>
              ret (if dev_Root device then dev_Id device else dev_ParentId device, dID, false)
          end
      end
  | LogicalDeviceID ldID =>
      match do_deviceToKeyMap s !! ldID with
      | Some val => ret (val, ldID, true)
      | None =>
          match mg_getLogicalDevice mg ldID with
          | None => fail (Status NotFound "id-absent-%!s(*utils.DeviceID=<nil>)")
          | Some lDevice => ret (ld_RootDeviceId lDevice, ldID, false)
          end
      end
  | OtherID printed => fail (Status NotFound ("id-" +:+ printed))
  end.

(** ** Ownership of a device *)

(** The period of the ticker, in seconds; [NewTicker] panics unless it is
    positive, in the new goroutine and before anything else it does. *)
Definition ticker_period (reservationTimeout : Z) : Z := Z.quot reservationTimeout 3.

Definition start_monitor (id : string) (chnl : nat) : M DeviceOwnership unit :=
  let* s := get in
  if 0 <? ticker_period (do_reservationTimeout s)
  then put (set_monitors (do_monitors s ++ [(id, chnl)]) s) else panic.

Definition OwnedByMe (mg : Managers) (id : RequestID) : M DeviceOwnership bool :=
  let* (ownershipKey, idStr, cache) := getOwnershipKey mg id in
  let* _ := if (cache : bool) then ret tt
            else modify (λ s, set_deviceToKeyMap (<[idStr := ownershipKey]> (do_deviceToKeyMap s)) s) in
  let* (deviceOwned, ownedByMe) := getOwnership ownershipKey in
  if (deviceOwned : bool) then ret ownedByMe
  else
    let* reservedByMe := tryToReserveKey ownershipKey in
    let* myChnl := make_chnl in
    let* _ := modify (λ s, set_deviceMap
                (<[ownershipKey := mkOwnership ownershipKey reservedByMe myChnl]> (do_deviceMap s)) s) in
    let* _ := start_monitor ownershipKey myChnl in
    ret reservedByMe.

Definition deleteDeviceKey (id : string) : M DeviceOwnership unit :=
  modify (λ s, set_deviceToKeyMap (delete id (do_deviceToKeyMap s)) s).

Definition AbandonDevice (id : string) : M DeviceOwnership unit :=
  if decide (id = EmptyString) then fail (Status FailedPrecondition "id-nil")
  else
    let* s := get in
    match do_deviceMap s !! id with
    | Some o =>
        let* _ := modify (λ s, set_deviceToKeyMap (filter (λ kv, kv.2 ≠ id) (do_deviceToKeyMap s)) s) in
        let* _ := modify (λ s, set_deviceMap (delete id (do_deviceMap s)) s) in
        let* _ := close_chnl (own_chnl o) in
        modify (λ s, set_deviceMap (delete id (do_deviceMap s)) s)
    | None => deleteDeviceKey id
    end.

Definition abandonAllDevices : M DeviceOwnership unit :=
  let* _ := modify (set_deviceToKeyMap ∅) in
  let* s := get in
  for_each (λ e, close_chnl (own_chnl e.2)) (go_range (do_deviceMap s)).

(** The send to [exitChannel] blocks while its buffer, of one message, is full;
    see [op_enabled]. *)
Definition Stop : M DeviceOwnership unit :=
  let* _ := modify (λ s, set_exitChannel (S (do_exitChannel s)) s) in
  abandonAllDevices.

(** ** The monitoring goroutine *)

(** What wakes the select of the goroutine. *)
Inductive wake := ExitMessage | Tick | ChnlClosed.

(** One round of the loop, for the goroutine at position [i] of the list. *)
Definition monitorOwnership (i : nat) (id : string) (w : wake) : M DeviceOwnership unit :=
  match w with
  | ExitMessage =>
      let* _ := modify (λ s, set_exitChannel (pred (do_exitChannel s)) s) in
      modify (λ s, set_monitors (delete_at i (do_monitors s)) s)
  | ChnlClosed => modify (λ s, set_monitors (delete_at i (do_monitors s)) s)
  | Tick =>
      let* (deviceOwned, ownedByMe) := getOwnership id in
      if deviceOwned && ownedByMe
      then let* _ := renewReservation id in ret tt
      else
        let* reserved := tryToReserveKey id in
        let* _ := attempt (setOwnership id reserved) in ret tt
  end.

(** ** Runs *)

(** What can happen in a core: a call, with the devices the managers know at
    that time, or a round of a goroutine. *)
Inductive own_op :=
  | OpOwnedByMe (mg : Managers) (id : RequestID)
  | OpAbandonDevice (id : string)
  | OpStop
  | OpMonitor (i : nat) (w : wake).

Definition run_own_op (op : own_op) : M DeviceOwnership unit :=
  match op with
  | OpOwnedByMe mg id => let* _ := OwnedByMe mg id in ret tt
  | OpAbandonDevice id => AbandonDevice id
  | OpStop => Stop
  | OpMonitor i w =>
      let* s := get in
      match do_monitors s !! i with
      | Some (id, chnl) => monitorOwnership i id w
      | None => ret tt
      end
  end.

(** When it can happen: a channel is received from only when it is ready. *)
Definition op_enabled (op : own_op) (s : DeviceOwnership) : Prop :=
  match op with
  | OpStop => do_exitChannel s = O
  | OpMonitor i w =>
      match do_monitors s !! i with
      | Some (id, chnl) =>
          match w with
          | Tick => True
          | ExitMessage => (0 < do_exitChannel s)%nat
          | ChnlClosed => chnl ∈ do_closed s
          end
      | None => False
      end
  | _ => True
  end.

Inductive own_step (s : DeviceOwnership) : DeviceOwnership → Prop :=
  own_step_intro op :
    op_enabled op s → op ≠ OpStop → own_step s (run_own_op op s).2.

End Ownership.

(** ** One live monitoring goroutine per device *)

Section Invariant.
Context {KV : Type} `{KVClient KV, GoRange}.
Notation S := (DeviceOwnership (KV := KV)).
Implicit Types s : S.

(** The goroutines of a key that nobody told to stop. *)
Definition live_monitors s (k : string) : list (string * nat) :=
  filter (λ m : string * nat, m.1 = k ∧ m.2 ∉ do_closed s) (do_monitors s).

Record own_inv s : Prop := {
  oi_period : 0 < ticker_period (do_reservationTimeout s);
  oi_exit : do_exitChannel s = O;
  oi_closed : ∀ ch, ch ∈ do_closed s → (ch < do_nextChnl s)%nat;
  oi_map : ∀ k o, do_deviceMap s !! k = Some o →
    own_id o = k ∧ own_chnl o ∉ do_closed s ∧ (k, own_chnl o) ∈ do_monitors s;
  oi_monitors : ∀ k ch, (k, ch) ∈ do_monitors s → (ch < do_nextChnl s)%nat ∧
    (ch ∈ do_closed s ∨ ∃ o, do_deviceMap s !! k = Some o ∧ own_chnl o = ch);
  oi_nodup : NoDup (do_monitors s).*2
}.

(** A state that differs only in the store, the keys of the requests and who
    owns what. *)
Definition same_shape s s' : Prop :=
  do_reservationTimeout s' = do_reservationTimeout s ∧ do_exitChannel s' = do_exitChannel s ∧
  do_nextChnl s' = do_nextChnl s ∧ do_closed s' = do_closed s ∧ do_monitors s' = do_monitors s ∧
  ∀ k, (λ o, (own_id o, own_chnl o)) <$> do_deviceMap s' !! k =
       (λ o, (own_id o, own_chnl o)) <$> do_deviceMap s !! k.

Lemma inv_shape s s' : same_shape s s' → own_inv s → own_inv s'.
Proof.
  intros (Et & Ee & En & Ec & Em & Hmap) [Hp Hx Hc Hd Hm Hnd].
  split; rewrite ?Et ?Ee ?En ?Ec ?Em; [done | done | done | | | done].
  - intros k o Ho. specialize (Hmap k). rewrite Ho in Hmap. symmetry in Hmap.
    apply fmap_Some in Hmap as (o' & Ho' & [= Eid Ech]). rewrite Eid Ech. by apply Hd.
  - intros k ch Hin. destruct (Hm k ch Hin) as [Hlt [Hcl|(o & Ho & Hch)]]; (split; [done|]); [by left | right].
    specialize (Hmap k). rewrite Ho in Hmap. apply fmap_Some in Hmap as (o' & Ho' & [= Eid Ech]).
    exists o'. by rewrite -Ech.
Qed.

Lemma shape_refl s : same_shape s s.
Proof. done. Qed.
Lemma shape_kv s kv : same_shape s (set_kvClient kv s).
Proof. done. Qed.
Lemma shape_keys s m : same_shape s (set_deviceToKeyMap m s).
Proof. done. Qed.
Lemma shape_owned s k o b :
  do_deviceMap s !! k = Some o → same_shape s (set_deviceMap (<[k := set_owned b o]> (do_deviceMap s)) s).
Proof.
  intros Ho. do 5 (split; [done|]). intros k'. simpl.
  destruct (decide (k' = k)) as [->|]; [by rewrite lookup_insert_eq Ho | by rewrite lookup_insert_ne].
Qed.

Definition safe (P : S → Prop) {A} (m : M S A) : Prop := spec P m (λ _, own_inv) (λ _, own_inv).

Lemma getOwnershipKey_run mg id s :
  ∃ r, getOwnershipKey mg id s = (r, s) ∧ r ≠ Panic.
Proof.
  unfold getOwnershipKey, sbind, get. simpl.
  destruct id; simpl; repeat case_match; eexists; split; done.
Qed.

(** A new channel with its goroutine. *)
Lemma inv_new_monitor s k owned :
  own_inv s → do_deviceMap s !! k = None →
  own_inv (set_monitors (do_monitors s ++ [(k, do_nextChnl s)])
    (set_deviceMap (<[k := mkOwnership k owned (do_nextChnl s)]> (do_deviceMap s))
      (set_nextChnl (Datatypes.S (do_nextChnl s)) s))).
Proof.
  intros [Hp Hx Hc Hd Hm Hnd] Hk. split; simpl; [done | done | | | |].
  - intros ch Hch. specialize (Hc ch Hch). lia.
  - intros k' o. destruct (decide (k' = k)) as [->|Hne].
    + rewrite lookup_insert_eq. intros [= <-]. simpl. split; [done|]. split; [|set_solver].
      intros Hin. specialize (Hc _ Hin). lia.
    + rewrite lookup_insert_ne; last done. intros Ho. destruct (Hd k' o Ho) as (? & ? & ?). set_solver.
  - intros k' ch. rewrite elem_of_app list_elem_of_singleton. intros [Hin|[= -> ->]].
    + destruct (Hm k' ch Hin) as [Hlt Hor]. split; [lia|].
      destruct Hor as [?|(o & Ho & ?)]; [by left | right]. exists o. split; [|done].
      rewrite lookup_insert_ne; [done | congruence].
    + split; [lia|]. right. eexists. split; [by rewrite lookup_insert_eq | done].
  - rewrite fmap_app. simpl. apply NoDup_app. split; [done|]. split; [|apply NoDup_singleton].
    intros ch (m & Hch & Hin)%list_elem_of_fmap ->%list_elem_of_singleton.
    destruct m as [k' ch']. destruct (Hm k' ch' Hin) as [Hlt _]. simpl in *. lia.
Qed.

Lemma inv_OwnedByMe mg id : safe own_inv (OwnedByMe mg id).
Proof.
  intros s Hs. unfold OwnedByMe, sbind.
  destruct (getOwnershipKey_run mg id s) as ([[[key idStr] cache]|e|] & -> & Hnp); [|done|done].
  set (s1 := if cache then s else set_deviceToKeyMap (<[idStr := key]> (do_deviceToKeyMap s)) s).
  assert (own_inv s1) as Hs1. { unfold s1. destruct cache; [done | by apply (inv_shape s)]. }
  replace ((if cache then ret tt else _) s) with (Ok tt, s1) by (unfold s1; by destruct cache).
  simpl. destruct (do_deviceMap s1 !! key) as [o|] eqn:Hk; simpl; [done|].
  unfold tryToReserveKey. destruct (kv_Reserve _ _ _ _ _) as [[value err] kv]. simpl.
  unfold start_monitor, sbind, get, put. simpl.
  destruct (0 <? _) eqn:Hper; [|exfalso; apply Z.ltb_ge in Hper; by pose proof (oi_period _ Hs1); simpl in *; lia].
  simpl. apply (inv_shape (set_monitors (do_monitors s1 ++ [(key, do_nextChnl s1)])
    (set_deviceMap (<[key := mkOwnership key
        match value with Some v => bool_decide (owner_string v = do_instanceID s1) | None => false end
        (do_nextChnl s1)]> (do_deviceMap s1)) (set_nextChnl (Datatypes.S (do_nextChnl s1)) s1)))).
  { done. }
  by apply inv_new_monitor.
Qed.

(** A device is taken off the map and its channel closed. *)
Lemma inv_close s k o :
  own_inv s → do_deviceMap s !! k = Some o →
  own_inv (set_closed ({[own_chnl o]} ∪ do_closed s) (set_deviceMap (delete k (do_deviceMap s)) s)).
Proof.
  intros [Hp Hx Hc Hd Hm Hnd] Hk. destruct (Hd k o Hk) as (_ & Hopen & Hmon).
  assert (∀ k', (k', own_chnl o) ∈ do_monitors s → k' = k) as Huniq.
  { intros k' Hin. apply list_elem_of_lookup in Hin as [i Hi]. apply list_elem_of_lookup in Hmon as [j Hj].
    assert (i = j) as ->; [|congruence].
    eapply NoDup_lookup; [exact Hnd | by rewrite list_lookup_fmap Hi | by rewrite list_lookup_fmap Hj]. }
  split; simpl; [done | done | | | | done].
  - intros ch [->%elem_of_singleton|Hch]%elem_of_union; [by destruct (Hm _ _ Hmon) | by apply Hc].
  - intros k' o' [Hne Ho']%lookup_delete_Some. destruct (Hd k' o' Ho') as (? & ? & ?).
    split; [done|]. split; [|done]. intros [Heq%elem_of_singleton|?]%elem_of_union; [|done].
    apply Hne. rewrite -Heq in Huniq. symmetry. by apply Huniq.
  - intros k' ch Hin. destruct (Hm k' ch Hin) as [Hlt [Hcl|(o' & Ho' & Hch)]]; (split; [done|]).
    { left. set_solver. }
    destruct (decide (k' = k)) as [->|Hne].
    + left. assert (o' = o) as -> by congruence. set_solver.
    + right. exists o'. by rewrite lookup_delete_ne.
Qed.

Lemma inv_AbandonDevice id : safe own_inv (AbandonDevice id).
Proof.
  intros s Hs. unfold AbandonDevice. case_decide; [done|]. unfold sbind, get. simpl.
  destruct (do_deviceMap s !! id) as [o|] eqn:Ho; [|simpl; by apply (inv_shape s)].
  simpl. unfold close_chnl. simpl. destruct (oi_map _ Hs id o Ho) as (_ & Hopen & _).
  rewrite decide_False; last done. simpl.
  apply (inv_shape (set_closed ({[own_chnl o]} ∪ do_closed s) (set_deviceMap (delete id (do_deviceMap s)) s))).
  { do 5 (split; [done|]). intros k. simpl. by rewrite delete_delete_eq. }
  by apply inv_close.
Qed.

(** A goroutine leaves. *)
Lemma inv_leave s i id chnl :
  own_inv s → do_monitors s !! i = Some (id, chnl) → chnl ∈ do_closed s →
  own_inv (set_monitors (delete_at i (do_monitors s)) s).
Proof.
  intros [Hp Hx Hc Hd Hm Hnd] Hi Hcl. split; simpl; [done | done | done | | |].
  - intros k o Ho. destruct (Hd k o Ho) as (? & Hopen & Hin). split; [done|]. split; [done|].
    rewrite (delete_at_Permutation i _ _ Hi) in Hin.
    apply elem_of_cons in Hin as [Heq|?]; [|done]. simplify_eq. done.
  - intros k ch Hin. apply Hm. by eapply delete_at_elem.
  - rewrite (delete_at_Permutation i _ _ Hi) in Hnd. simpl in Hnd. by apply NoDup_cons in Hnd as [_ ?].
Qed.

Lemma inv_tick id : safe own_inv (monitorOwnership 0 id Tick).
Proof.
  intros s Hs. simpl. unfold sbind, getOwnership, gets. simpl.
  destruct (do_deviceMap s !! id) as [o|] eqn:Ho; [destruct (own_owned o)|]; simpl.
  - unfold renewReservation. destruct (kv_RenewReservation _ _ _). simpl. by apply (inv_shape s).
  - unfold tryToReserveKey, setOwnership. destruct (kv_Reserve _ _ _ _ _) as [[v e] kv]. simpl.
    unfold attempt, sbind, get, put. simpl. rewrite Ho. simpl.
    apply (inv_shape (set_kvClient kv s)); [|by apply (inv_shape s)]. by apply (shape_owned (set_kvClient kv s)).
  - unfold tryToReserveKey, setOwnership. destruct (kv_Reserve _ _ _ _ _) as [[v e] kv]. simpl.
    unfold attempt, sbind, get, fail. simpl. rewrite Ho. simpl. by apply (inv_shape s).
Qed.

Lemma inv_run_op op s :
  own_inv s → op_enabled op s → op ≠ OpStop →
  (run_own_op op s).1 ≠ Panic ∧ own_inv (run_own_op op s).2.
Proof.
  intros Hs Hen Hstop.
  assert (∀ A (r : outcome A * S), match r with (Panic, _) => False | (_, s') => own_inv s' end →
    r.1 ≠ Panic ∧ own_inv r.2) as Hres by (intros A [[] ?]; simpl; done).
  destruct op as [mg id|id| |i w]; [| | done |]; simpl.
  - unfold sbind. pose proof (inv_OwnedByMe mg id s Hs). destruct (OwnedByMe mg id s) as [[]]; done.
  - pose proof (inv_AbandonDevice id s Hs). destruct (AbandonDevice id s) as [[]]; done.
  - simpl in Hen. unfold sbind, get. destruct (do_monitors s !! i) as [[id chnl]|] eqn:Hi; [|done].
    destruct w; simpl.
    + exfalso. rewrite (oi_exit _ Hs) in Hen. lia.
    + pose proof (inv_tick id s Hs). unfold monitorOwnership in *.
      by destruct (sbind (getOwnership id) _ s) as [[]].
    + split; [done|]. by eapply inv_leave.
Qed.
End Invariant.

Section Theorems.
Context {KV : Type} `{KVClient KV, GoRange}.
Notation S := (DeviceOwnership (KV := KV)).
Implicit Types s : S.

Lemma list_all_same {A} (l : list A) x : NoDup l → x ∈ l → (∀ y, y ∈ l → y = x) → l = [x].
Proof.
  intros Hnd Hx Hall. destruct l as [|a l]; [by apply not_elem_of_nil in Hx|].
  assert (a = x) as -> by (apply Hall; set_solver). f_equal.
  destruct l as [|b l]; [done|]. assert (b = x) as -> by (apply Hall; set_solver).
  apply NoDup_cons in Hnd as [Hn _]. set_solver.
Qed.

Lemma live_monitors_spec s k :
  own_inv s →
  live_monitors s k = match do_deviceMap s !! k with Some o => [(k, own_chnl o)] | None => [] end.
Proof.
  intros [_ _ _ Hd Hm Hnd]. unfold live_monitors.
  assert (∀ m, m ∈ filter (λ m : string * nat, m.1 = k ∧ m.2 ∉ do_closed s) (do_monitors s) →
    ∃ o, do_deviceMap s !! k = Some o ∧ m = (k, own_chnl o)) as Hin.
  { intros [k' ch] [[Hk Hcl] Hin]%list_elem_of_filter. simpl in *. subst k'.
    destruct (Hm k ch Hin) as [_ [?|(o & Ho & <-)]]; [done | by exists o]. }
  destruct (do_deviceMap s !! k) as [o|] eqn:Ho.
  - apply list_all_same.
    + apply NoDup_filter. by eapply NoDup_fmap_1.
    + apply list_elem_of_filter. simpl. destruct (Hd k o Ho) as (_ & ? & ?). done.
    + intros m Hm'. destruct (Hin m Hm') as (o' & [= ->] & ->). done.
  - destruct (filter _ (do_monitors s)) as [|m l]; [done|].
    destruct (Hin m) as (o & ? & _); [set_solver | done].
Qed.

Lemma new_inv id kv prefix timeout :
  0 < ticker_period timeout → own_inv (NewDeviceOwnership id kv prefix timeout : S).
Proof.
  intros Hp. split; simpl; [done | done | set_solver | set_solver | set_solver | constructor].
Qed.

Lemma reachable_inv s0 s : own_inv s0 → rtc own_step s0 s → own_inv s.
Proof.
  intros H0' Hrun. induction Hrun as [|s1 s2 s3 [op Hen Hop] _ IH]; [done|].
  apply IH. by apply inv_run_op.
Qed.

(** Until it is stopped, a core with a reservation timeout of at least
    three seconds runs, for every device in its table and for no other, exactly
    one monitoring goroutine that was not told to stop, whatever requests,
    abandonments and ticks there were in between; and nothing it can do next
    panics, in particular no channel is closed twice. *)
Theorem ownership_invariant (id prefix : string) (timeout : Z) (kv : KV) s op :
  3 ≤ timeout →
  rtc own_step (NewDeviceOwnership id kv prefix timeout) s →
  op_enabled op s → op ≠ OpStop →
  (∀ k, live_monitors s k = match do_deviceMap s !! k with Some o => [(k, own_chnl o)] | None => [] end) ∧
  (run_own_op op s).1 ≠ Panic.
Proof.
  intros Ht Hrun Hen Hop.
  assert (own_inv s) as Hs.
  { eapply reachable_inv; [|exact Hrun]. apply new_inv. unfold ticker_period.
    apply Z.quot_str_pos. lia. }
  split; [intros k; by apply live_monitors_spec | by apply inv_run_op].
Qed.

(** ** Cores that share a store *)

(** Several cores; [cl_expired] are the keys that the store dropped because
    their lease was not renewed in time. *)
Record Cluster := mkCluster { cl_cores : list S; cl_kv : KV; cl_expired : gset string }.

Inductive cluster_step (cl : Cluster) : Cluster → Prop :=
  | core_step i s op :
      cl_cores cl !! i = Some s → op_enabled op (set_kvClient (cl_kv cl) s) →
      let s' := (run_own_op op (set_kvClient (cl_kv cl) s)).2 in
      cluster_step cl (mkCluster (<[i := s']> (cl_cores cl)) (do_kvClient s') (cl_expired cl))
  | expire_step key kv :
      kv_view kv key = None →
      (∀ key', key' ≠ key → kv_view kv key' = kv_view (cl_kv cl) key') →
      cluster_step cl (mkCluster (cl_cores cl) kv ({[key]} ∪ cl_expired cl)).

(** What a core answers about a device in its table. *)
Definition owns s (k : string) : Prop := ∃ o, do_deviceMap s !! k = Some o ∧ own_owned o = true.

Definition cluster_start (prefix : string) (timeout : Z) (kv : KV) (ids : list string) : Cluster :=
  mkCluster ((λ id, NewDeviceOwnership id kv prefix timeout) <$> ids) kv ∅.
End Theorems.

(** ** At most one owner *)

Section Exclusive.
Context {KV : Type} `{KVLaws KV, GoRange}.
Notation S := (DeviceOwnership (KV := KV)).
Implicit Types s : S.

(** The store has the reservation of the core for the key. *)
Definition reserved s (k : string) : Prop :=
  kv_view (do_kvClient s) (kvKey s k) = Some (do_instanceID s).

(** From [s] to [s'] a core loses no reservation of anybody, and owns what it
    owned or what it reserved. *)
Definition justified s s' : Prop :=
  do_instanceID s' = do_instanceID s ∧ do_ownershipPrefix s' = do_ownershipPrefix s ∧
  (∀ key w, kv_view (do_kvClient s) key = Some w → kv_view (do_kvClient s') key = Some w) ∧
  (∀ k, owns s' k → owns s k ∨ reserved s' k).

Instance justified_preorder : PreOrder justified.
Proof.
  split; [intros s; repeat split; auto|].
  intros s1 s2 s3 (Hi & Hp & Hv & Ho) (Hi' & Hp' & Hv' & Ho'). repeat split; [congruence | congruence | auto|].
  intros k [Hk|Hk]%Ho'; [|by right]. destruct (Ho k Hk) as [?|Hres]; [by left | right].
  unfold reserved, kvKey in *. rewrite Hi' Hp'. by apply Hv'.
Qed.

(** A change of the other fields. *)
Lemma justified_frame s s' :
  do_instanceID s' = do_instanceID s → do_ownershipPrefix s' = do_ownershipPrefix s →
  do_kvClient s' = do_kvClient s → (∀ k, owns s' k → owns s k) → justified s s'.
Proof. intros Hi Hp Hk Ho. repeat split; [done | done | by rewrite Hk | auto]. Qed.

Lemma justified_renew id s : justified s (renewReservation id s).2.
Proof.
  unfold renewReservation.
  pose proof (kv_renew_view (do_instanceID s) (kvKey s id) (do_kvClient s)) as Hv.
  destruct (kv_RenewReservation _ _ _) as [e kv]. simpl in *.
  repeat split; [intros key w; by rewrite Hv | auto].
Qed.

Lemma justified_reserve id s b s' :
  tryToReserveKey id s = (Ok b, s') →
  justified s s' ∧ do_deviceMap s' = do_deviceMap s ∧ (b = true → reserved s' id).
Proof.
  unfold tryToReserveKey.
  pose proof (λ w k', kv_reserve_taken (do_instanceID s) (kvKey s id) (do_instanceID s)
    (do_reservationTimeout s) (do_kvClient s) k' w) as Hv.
  destruct (kv_Reserve _ _ _ _ _) as [[value e] kv] eqn:Hres. simpl in Hv. intros [= <- <-].
  split; [repeat split; auto|]. split; [done|].
  destruct value as [x|]; [|done]. intros Hb%bool_decide_eq_true.
  destruct (kv_reserve_value _ _ _ _ _ _ _ _ Hres) as (w & Hx & Hw).
  unfold owner_string in Hb. rewrite Hx in Hb. subst w. done.
Qed.

(** Recording the outcome of the reservation. *)
Lemma justified_record s k o :
  (own_owned o = true → reserved s k) →
  justified s (set_deviceMap (<[k := o]> (do_deviceMap s)) s).
Proof.
  intros Hres. repeat split; [auto|]. intros k' (o' & Ho' & Hown). simpl in Ho'.
  destruct (decide (k' = k)) as [->|Hne].
  - rewrite lookup_insert_eq in Ho'. simplify_eq. right. by apply Hres.
  - rewrite lookup_insert_ne in Ho'; last done. left. by exists o'.
Qed.

Lemma justified_delete s k : justified s (set_deviceMap (delete k (do_deviceMap s)) s).
Proof.
  apply justified_frame; [done | done | done|]. intros k' (o & Ho & ?). simpl in Ho.
  apply lookup_delete_Some in Ho as [_ Ho]. by exists o.
Qed.

Lemma justified_close ch s : justified s (close_chnl ch s).2.
Proof. unfold close_chnl. case_decide; by apply justified_frame. Qed.

Lemma justified_OwnedByMe mg id s : justified s (OwnedByMe mg id s).2.
Proof.
  unfold OwnedByMe, sbind.
  destruct (getOwnershipKey_run mg id s) as ([[[key idStr] cache]|e|] & -> & Hnp); [|done|done].
  set (s1 := if cache then s else set_deviceToKeyMap (<[idStr := key]> (do_deviceToKeyMap s)) s).
  assert (justified s s1) as Hs1. { unfold s1. destruct cache; [done | by apply justified_frame]. }
  replace ((if cache then ret tt else _) s) with (Ok tt, s1) by (unfold s1; by destruct cache).
  simpl. destruct (do_deviceMap s1 !! key) as [o|] eqn:Hk; simpl; [done|].
  destruct (tryToReserveKey key s1) as [[b|e|] s2] eqn:Htry;
    [|by unfold tryToReserveKey in Htry; destruct (kv_Reserve _ _ _ _ _) as [[]]..].
  destruct (justified_reserve _ _ _ _ Htry) as (H12 & _ & Hb). simpl.
  unfold start_monitor, sbind, get, put, panic. simpl.
  transitivity s1; [done|]. transitivity s2; [done|].
  transitivity (set_nextChnl (Datatypes.S (do_nextChnl s2)) s2); [by apply justified_frame|].
  etransitivity; [apply (justified_record _ key (mkOwnership key b (do_nextChnl s2))); exact Hb|].
  destruct (0 <? _); simpl; by apply justified_frame.
Qed.

Lemma justified_op op s : justified s (run_own_op op s).2.
Proof.
  destruct op as [mg id|id| |i w]; simpl.
  - unfold sbind. pose proof (justified_OwnedByMe mg id s). by destruct (OwnedByMe mg id s) as [[]].
  - unfold AbandonDevice. case_decide; [done|]. unfold sbind, get. simpl.
    destruct (do_deviceMap s !! id) as [o|]; [|by apply justified_frame]. simpl.
    set (s1 := set_deviceMap (delete id (do_deviceMap s)) _).
    assert (justified s s1) as Hj1.
    { etransitivity; [|apply (justified_delete (set_deviceToKeyMap
        (filter (λ kv, kv.2 ≠ id) (do_deviceToKeyMap s)) s) id)]. by apply justified_frame. }
    pose proof (justified_close (own_chnl o) s1) as Hc. destruct (close_chnl _ s1) as [[] s2]; simpl in *.
    + etransitivity; [exact Hj1|]. etransitivity; [exact Hc | apply justified_delete].
    + by etransitivity.
    + by etransitivity.
  - unfold Stop, abandonAllDevices, sbind, get. simpl.
    set (s1 := set_deviceToKeyMap ∅ _). transitivity s1; [by apply justified_frame|].
    generalize (go_range (do_deviceMap s)). clearbody s1. clear s. rename s1 into s.
    intros l. revert s. induction l as [|e l IH]; intros s; simpl; [done|]. unfold sbind.
    pose proof (justified_close (own_chnl e.2) s) as Hc. destruct (close_chnl _ s) as [[] s2]; simpl in *; [|done|done].
    etransitivity; [exact Hc | apply IH].
  - unfold sbind, get. destruct (do_monitors s !! i) as [[id chnl]|]; [|done].
    destruct w; simpl; [by apply justified_frame| |by apply justified_frame].
    unfold sbind, getOwnership, gets. simpl.
    destruct (do_deviceMap s !! id) as [o|] eqn:Ho; [destruct (own_owned o) eqn:Hown|]; simpl.
    + pose proof (justified_renew id s). by destruct (renewReservation id s) as [[]].
    + destruct (tryToReserveKey id s) as [[b|e|] s2] eqn:Htry;
        [|by unfold tryToReserveKey in Htry; destruct (kv_Reserve _ _ _ _ _) as [[]]..].
      destruct (justified_reserve _ _ _ _ Htry) as (H12 & Hm & Hb).
      unfold attempt, setOwnership, sbind, get, put. simpl. rewrite Hm Ho. simpl.
      etransitivity; [exact H12|]. rewrite -Hm. by apply justified_record.
    + destruct (tryToReserveKey id s) as [[b|e|] s2] eqn:Htry;
        [|by unfold tryToReserveKey in Htry; destruct (kv_Reserve _ _ _ _ _) as [[]]..].
      destruct (justified_reserve _ _ _ _ Htry) as (H12 & Hm & Hb).
      unfold attempt, setOwnership, sbind, get, fail. simpl. by rewrite Hm Ho.
Qed.
End Exclusive.

Section ClusterTheorems.
Context {KV : Type} `{KVLaws KV, GoRange}.
Notation S := (DeviceOwnership (KV := KV)).
Implicit Types s : S.

(** What every core claims is reserved for it, unless the lease expired. *)
Definition cluster_inv (prefix : string) (ids : list string) (cl : Cluster) : Prop :=
  ∀ i s, cl_cores cl !! i = Some s →
    do_ownershipPrefix s = prefix ∧ ids !! i = Some (do_instanceID s) ∧
    ∀ k, owns s k → kv_key prefix k ∉ cl_expired cl →
         kv_view (cl_kv cl) (kv_key prefix k) = Some (do_instanceID s).

Lemma cluster_start_inv prefix timeout kv ids :
  cluster_inv prefix ids (cluster_start prefix timeout kv ids).
Proof.
  intros i s Hi. simpl in Hi. rewrite list_lookup_fmap in Hi.
  apply fmap_Some in Hi as (id & Hid & ->). simpl. split; [done|]. split; [done|].
  by intros k (o & Ho & _).
Qed.

Lemma cluster_step_inv prefix ids cl cl' :
  cluster_inv prefix ids cl → cluster_step cl cl' → cluster_inv prefix ids cl'.
Proof.
  intros Hcl [i s op Hi Hen s'|key kv Hfree Hother] j sj Hj; simpl in *.
  - destruct (justified_op op (set_kvClient (cl_kv cl) s)) as (Hid & Hp & Hv & Ho). fold s' in Hid, Hp, Hv, Ho.
    simpl in *. destruct (Hcl i s Hi) as (Hps & Hids & Hown).
    destruct (decide (j = i)) as [->|Hne].
    + rewrite list_lookup_insert_eq in Hj; last by eapply lookup_lt_Some. injection Hj as <-.
      rewrite Hid Hp. split; [done|]. split; [done|]. intros k Hk Hexp.
      destruct (Ho k Hk) as [Hold|Hres].
      * apply Hv. by apply Hown.
      * unfold reserved, kvKey in Hres. by rewrite Hp Hps Hid in Hres.
    + rewrite list_lookup_insert_ne in Hj; last done. destruct (Hcl j sj Hj) as (? & ? & Hown').
      split; [done|]. split; [done|]. intros k Hk Hexp. apply Hv. by apply Hown'.
  - destruct (Hcl j sj Hj) as (? & ? & Hown). split; [done|]. split; [done|].
    intros k Hk Hexp. rewrite Hother; [|set_solver]. apply Hown; [done | set_solver].
Qed.

(** C8: two cores with different identifiers that share the store never both
    answer that they own the same device, unless the lease of the device's key
    expired in between: whatever requests, abandonments, shutdowns and ticks of
    the cores are interleaved, and whatever the store answers. *)
Theorem ownership_exclusive (prefix : string) (timeout : Z) (kv : KV) (ids : list string) cl :
  NoDup ids →
  rtc cluster_step (cluster_start prefix timeout kv ids) cl →
  ∀ i j si sj k, cl_cores cl !! i = Some si → cl_cores cl !! j = Some sj → i ≠ j →
    owns si k → owns sj k → kv_key prefix k ∈ cl_expired cl.
Proof.
  intros Hnd Hrun.
  assert (cluster_inv prefix ids cl) as Hcl.
  { pose proof (cluster_start_inv prefix timeout kv ids) as Hs. revert Hs Hrun.
    generalize (cluster_start prefix timeout kv ids) as cl0. intros cl0 Hs Hrun.
    induction Hrun as [|c1 c2 c3 Hstep _ IH]; [done|]. apply IH. by eapply cluster_step_inv. }
  intros i j si sj k Hi Hj Hij Hoi Hoj.
  destruct (Hcl i si Hi) as (_ & Hidi & Hki). destruct (Hcl j sj Hj) as (_ & Hidj & Hkj).
  destruct (decide (kv_key prefix k ∈ cl_expired cl)) as [?|Hexp]; [done|]. exfalso. apply Hij.
  specialize (Hki k Hoi Hexp). specialize (Hkj k Hoj Hexp).
  eapply NoDup_lookup; [exact Hnd | exact Hidi |]. rewrite Hidj. congruence.
Qed.

(** A device a core owns stays owned: nothing but its abandonment removes it. *)
Lemma owned_stays op s k :
  owns s k → op ≠ OpAbandonDevice k → owns (run_own_op op s).2 k.
Proof.
  intros (o & Ho & Hown) Hop. destruct op as [mg id|id| |i w]; simpl.
  - unfold OwnedByMe, sbind.
    destruct (getOwnershipKey_run mg id s) as ([[[key idStr] cache]|e|] & -> & Hnp); [|by exists o..].
    set (s1 := if cache then s else set_deviceToKeyMap (<[idStr := key]> (do_deviceToKeyMap s)) s).
    assert (do_deviceMap s1 = do_deviceMap s) as Hm by (unfold s1; by destruct cache).
    replace ((if cache then ret tt else _) s) with (Ok tt, s1) by (unfold s1; by destruct cache).
    simpl. rewrite Hm. destruct (do_deviceMap s !! key) as [o'|] eqn:Hk; simpl; [exists o; by rewrite Hm|].
    destruct (tryToReserveKey key s1) as [[b|e|] s2] eqn:Htry;
      [|by unfold tryToReserveKey in Htry; destruct (kv_Reserve _ _ _ _ _) as [[]]..].
    destruct (justified_reserve _ _ _ _ Htry) as (_ & Hm2 & _). simpl.
    unfold start_monitor, sbind, get, put, panic. simpl.
    destruct (0 <? _); simpl; exists o; simpl; (rewrite lookup_insert_ne; [|congruence]); by rewrite Hm2 Hm.
  - unfold AbandonDevice. case_decide; [by exists o|]. unfold sbind, get. simpl.
    assert (id ≠ k) by congruence.
    destruct (do_deviceMap s !! id) as [o'|]; simpl; [|by exists o]. unfold close_chnl. simpl.
    case_decide; simpl; exists o; simpl; by rewrite ?lookup_delete_ne.
  - unfold Stop, abandonAllDevices, sbind, get. simpl.
    set (s1 := set_deviceToKeyMap ∅ _). assert (do_deviceMap s1 !! k = Some o) as Ho1 by done.
    generalize (go_range (do_deviceMap s)). clearbody s1. intros l. revert s1 Ho1.
    induction l as [|e l IH]; intros s1 Ho1; simpl; [by exists o|]. unfold sbind, close_chnl.
    case_decide; [by exists o | by apply IH].
  - unfold sbind, get. destruct (do_monitors s !! i) as [[id chnl]|]; [|by exists o].
    destruct w; simpl; [by exists o| |by exists o].
    unfold sbind, getOwnership, gets. simpl.
    destruct (do_deviceMap s !! id) as [o'|] eqn:Ho'; [destruct (own_owned o') eqn:Hown'|]; simpl.
    + unfold renewReservation. destruct (kv_RenewReservation _ _ _). by exists o.
    + destruct (tryToReserveKey id s) as [[b|e|] s2] eqn:Htry;
        [|by unfold tryToReserveKey in Htry; destruct (kv_Reserve _ _ _ _ _) as [[]]..].
      destruct (justified_reserve _ _ _ _ Htry) as (_ & Hm & _).
      unfold attempt, setOwnership, sbind, get, put. simpl. rewrite Hm Ho'. simpl.
      exists o. simpl. rewrite lookup_insert_ne; [done | congruence].
    + destruct (tryToReserveKey id s) as [[b|e|] s2] eqn:Htry;
        [|by unfold tryToReserveKey in Htry; destruct (kv_Reserve _ _ _ _ _) as [[]]..].
      destruct (justified_reserve _ _ _ _ Htry) as (_ & Hm & _).
      unfold attempt, setOwnership, sbind, get, fail. simpl. rewrite Hm Ho'. exists o. by rewrite Hm.
Qed.

Definition run_ops (ops : list own_op) s : S := foldl (λ s op, (run_own_op op s).2) s ops.

(** A goroutine whose device is free takes it at its next tick. *)
Lemma tick_takes_over `{!KVReliable KV} s i k ch o :
  do_monitors s !! i = Some (k, ch) → do_deviceMap s !! k = Some o → own_owned o = false →
  kv_view (do_kvClient s) (kvKey s k) = None →
  owns (run_own_op (OpMonitor i Tick) s).2 k ∧ reserved (run_own_op (OpMonitor i Tick) s).2 k.
Proof.
  intros Hi Ho Hown Hfree. simpl. unfold sbind, get. rewrite Hi. simpl. unfold sbind, getOwnership, gets. simpl.
  rewrite Ho Hown. simpl. unfold tryToReserveKey.
  pose proof (kv_reserve_free (do_instanceID s) (kvKey s k) (do_instanceID s) (do_reservationTimeout s)
    (do_kvClient s) Hfree) as Hres.
  destruct (kv_Reserve _ _ _ _ _) as [[value e] kv] eqn:Hr. simpl in Hres. injection Hres as -> ->.
  destruct (kv_reserve_value _ _ _ _ _ _ _ _ Hr) as (w & [= <-] & Hw).
  unfold owner_string, ToString. rewrite bool_decide_eq_true_2; last done.
  unfold attempt, setOwnership, sbind, get, put. simpl. rewrite Ho. simpl. split; [|done].
  eexists. simpl. by rewrite lookup_insert_eq.
Qed.

(** A core that loses a device does not notice.  When the lease of a device
    that core [a] owns expires, another core that monitors the device takes it
    over at its next tick, with the reservation in the store; but [a] goes on
    answering that it owns the device, whatever its monitoring goroutine, its
    requests and the store do, until the device is abandoned. *)
Theorem lost_lease_two_owners `{!KVReliable KV} cl a b (sa sb : S) k i ch o kv :
  a ≠ b → cl_cores cl !! a = Some sa → owns sa k →
  cl_cores cl !! b = Some sb → do_deviceMap sb !! k = Some o → own_owned o = false →
  do_monitors sb !! i = Some (k, ch) →
  kv_view kv (kvKey sb k) = None →
  (∀ key, key ≠ kvKey sb k → kv_view kv key = kv_view (cl_kv cl) key) →
  (∃ cl' sb', rtc cluster_step cl cl' ∧ cl_cores cl' !! a = Some sa ∧
     cl_cores cl' !! b = Some sb' ∧ owns sb' k ∧ reserved sb' k) ∧
  (∀ ops, OpAbandonDevice k ∉ ops → owns (run_ops ops sa) k).
Proof.
  intros Hab Ha Howns Hb Ho Hown Hmon Hfree Hother. split.
  - set (cl1 := mkCluster (cl_cores cl) kv ({[kvKey sb k]} ∪ cl_expired cl)).
    set (sb' := (run_own_op (OpMonitor i Tick) (set_kvClient kv sb)).2).
    destruct (tick_takes_over (set_kvClient kv sb) i k ch o) as [Hk Hres]; [done..|].
    exists (mkCluster (<[b := sb']> (cl_cores cl)) (do_kvClient sb') (cl_expired cl1)), sb'.
    split; [|split; [|split; [|done]]]; simpl.
    + eapply rtc_l; [by apply (expire_step cl (kvKey sb k) kv)|]. eapply rtc_once.
      apply (core_step cl1 b sb (OpMonitor i Tick)); [done|]. simpl. by rewrite Hmon.
    + by rewrite list_lookup_insert_ne.
    + rewrite list_lookup_insert_eq; [done | by eapply lookup_lt_Some].
  - intros ops. clear Ha. revert sa Howns. induction ops as [|op ops IH]; intros sa Howns Hops; simpl; [done|].
    apply IH; [|set_solver]. apply owned_stays; [done | set_solver].
Qed.
End ClusterTheorems.

(** ** Concrete cores *)

Section Samples.
#[local] Existing Instances map_kv map_kv_laws map_kv_reliable canonical_range.

Definition sample_olt : Device := set_Root true (sample_device_of "olt").
Definition sample_managers : Managers := mkManagers (λ id, if decide (id = "olt") then Some sample_olt else None) (λ _, None).
Definition sample_core (id : string) : DeviceOwnership := NewDeviceOwnership id (∅ : gmap string string) "owner" 10.
Definition sample_request : own_op := OpOwnedByMe sample_managers (DeviceID "olt").

(** Two cores that were both asked about the device: the first one got it. *)
Definition sample_first : DeviceOwnership := (run_own_op sample_request (sample_core "rw0")).2.
Definition sample_second : DeviceOwnership :=
  (run_own_op sample_request (set_kvClient (do_kvClient sample_first) (sample_core "rw1"))).2.
Definition sample_cluster : Cluster :=
  mkCluster [sample_first; sample_second] (do_kvClient sample_second) ∅.

Lemma sample_cluster_reached :
  rtc cluster_step (cluster_start "owner" 10 ∅ ["rw0"; "rw1"]) sample_cluster.
Proof.
  eapply rtc_l; [by apply (core_step _ 0 (sample_core "rw0") sample_request)|].
  eapply rtc_l; [by apply (core_step _ 1 (sample_core "rw1") sample_request)|].
  apply rtc_refl.
Qed.

(** The lease of the first core expires and the second one takes over. *)
Definition sample_taken : DeviceOwnership := (run_own_op (OpMonitor 0 Tick) (set_kvClient ∅ sample_second)).2.
Definition sample_split : Cluster :=
  mkCluster [sample_first; sample_taken] (do_kvClient sample_taken) {["owner_olt"]}.

Lemma sample_split_reached : rtc cluster_step sample_cluster sample_split.
Proof.
  eapply rtc_l; [apply (expire_step _ "owner_olt" ∅); [done|]|].
  { intros key Hkey. symmetry. vm_compute do_kvClient. by apply lookup_singleton_ne. }
  eapply rtc_l; [by apply (core_step _ 1 sample_second (OpMonitor 0 Tick))|].
  apply rtc_refl.
Qed.

Lemma ownership_invariant_witness :
  (∀ k, live_monitors sample_first k =
        match do_deviceMap sample_first !! k with Some o => [(k, own_chnl o)] | None => [] end) ∧
  (run_own_op (OpMonitor 0 Tick) sample_first).1 ≠ Panic.
Proof.
  apply (ownership_invariant "rw0" "owner" 10 ∅ sample_first (OpMonitor 0 Tick)).
  - lia.
  - apply rtc_once. by apply (own_step_intro _ sample_request).
  - exact I.
  - done.
Defined.

Lemma ownership_exclusive_witness : kv_key "owner" "olt" ∈ cl_expired sample_split.
Proof.
  apply (ownership_exclusive "owner" 10 ∅ ["rw0"; "rw1"] sample_split) with 0%nat 1%nat sample_first sample_taken.
  - repeat constructor; set_solver.
  - etransitivity; [exact sample_cluster_reached | exact sample_split_reached].
  - done.
  - done.
  - done.
  - by eexists.
  - by eexists.
Defined.

Lemma lost_lease_two_owners_witness :
  (∃ cl' sb', rtc cluster_step sample_cluster cl' ∧ cl_cores cl' !! 0%nat = Some sample_first ∧
     cl_cores cl' !! 1%nat = Some sb' ∧ owns sb' "olt" ∧ reserved sb' "olt") ∧
  (∀ ops, OpAbandonDevice "olt" ∉ ops → owns (run_ops ops sample_first) "olt").
Proof.
  apply (lost_lease_two_owners sample_cluster 0 1 sample_first sample_second "olt" 0 0%nat
           (mkOwnership "olt" false 0) ∅); try done.
  - by eexists.
  - intros key Hkey. symmetry. vm_compute do_kvClient. by apply lookup_singleton_ne.
Defined.
End Samples.
