(* ===== verification/Transaction.v ===== *)
(** * Transactions between cores

    [rw_core/core/transaction.go]: the two cores of a pair receive the same
    request.  The core that reserves the key of the request processes it; the
    other watches the key, and takes the request over when the key disappears.
    The operations are broken up where other cores can act in between; the
    waiting loop of [Watch] consumes an explicit sequence of wake-ups. *)

From S2P Require Import Prelude KVStore.

(** Results of an acquisition, with [txnState] of the source as their order. *)
Inductive TxnResult :=
  | UNKNOWN | SeizedBySelf | CompletedByOther | AbandonedByOther | AbandonedWatchBySelf.

Definition TransactionComplete : string := "TRANSACTION-COMPLETE".
Definition NumTxnRenewalPerRequest : Z := 2.
Definition MinTxnRenewalIntervalInSec : Z := 3.
Definition MinTxnReservationDurationInSec : Z := 5.

(** Events of a watched key; a closed channel delivers nil. *)
Inductive EventType := PUT | DELETE | CONNECTIONDOWN | UNKNOWN_EVENT.
Record Event := mkEvent { ev_EventType : EventType; ev_Key : KVValue; ev_Value : KVValue }.

(** What wakes the select of [Watch]. *)
Inductive watch_wake := WatchEvent (event : option Event) | WatchTimeout.

Section Transactions.
Context {KV : Type} `{KVClient KV}.

(** ** State *)

(** A [KVTransaction] with the owner and the store of its [TransactionContext].
    [tx_monitorCh] is nil, or the channel and whether it is closed; [tx_renewals]
    counts the goroutines that renew the lease. *)
Record KVTransaction := mkTxn {
  tx_owner : string; tx_txnID : string; tx_txnKey : string; tx_monitorCh : option bool;
  tx_renewals : list Z; tx_kvClient : KV }.

Definition set_monitorCh v (t : KVTransaction) :=
  mkTxn (tx_owner t) (tx_txnID t) (tx_txnKey t) v (tx_renewals t) (tx_kvClient t).
Definition set_renewals v (t : KVTransaction) :=
  mkTxn (tx_owner t) (tx_txnID t) (tx_txnKey t) (tx_monitorCh t) v (tx_kvClient t).
Definition set_txn_kv v (t : KVTransaction) :=
  mkTxn (tx_owner t) (tx_txnID t) (tx_txnKey t) (tx_monitorCh t) (tx_renewals t) v.

Definition NewKVTransaction (owner txnPrefix : string) (kvClient : KV) (txnID : string) : KVTransaction :=
  mkTxn owner txnID (txnPrefix +:+ txnID) None [] kvClient.

(** ** Reserving *)

(** [minDuration] is in milliseconds, the result in seconds. *)
Definition reservation_duration (minDuration : Z) : Z :=
  let durationInSecs := Z.quot minDuration 1000 in
  let durationInSecs := if 0 <? Z.rem minDuration 1000 then durationInSecs + 1 else durationInSecs in
  if durationInSecs <? MinTxnReservationDurationInSec then MinTxnReservationDurationInSec
  else durationInSecs.

(** How often [holdOnToTxnUntilProcessingCompleted] renews the lease. *)
Definition renew_interval (durationInSecs : Z) : Z :=
  let renewInterval := Z.quot durationInSecs NumTxnRenewalPerRequest in
  if renewInterval <? MinTxnRenewalIntervalInSec then MinTxnRenewalIntervalInSec else renewInterval.

(** A round of [holdOnToTxnUntilProcessingCompleted]: it renews when its timer
    fires, whatever the outcome, and ends when the channel is closed. *)
Definition holdOnToTxnUntilProcessingCompleted (timer : bool) : M KVTransaction unit :=
  if timer
  then λ t, let (_, kv) := kv_RenewReservation (tx_owner t) (tx_txnKey t) (tx_kvClient t) in
            (Ok tt, set_txn_kv kv t)
  else modify (λ t, set_renewals (tail (tx_renewals t)) t).

Definition tryToReserveTxn (durationInSecs : Z) : M KVTransaction unit := λ t,
  let '(value, _, kv) := kv_Reserve (tx_owner t) (tx_txnKey t) (tx_owner t) durationInSecs (tx_kvClient t) in
  let t := set_txn_kv kv t in
  let denied := Err (Status PermissionDenied "reservation-denied") in
  match value with
  | None => (denied, t)
  | Some v =>
      match ToString v with
      | Ok currOwner =>
          if decide (currOwner = tx_owner t)
          then (Ok tt, set_renewals (tx_renewals t ++ [renew_interval durationInSecs])
                         (set_monitorCh (Some false) t))
          else (denied, t)
      | Err e => (Err e, t)
      | Panic => (Panic, t)
      end
  end.

(** ** Watching *)

Definition Delete : M KVTransaction unit := λ t,
  let (err, kv) := kv_Delete (tx_owner t) (tx_txnKey t) (tx_kvClient t) in
  (match err with None => Ok tt | Some e => Err e end, set_txn_kv kv t).

(** [Watch] up to its loop: the key is read once the watch is open.  The result
    is decided, or the loop starts, knowing whether the key was there. *)
Definition watch_start : M KVTransaction (TxnResult + bool) :=
  let* t := get in
  match (kv_Get (tx_owner t) (tx_txnKey t) (tx_kvClient t)).1 with
  | None => ret (inr false)
  | Some value =>
      match ToString value with
      | Ok val =>
          if decide (val = TransactionComplete)
          then let* _ := attempt Delete in ret (inl CompletedByOther)
          else ret (inr true)
      | _ => ret (inl AbandonedWatchBySelf)
      end
  end.

(** One round of the loop. *)
Definition watch_round (transactionWasAcquiredByOther : bool) (w : watch_wake)
    : M KVTransaction (TxnResult + bool) :=
  match w with
  | WatchEvent None => panic
  | WatchEvent (Some event) =>
      match ev_EventType event with
      | DELETE => ret (inl AbandonedByOther)
      | PUT =>
          let* t := get in
          match ToString (ev_Key event), ToString (ev_Value event) with
          | Ok key, Ok val =>
              if decide (key = tx_txnKey t)
              then
                if decide (val = TransactionComplete)
                then let* _ := attempt Delete in ret (inl CompletedByOther)
                else ret (inr true)
              else ret (inl UNKNOWN)
          | _, _ => ret (inl UNKNOWN)
          end
      | CONNECTIONDOWN | UNKNOWN_EVENT => ret (inl UNKNOWN)
      end
  | WatchTimeout =>
      if transactionWasAcquiredByOther then ret (inr true) else ret (inl AbandonedByOther)
  end.

(** [None] when the wake-ups end before the watch does. *)
Fixpoint watch_loop (transactionWasAcquiredByOther : bool) (wakes : list watch_wake)
    : M KVTransaction (option TxnResult) :=
  match wakes with
  | [] => ret None
  | w :: wakes =>
      let* r := watch_round transactionWasAcquiredByOther w in
      match r with
      | inl res => ret (Some res)
      | inr acquired => watch_loop acquired wakes
      end
  end.

Definition Watch (wakes : list watch_wake) : M KVTransaction (option TxnResult) :=
  let* r := watch_start in
  match r with
  | inl res => ret (Some res)
  | inr acquired => watch_loop acquired wakes
  end.

(** ** Acquiring and closing *)

Definition acquires (res : TxnResult) : bool :=
  match res with SeizedBySelf | AbandonedByOther => true | _ => false end.

(** A request without a resource is generic; [ownedByMe] is the optional
    argument. *)
Definition tries_to_reserve (ownedByMe : option bool) : bool := default true ownedByMe.

Definition Acquired (minDuration : Z) (ownedByMe : option bool) (wakes : list watch_wake)
    : M KVTransaction (option bool) :=
  let durationInSecs := reservation_duration minDuration in
  let* res :=
    if tries_to_reserve ownedByMe then
      let* r := attempt (tryToReserveTxn (durationInSecs * 2)) in
      match r with
      | inl _ => ret (Some SeizedBySelf)
      | inr _ => Watch wakes
      end
    else Watch wakes in
  ret (acquires <$> res).

(** Closing a closed channel panics; an error of [Put] is only logged. *)
Definition Close : M KVTransaction unit :=
  let* t := get in
  match tx_monitorCh t with
  | None => ret tt
  | Some true => panic
  | Some false => λ t,
      let (_, kv) := kv_Put (tx_owner t) (tx_txnKey t) TransactionComplete (tx_kvClient t) in
      (Ok tt, set_txn_kv kv (set_monitorCh (Some true) t))
  end.
End Transactions.

(** ** The two cores of a pair *)

Section Pair.
Context {KV : Type} `{KVLaws KV}.
Notation Txn := (KVTransaction (KV := KV)).

(** Where a core is in [Acquired] and [Close]. *)
Inductive Phase :=
  | Idle
  | Denied                         (* about to open the watch *)
  | Opened                         (* the watch is open, the key was not read *)
  | Watching (seen : bool)         (* in the loop *)
  | Finished (res : TxnResult)
  | Completed (res : TxnResult).   (* closed *)

(** A core that handles the request; [ct_queue] are the events of its watch. *)
Record CoreTxn := mkCore {
  ct_txn : Txn; ct_ownedByMe : option bool; ct_phase : Phase; ct_queue : list Event }.

Inductive Action := ActReserve | ActOpen | ActRead | ActEvent | ActTimeout | ActClose.

Definition round_phase (r : outcome (TxnResult + bool)) : Phase :=
  match r with
  | Ok (inl res) => Finished res
  | Ok (inr seen) => Watching seen
  | _ => Finished UNKNOWN
  end.

Definition set_core (c : CoreTxn) (t : Txn) (p : Phase) (q : list Event) : CoreTxn :=
  mkCore t (ct_ownedByMe c) p q.

(** One atomic step of the acquisition; [None] when it is not the next one. *)
Definition act (duration : Z) (a : Action) (c : CoreTxn) : option CoreTxn :=
  let t := ct_txn c in
  match a, ct_phase c with
  | ActReserve, Idle =>
      if tries_to_reserve (ct_ownedByMe c)
      then Some (match tryToReserveTxn (duration * 2) t with
                 | (Ok _, t') => set_core c t' (Finished SeizedBySelf) []
                 | (_, t') => set_core c t' Denied []
                 end)
      else Some (set_core c t Denied [])
  | ActOpen, Denied => Some (set_core c t Opened [])
  | ActRead, Opened =>
      let (r, t') := watch_start t in Some (set_core c t' (round_phase r) (ct_queue c))
  | ActEvent, Watching seen =>
      match ct_queue c with
      | [] => None
      | e :: q => let (r, t') := watch_round seen (WatchEvent (Some e)) t in
                  Some (set_core c t' (round_phase r) q)
      end
  | ActTimeout, Watching seen =>
      let (r, t') := watch_round seen WatchTimeout t in
      Some (set_core c t' (round_phase r) (ct_queue c))
  | ActClose, Finished res =>
      if acquires res then let (_, t') := Close t in Some (set_core c t' (Completed res) []) else None
  | _, _ => None
  end.

(** An open watch is told of every change of the key. *)
Definition change_events (key : string) (v v' : option string) : list Event :=
  if decide (v = v') then []
  else match v' with
       | Some w => [mkEvent PUT (KVBytes key) (KVBytes w)]
       | None => [mkEvent DELETE (KVBytes key) (KVBytes "")]
       end.

Definition deliver (es : list Event) (c : CoreTxn) : CoreTxn :=
  match ct_phase c with
  | Opened | Watching _ => set_core c (ct_txn c) (ct_phase c) (ct_queue c ++ es)
  | _ => c
  end.

(** [w_lost] records that the lease expired, or that a core took the request
    over because it saw no sign of the other before its timeout. *)
Record Pair := mkPair { w_core : bool → CoreTxn; w_kv : KV; w_lost : bool }.

Definition took_over (a : Action) (c' : CoreTxn) : bool :=
  match a, ct_phase c' with ActTimeout, Finished _ => true | _, _ => false end.

Definition with_kv (kv : KV) (c : CoreTxn) : CoreTxn :=
  set_core c (set_txn_kv kv (ct_txn c)) (ct_phase c) (ct_queue c).

Inductive pair_step (key : string) (duration : Z) (w : Pair) : Pair → Prop :=
  | step_act b a c' :
      act duration a (with_kv (w_kv w) (w_core w b)) = Some c' →
      let kv' := tx_kvClient (ct_txn c') in
      let es := change_events key (kv_view (w_kv w) key) (kv_view kv' key) in
      pair_step key duration w
        (mkPair (λ b', deliver es (if Bool.eqb b' b then c' else w_core w b')) kv'
                (w_lost w || took_over a c'))
  | step_expire kv' :
      kv_view kv' key = None →
      let es := change_events key (kv_view (w_kv w) key) None in
      pair_step key duration w (mkPair (λ b, deliver es (w_core w b)) kv' true).

Definition processes (c : CoreTxn) : bool :=
  match ct_phase c with Finished res | Completed res => acquires res | _ => false end.

Definition pair_start (owner : bool → string) (ownedByMe : bool → option bool) (prefix txnID : string)
    (kv : KV) : Pair :=
  mkPair (λ b, mkCore (NewKVTransaction (owner b) prefix kv txnID) (ownedByMe b) Idle []) kv false.
End Pair.

Section PairProofs.
Context {KV : Type} `{KVLaws KV, !KVReliable KV}.
Context (owner : bool → string) (own : bool → option bool) (key : string) (duration : Z).
Context (Hdistinct : owner true ≠ owner false) (Hname : ∀ b, owner b ≠ TransactionComplete).
Implicit Types (c : @CoreTxn KV) (w : @Pair KV).

Definition static (b : bool) c : Prop :=
  tx_owner (ct_txn c) = owner b ∧ tx_txnKey (ct_txn c) = key ∧ ct_ownedByMe c = own b.

(** Nobody reserved the key yet. *)
Definition early (b : bool) c : Prop :=
  match ct_phase c with
  | Idle => True
  | Denied => tries_to_reserve (own b) = false
  | Opened => tries_to_reserve (own b) = false ∧ ct_queue c = []
  | Watching seen => tries_to_reserve (own b) = false ∧ seen = false ∧ ct_queue c = []
  | Finished _ | Completed _ => False
  end.

Definition winner c : Prop :=
  match ct_phase c with Finished SeizedBySelf | Completed SeizedBySelf => True | _ => False end.

(** What the key and the events on it can say once core [b] has won. *)
Definition won_value (b : bool) (v : string) : Prop := v = owner b ∨ v = TransactionComplete.
Definition won_event (b : bool) (e : Event) : Prop :=
  ∃ v, won_value b v ∧ e = mkEvent PUT (KVBytes key) (KVBytes v).

Definition follower (b : bool) (v : option string) c : Prop :=
  match ct_phase c with
  | Idle | Denied => ∃ x, v = Some x ∧ won_value b x
  | Opened => (∃ x, v = Some x ∧ won_value b x) ∧ Forall (won_event b) (ct_queue c)
  | Watching seen => (∃ x, v = Some x ∧ won_value b x) ∧ Forall (won_event b) (ct_queue c) ∧
                     (seen = true ∨ ct_queue c ≠ [])
  | Finished res | Completed res => acquires res = false
  end.

Definition pair_inv w : Prop :=
  (∀ b, static b (w_core w b)) ∧
  (w_lost w = false →
   (kv_view (w_kv w) key = None ∧ ∀ b, early b (w_core w b)) ∨
   (∃ b, winner (w_core w b) ∧ follower b (kv_view (w_kv w) key) (w_core w (negb b)))).

Lemma deliver_static b es c : static b c → static b (deliver es c).
Proof. unfold static, deliver. by destruct (ct_phase c). Qed.
Lemma deliver_nil_early b c : early b c → early b (deliver [] c).
Proof. unfold early, deliver. destruct (ct_phase c) eqn:Hp; rewrite ?Hp; simpl; try done; by rewrite app_nil_r. Qed.
Lemma deliver_nil_follower b v c : follower b v c → follower b v (deliver [] c).
Proof. unfold follower, deliver. destruct (ct_phase c) eqn:Hp; rewrite ?Hp; simpl; try done; by rewrite app_nil_r. Qed.
Lemma deliver_winner es c : winner c → winner (deliver es c).
Proof. unfold winner, deliver. by destruct (ct_phase c) eqn:Hp; simpl; rewrite ?Hp. Qed.

Lemma change_same v : change_events key v v = [].
Proof. unfold change_events. by rewrite decide_True. Qed.

(** A change that keeps the promise of the winner. *)
Lemma deliver_follower b v x c :
  follower b v c → won_value b x → follower b (Some x) (deliver (change_events key v (Some x)) c).
Proof.
  intros Hf Hx. unfold follower, deliver, change_events in *.
  destruct (ct_phase c) as [| | |seen|res|res] eqn:Hp; rewrite ?Hp; simpl; try by eauto.
  - destruct Hf as [Hv Hq]. split; [eauto|]. case_decide; [by rewrite app_nil_r|].
    apply Forall_app. split; [done|]. constructor; [|done]. exists x. done.
  - destruct Hf as (Hv & Hq & Hs). split; [eauto|]. case_decide; rewrite ?app_nil_r; [done|]. split.
    + apply Forall_app. split; [done|]. constructor; [|done]. exists x. done.
    + right. by destruct (ct_queue c).
Qed.

Lemma deliver_early b c :
  early (negb b) c → follower b (Some (owner b)) (deliver (change_events key None (Some (owner b))) c).
Proof.
  change (change_events key None (Some (owner b))) with [mkEvent PUT (KVBytes key) (KVBytes (owner b))].
  unfold early, follower, deliver.
  assert (won_value b (owner b)) as Hw by by left.
  assert (Forall (won_event b) [mkEvent PUT (KVBytes key) (KVBytes (owner b))]) as Hev.
  { constructor; [by exists (owner b) | done]. }
  destruct (ct_phase c) as [| | |seen|res|res] eqn:Hp; simpl; rewrite ?Hp; simpl; try by eauto.
  - intros [_ ->]. eauto.
  - intros (_ & _ & ->). simpl. split; [eauto|]. split; [done | by right].
Qed.

Lemma deliver_finished b v v' es c res :
  ct_phase c = Finished res → follower b v c → follower b v' (deliver es c).
Proof. intros Hp. unfold follower, deliver. by rewrite !Hp. Qed.

Lemma act_static b kv a c c' :
  static b c → act duration a (with_kv kv c) = Some c' → static b c'.
Proof.
  intros (Ho & Hk & Hown) Hact. unfold act, with_kv in Hact. simpl in Hact.
  destruct a, (ct_phase c) as [| | |seen|res|res]; try done; simpl in Hact.
  - destruct (tries_to_reserve _); [|by injection Hact as <-]. injection Hact as <-. unfold tryToReserveTxn.
    destruct (kv_Reserve _ _ _ _ _) as [[[val|] e] kv']; [|done].
    destruct (ToString val); [case_decide|..]; done.
  - by injection Hact as <-.
  - unfold watch_start, sbind, get in Hact. simpl in Hact.
    destruct (kv_Get _ _ _).1 as [val|]; [|by injection Hact as <-].
    destruct (ToString val); [case_decide|..]; [|by injection Hact as <-..].
    unfold attempt, Delete in Hact. simpl in Hact. by destruct (kv_Delete _ _ _) as [[]]; injection Hact as <-.
  - destruct (ct_queue c) as [|ev q]; [done|]. unfold watch_round in Hact.
    destruct (ev_EventType ev); [|by injection Hact as <-..]. unfold sbind, get in Hact. simpl in Hact.
    destruct (ToString (ev_Key ev)); [|by injection Hact as <-..].
    destruct (ToString (ev_Value ev)); [|by injection Hact as <-..].
    case_decide; [|by injection Hact as <-]. case_decide; [|by injection Hact as <-].
    unfold attempt, Delete in Hact. simpl in Hact. by destruct (kv_Delete _ _ _) as [[]]; injection Hact as <-.
  - destruct seen; by injection Hact as <-.
  - destruct (acquires res); [|done]. unfold Close, sbind, get in Hact. simpl in Hact.
    destruct (tx_monitorCh (ct_txn c)) as [[]|]; [by injection Hact as <-| |by injection Hact as <-].
    by destruct (kv_Put _ _ _ _); injection Hact as <-.
Qed.

(** *** The step of a core that does not know a winner *)
Lemma act_early b kv a c c' :
  static b c → early b c → kv_view kv key = None → act duration a (with_kv kv c) = Some c' →
  let kv' := tx_kvClient (ct_txn c') in
  took_over a c' = true ∨
  early b c' ∧ kv_view kv' key = None ∨
  winner c' ∧ kv_view kv' key = Some (owner b).
Proof.
  intros (Ho & Hk & Hown) He Hv Hact. unfold act, with_kv in Hact. simpl in Hact.
  unfold early in He. destruct a, (ct_phase c) as [| | |seen|res|res] eqn:Hp; try done; simpl in Hact.
  - rewrite Hown in Hact. destruct (tries_to_reserve (own b)) eqn:Hres.
    + injection Hact as <-. unfold tryToReserveTxn. simpl. rewrite Ho Hk.
      pose proof (kv_reserve_free (owner b) key (owner b) (duration * 2) kv Hv) as Hr.
      destruct (kv_Reserve _ _ _ _ kv) as [[value e] kv'] eqn:Hkv. simpl in Hr. injection Hr as -> ->. simpl.
      destruct (kv_reserve_value _ _ _ _ _ _ _ _ Hkv) as (x & [= <-] & Hx).
      rewrite decide_True; last done. simpl. right. right. done.
    + injection Hact as <-. simpl. right. left. done.
  - injection Hact as <-. simpl. right. left. by split.
  - unfold watch_start, sbind, get in Hact. simpl in Hact. rewrite Ho Hk in Hact.
    rewrite (kv_get_absent (owner b) key kv Hv) in Hact. injection Hact as <-. simpl.
    right. left. split; [|done]. unfold early. simpl. destruct He as [? ->]. done.
  - destruct He as (_ & _ & Hq). rewrite Hq in Hact. done.
  - destruct He as (_ & -> & Hq). simpl in Hact. injection Hact as <-. by left.
Qed.

(** *** The step of the winner *)
Lemma act_winner b kv a c c' :
  static b c → winner c → act duration a (with_kv kv c) = Some c' →
  let kv' := tx_kvClient (ct_txn c') in
  winner c' ∧ took_over a c' = false ∧
  (kv_view kv' key = kv_view kv key ∨ kv_view kv' key = Some TransactionComplete).
Proof.
  intros (Ho & Hk & Hown) Hw Hact. unfold act, with_kv in Hact. simpl in Hact. unfold winner in Hw.
  destruct a, (ct_phase c) as [| | |seen|res|res] eqn:Hp; try done; simpl in Hact.
  destruct res; try done. simpl in Hact. unfold Close, sbind, get in Hact. simpl in Hact.
  destruct (tx_monitorCh (ct_txn c)) as [[]|]; simpl in Hact.
  - injection Hact as <-. simpl. repeat split; by auto.
  - rewrite Ho Hk in Hact. pose proof (kv_put_view (owner b) key TransactionComplete kv) as Hput.
    destruct (kv_Put _ _ _ kv) as [e kv']. injection Hact as <-. simpl in *.
    repeat split; try done. by destruct Hput; auto.
  - injection Hact as <-. simpl. repeat split; by auto.
Qed.

(** *** The step of a core that comes second *)
Ltac second_step := simpl; right; unfold follower; simpl; split; eauto 10.

Lemma act_follower b kv a c c' :
  static (negb b) c → follower b (kv_view kv key) c → act duration a (with_kv kv c) = Some c' →
  let kv' := tx_kvClient (ct_txn c') in
  took_over a c' = true ∨
  follower b (kv_view kv' key) c' ∧
  (kv_view kv' key = kv_view kv key ∨ ∃ res, ct_phase c' = Finished res).
Proof.
  intros (Ho & Hk & Hown) Hf Hact. unfold act, with_kv in Hact. simpl in Hact. unfold follower in Hf.
  assert (owner (negb b) ≠ owner b) as Hne. { destruct b; [intros Heq; by apply Hdistinct | exact Hdistinct]. }
  destruct a, (ct_phase c) as [| | |seen|res|res] eqn:Hp; try done; simpl in Hact.
  - destruct (tries_to_reserve (ct_ownedByMe c)); [|injection Hact as <-; second_step].
    destruct Hf as (x & Hv & Hx). injection Hact as <-. unfold tryToReserveTxn. simpl. rewrite Ho Hk.
    pose proof (kv_reserve_taken (owner (negb b)) key (owner (negb b)) (duration * 2) kv key x Hv) as Hkeep.
    destruct (kv_Reserve _ _ _ _ kv) as [[value e] kv'] eqn:Hkv. simpl in Hkeep.
    assert (follower b (kv_view kv' key) (set_core (set_core c (set_txn_kv kv (ct_txn c)) Idle (ct_queue c))
      (set_txn_kv kv' (set_txn_kv kv (ct_txn c))) Denied [])) as Hd by (unfold follower; simpl; eauto).
    destruct value as [val|]; [|simpl in *; rewrite Hv Hkeep; rewrite Hkeep in Hd; second_step].
    destruct (kv_reserve_value _ _ _ _ _ _ _ _ Hkv) as (y & Hy & Hview). rewrite Hy.
    rewrite decide_False; [|destruct Hx as [->| ->]; [congruence | pose proof (Hname (negb b)); congruence]].
    simpl in *. rewrite Hv Hkeep. rewrite Hkeep in Hd. second_step.
  - injection Hact as <-. second_step.
  - destruct Hf as ((x & Hv & Hx) & Hq). unfold watch_start, sbind, get in Hact. simpl in Hact.
    rewrite Ho Hk in Hact. destruct (kv_get_present (owner (negb b)) key kv x Hv) as (val & Hg & Hval).
    rewrite Hg Hval in Hact. case_decide.
    + unfold attempt, Delete in Hact. simpl in Hact. destruct (kv_Delete _ _ kv) as [[]]; injection Hact as <-; second_step.
    + injection Hact as <-. second_step.
  - destruct Hf as ((x & Hv & Hx) & Hq & _). destruct (ct_queue c) as [|ev q]; [done|].
    apply Forall_cons in Hq as [(y & Hy & ->) Hq]. unfold watch_round, sbind, get in Hact. simpl in Hact.
    rewrite Hk in Hact. rewrite decide_True in Hact; last done. case_decide.
    + unfold attempt, Delete in Hact. simpl in Hact. destruct (kv_Delete _ _ kv) as [[]]; injection Hact as <-; second_step.
    + injection Hact as <-. second_step.
  - destruct Hf as ((x & Hv & Hx) & Hq & Hs). unfold watch_round in Hact.
    destruct seen; simpl in Hact; injection Hact as <-; simpl.
    + second_step.
    + by left.
  - by rewrite Hf in Hact.
Qed.

(** *** Both cores *)

Lemma core_at (b' b : bool) (P : CoreTxn → Prop) w c' :
  (b' = b → P c') → (b' = negb b → P (w_core w b')) → P (if Bool.eqb b' b then c' else w_core w b').
Proof. by destruct b', b; simpl; auto. Qed.

Lemma pair_step_inv w w' : pair_inv w → pair_step key duration w w' → pair_inv w'.
Proof.
  intros [Hst Hinv] [b a c' Hact kv' es|kv' Hfree es]; last first.
  { split; [|done]. intros b. by apply deliver_static. }
  split.
  { intros b'. apply deliver_static, core_at; [intros -> | done]. by eapply act_static. }
  simpl. intros [Hlost Htook]%orb_false_iff. destruct (Hinv Hlost) as [[Hv He]|(i & Hw & Hf)].
  - destruct (act_early b _ a _ _ (Hst b) (He b) Hv Hact) as [?|[[Hearly Hv']|[Hwin Hv']]]; [congruence|left|right].
    + split; [done|]. unfold es, kv'. rewrite Hv Hv' change_same.
      intros b'. apply deliver_nil_early, core_at; by [intros -> | intros _].
    + exists b. rewrite Bool.eqb_reflx Bool.eqb_negb1. split; [by apply deliver_winner|].
      unfold es, kv'. rewrite Hv Hv'. by apply deliver_early.
  - right. exists i. destruct (decide (b = i)) as [->|Hbi].
    + destruct (act_winner i _ a _ _ (Hst i) Hw Hact) as (Hwin & _ & Hv').
      rewrite Bool.eqb_reflx Bool.eqb_negb1. split; [by apply deliver_winner|]. unfold es, kv'.
      destruct Hv' as [-> | ->]; [rewrite change_same; by apply deliver_nil_follower|].
      apply deliver_follower; [done | by right].
    + assert (b = negb i) as -> by (by destruct b, i).
      destruct (act_follower i _ a _ _ (Hst (negb i)) Hf Hact) as [?|[Hfol Hv']]; [congruence|].
      rewrite Bool.eqb_reflx. replace (Bool.eqb i (negb i)) with false by (by destruct i).
      split; [by apply deliver_winner|]. unfold es, kv' in *.
      destruct Hv' as [Heq|[res Hfin]]; [|by eapply deliver_finished].
      rewrite Heq change_same. rewrite Heq in Hfol. by apply deliver_nil_follower.
Qed.

Lemma pair_inv_processes w : pair_inv w → w_lost w = false → ∃ b, processes (w_core w b) = false.
Proof.
  intros [_ Hinv] Hlost. destruct (Hinv Hlost) as [[_ He]|(b & _ & Hf)].
  - exists true. specialize (He true). unfold early, processes in *. by destruct (ct_phase (w_core w true)).
  - exists (negb b). unfold follower, processes in *. by destruct (ct_phase (w_core w (negb b))).
Qed.
End PairProofs.

(** C9: a request is processed by at most one core of the pair.  The cores have
    different names, the key of the request is new, and the store answers; each
    core may own the resource of the request, not own it, or not be asked.
    However their steps are interleaved, they do not both acquire the
    transaction, unless the lease on the key expired or a core took the request
    over after a timeout without any sign of the other. *)
Theorem request_processed_once {KV : Type} `{KVLaws KV, !KVReliable KV}
    (owner : bool → string) (ownedByMe : bool → option bool) (prefix txnID : string) (duration : Z)
    (kv : KV) (w : Pair) :
  owner true ≠ owner false → (∀ b, owner b ≠ TransactionComplete) →
  kv_view kv (prefix +:+ txnID) = None →
  rtc (pair_step (prefix +:+ txnID) duration) (pair_start owner ownedByMe prefix txnID kv) w →
  w_lost w = true ∨ processes (w_core w true) = false ∨ processes (w_core w false) = false.
Proof.
  intros Hd Hn Hkv Hrun.
  assert (pair_inv owner ownedByMe (prefix +:+ txnID) w) as Hw.
  { assert (pair_inv owner ownedByMe (prefix +:+ txnID) (pair_start owner ownedByMe prefix txnID kv)) as Hs.
    { split; [done|]. intros _. by left. }
    revert Hs Hrun. generalize (pair_start owner ownedByMe prefix txnID kv). intros w0 Hs Hrun.
    induction Hrun as [|w1 w2 w3 Hstep _ IH]; [done|]. apply IH. by eapply pair_step_inv. }
  destruct (w_lost w) eqn:Hlost; [by left | right].
  destruct (pair_inv_processes _ _ _ w Hw Hlost) as [[] Hb]; auto.
Qed.

(** ** The atomic steps make up [Acquired] *)

Section Refinement.
Context {KV : Type} `{KVClient KV}.
Implicit Types (c : @CoreTxn KV) (t : @KVTransaction KV).

Definition step_or_stay (duration : Z) (a : Action) c : CoreTxn := default c (act duration a c).

(** A core that is woken up while it is in the loop. *)
Definition feed (duration : Z) c (w : watch_wake) : CoreTxn :=
  match ct_phase c, w with
  | Watching _, WatchEvent (Some e) =>
      step_or_stay duration ActEvent (set_core c (ct_txn c) (ct_phase c) [e])
  | Watching _, WatchTimeout => step_or_stay duration ActTimeout c
  | _, _ => c
  end.

Definition acquire_steps (duration : Z) (wakes : list watch_wake) c : CoreTxn :=
  let c := step_or_stay duration ActReserve c in
  let c := step_or_stay duration ActOpen c in
  let c := step_or_stay duration ActRead c in
  foldl (feed duration) c wakes.

(** The outcome of a sequential run, in terms of the phases. *)
Definition agrees (r : outcome (option TxnResult) * KVTransaction) c : Prop :=
  ct_txn c = r.2 ∧
  match r.1 with
  | Ok (Some res) => ct_phase c = Finished res
  | Ok None => ∃ seen, ct_phase c = Watching seen
  | _ => False
  end.

Lemma feed_finished duration c wakes res :
  ct_phase c = Finished res → foldl (feed duration) c wakes = c.
Proof.
  intros Hp. induction wakes as [|w wakes IH]; simpl; [done|].
  replace (feed duration c w) with c; [done|]. unfold feed. by rewrite Hp.
Qed.

Lemma watch_round_ok seen w t :
  w ≠ WatchEvent None → ∃ r t', watch_round seen w t = (Ok r, t').
Proof.
  intros Hw. unfold watch_round. destruct w as [[e|]|]; [|done|by destruct seen; eauto].
  destruct (ev_EventType e); try by eauto. unfold sbind, get. simpl.
  destruct (ToString (ev_Key e)); [|by eauto..]. destruct (ToString (ev_Value e)); [|by eauto..].
  case_decide; [|by eauto]. case_decide; [|by eauto].
  unfold attempt, Delete. simpl. destruct (kv_Delete _ _ _) as [[]]; by eauto.
Qed.

Lemma watch_start_ok t : ∃ r t', watch_start t = (Ok r, t').
Proof.
  unfold watch_start, sbind, get. simpl. destruct (kv_Get _ _ _).1 as [v|]; [|by eauto].
  destruct (ToString v); [|by eauto..]. case_decide; [|by eauto].
  unfold attempt, Delete. simpl. destruct (kv_Delete _ _ _) as [[]]; by eauto.
Qed.

Lemma loop_agrees duration wakes c seen :
  WatchEvent None ∉ wakes → ct_phase c = Watching seen →
  agrees (watch_loop seen wakes (ct_txn c)) (foldl (feed duration) c wakes).
Proof.
  revert c seen. induction wakes as [|w wakes IH]; intros c seen Hw Hp; simpl.
  { split; [done | simpl; eauto]. }
  destruct (watch_round_ok seen w (ct_txn c)) as (r & t' & Hr); [set_solver|].
  unfold sbind. rewrite Hr.
  assert (∃ c', feed duration c w = c' ∧ ct_txn c' = t' ∧ ct_phase c' = round_phase (Ok r)) as (c' & -> & Ht & Hc').
  { eexists. split; [done|]. unfold feed. rewrite Hp. destruct w as [[e|]|]; [|set_solver|].
    - unfold step_or_stay, act. cbn [ct_phase ct_queue ct_txn set_core]. by rewrite Hr.
    - unfold step_or_stay, act. rewrite Hp Hr. done. }
  destruct r as [res|seen']; simpl in Hc'.
  - rewrite (feed_finished _ _ _ res Hc'). by split.
  - rewrite -Ht. apply IH; [set_solver | done].
Qed.

(** C10: the interleaved steps of a core are those of the code: run without
    interruption, they end in the phase that [Acquired] returns, in the same
    state of the transaction and of the store; they are still waiting exactly
    when [Acquired] is. *)
Theorem acquired_refined (minDuration : Z) (wakes : list watch_wake) t (own : option bool) :
  WatchEvent None ∉ wakes →
  let c := acquire_steps (reservation_duration minDuration) wakes (mkCore t own Idle []) in
  let r := Acquired minDuration own wakes t in
  ct_txn c = r.2 ∧
  match r.1 with
  | Ok (Some acquired) => ∃ res, ct_phase c = Finished res ∧ acquires res = acquired
  | Ok None => ∃ seen, ct_phase c = Watching seen
  | _ => False
  end.
Proof.
  intros Hw. set (d := reservation_duration minDuration).
  assert (∀ t', agrees (Watch wakes t') (foldl (feed d) (step_or_stay d ActRead
    (step_or_stay d ActOpen (mkCore t' own Denied []))) wakes)) as Hwatch.
  { intros t'. unfold Watch, sbind, step_or_stay. simpl.
    destruct (watch_start_ok t') as (r & t1 & ->). destruct r as [res|seen]; simpl.
    - rewrite (feed_finished _ _ _ res); [by split | done].
    - by apply (loop_agrees d wakes (mkCore t1 own (Watching seen) [])). }
  assert (∀ t' c, agrees (Watch wakes t') c →
    let r := sbind (Watch wakes) (λ res, ret (acquires <$> res)) t' in
    ct_txn c = r.2 ∧
    match r.1 with
    | Ok (Some acquired) => ∃ res, ct_phase c = Finished res ∧ acquires res = acquired
    | Ok None => ∃ seen, ct_phase c = Watching seen
    | _ => False
    end) as Hres.
  { intros t' c [Ht Hp]. unfold sbind. destruct (Watch wakes t') as [[[res|]|e|] t1]; simpl in *; by eauto. }
  unfold Acquired, acquire_steps. fold d. cbv zeta in *.
  set (c1 := step_or_stay d ActReserve _).
  assert (c1 = if tries_to_reserve own then
                 match tryToReserveTxn (d * 2) t with
                 | (Ok _, t') => mkCore t' own (Finished SeizedBySelf) []
                 | (_, t') => mkCore t' own Denied []
                 end
               else mkCore t own Denied []) as Hc.
  { unfold c1, step_or_stay. simpl. destruct (tries_to_reserve own); [|done].
    by destruct (tryToReserveTxn (d * 2) t) as [[]]. }
  clearbody c1. subst c1. destruct (tries_to_reserve own); [|apply (Hres t _ (Hwatch t))].
  unfold sbind, attempt in *. destruct (tryToReserveTxn (d * 2) t) as [[[]|e|] t'] eqn:Hr; simpl.
  - rewrite (feed_finished _ _ _ SeizedBySelf); [|done]. split; [done|]. by exists SeizedBySelf.
  - apply (Hres t' _ (Hwatch t')).
  - exfalso. unfold tryToReserveTxn in Hr. destruct (kv_Reserve _ _ _ _ _) as [[[v|] e] kv]; [|done].
    destruct v; simpl in Hr; try case_decide; done.
Qed.

(** A reservation outlives the request.  For a request of [ms] milliseconds
    the core waits for a whole number of seconds that covers it and is at least
    five; the lease is twice as long, and the goroutine renews it strictly before
    it runs out.  No step overflows 64 bits. *)
Theorem lease_covers_request (ms : Z) :
  0 ≤ ms < 2 ^ 63 →
  let d := reservation_duration ms in
  5 ≤ d ∧ ms ≤ 1000 * d ∧ (5 < d → 1000 * (d - 1) < ms) ∧
  0 < renew_interval (d * 2) < d * 2 ∧ d * 2 < 2 ^ 63.
Proof.
  intros Hms. unfold reservation_duration, MinTxnReservationDurationInSec.
  rewrite Z.quot_div_nonneg; [|lia..]. rewrite Z.rem_mod_nonneg; [|lia..].
  pose proof (Z.div_mod ms 1000 ltac:(lia)) as Hdm. pose proof (Z.mod_pos_bound ms 1000 ltac:(lia)).
  assert (∀ d, 5 ≤ d → 0 < renew_interval (d * 2) < d * 2) as Hri.
  { intros d Hd. unfold renew_interval, NumTxnRenewalPerRequest, MinTxnRenewalIntervalInSec.
    rewrite Z.quot_div_nonneg; [|lia..]. rewrite Z.div_mul; [|lia]. case_match; lia. }
  destruct (0 <? ms mod 1000) eqn:Hrem; [apply Z.ltb_lt in Hrem | apply Z.ltb_ge in Hrem];
    (case_match eqn:Hc; [apply Z.ltb_lt in Hc | apply Z.ltb_ge in Hc]);
    (split; [lia|]; split; [lia|]; split; [lia|]; split; [apply Hri; lia | lia]).
Qed.
End Refinement.

(** ** Schedules *)

Section Schedules.
Context {KV : Type} `{KVClient KV}.

(** An action that is not the next one of its core is skipped. *)
Definition run_action (key : string) (duration : Z) (w : Pair) (ba : bool * Action) : Pair :=
  match act duration ba.2 (with_kv (w_kv w) (w_core w ba.1)) with
  | None => w
  | Some c' =>
      let kv' := tx_kvClient (ct_txn c') in
      let es := change_events key (kv_view (w_kv w) key) (kv_view kv' key) in
      mkPair (λ b', deliver es (if Bool.eqb b' ba.1 then c' else w_core w b')) kv'
        (w_lost w || took_over ba.2 c')
  end.
Definition run_schedule (key : string) (duration : Z) (l : list (bool * Action)) (w : Pair) : Pair :=
  foldl (run_action key duration) w l.

Lemma run_schedule_steps key duration l w :
  rtc (pair_step key duration) w (run_schedule key duration l w).
Proof.
  unfold run_schedule. revert w. induction l as [|[b a] l IH]; intros w; simpl; [done|].
  etransitivity; [|apply IH]. unfold run_action. simpl.
  destruct (act duration a _) as [c'|] eqn:Hact; [|done]. apply rtc_once. by apply step_act.
Qed.
End Schedules.

(** ** A concrete pair *)

Section Samples.
#[local] Existing Instances map_kv map_kv_laws map_kv_reliable.

Definition sample_owner (b : bool) : string := if b then "rw0" else "rw1".
Definition sample_start : Pair := pair_start sample_owner (λ _, None) "txn/" "42" (∅ : gmap string string).

(** The first core serves the request and closes it while the second watches. *)
Definition sample_schedule : list (bool * Action) :=
  [(true, ActReserve); (false, ActReserve); (false, ActOpen); (false, ActRead);
   (true, ActClose); (false, ActEvent)].
Definition sample_pair : Pair := run_schedule "txn/42" 5 sample_schedule sample_start.

Lemma request_processed_once_witness :
  ct_phase (w_core sample_pair true) = Completed SeizedBySelf ∧
  ct_phase (w_core sample_pair false) = Finished CompletedByOther ∧
  (w_lost sample_pair = true ∨ processes (w_core sample_pair true) = false ∨
   processes (w_core sample_pair false) = false).
Proof.
  split; [by vm_compute|]. split; [by vm_compute|].
  apply (request_processed_once sample_owner (λ _, None) "txn/" "42" 5 ∅ sample_pair).
  - done.
  - by intros [].
  - done.
  - apply run_schedule_steps.
Defined.

(** A core that does not own the resource waits through a timeout after it saw
    the other one, and takes over when the key disappears. *)
Definition sample_wakes : list watch_wake :=
  [WatchEvent (Some (mkEvent PUT (KVBytes "txn/42") (KVBytes "rw0"))); WatchTimeout;
   WatchEvent (Some (mkEvent DELETE (KVBytes "txn/42") (KVBytes "")))].

Lemma acquired_refined_witness :
  let t := NewKVTransaction "rw1" "txn/" (∅ : gmap string string) "42" in
  let c := acquire_steps (reservation_duration 2500) sample_wakes (mkCore t (Some false) Idle []) in
  let r := Acquired 2500 (Some false) sample_wakes t in
  r.1 = Ok (Some true) ∧ ct_txn c = r.2 ∧
  match r.1 with
  | Ok (Some acquired) => ∃ res, ct_phase c = Finished res ∧ acquires res = acquired
  | Ok None => ∃ seen, ct_phase c = Watching seen
  | _ => False
  end.
Proof.
  split; [done|]. apply (acquired_refined 2500 sample_wakes). unfold sample_wakes. set_solver.
Defined.

Lemma lease_covers_request_witness :
  let d := reservation_duration 7001 in
  d = 8 ∧ 5 ≤ d ∧ 7001 ≤ 1000 * d ∧ (5 < d → 1000 * (d - 1) < 7001) ∧
  0 < renew_interval (d * 2) < d * 2 ∧ d * 2 < 2 ^ 63.
Proof. split; [done|]. apply (lease_covers_request 7001). lia. Defined.
End Samples.
