(* ===== verification/AdapterMgr.v ===== *)
(** * Adapter manager

    [rw_core/core/adapter_manager.go]: the registry of the adapters and of the
    device types they serve.  It keeps both in memory and in the data model, and
    answers which adapter serves a device type.  The two locks of the manager are
    taken in one order, so each method is one state transformer; restarting an
    adapter is a task. *)

From S2P Require Import Prelude VolthaTypes DataProxy.

Definition SentinelAdapterID : string := "adapter_sentinel".
Definition SentinelDevicetypeID : string := "device_type_sentinel".

(** ** Time *)

(** A [time.Time] is a number of nanoseconds since the epoch, a protobuf
    [Timestamp] its seconds and nanoseconds; years 1 to 9999 are valid. *)
Record Timestamp := mkTimestamp { ts_Seconds : Z; ts_Nanos : Z }.

Definition valid_timestamp (ts : Timestamp) : bool :=
  (-62135596800 <=? ts_Seconds ts) && (ts_Seconds ts <? 253402300800) &&
  (0 <=? ts_Nanos ts) && (ts_Nanos ts <? 1000000000).

(** [ptypes.Timestamp] and [ptypes.TimestampProto]. *)
Definition timestamp_time (ts : option Timestamp) : option Z :=
  match ts with
  | Some ts => if valid_timestamp ts then Some (ts_Seconds ts * 1000000000 + ts_Nanos ts) else None
  | None => None
  end.
Definition timestamp_proto (t : Z) : option Timestamp :=
  let ts := mkTimestamp (t / 1000000000) (t mod 1000000000) in
  if valid_timestamp ts then Some ts else None.

(** [time.Unix]. *)
Definition time_Unix (sec nsec : Z) : Z := sec * 1000000000 + nsec.

(** ** Adapter agent *)

Record VolthaAdapter := mkAdapter {
  va_Id : string; va_Vendor : string; va_Version : string; va_Config : Opaque;
  va_AdditionalDescription : Opaque; va_LogicalDeviceIds : list string;
  va_LastCommunication : option Timestamp }.

#[export] Instance Timestamp_eq_dec : EqDecision Timestamp.
Proof. solve_decision. Defined.
#[export] Instance VolthaAdapter_eq_dec : EqDecision VolthaAdapter.
Proof. solve_decision. Defined.
#[export] Instance DeviceType_eq_dec : EqDecision DeviceType.
Proof. solve_decision. Defined.

Definition adapter_named (id : string) : VolthaAdapter := mkAdapter id "" "" "" "" [] None.
Definition set_LastCommunication v (a : VolthaAdapter) :=
  mkAdapter (va_Id a) (va_Vendor a) (va_Version a) (va_Config a) (va_AdditionalDescription a)
    (va_LogicalDeviceIds a) v.

Record AdapterAgent := mkAdapterAgent {
  aa_adapter : VolthaAdapter; aa_deviceTypes : gmap string DeviceType }.

Definition updateAgentDeviceType (deviceType : DeviceType) (aa : AdapterAgent) : AdapterAgent :=
  mkAdapterAgent (aa_adapter aa) (<[dt_Id deviceType := deviceType]> (aa_deviceTypes aa)).

Definition newAdapterAgent (adapter : VolthaAdapter) (deviceTypes : option (list DeviceType)) : AdapterAgent :=
  foldl (λ aa dType, updateAgentDeviceType dType aa) (mkAdapterAgent adapter ∅) (default [] deviceTypes).

Definition agentDeviceType (deviceType : string) (aa : AdapterAgent) : option DeviceType :=
  aa_deviceTypes aa !! deviceType.

Definition updateAgentAdapter (adapter : VolthaAdapter) (aa : AdapterAgent) : AdapterAgent :=
  mkAdapterAgent adapter (aa_deviceTypes aa).

Definition updateCommunicationTime (now new : Z) (aa : AdapterAgent) : AdapterAgent :=
  if negb (now <? new) &&
     match timestamp_time (va_LastCommunication (aa_adapter aa)) with
     | None => true
     | Some last => last <? new
     end
  then match timestamp_proto new with
       | None => aa
       | Some timestamp =>
           updateAgentAdapter (set_LastCommunication (Some timestamp) (aa_adapter aa)) aa
       end
  else aa.

Section Manager.
Context {Store : Type} `{DataProxy VolthaAdapter Store, DataList VolthaAdapter Store,
  DataProxy DeviceType Store, DataList DeviceType Store, GoRange}.

(** ** State *)

(** [am_restarts] are the adapters whose devices a goroutine has to reconcile. *)
Record AdapterManager := mkAM {
  am_adapterAgents : gmap string AdapterAgent; am_deviceTypeToAdapterMap : gmap string string;
  am_store : Store; am_coreInstanceID : string; am_restarts : list VolthaAdapter }.

Definition set_adapterAgents v (s : AdapterManager) :=
  mkAM v (am_deviceTypeToAdapterMap s) (am_store s) (am_coreInstanceID s) (am_restarts s).
Definition set_deviceTypeToAdapterMap v (s : AdapterManager) :=
  mkAM (am_adapterAgents s) v (am_store s) (am_coreInstanceID s) (am_restarts s).
Definition set_am_store v (s : AdapterManager) :=
  mkAM (am_adapterAgents s) (am_deviceTypeToAdapterMap s) v (am_coreInstanceID s) (am_restarts s).
Definition set_restarts v (s : AdapterManager) :=
  mkAM (am_adapterAgents s) (am_deviceTypeToAdapterMap s) (am_store s) (am_coreInstanceID s) v.

Definition newAdapterManager (store : Store) (coreInstanceID : string) : AdapterManager :=
  mkAM ∅ ∅ store coreInstanceID [].

(** ** Saving to the data model *)

(** [Get], then [AddWithID] if there is no such object; a nil result of
    [AddWithID] is only logged. *)
Definition save_absent {Obj} `{DataProxy Obj Store} (id : string) (o : Obj) : M AdapterManager unit :=
  let* s := get in
  let* found := lift (dp_get (Obj := Obj) id (am_store s)) in
  match found with
  | Some _ => ret tt
  | None =>
      let (r, st) := dp_add id o (am_store s) in
      let* _ := modify (set_am_store st) in
      match r with UpdErr e => fail e | UpdOk | UpdNil => ret tt end
  end.

(** ** Adding *)

Definition addAdapter (adapter : VolthaAdapter) (saveToDb : bool) : M AdapterManager unit :=
  let* s := get in
  match am_adapterAgents s !! va_Id adapter with
  | Some _ => ret tt
  | None =>
      let* _ := modify (λ s, set_adapterAgents
                  (<[va_Id adapter := newAdapterAgent adapter None]> (am_adapterAgents s)) s) in
      if saveToDb then save_absent (va_Id adapter) adapter else ret tt
  end.

(** One device type of the loop; an unknown adapter gets an agent with all the
    device types of the message. *)
Definition add_device_type (deviceTypes : list DeviceType) (deviceType : DeviceType)
    : M AdapterManager unit :=
  let* _ := modify (λ s, set_adapterAgents
              (<[dt_Adapter deviceType :=
                 match am_adapterAgents s !! dt_Adapter deviceType with
                 | Some adapterAgent => updateAgentDeviceType deviceType adapterAgent
                 | None => newAdapterAgent (adapter_named (dt_Adapter deviceType)) (Some deviceTypes)
                 end]> (am_adapterAgents s)) s) in
  modify (λ s, set_deviceTypeToAdapterMap
    (<[dt_Id deviceType := dt_Adapter deviceType]> (am_deviceTypeToAdapterMap s)) s).

Definition addDeviceTypes (deviceTypes : option (list DeviceType)) (saveToDb : bool)
    : M AdapterManager unit :=
  match deviceTypes with
  | None => fail (Plain "no-device-type")
  | Some items =>
      let* _ := for_each (add_device_type items) items in
      if saveToDb then for_each (λ dt, save_absent (dt_Id dt) dt) items else ret tt
  end.

(** ** Loading *)

(** An adapter that cannot be added is only logged. *)
Definition loadAdaptersAndDevicetypesInMemory : M AdapterManager unit :=
  let* s := get in
  let* adapters := lift (dl_list (Obj := VolthaAdapter) (am_store s)) in
  match adapters with
  | None => addAdapter (adapter_named SentinelAdapterID) true
  | Some adapters =>
      let* _ := for_each (λ adapter, let* _ := attempt (addAdapter adapter false) in ret tt) adapters in
      let* s := get in
      let* deviceTypes := lift (dl_list (Obj := DeviceType) (am_store s)) in
      match deviceTypes with
      | Some dTypes => addDeviceTypes (Some dTypes) false
      | None =>
          addDeviceTypes (Some [mkDeviceType SentinelDevicetypeID "" [] SentinelAdapterID false false false]) true
      end
  end.

(** [CreateProxy] may fail; the registration of the callbacks does not. *)
Definition start (createAdapterProxy createDeviceTypeProxy : outcome unit) : M AdapterManager unit :=
  let* _ := loadAdaptersAndDevicetypesInMemory in
  let* _ := lift createAdapterProxy in
  lift createDeviceTypeProxy.

(** ** Updating *)

Definition updateAdapterWithoutLock (adapter : VolthaAdapter) : M AdapterManager unit :=
  modify (λ s, set_adapterAgents
    (<[va_Id adapter := match am_adapterAgents s !! va_Id adapter with
                        | Some adapterAgent => updateAgentAdapter adapter adapterAgent
                        | None => newAdapterAgent adapter None
                        end]> (am_adapterAgents s)) s).
Definition updateAdapter (adapter : VolthaAdapter) : M AdapterManager unit :=
  updateAdapterWithoutLock adapter.

Definition updateDeviceTypeWithoutLock (deviceType : DeviceType) : M AdapterManager unit :=
  let* _ := modify (λ s, set_adapterAgents
              (<[dt_Adapter deviceType :=
                 match am_adapterAgents s !! dt_Adapter deviceType with
                 | Some adapterAgent => updateAgentDeviceType deviceType adapterAgent
                 | None => newAdapterAgent (adapter_named (dt_Adapter deviceType)) (Some [deviceType])
                 end]> (am_adapterAgents s)) s) in
  modify (λ s, set_deviceTypeToAdapterMap
    (<[dt_Id deviceType := dt_Adapter deviceType]> (am_deviceTypeToAdapterMap s)) s).
Definition updateDeviceType (deviceType : DeviceType) : M AdapterManager unit :=
  updateDeviceTypeWithoutLock deviceType.

(** The timestamp of Kafka is in milliseconds. *)
Definition updateLastAdapterCommunication (now : Z) (adapterID : string) (timestamp : Z)
    : M AdapterManager unit :=
  modify (λ s,
    match am_adapterAgents s !! adapterID with
    | Some adapterAgent =>
        set_adapterAgents (<[adapterID := updateCommunicationTime now
          (time_Unix (Z.quot timestamp 1000) (Z.rem timestamp 1000 * 1000)) adapterAgent]>
          (am_adapterAgents s)) s
    | None => s
    end).

(** [go deviceMgr.adapterRestarted(adapter)]. *)
Definition adapter_restarted (adapter : VolthaAdapter) : M AdapterManager unit :=
  modify (λ s, set_restarts (am_restarts s ++ [adapter]) s).

(** Errors of the data model end the method. *)
Definition updateAdaptersAndDevicetypesInMemory (adapter : VolthaAdapter) : M AdapterManager unit :=
  let* s := get in
  match am_adapterAgents s !! va_Id adapter with
  | Some _ => adapter_restarted adapter
  | None =>
      match dl_list (Obj := VolthaAdapter) (am_store s) with
      | Ok adapters =>
          let* _ := for_each updateAdapterWithoutLock (default [] adapters) in
          match dl_list (Obj := DeviceType) (am_store s) with
          | Ok deviceTypes => for_each updateDeviceTypeWithoutLock (default [] deviceTypes)
          | Err _ => ret tt
          | Panic => panic
          end
      | Err _ => ret tt
      | Panic => panic
      end
  end.

(** The callbacks of the data model; nil messages are [None]. *)
Definition adapterUpdated (previousData latestData : option (list VolthaAdapter)) : M AdapterManager unit :=
  match previousData, latestData with
  | Some p, Some l => if decide (p = l) then ret tt else for_each updateAdapter l
  | _, Some l => for_each updateAdapter l
  | _, None => ret tt
  end.
Definition deviceTypesUpdated (previousData latestData : option (list DeviceType)) : M AdapterManager unit :=
  match previousData, latestData with
  | Some p, Some l => if decide (p = l) then ret tt else for_each updateDeviceType l
  | _, Some l => for_each updateDeviceType l
  | _, None => ret tt
  end.

(** ** Registering *)

Definition getAdapter (adapterID : string) : M AdapterManager (option VolthaAdapter) :=
  gets (λ s, aa_adapter <$> am_adapterAgents s !! adapterID).

(** Returns the identifier of the core; nil device types panic in a log line. *)
Definition registerAdapter (adapter : VolthaAdapter) (deviceTypes : option (list DeviceType))
    : M AdapterManager string :=
  let* _ := lift (deref deviceTypes) in
  let* known := getAdapter (va_Id adapter) in
  match known with
  | Some _ => let* _ := adapter_restarted adapter in gets am_coreInstanceID
  | None =>
      let* _ := addAdapter adapter true in
      let* _ := addDeviceTypes deviceTypes true in
      gets am_coreInstanceID
  end.

(** ** Queries *)

Definition listAdapters : M AdapterManager (list VolthaAdapter) := gets (λ s,
  List.filter (λ a, negb (bool_decide (va_Id a = SentinelAdapterID)))
    (aa_adapter ∘ snd <$> go_range (am_adapterAgents s))).

Definition getAdapterName (deviceType : string) : M AdapterManager string :=
  let* s := get in
  match am_deviceTypeToAdapterMap s !! deviceType with
  | Some adapterID => ret adapterID
  | None => fail (Plain ("Adapter-not-registered-for-device-type " +:+ deviceType))
  end.

Definition getDeviceType (deviceType : string) : M AdapterManager (option DeviceType) := gets (λ s,
  match am_deviceTypeToAdapterMap s !! deviceType with
  | Some adapterID => am_adapterAgents s !! adapterID ≫= agentDeviceType deviceType
  | None => None
  end).

Definition listDeviceTypes : M AdapterManager (list DeviceType) := gets (λ s,
  List.filter (λ dt, negb (bool_decide (dt_Id dt = SentinelDevicetypeID)))
    (omap (λ e, am_adapterAgents s !! e.2 ≫= agentDeviceType e.1)
       (go_range (am_deviceTypeToAdapterMap s)))).

(** ** Operations *)

Inductive AdapterOp :=
  | OpStart (p1 p2 : outcome unit)
  | OpRegister (adapter : VolthaAdapter) (deviceTypes : option (list DeviceType))
  | OpUpdateInMemory (adapter : VolthaAdapter)
  | OpAdaptersUpdated (previousData latestData : option (list VolthaAdapter))
  | OpDeviceTypesUpdated (previousData latestData : option (list DeviceType))
  | OpCommunication (now : Z) (adapterID : string) (timestamp : Z).

Definition run_adapter_op (op : AdapterOp) : M AdapterManager unit :=
  match op with
  | OpStart p1 p2 => start p1 p2
  | OpRegister a dts => let* _ := registerAdapter a dts in ret tt
  | OpUpdateInMemory a => updateAdaptersAndDevicetypesInMemory a
  | OpAdaptersUpdated p l => adapterUpdated p l
  | OpDeviceTypesUpdated p l => deviceTypesUpdated p l
  | OpCommunication now id ts => updateLastAdapterCommunication now id ts
  end.
End Manager.

(** ** The registry *)

Section Registry.
Context {Store : Type} `{DataProxy VolthaAdapter Store, DataList VolthaAdapter Store,
  DataProxy DeviceType Store, DataList DeviceType Store, GoRange}.
Notation AM := (AdapterManager (Store := Store)).
Implicit Types s : AM.

Lemma new_agent_adapter adapter dts : aa_adapter (newAdapterAgent adapter dts) = adapter.
Proof.
  unfold newAdapterAgent. change adapter with (aa_adapter (mkAdapterAgent adapter ∅)) at 2.
  generalize (mkAdapterAgent adapter ∅). induction (default [] dts) as [|dt l IH]; intros aa; simpl; [done|].
  by rewrite IH.
Qed.

Definition types_named (aa : AdapterAgent) : Prop :=
  ∀ T dt, aa_deviceTypes aa !! T = Some dt → dt_Id dt = T.

Lemma types_named_update dt aa : types_named aa → types_named (updateAgentDeviceType dt aa).
Proof. intros Haa T dt'. simpl. intros [[<- <-]|[_ ?]]%lookup_insert_Some; [done | by apply Haa]. Qed.

Lemma types_named_fold dts aa :
  types_named aa → types_named (foldl (λ aa dt, updateAgentDeviceType dt aa) aa dts).
Proof.
  revert aa. induction dts as [|dt dts IH]; intros aa Haa; simpl; [done|]. by apply IH, types_named_update.
Qed.
Lemma types_named_new adapter dts : types_named (newAdapterAgent adapter dts).
Proof. apply types_named_fold. done. Qed.

(** The last device type of an identifier is the one that stays. *)
Lemma fold_absent dts aa T :
  T ∉ dt_Id <$> dts →
  aa_deviceTypes (foldl (λ aa dt, updateAgentDeviceType dt aa) aa dts) !! T = aa_deviceTypes aa !! T.
Proof.
  revert aa. induction dts as [|dt dts IH]; intros aa Hn; simpl; [done|].
  rewrite IH; [|set_solver]. simpl. rewrite lookup_insert_ne; [done | set_solver].
Qed.
Lemma new_agent_last adapter seen dt rest :
  dt_Id dt ∉ dt_Id <$> rest →
  aa_deviceTypes (newAdapterAgent adapter (Some (seen ++ dt :: rest))) !! dt_Id dt = Some dt.
Proof.
  intros Hn. unfold newAdapterAgent. simpl. rewrite foldl_app. simpl.
  rewrite fold_absent; [|done]. simpl. by rewrite lookup_insert_eq.
Qed.
Lemma new_agent_some adapter dts T :
  T ∈ dt_Id <$> dts → is_Some (aa_deviceTypes (newAdapterAgent adapter (Some dts)) !! T).
Proof.
  unfold newAdapterAgent. simpl. generalize (mkAdapterAgent adapter ∅).
  induction dts as [|x dts IH]; intros aa Hin; simpl in *; [by apply not_elem_of_nil in Hin|].
  destruct (decide (T ∈ dt_Id <$> dts)) as [Hd|Hd]; [by apply IH|].
  apply elem_of_cons in Hin as [->|?]; [|done]. rewrite fold_absent; [|done]. simpl. by rewrite lookup_insert_eq.
Qed.

(** Agents are stored under their names; a device type that leads to an adapter
    is held by the agent of the adapter, as one of that adapter unless [pending]
    device types still have to be processed. *)
Definition registry_upto (pending : list string) s : Prop :=
  (∀ k aa, am_adapterAgents s !! k = Some aa → va_Id (aa_adapter aa) = k ∧ types_named aa) ∧
  (∀ T a, am_deviceTypeToAdapterMap s !! T = Some a →
     ∃ aa dt, am_adapterAgents s !! a = Some aa ∧ aa_deviceTypes aa !! T = Some dt ∧
              (dt_Adapter dt = a ∨ T ∈ pending)).
Definition registry_ok : AM → Prop := registry_upto [].

Lemma registry_frame pending s s' :
  am_adapterAgents s' = am_adapterAgents s → am_deviceTypeToAdapterMap s' = am_deviceTypeToAdapterMap s →
  registry_upto pending s → registry_upto pending s'.
Proof. unfold registry_upto. by intros -> ->. Qed.

(** The agent of [k] changes and keeps the device types it had. *)
Lemma registry_agent pending s k aa :
  registry_upto pending s → va_Id (aa_adapter aa) = k → types_named aa →
  (∀ aa0, am_adapterAgents s !! k = Some aa0 → aa_deviceTypes aa = aa_deviceTypes aa0) →
  registry_upto pending (set_adapterAgents (<[k := aa]> (am_adapterAgents s)) s).
Proof.
  intros [Ha Ht] Hk Hn Hsame. split; simpl.
  - intros k' aa' [[<- <-]|[_ ?]]%lookup_insert_Some; [by split | by apply Ha].
  - intros T a HT. destruct (Ht T a HT) as (aa0 & dt & Haa0 & Hdt & Hor).
    destruct (decide (a = k)) as [->|Hne].
    + exists aa, dt. rewrite lookup_insert_eq (Hsame aa0 Haa0). done.
    + exists aa0, dt. by rewrite lookup_insert_ne.
Qed.

Lemma registry_addAdapter s adapter :
  registry_ok s → am_adapterAgents s !! va_Id adapter = None →
  registry_ok (set_adapterAgents (<[va_Id adapter := newAdapterAgent adapter None]> (am_adapterAgents s)) s).
Proof. intros Hs Hno. apply registry_agent; [done | done | done | by rewrite Hno]. Qed.

(** What one device type of a message does to its adapter. *)
Definition typed_agent (items : list DeviceType) (dt : DeviceType) s : AdapterAgent :=
  match am_adapterAgents s !! dt_Adapter dt with
  | Some aa => updateAgentDeviceType dt aa
  | None => newAdapterAgent (adapter_named (dt_Adapter dt)) (Some items)
  end.
Definition typed items dt s : AM :=
  set_deviceTypeToAdapterMap (<[dt_Id dt := dt_Adapter dt]> (am_deviceTypeToAdapterMap s))
    (set_adapterAgents (<[dt_Adapter dt := typed_agent items dt s]> (am_adapterAgents s)) s).

Lemma add_device_type_run items dt s : add_device_type items dt s = (Ok tt, typed items dt s).
Proof. done. Qed.
Lemma updateDeviceType_run dt s : updateDeviceTypeWithoutLock dt s = (Ok tt, typed [dt] dt s).
Proof. done. Qed.

Lemma typed_agent_named items dt s k aa :
  registry_upto k s → typed_agent items dt s = aa →
  va_Id (aa_adapter aa) = dt_Adapter dt ∧ types_named aa.
Proof.
  intros [Ha _] <-. unfold typed_agent. destruct (am_adapterAgents s !! dt_Adapter dt) as [aa|] eqn:Haa.
  - destruct (Ha _ _ Haa). split; [done | by apply types_named_update].
  - rewrite new_agent_adapter. split; [done | apply types_named_new].
Qed.

(** [items] is the whole message: [seen] was processed, then comes [dt]. *)
Lemma registry_typed seen dt rest s :
  registry_upto (dt_Id <$> dt :: rest) s →
  registry_upto (dt_Id <$> rest) (typed (seen ++ dt :: rest) dt s).
Proof.
  intros Hs. set (items := seen ++ dt :: rest).
  destruct (typed_agent_named items dt s _ _ Hs eq_refl) as [Hid Hnamed]. destruct Hs as [Ha Ht].
  split; simpl.
  - intros k aa [[<- <-]|[_ ?]]%lookup_insert_Some; [done | by apply Ha].
  - intros T a HT. apply lookup_insert_Some in HT as [[<- <-]|[Hne HT]].
    + exists (typed_agent items dt s). rewrite lookup_insert_eq. unfold typed_agent.
      destruct (am_adapterAgents s !! dt_Adapter dt) as [aa|]; simpl.
      * exists dt. rewrite lookup_insert_eq. by auto.
      * destruct (decide (dt_Id dt ∈ dt_Id <$> rest)) as [Hin|Hn].
        { destruct (new_agent_some (adapter_named (dt_Adapter dt)) items (dt_Id dt)) as [dt' Hdt'].
          { unfold items. rewrite fmap_app. set_solver. }
          exists dt'. by auto. }
        exists dt. unfold items. rewrite new_agent_last; [by auto | done].
    + destruct (Ht T a HT) as (aa & dt' & Haa & Hdt' & Hor).
      assert (dt_Adapter dt' = a ∨ T ∈ dt_Id <$> rest) as Hor' by set_solver.
      destruct (decide (a = dt_Adapter dt)) as [->|Hna].
      * exists (typed_agent items dt s), dt'. rewrite lookup_insert_eq. unfold typed_agent. rewrite Haa. simpl.
        by rewrite lookup_insert_ne.
      * exists aa, dt'. by rewrite lookup_insert_ne.
Qed.

Lemma registry_type_loop items s :
  registry_ok s → ∃ s', for_each (add_device_type items) items s = (Ok tt, s') ∧ registry_ok s'.
Proof.
  intros Hs.
  assert (∀ seen rest s, items = seen ++ rest → registry_upto (dt_Id <$> rest) s →
    ∃ s', for_each (add_device_type items) rest s = (Ok tt, s') ∧ registry_ok s') as Hloop.
  { intros seen rest. revert seen. induction rest as [|dt rest IH]; intros seen s1 Heq Hs1; simpl; [by eexists|].
    unfold sbind. rewrite add_device_type_run. apply (IH (seen ++ [dt])).
    - by rewrite -app_assoc.
    - rewrite Heq. by apply registry_typed. }
  apply (Hloop [] items); [done|]. destruct Hs as [Ha Ht]. split; [done|].
  intros T a HT. destruct (Ht T a HT) as (aa & dt & ? & ? & [?|Hin]); [by eauto 7 | by apply not_elem_of_nil in Hin].
Qed.

(** *** Every method keeps the registry *)

Lemma preserves_save {Obj} `{DataProxy Obj Store} id (o : Obj) : preserves registry_ok (save_absent id o).
Proof.
  intros s Hs. unfold save_absent, sbind, get, lift. simpl.
  destruct (dp_get id (am_store s)) as [[]|e|]; simpl; [done| |done|done].
  destruct (dp_add id o (am_store s)) as [[| |e] st]; simpl; by apply (registry_frame [] s).
Qed.
Hint Resolve preserves_save : preserves.

Lemma preserves_addAdapter adapter save : preserves registry_ok (addAdapter adapter save).
Proof.
  intros s Hs. unfold addAdapter, sbind, get. simpl.
  destruct (am_adapterAgents s !! va_Id adapter) eqn:Haa; [done|]. simpl.
  pose proof (registry_addAdapter s adapter Hs Haa). destruct save; [by apply preserves_save | done].
Qed.
Hint Resolve preserves_addAdapter : preserves.

Lemma preserves_types items : preserves registry_ok (for_each (add_device_type items) items).
Proof. intros s Hs. destruct (registry_type_loop items s Hs) as (s' & Heq & Hs'). by rewrite Heq. Qed.

Lemma preserves_addDeviceTypes dts save : preserves registry_ok (addDeviceTypes dts save).
Proof.
  unfold addDeviceTypes. destruct dts as [items|]; [|preserves_tac].
  apply preserves_bind; [apply preserves_types|]. intros _. destruct save; preserves_tac.
Qed.
Hint Resolve preserves_addDeviceTypes : preserves.

Lemma preserves_updateAdapter adapter : preserves registry_ok (updateAdapterWithoutLock adapter).
Proof.
  intros s Hs. unfold updateAdapterWithoutLock, modify. simpl.
  destruct (am_adapterAgents s !! va_Id adapter) as [aa|] eqn:Haa; apply registry_agent; try done.
  - by destruct Hs as [Ha _]; apply Ha in Haa as [_ ?].
  - intros aa0. rewrite Haa. by intros [= <-].
  - by rewrite Haa.
Qed.
Hint Resolve preserves_updateAdapter : preserves.

Lemma preserves_updateDeviceType dt : preserves registry_ok (updateDeviceTypeWithoutLock dt).
Proof.
  intros s Hs. rewrite updateDeviceType_run. simpl. apply (registry_typed [] dt []).
  destruct Hs as [Ha Ht]. split; [done|]. intros T a HT.
  destruct (Ht T a HT) as (aa & dt' & ? & ? & [?|Hin]); [by eauto 7 | by apply not_elem_of_nil in Hin].
Qed.
Hint Resolve preserves_updateDeviceType : preserves.

Lemma preserves_restart adapter : preserves registry_ok (adapter_restarted adapter).
Proof. intros s Hs. by apply (registry_frame [] s). Qed.
Hint Resolve preserves_restart : preserves.

Lemma communication_keeps now new aa :
  va_Id (aa_adapter (updateCommunicationTime now new aa)) = va_Id (aa_adapter aa) ∧
  aa_deviceTypes (updateCommunicationTime now new aa) = aa_deviceTypes aa.
Proof. unfold updateCommunicationTime. case_match; [|done]. by destruct (timestamp_proto new). Qed.

Lemma preserves_communication now id ts : preserves registry_ok (updateLastAdapterCommunication now id ts).
Proof.
  intros s Hs. unfold updateLastAdapterCommunication, modify. simpl.
  destruct (am_adapterAgents s !! id) as [aa|] eqn:Haa; [|done].
  set (new := time_Unix _ _). destruct (communication_keeps now new aa) as [Hid Hty].
  destruct Hs as [Ha Ht]. destruct (Ha id aa Haa) as [Hn Hnamed]. apply registry_agent; [done| | |].
  - by rewrite Hid.
  - unfold types_named. by rewrite Hty.
  - rewrite Haa. by intros aa0 [= <-].
Qed.
Hint Resolve preserves_communication : preserves.

Lemma preserves_adapter_op op : preserves registry_ok (run_adapter_op op).
Proof.
  destruct op; simpl; unfold start, loadAdaptersAndDevicetypesInMemory, registerAdapter,
    updateAdaptersAndDevicetypesInMemory, adapterUpdated, deviceTypesUpdated, getAdapter, updateAdapter, updateDeviceType;
    preserves_tac.
Qed.

Definition run_adapter_ops (ops : list AdapterOp) s : AM := foldl (λ s op, (run_adapter_op op s).2) s ops.

Lemma registry_reached ops store id : registry_ok (run_adapter_ops ops (newAdapterManager store id)).
Proof.
  assert (registry_ok (newAdapterManager store id)) as Hs by (by split).
  revert Hs. generalize (newAdapterManager store id). unfold run_adapter_ops.
  induction ops as [|op ops IH]; intros s Hs; simpl; [done|]. apply IH. by apply preserves_adapter_op.
Qed.

(** The two answers of the registry agree.  Whatever adapters and device
    types were loaded, registered, updated through the data model or failed to
    be saved, an adapter is stored under its own identifier, and the manager
    names an adapter for a device type exactly when it knows the device type as
    one of that adapter. *)
Theorem adapter_registry_invariant (ops : list AdapterOp) (store : Store) (id : string) :
  let s := run_adapter_ops ops (newAdapterManager store id) in
  (∀ k a, (getAdapter k s).1 = Ok (Some a) → va_Id a = k) ∧
  (∀ T a, (getAdapterName T s).1 = Ok a ↔
     ∃ dt, (getDeviceType T s).1 = Ok (Some dt) ∧ dt_Id dt = T ∧ dt_Adapter dt = a).
Proof.
  intros s. destruct (registry_reached ops store id : registry_ok s) as [Ha Ht]. split.
  - intros k a. unfold getAdapter, gets. simpl. intros [= Hk].
    apply fmap_Some in Hk as (aa & Haa & ->). by apply Ha.
  - intros T a. unfold getAdapterName, getDeviceType, sbind, get, gets. simpl.
    destruct (am_deviceTypeToAdapterMap s !! T) as [a'|] eqn:HT; simpl.
    + destruct (Ht T a' HT) as (aa & dt & Haa & Hdt & [Had|Hin]); [|by apply not_elem_of_nil in Hin].
      unfold agentDeviceType. rewrite Haa. simpl. rewrite Hdt. destruct (Ha a' aa Haa) as [_ Hn]. split.
      * intros [= <-]. exists dt. split; [done|]. split; [by apply Hn | done].
      * intros (dt' & [= <-] & _ & <-). by rewrite Had.
    + split; [done|]. by intros (dt & ? & _).
Qed.
End Registry.

(** ** Registration *)

Section Registration.
Context {Store : Type} `{DataProxy VolthaAdapter Store, DataList VolthaAdapter Store,
  DataProxy DeviceType Store, DataList DeviceType Store, GoRange}.
Notation AM := (AdapterManager (Store := Store)).
Implicit Types s : AM.

Lemma save_frame {Obj} `{DataProxy Obj Store} id (o : Obj) s r s' :
  save_absent id o s = (r, s') → ∃ st, s' = set_am_store st s.
Proof.
  unfold save_absent, sbind, get, lift. simpl. destruct (dp_get id (am_store s)) as [[]|e|]; simpl;
    [..|by intros [= <- <-]; exists (am_store s); destruct s | by intros [= <- <-]; exists (am_store s); destruct s].
  - intros [= <- <-]. exists (am_store s). by destruct s.
  - destruct (dp_add id o (am_store s)) as [[| |e] st]; simpl; intros [= <- <-]; by exists st.
Qed.

Lemma save_all_frame items s r s' :
  for_each (λ dt, save_absent (dt_Id dt) dt) items s = (r, s') → ∃ st, s' = set_am_store st s.
Proof.
  revert s. induction items as [|dt items IH]; intros s; simpl.
  { intros [= <- <-]. exists (am_store s). by destruct s. }
  unfold sbind. destruct (save_absent (dt_Id dt) dt s) as [r1 s1] eqn:Hs1.
  destruct (save_frame _ _ _ _ _ Hs1) as [st1 ->].
  destruct r1; [|intros [= <- <-]; by exists st1..].
  intros Hs'. destruct (IH _ Hs') as [st ->]. by exists st.
Qed.

(** The device types processed so far lead to their adapters. *)
Definition resolved (dts : list DeviceType) s : Prop :=
  ∀ dt, dt ∈ dts → am_deviceTypeToAdapterMap s !! dt_Id dt = Some (dt_Adapter dt) ∧
    ∃ aa, am_adapterAgents s !! dt_Adapter dt = Some aa ∧ aa_deviceTypes aa !! dt_Id dt = Some dt.

Lemma resolved_typed seen dt rest s :
  NoDup (dt_Id <$> seen ++ dt :: rest) → resolved seen s →
  resolved (seen ++ [dt]) (typed (seen ++ dt :: rest) dt s).
Proof.
  intros Hnd Hs x Hx. rewrite fmap_app fmap_cons in Hnd. apply NoDup_app in Hnd as (Hnd1 & Hdisj & Hnd2).
  apply NoDup_cons in Hnd2 as [Hn _]. unfold typed. simpl. apply elem_of_app in Hx as [Hx|Hx].
  - assert (dt_Id x ≠ dt_Id dt) as Hne.
    { intros Heq. apply (Hdisj (dt_Id x)); [by apply list_elem_of_fmap_2 | rewrite Heq; set_solver]. }
    destruct (Hs x Hx) as (Hmap & aa & Haa & Hty). rewrite lookup_insert_ne; [|done]. split; [done|].
    destruct (decide (dt_Adapter x = dt_Adapter dt)) as [Heq|Hna].
    + rewrite Heq lookup_insert_eq. eexists. split; [done|]. unfold typed_agent. rewrite -Heq Haa. simpl.
      by rewrite lookup_insert_ne.
    + exists aa. by rewrite lookup_insert_ne.
  - apply list_elem_of_singleton in Hx as ->. rewrite !lookup_insert_eq. split; [done|]. eexists. split; [done|].
    unfold typed_agent. destruct (am_adapterAgents s !! dt_Adapter dt); simpl;
      [by rewrite lookup_insert_eq | by apply new_agent_last].
Qed.

(** Nothing else changes: neither the other adapters nor the known ones. *)
Lemma typed_keeps items dt s k aa :
  am_adapterAgents s !! k = Some aa →
  ∃ aa', am_adapterAgents (typed items dt s) !! k = Some aa' ∧ aa_adapter aa' = aa_adapter aa.
Proof.
  intros Haa. unfold typed. simpl. destruct (decide (k = dt_Adapter dt)) as [->|Hne].
  - rewrite lookup_insert_eq. eexists. split; [done|]. unfold typed_agent. by rewrite Haa.
  - exists aa. by rewrite lookup_insert_ne.
Qed.

Lemma types_loop items s :
  NoDup (dt_Id <$> items) →
  ∃ s', for_each (add_device_type items) items s = (Ok tt, s') ∧ resolved items s' ∧
    am_store s' = am_store s ∧ am_restarts s' = am_restarts s ∧ am_coreInstanceID s' = am_coreInstanceID s ∧
    (∀ k aa, am_adapterAgents s !! k = Some aa →
       ∃ aa', am_adapterAgents s' !! k = Some aa' ∧ aa_adapter aa' = aa_adapter aa) ∧
    (∀ T, T ∉ dt_Id <$> items → am_deviceTypeToAdapterMap s' !! T = am_deviceTypeToAdapterMap s !! T).
Proof.
  intros Hnd.
  assert (∀ seen rest s1, items = seen ++ rest → resolved seen s1 →
    ∃ s', for_each (add_device_type items) rest s1 = (Ok tt, s') ∧ resolved items s' ∧
    am_store s' = am_store s1 ∧ am_restarts s' = am_restarts s1 ∧ am_coreInstanceID s' = am_coreInstanceID s1 ∧
    (∀ k aa, am_adapterAgents s1 !! k = Some aa →
       ∃ aa', am_adapterAgents s' !! k = Some aa' ∧ aa_adapter aa' = aa_adapter aa) ∧
    (∀ T, T ∉ dt_Id <$> rest → am_deviceTypeToAdapterMap s' !! T = am_deviceTypeToAdapterMap s1 !! T)) as Hloop.
  { intros seen rest. revert seen. induction rest as [|dt rest IH]; intros seen s1 Heq Hs1; simpl.
    { rewrite app_nil_r in Heq. subst seen. exists s1. do 5 (split; [done|]). split; [by eauto | done]. }
    unfold sbind. rewrite add_device_type_run.
    destruct (IH (seen ++ [dt]) (typed items dt s1)) as (s' & Hrun & Hres & Hst & Hre & Hid & Hag & Hty).
    - by rewrite -app_assoc.
    - rewrite Heq. apply resolved_typed; [by rewrite -Heq | done].
    - exists s'. split; [done|]. split; [done|]. split; [done|]. split; [done|]. split; [done|]. split.
      + intros k aa Haa. destruct (typed_keeps items dt s1 k aa Haa) as (aa1 & Haa1 & Had1).
        destruct (Hag k aa1 Haa1) as (aa2 & Haa2 & Had2). exists aa2. split; [done | by rewrite Had2].
      + intros T HT. rewrite Hty; [|set_solver]. unfold typed. simpl. rewrite lookup_insert_ne; [done | set_solver]. }
  apply (Hloop [] items s); [done|]. intros dt Hdt. by apply not_elem_of_nil in Hdt.
Qed.

Lemma register_known adapter items s :
  is_Some (am_adapterAgents s !! va_Id adapter) →
  registerAdapter adapter (Some items) s =
  (Ok (am_coreInstanceID s), set_restarts (am_restarts s ++ [adapter]) s).
Proof. intros [aa Haa]. unfold registerAdapter, getAdapter, sbind, lift, gets. simpl. by rewrite Haa. Qed.

(** The device types never remove an adapter. *)
Lemma types_keep items l s k :
  is_Some (am_adapterAgents s !! k) →
  ∃ s', for_each (add_device_type items) l s = (Ok tt, s') ∧ is_Some (am_adapterAgents s' !! k) ∧
    am_coreInstanceID s' = am_coreInstanceID s ∧ am_restarts s' = am_restarts s.
Proof.
  revert s. induction l as [|dt l IH]; intros s [aa Hs]; simpl; [by eauto 7|].
  unfold sbind. rewrite add_device_type_run. destruct (typed_keeps items dt s _ _ Hs) as (aa' & Haa' & _).
  destruct (IH (typed items dt s)) as (s' & ? & ? & ? & ?); eauto 7.
Qed.

(** [registerAdapter].  An adapter that is already known is left as it is,
    and only its devices are reconciled.  When the registration of a new adapter
    succeeds, the adapter is known with its data, each of its device types is
    served by the adapter it names, all other device types are served as before,
    the adapters known before keep their data, and nothing is reconciled. *)
Theorem register_adapter_correct (adapter : VolthaAdapter) (items : list DeviceType) s :
  match am_adapterAgents s !! va_Id adapter with
  | Some _ =>
      registerAdapter adapter (Some items) s =
      (Ok (am_coreInstanceID s), set_restarts (am_restarts s ++ [adapter]) s)
  | None =>
      ∀ id s', NoDup (dt_Id <$> items) → registerAdapter adapter (Some items) s = (Ok id, s') →
      id = am_coreInstanceID s ∧ am_restarts s' = am_restarts s ∧
      (getAdapter (va_Id adapter) s').1 = Ok (Some adapter) ∧
      (∀ dt, dt ∈ items → (getAdapterName (dt_Id dt) s').1 = Ok (dt_Adapter dt) ∧
                          (getDeviceType (dt_Id dt) s').1 = Ok (Some dt)) ∧
      (∀ T, T ∉ dt_Id <$> items → (getAdapterName T s').1 = (getAdapterName T s).1) ∧
      (∀ k a, (getAdapter k s).1 = Ok (Some a) → (getAdapter k s').1 = Ok (Some a))
  end.
Proof.
  destruct (am_adapterAgents s !! va_Id adapter) as [aa|] eqn:Haa; [by apply register_known; rewrite Haa|].
  intros id s' Hnd. unfold registerAdapter, getAdapter, sbind, lift, gets. simpl. rewrite Haa. simpl.
  unfold addAdapter, sbind, get. simpl. rewrite Haa. simpl.
  set (s1 := set_adapterAgents _ s). destruct (save_absent (va_Id adapter) adapter s1) as [r2 s2] eqn:Hs2.
  destruct (save_frame _ _ _ _ _ Hs2) as [st2 ->]. destruct r2; [|done|done]. unfold sbind.
  destruct (types_loop items (set_am_store st2 s1) Hnd) as (s3 & -> & Hres & _ & Hre & Hid & Hag & Hty).
  destruct (for_each (λ dt, save_absent (dt_Id dt) dt) items s3) as [r4 s4] eqn:Hs4.
  destruct (save_all_frame _ _ _ _ Hs4) as [st4 ->]. destruct r4; [|done|done]. simpl. intros [= <- <-].
  simpl. split; [done|]. split; [done|]. split; [|split; [|split]].
  - destruct (Hag (va_Id adapter) (newAdapterAgent adapter None)) as (aa' & Haa' & Had).
    { simpl. by rewrite lookup_insert_eq. }
    rewrite Haa'. simpl. by rewrite Had.
  - intros dt Hdt. destruct (Hres dt Hdt) as (Hmap & aa & Haa' & Hdt').
    unfold getAdapterName, getDeviceType, sbind, get, gets. simpl. rewrite Hmap Haa'. simpl.
    unfold agentDeviceType. by rewrite Hdt'.
  - intros T HT. unfold getAdapterName, sbind, get. simpl. rewrite (Hty T HT). simpl. by destruct (_ !! T).
  - intros k known [= Hk]. apply fmap_Some in Hk as (aa & Haak & ->).
    destruct (Hag k aa) as (aa' & Haa' & Had).
    { simpl. rewrite lookup_insert_ne; [done | congruence]. }
    rewrite Haa'. simpl. by rewrite Had.
Qed.

(** a registration that fails cannot be repeated.  When the data model
    refuses to save a new adapter or one of its device types, the call reports
    the error but the adapter stays registered in memory; every later
    registration of it reports success without saving the adapter or learning
    any device type. *)
Theorem failed_registration_sticks (adapter : VolthaAdapter) (items items' : list DeviceType) s e s' :
  am_adapterAgents s !! va_Id adapter = None →
  registerAdapter adapter (Some items) s = (Err e, s') →
  registerAdapter adapter (Some items') s' =
  (Ok (am_coreInstanceID s), set_restarts (am_restarts s ++ [adapter]) s').
Proof.
  intros Haa. unfold registerAdapter at 1, getAdapter, sbind, lift, gets. simpl. rewrite Haa. simpl.
  unfold addAdapter, sbind, get. simpl. rewrite Haa. simpl.
  set (s1 := set_adapterAgents _ s). destruct (save_absent (va_Id adapter) adapter s1) as [r2 s2] eqn:Hs2.
  destruct (save_frame _ _ _ _ _ Hs2) as [st2 ->].
  assert (is_Some (am_adapterAgents (set_am_store st2 s1) !! va_Id adapter)) as Hin.
  { simpl. rewrite lookup_insert_eq. eauto. }
  destruct r2; [|intros [= <- <-]; by rewrite register_known | done]. unfold sbind.
  destruct (types_keep items items _ _ Hin) as (s3 & -> & Hs3 & Hid3 & Hre3).
  destruct (for_each (λ dt, save_absent (dt_Id dt) dt) items s3) as [r4 s4] eqn:Hs4.
  destruct (save_all_frame _ _ _ _ Hs4) as [st4 ->]. destruct r4; [done | | done]. simpl. intros [= <- <-].
  rewrite register_known; [|done]. simpl. by rewrite Hid3 Hre3.
Qed.
End Registration.

(** ** Communication time *)

Definition last_communication (aa : AdapterAgent) : option Z :=
  timestamp_time (va_LastCommunication (aa_adapter aa)).

Lemma timestamp_roundtrip t ts : timestamp_proto t = Some ts → timestamp_time (Some ts) = Some t.
Proof.
  unfold timestamp_proto, timestamp_time. case_match; [|done]. intros [= <-]. rewrite H. simpl. f_equal.
  pose proof (Z.div_mod t 1000000000). lia.
Qed.

(** the communication time of an adapter.  It never goes back and is never
    later than the clock; a time that is later than the recorded one, not in the
    future and representable is recorded exactly.  The time of a Kafka message of
    [ms] milliseconds is taken to be up to a second too early: its fraction of a
    second is counted in microseconds. *)
Theorem communication_time_correct (now new ms : Z) (aa : AdapterAgent) :
  let aa' := updateCommunicationTime now new aa in
  (∀ last, last_communication aa = Some last → ∃ last', last_communication aa' = Some last' ∧ last ≤ last') ∧
  (aa' = aa ∨ last_communication aa' = Some new ∧ new ≤ now) ∧
  (new ≤ now → is_Some (timestamp_proto new) → (∀ last, last_communication aa = Some last → last < new) →
   last_communication aa' = Some new) ∧
  (0 ≤ ms →
   let t := time_Unix (Z.quot ms 1000) (Z.rem ms 1000 * 1000) in
   t = ms * 1000000 - ms mod 1000 * 999000 ∧ ms * 1000000 - 1000000000 < t ≤ ms * 1000000).
Proof.
  intros aa'. split; [|split; [|split]].
  - intros last Hlast. unfold aa', updateCommunicationTime. case_match eqn:Hc; [|by exists last].
    apply andb_true_iff in Hc as [_ Hlt]. unfold last_communication in *. rewrite Hlast in Hlt.
    destruct (timestamp_proto new) as [ts|] eqn:Hts; [|exists last; done].
    exists new. split; [by apply timestamp_roundtrip | lia].
  - unfold aa', updateCommunicationTime. case_match eqn:Hc; [|by left].
    apply andb_true_iff in Hc as [Hnow _]. destruct (timestamp_proto new) as [ts|] eqn:Hts; [right | by left].
    split; [by apply timestamp_roundtrip | lia].
  - intros Hnow [ts Hts] Hlast. unfold aa', updateCommunicationTime. rewrite Hts.
    replace (negb (now <? new)) with true by lia. unfold last_communication in Hlast.
    destruct (timestamp_time _) as [last|]; simpl.
    + specialize (Hlast last eq_refl). replace (last <? new) with true by lia. by apply timestamp_roundtrip.
    + by apply timestamp_roundtrip.
  - intros Hms. unfold time_Unix. rewrite Z.quot_div_nonneg; [|lia..]. rewrite Z.rem_mod_nonneg; [|lia..].
    pose proof (Z.div_mod ms 1000 ltac:(lia)). pose proof (Z.mod_pos_bound ms 1000 ltac:(lia)). lia.
Qed.

(** ** A concrete registry *)

Section Samples.

(** A data model with a switch: when it is off every access fails. *)
Record SampleModel := mkSampleModel {
  sm_adapters : gmap string VolthaAdapter; sm_types : gmap string DeviceType; sm_up : bool }.

Definition sample_access {A} (up : bool) (a : A) : outcome A :=
  if up then Ok a else Err (Plain "kv-store-down").

Definition sample_adapters : DataProxy VolthaAdapter SampleModel := {|
  dp_get id s := sample_access (sm_up s) (sm_adapters s !! id);
  dp_update id a s := (UpdOk, mkSampleModel (<[id := a]> (sm_adapters s)) (sm_types s) (sm_up s));
  dp_add id a s := (UpdOk, mkSampleModel (<[id := a]> (sm_adapters s)) (sm_types s) (sm_up s));
  dp_remove id s := (UpdOk, mkSampleModel (delete id (sm_adapters s)) (sm_types s) (sm_up s)) |}.
Definition sample_types : DataProxy DeviceType SampleModel := {|
  dp_get id s := sample_access (sm_up s) (sm_types s !! id);
  dp_update id a s := (UpdOk, mkSampleModel (sm_adapters s) (<[id := a]> (sm_types s)) (sm_up s));
  dp_add id a s := (UpdOk, mkSampleModel (sm_adapters s) (<[id := a]> (sm_types s)) (sm_up s));
  dp_remove id s := (UpdOk, mkSampleModel (sm_adapters s) (delete id (sm_types s)) (sm_up s)) |}.

#[local] Existing Instances sample_adapters sample_types.

Definition sample_olt_adapter : VolthaAdapter := adapter_named "openolt".
Definition sample_olt_types : list DeviceType := [mkDeviceType "openolt" "" [] "openolt" true false false].
Definition sample_registry (up : bool) : AdapterManager :=
  newAdapterManager (mkSampleModel ∅ ∅ up) "core1".

Lemma register_adapter_correct_witness :
  let r := registerAdapter sample_olt_adapter (Some sample_olt_types) (sample_registry true) in
  r.1 = Ok "core1" ∧ sm_adapters (am_store r.2) !! "openolt" = Some sample_olt_adapter ∧
  (getDeviceType "openolt" r.2).1 = Ok (head sample_olt_types).
Proof.
  split; [done|]. split; [done|].
  destruct (register_adapter_correct sample_olt_adapter sample_olt_types (sample_registry true) "core1"
    (registerAdapter sample_olt_adapter (Some sample_olt_types) (sample_registry true)).2) as (_ & _ & _ & Hty & _).
  - repeat constructor. set_solver.
  - done.
  - by apply (Hty (mkDeviceType "openolt" "" [] "openolt" true false false)); left.
Defined.

Lemma failed_registration_sticks_witness :
  let r := registerAdapter sample_olt_adapter (Some sample_olt_types) (sample_registry false) in
  r.1 = Err (Plain "kv-store-down") ∧
  registerAdapter sample_olt_adapter (Some sample_olt_types) r.2 =
  (Ok "core1", set_restarts [sample_olt_adapter] r.2).
Proof.
  split; [done|].
  apply (failed_registration_sticks sample_olt_adapter sample_olt_types sample_olt_types (sample_registry false)
           (Plain "kv-store-down")); done.
Defined.

Lemma communication_time_correct_witness :
  let aa' := updateCommunicationTime 5000000000 2000000001 (newAdapterAgent sample_olt_adapter None) in
  last_communication aa' = Some 2000000001.
Proof. by apply (communication_time_correct 5000000000 2000000001 0). Defined.
End Samples.
