(* ===== verification/Managers.v ===== *)
(** * The managers: state, agents and loading

    [rw_core/core/device_manager.go] and [logical_device_manager.go] keep the
    agents of the devices and of the logical devices this core handles, and load
    them from the data model on demand.  The two managers call each other, so
    this file holds their common state, the access to the agents and the loading;
    DeviceMgr and LogicalMgr hold the rest.  A request runs to its end before the
    next one starts; the goroutines it leaves behind are tasks of the state.  A
    call that waits forever does not return, like one that panics. *)

From S2P Require Import Prelude OpenFlow VolthaTypes FlowUtils Decomposer CoreUtils DataProxy.
From S2P Require Import DeviceAgent LogicalAgent LogicalTables LogicalPorts.

(** Goroutines started by the managers.  The agent that [TaskStartLogicalDevice]
    starts is the one in the map if it was [mapped], else one that nobody else
    knows.  [OwnedByMe] is also called without a goroutine; its outcome is only
    logged. *)
Inductive CoreTask :=
  | TaskOwnedByMe (deviceID : string)
  | TaskUpdateLogicalPort (device : Device) (port : Port)
  | TaskUpdatePortState (deviceID : string) (portNo : Z) (operStatus : OperStatus)
  | TaskDeleteAllLogicalPorts (device : Device)
  | TaskEnableDevice (deviceID : string)
  | TaskDeviceDiscovered (deviceID deviceType parentID : string)
  | TaskStartLogicalDevice (logicalDeviceID rootDeviceID : string) (mapped : bool)
  | TaskProcessTransition (previous current : Device).

(** What the core gets from its surroundings: random bytes, and whether the
    creation of a proxy of the data model succeeds. *)
Class CoreEnv := {
  env_random : nat → outcome (list Z);
  env_createProxy : string → outcome unit;
  env_createLogicalProxy : string → string → outcome bool
}.

Section Managers.
Context {Store : Type} `{DataProxy Device Store, DataProxy LogicalDevice Store, DataList Device Store,
  DataList LogicalDevice Store, Adapter, AdapterMgrView, ProtoText, GoRange, DeviceManagerView,
  DeviceManagerCalls, CoreEnv}.
Notation DeviceAgent := (@AgentState Store).
Notation LogicalDeviceAgent := (@LogicalState Store).

(** ** State *)

(** The agents work on one data model [co_store]; [co_sent] are the requests of
    the device agents and [co_requests] those of the logical device agents.
    [co_ldLoading] is [logicalDeviceLoadingInProgress] between requests, and
    [co_abandoned] lists the calls of [AbandonDevice]. *)
Record Core := mkCore {
  co_deviceAgents : gmap string DeviceAgent; co_rootDevices : gmap string bool;
  co_logicalAgents : gmap string LogicalDeviceAgent; co_ldLoading : gset string;
  co_store : Store; co_sent : list AdapterRequest; co_requests : list Request;
  co_tasks : list CoreTask; co_abandoned : list string; co_defaultTimeout : Z }.

Definition set_deviceAgents v (s : Core) := mkCore v (co_rootDevices s) (co_logicalAgents s) (co_ldLoading s)
  (co_store s) (co_sent s) (co_requests s) (co_tasks s) (co_abandoned s) (co_defaultTimeout s).
Definition set_rootDevices v (s : Core) := mkCore (co_deviceAgents s) v (co_logicalAgents s) (co_ldLoading s)
  (co_store s) (co_sent s) (co_requests s) (co_tasks s) (co_abandoned s) (co_defaultTimeout s).
Definition set_logicalAgents v (s : Core) := mkCore (co_deviceAgents s) (co_rootDevices s) v (co_ldLoading s)
  (co_store s) (co_sent s) (co_requests s) (co_tasks s) (co_abandoned s) (co_defaultTimeout s).
Definition set_ldLoading v (s : Core) := mkCore (co_deviceAgents s) (co_rootDevices s) (co_logicalAgents s) v
  (co_store s) (co_sent s) (co_requests s) (co_tasks s) (co_abandoned s) (co_defaultTimeout s).
Definition set_co_store v (s : Core) := mkCore (co_deviceAgents s) (co_rootDevices s) (co_logicalAgents s)
  (co_ldLoading s) v (co_sent s) (co_requests s) (co_tasks s) (co_abandoned s) (co_defaultTimeout s).
Definition set_co_sent v (s : Core) := mkCore (co_deviceAgents s) (co_rootDevices s) (co_logicalAgents s)
  (co_ldLoading s) (co_store s) v (co_requests s) (co_tasks s) (co_abandoned s) (co_defaultTimeout s).
Definition set_requests v (s : Core) := mkCore (co_deviceAgents s) (co_rootDevices s) (co_logicalAgents s)
  (co_ldLoading s) (co_store s) (co_sent s) v (co_tasks s) (co_abandoned s) (co_defaultTimeout s).
Definition set_co_tasks v (s : Core) := mkCore (co_deviceAgents s) (co_rootDevices s) (co_logicalAgents s)
  (co_ldLoading s) (co_store s) (co_sent s) (co_requests s) v (co_abandoned s) (co_defaultTimeout s).
Definition set_abandoned v (s : Core) := mkCore (co_deviceAgents s) (co_rootDevices s) (co_logicalAgents s)
  (co_ldLoading s) (co_store s) (co_sent s) (co_requests s) (co_tasks s) v (co_defaultTimeout s).

Definition newManagers (store : Store) (timeout : Z) : Core :=
  mkCore ∅ ∅ ∅ ∅ store [] [] [] [] timeout.

Definition go_task (t : CoreTask) : M Core unit := modify (λ s, set_co_tasks (co_tasks s ++ [t]) s).

(** [deviceOwnership.AbandonDevice]; its error is only logged. *)
Definition abandon (id : string) : M Core unit := modify (λ s, set_abandoned (co_abandoned s ++ [id]) s).

(** ** Running an agent *)

(** An agent sees the data model and the requests as they are now. *)
Definition attach (s : Core) (a : DeviceAgent) : DeviceAgent := set_store (co_store s) (set_sent (co_sent s) a).
Definition detach (a : DeviceAgent) (s : Core) : Core := set_co_store (da_store a) (set_co_sent (da_sent a) s).

(** A method of an agent that is not in the map yet. *)
Definition on_new_agent {A} (a : DeviceAgent) (m : M DeviceAgent A) : M Core (A * DeviceAgent) := λ s,
  match m (attach s a) with
  | (Ok r, a') => (Ok (r, a'), detach a' s)
  | (Err e, a') => (Err e, detach a' s)
  | (Panic, a') => (Panic, detach a' s)
  end.

(** A method of the agent of [id], which the caller looked up before. *)
Definition on_agent {A} (id : string) (m : M DeviceAgent A) : M Core A := λ s,
  match co_deviceAgents s !! id with
  | None => (Panic, s)
  | Some a =>
      let (r, a') := m (attach s a) in
      (r, detach a' (set_deviceAgents (<[id := a']> (co_deviceAgents s)) s))
  end.

Definition attach_logical (s : Core) (a : LogicalDeviceAgent) : LogicalDeviceAgent :=
  set_lda_store (co_store s) (set_lda_sent (co_requests s) a).
Definition detach_logical (a : LogicalDeviceAgent) (s : Core) : Core :=
  set_co_store (lda_store a) (set_requests (lda_sent a) s).

Definition on_new_logical {A} (a : LogicalDeviceAgent) (m : M LogicalDeviceAgent A)
    : M Core (A * LogicalDeviceAgent) := λ s,
  match m (attach_logical s a) with
  | (Ok r, a') => (Ok (r, a'), detach_logical a' s)
  | (Err e, a') => (Err e, detach_logical a' s)
  | (Panic, a') => (Panic, detach_logical a' s)
  end.

Definition on_logical {A} (id : string) (m : M LogicalDeviceAgent A) : M Core A := λ s,
  match co_logicalAgents s !! id with
  | None => (Panic, s)
  | Some a =>
      let (r, a') := m (attach_logical s a) in
      (r, detach_logical a' (set_logicalAgents (<[id := a']> (co_logicalAgents s)) s))
  end.

(** ** The maps of the device manager *)

Definition addDeviceAgentToMap (agent : DeviceAgent) : M Core unit := modify (λ s,
  let s := match co_deviceAgents s !! da_deviceID agent with
           | Some _ => s
           | None => set_deviceAgents (<[da_deviceID agent := agent]> (co_deviceAgents s)) s
           end in
  set_rootDevices (<[da_deviceID agent := da_isRootdevice agent]> (co_rootDevices s)) s).

Definition deleteDeviceAgentFromMap (deviceID : string) : M Core unit := modify (λ s,
  set_rootDevices (delete deviceID (co_rootDevices s))
    (set_deviceAgents (delete deviceID (co_deviceAgents s)) s)).

Definition IsDeviceInCache (id : string) : M Core bool :=
  gets (λ s, bool_decide (is_Some (co_deviceAgents s !! id))).
Definition IsRootDevice (id : string) : M Core bool := gets (λ s, default false (co_rootDevices s !! id)).

Definition getDeviceFromModel (deviceID : string) : M Core Device := λ s,
  (match dp_get deviceID (co_store s) with
   | Ok (Some d) => Ok d
   | Ok None => Err (Status NotFound deviceID)
   | Err e => Err e
   | Panic => Panic
   end, s).

Definition getAllChildDeviceIds (parentDevice : Device) : list string :=
  flat_map (λ port, peer_DeviceId <$> port_Peers port) (dev_Ports parentDevice).

(** ** Loading a logical device *)

Definition addLogicalDeviceAgentToMap (agent : LogicalDeviceAgent) : M Core unit := modify (λ s,
  match co_logicalAgents s !! lda_logicalDeviceID agent with
  | Some _ => s
  | None => set_logicalAgents (<[lda_logicalDeviceID agent := agent]> (co_logicalAgents s)) s
  end).

Definition deleteLogicalDeviceAgent (logicalDeviceID : string) : M Core unit :=
  modify (λ s, set_logicalAgents (delete logicalDeviceID (co_logicalAgents s)) s).

Definition getLogicalDeviceFromModel (lDeviceID : string) : M Core LogicalDevice := λ s,
  (match dp_get lDeviceID (co_store s) with
   | Ok (Some d) => Ok d
   | Ok None => Err (Status NotFound lDeviceID)
   | Err e => Err e
   | Panic => Panic
   end, s).

(** [start] leaves the lock of the agent taken when it cannot read the logical
    device; stopping the agent then waits for it forever. *)
Definition start_keeps_lock (lDeviceID : string) (s : Core) : bool :=
  match dp_get (Obj := LogicalDevice) lDeviceID (co_store s) with Ok (Some _) => false | _ => true end.

(** The entry of [logicalDeviceLoadingInProgress] is not removed when the method
    returns because [stop] failed: later loads wait for it forever. *)
Definition ldm_load (lDeviceID : string) : M Core unit :=
  if decide (lDeviceID = EmptyString) then ret tt
  else
    let* s := get in
    if decide (lDeviceID ∈ co_ldLoading s) then panic
    else
      let* _ :=
        match co_logicalAgents s !! lDeviceID with
        | Some _ => ret tt
        | None =>
            let* found := attempt (getLogicalDeviceFromModel lDeviceID) in
            match found with
            | inr _ => ret tt
            | inl _ =>
                let agent := newLogicalDeviceAgent lDeviceID "" (co_store s) (co_requests s) (co_defaultTimeout s) in
                let* started := attempt (on_new_logical agent (LogicalPorts.start true (env_createLogicalProxy lDeviceID))) in
                match started with
                | inl (_, agent) =>
                    modify (λ s, set_logicalAgents (<[lDeviceID := agent]> (co_logicalAgents s)) s)
                | inr _ =>
                    if start_keeps_lock lDeviceID s then panic
                    else
                      let* stopped := attempt (on_new_logical agent LogicalPorts.stop) in
                      match stopped with
                      | inl _ => ret tt
                      | inr e =>
                          let* _ := modify (λ s, set_ldLoading ({[lDeviceID]} ∪ co_ldLoading s) s) in fail e
                      end
                end
            end
        end in
      let* s := get in
      match co_logicalAgents s !! lDeviceID with
      | Some _ => ret tt
      | None => fail (Status Aborted ("Error loading logical device " +:+ lDeviceID))
      end.

(** ** Loading a device *)

(** [start] of a new agent; when it fails the agent is stopped. *)
Definition start_or_stop (device : Device) : M Core unit :=
  let* s := get in
  let agent := newDeviceAgent env_random device (co_store s) (co_sent s) (co_defaultTimeout s) in
  let* started := attempt (on_new_agent agent (DeviceAgent.start None (env_createProxy (da_deviceID agent)))) in
  match started with
  | inl (_, agent) => addDeviceAgentToMap agent
  | inr _ => let* _ := on_new_agent agent DeviceAgent.stop in ret tt
  end.

Definition loadDevice (deviceID : string) : M Core unit :=
  if decide (deviceID = EmptyString) then fail (Status InvalidArgument "deviceId empty")
  else
    let* cached := IsDeviceInCache deviceID in
    let* _ :=
      if (cached : bool) then ret tt
      else
        let* found := attempt (getDeviceFromModel deviceID) in
        match found with
        | inl device => start_or_stop device
        | inr _ => ret tt
        end in
    let* cached := IsDeviceInCache deviceID in
    if (cached : bool) then ret tt
    else fail (Status Aborted ("Error loading device " +:+ deviceID)).

(** An error of the logical device manager is only logged. *)
Definition loadRootDeviceParentAndChildren (device : Device) : M Core unit :=
  if dev_Root device then
    let* _ := if decide (dev_ParentId device = EmptyString) then ret tt
              else let* _ := attempt (ldm_load (dev_ParentId device)) in ret tt in
    for_each loadDevice (getAllChildDeviceIds device)
  else ret tt.

(** A child device is loaded by loading its parent: the recursion ends when a
    root device is reached.  [fuel] bounds it; see [load_terminates]. *)
Fixpoint load (fuel : nat) (deviceID : string) : M Core unit :=
  match fuel with
  | O => panic
  | S fuel =>
      let* _ := loadDevice deviceID in
      let* device := on_agent deviceID getDeviceWithoutLock in
      if decide (dev_AdminState device = Admin_PREPROVISIONED ∨ dev_AdminState device = Admin_DELETED)
      then ret tt
      else if dev_Root device then loadRootDeviceParentAndChildren device
      else if decide (dev_ParentId device = EmptyString) then ret tt
      else load fuel (dev_ParentId device)
  end.

(** ** Looking up agents *)

Section Lookup.
Variable fuel : nat.

(** Whether there is an agent for the device, which is then in the map. *)
Definition getDeviceAgent (deviceID : string) : M Core bool :=
  let* cached := IsDeviceInCache deviceID in
  if (cached : bool) then ret true
  else
    let* loaded := attempt (load fuel deviceID) in
    match loaded with
    | inl _ =>
        let* cached := IsDeviceInCache deviceID in
        if (cached : bool) then let* _ := go_task (TaskOwnedByMe deviceID) in ret true else ret false
    | inr _ => ret false
    end.

(** [if agent := getDeviceAgent(id); agent != nil { ... } else { NotFound }]. *)
Definition with_agent {A} (id : string) (m : M DeviceAgent A) : M Core A :=
  let* found := getDeviceAgent id in
  if (found : bool) then on_agent id m else fail (Status NotFound id).

Definition GetDevice (id : string) : M Core Device := with_agent id getDeviceWithoutLock.

(** The error of [GetDevice] is dropped. *)
Definition GetParentDeviceID (deviceID : string) : M Core string :=
  let* device := attempt (GetDevice deviceID) in
  match device with
  | inl d => ret (dev_ParentId d)
  | inr _ => ret EmptyString
  end.

Definition getParentDevice (childDevice : Device) : M Core (option Device) :=
  if dev_Root childDevice then ret (Some childDevice)
  else
    let* parentDevice := attempt (GetDevice (dev_ParentId childDevice)) in
    match parentDevice with
    | inl d => ret (Some d)
    | inr _ => ret None
    end.

(** An agent whose logical device is not ready yet does not serve requests. *)
Definition getLogicalDeviceAgent (logicalDeviceID : string) : M Core bool :=
  let* s := get in
  match co_logicalAgents s !! logicalDeviceID with
  | Some lda => ret (bool_decide (is_Some (lda_logicalDevice lda)))
  | None =>
      let* loaded := attempt (ldm_load logicalDeviceID) in
      match loaded with
      | inl _ => gets (λ s, bool_decide (is_Some (co_logicalAgents s !! logicalDeviceID)))
      | inr _ => ret false
      end
  end.

Definition with_logical {A} (id : string) (m : M LogicalDeviceAgent A) : M Core A :=
  let* found := getLogicalDeviceAgent id in
  if (found : bool) then on_logical id m else fail (Status NotFound id).

(** The setter the logical device manager calls back. *)
Definition setParentID (device : Device) (parentID : string) : M Core unit :=
  with_agent (dev_Id device) (DeviceAgent.setParentID parentID).
End Lookup.
End Managers.
