(* ===== verification/Loading.v ===== *)
(** * Loading devices

    The state the managers keep, and the loading of devices: it ends, it brings
    a whole family of devices into memory, and it leaves the data alone.  The
    data model is an interface with laws: what is written is read back, and the
    objects of other paths are left alone. *)

From S2P Require Import Prelude OpenFlow VolthaTypes FlowUtils Routes Decomposer CoreUtils DataProxy.
From S2P Require Import DeviceAgent LogicalAgent LogicalTables LogicalPorts Managers.

(** ** The state the managers keep *)

Section ManagerFacts.
Context {Store : Type} `{DataProxy Device Store, DataProxy LogicalDevice Store, DataList Device Store,
  DataList LogicalDevice Store, Adapter, AdapterMgrView, ProtoText, GoRange, DeviceManagerView,
  DeviceManagerCalls, CoreEnv}.
Context `{!DataProxyApart LogicalDevice Device Store}.
Notation Core := (Core (Store := Store)).
Notation DeviceAgent := (@AgentState Store).
Implicit Types (s : Core) (a : DeviceAgent).

(** The agent was started, and its device is the one of the data model. *)
Definition agent_managed s (id : string) a : Prop :=
  da_deviceID a = id ∧ da_deviceProxy a = true ∧
  dp_get id (co_store s) = Ok (Some (da_device a)) ∧
  co_rootDevices s !! id = Some (da_isRootdevice a).

Definition managed s : Prop :=
  (∀ id a, co_deviceAgents s !! id = Some a → agent_managed s id a) ∧
  (∀ id, is_Some (co_rootDevices s !! id) → is_Some (co_deviceAgents s !! id)) ∧
  (∀ id d, dp_get id (co_store s) = Ok (Some d) → device_wf d).

(** Devices are stored under their identifiers. *)
Definition ids_match (st : Store) : Prop := ∀ id d, dp_get id st = Ok (Some d) → dev_Id d = id.

Lemma managed_same s s' :
  co_deviceAgents s' = co_deviceAgents s → co_rootDevices s' = co_rootDevices s →
  (∀ id, dp_get (Obj := Device) id (co_store s') = dp_get id (co_store s)) → managed s → managed s'.
Proof.
  intros Ha Hr Hst (Hm & Hroot & Hwf). split_and!.
  - intros id a. rewrite Ha. intros Hl. destruct (Hm _ _ Hl) as (? & ? & ? & ?). unfold agent_managed. by rewrite Hst Hr.
  - intros id. rewrite Ha Hr. apply Hroot.
  - intros id d. rewrite Hst. apply Hwf.
Qed.

(** ** Loading *)

Lemma start_loads (a : DeviceAgent) proxy r a' :
  DeviceAgent.start None proxy a = (Ok r, a') →
  dp_get (da_deviceID a) (da_store a) = Ok (Some r) ∧
  da_deviceID a' = da_deviceID a ∧ da_isRootdevice a' = da_isRootdevice a ∧ da_device a' = r ∧
  da_deviceProxy a' = true ∧ da_store a' = da_store a ∧ da_sent a' = da_sent a.
Proof.
  unfold DeviceAgent.start, sbind, get, lift, modify. simpl.
  destruct (dp_get _ _) as [[d|]|e|]; simpl; [|done..].
  destruct proxy as [[]|e|]; simpl; [|done..]. by intros [= <- <-].
Qed.

Lemma start_fails (a : DeviceAgent) proxy r a' :
  DeviceAgent.start None proxy a = (r, a') → (∀ d, r ≠ Ok d) →
  da_deviceProxy a' = da_deviceProxy a ∧ da_store a' = da_store a ∧ da_sent a' = da_sent a.
Proof.
  unfold DeviceAgent.start, sbind, get, lift, modify, ret, fail. cbv beta iota.
  destruct (dp_get _ _) as [[d|]|e|]; [|by intros [= <- <-]..].
  destruct proxy as [[]|e|]; cbv beta iota; intros [= <- <-] Hno; [by destruct (Hno d) | done..].
Qed.

(** A device that starts enters the map; one that does not crashes the core. *)
Lemma start_or_stop_run device s :
  match start_or_stop device s with
  | (Ok _, s') =>
      ∃ a, s' = (addDeviceAgentToMap a s).2 ∧
        da_deviceID a = da_deviceID (newDeviceAgent env_random device (co_store s) (co_sent s) 0) ∧
        da_isRootdevice a = dev_Root device ∧ da_deviceProxy a = true ∧
        dp_get (da_deviceID a) (co_store s) = Ok (Some (da_device a))
  | (Err _, _) => False
  | (Panic, s') => s' = s
  end.
Proof.
  unfold start_or_stop, sbind, get, attempt, on_new_agent, ret. cbv beta iota zeta.
  set (a := newDeviceAgent env_random device (co_store s) (co_sent s) (co_defaultTimeout s)).
  assert (attach s a = a) as -> by done.
  assert (detach a s = s) as Hdet by (by destruct s).
  assert (∀ a', da_store a' = da_store a → da_sent a' = da_sent a → detach a' s = s) as Hdet'.
  { intros a' Hst Hsent. rewrite -{2}Hdet. unfold detach. by rewrite Hst Hsent. }
  pose proof (start_loads a (env_createProxy (da_deviceID a))) as Hl.
  pose proof (start_fails a (env_createProxy (da_deviceID a))) as Hf.
  destruct (DeviceAgent.start None (env_createProxy (da_deviceID a)) a) as [[r|e|] a'].
  - destruct (Hl _ _ eq_refl) as (Hget & Hid & Hroot & Hd & Hp & Hst & Hsent).
    exists a'. split_and!.
    + by rewrite Hdet'.
    + by rewrite Hid.
    + by rewrite Hroot.
    + done.
    + rewrite Hid Hd. exact Hget.
  - destruct (Hf _ _ eq_refl) as (Hp & Hst & Hsent); [done|].
    by rewrite Hdet'.
  - destruct (Hf _ _ eq_refl) as (Hp & Hst & Hsent); [done|].
    by apply Hdet'.
Qed.

Lemma managed_add a s :
  managed s → co_deviceAgents s !! da_deviceID a = None →
  da_deviceProxy a = true → dp_get (da_deviceID a) (co_store s) = Ok (Some (da_device a)) →
  managed (addDeviceAgentToMap a s).2.
Proof.
  intros (Hm & Hroot & Hwf) Hnone Hp Hget. unfold addDeviceAgentToMap, modify. simpl. rewrite Hnone.
  split_and!; simpl.
  - intros id b. destruct (decide (id = da_deviceID a)) as [->|Hne].
    + rewrite lookup_insert_eq. intros [= <-]. unfold agent_managed. simpl. by rewrite lookup_insert_eq.
    + rewrite !lookup_insert_ne //. intros Hl. destruct (Hm _ _ Hl) as (? & ? & ? & ?). unfold agent_managed. simpl.
      by rewrite lookup_insert_ne.
  - intros id. destruct (decide (id = da_deviceID a)) as [->|Hne].
    + rewrite !lookup_insert_eq. by eexists.
    + rewrite !lookup_insert_ne //. apply Hroot.
  - exact Hwf.
Qed.

Lemma cached_run id s b :
  bool_decide (is_Some (co_deviceAgents s !! id)) = b → IsDeviceInCache id s = (Ok b, s).
Proof. by intros <-. Qed.

Lemma cached_yes id a s : co_deviceAgents s !! id = Some a → IsDeviceInCache id s = (Ok true, s).
Proof. intros Ha. apply cached_run. rewrite Ha. by apply bool_decide_true. Qed.
Lemma cached_no id s : co_deviceAgents s !! id = None → IsDeviceInCache id s = (Ok false, s).
Proof. intros Ha. apply cached_run. rewrite Ha. by apply bool_decide_false; intros []. Qed.

Lemma add_agents a s : co_deviceAgents s !! da_deviceID a = None →
  co_deviceAgents (addDeviceAgentToMap a s).2 = <[da_deviceID a := a]> (co_deviceAgents s).
Proof. intros Hn. unfold addDeviceAgentToMap, modify. simpl. by rewrite Hn. Qed.
Lemma add_store a s : co_store (addDeviceAgentToMap a s).2 = co_store s.
Proof. unfold addDeviceAgentToMap, modify. simpl. by destruct (_ !! _). Qed.

Lemma add_ldLoading a s : co_ldLoading (addDeviceAgentToMap a s).2 = co_ldLoading s.
Proof. unfold addDeviceAgentToMap, modify. simpl. by destruct (_ !! _). Qed.

(** Loading a device changes the agents only; it fails for an absent device. *)
Lemma loadDevice_run id s :
  managed s → ids_match (co_store s) →
  match loadDevice id s with
  | (Ok _, s') => managed s' ∧ co_store s' = co_store s ∧ co_deviceAgents s ⊆ co_deviceAgents s' ∧
      co_ldLoading s' = co_ldLoading s ∧ ∃ a, co_deviceAgents s' !! id = Some a ∧ dp_get id (co_store s) = Ok (Some (da_device a))
  | (Err _, s') => s' = s ∧ (id = EmptyString ∨ ∀ d, dp_get (Obj := Device) id (co_store s) ≠ Ok (Some d))
  | (Panic, s') => s' = s
  end.
Proof.
  intros Hm Hids. unfold loadDevice. case_decide as Hempty; [by split; [|left]|].
  destruct (co_deviceAgents s !! id) as [a|] eqn:Ha.
  - rewrite (sbind_run _ _ _ _ _ (cached_yes _ _ _ Ha)).
    rewrite (sbind_run _ _ s tt s); [|done]. rewrite (sbind_run _ _ _ _ _ (cached_yes _ _ _ Ha)).
    split_and!; [done..|]. exists a. split; [done|]. by destruct (proj1 Hm _ _ Ha) as (_ & _ & ? & _).
  - rewrite (sbind_run _ _ _ _ _ (cached_no _ _ Ha)).
    assert (∀ d, dp_get id (co_store s) = Ok (Some d) → dev_Id d = id) as Hid by apply Hids.
    assert ((let* found := attempt (getDeviceFromModel id) in
             match found with inl device => start_or_stop device | inr _ => ret tt end) s =
            match dp_get id (co_store s) with
            | Ok (Some d) => start_or_stop d s | Panic => (Panic, s) | _ => (Ok tt, s)
            end) as Hrun.
    { unfold sbind, attempt, getDeviceFromModel. by destruct (dp_get id (co_store s)) as [[d|]|e|]. }
    unfold sbind at 1. rewrite Hrun. clear Hrun.
    destruct (dp_get id (co_store s)) as [[d|]|e|] eqn:Hget; cbv beta iota;
      [|rewrite (sbind_run _ _ _ _ _ (cached_no _ _ Ha)); split; [done|by right]..|done].
    specialize (Hid d eq_refl). pose proof (start_or_stop_run d s) as Hrun.
    destruct (start_or_stop d s) as [[[]|e|] s']; [|done|done].
    destruct Hrun as (a & -> & Hida & Hra & Hp & Hgeta).
    assert (da_deviceID a = id) as Hai.
    { rewrite Hida. simpl. by rewrite Hid decide_False. }
    rewrite Hai in Hgeta.
    assert (co_deviceAgents (addDeviceAgentToMap a s).2 !! id = Some a) as Ha'.
    { rewrite add_agents Hai // lookup_insert_eq //. }
    rewrite (sbind_run _ _ _ _ _ (cached_yes _ _ _ Ha')). split_and!.
    + apply managed_add; by rewrite ?Hai.
    + apply add_store.
    + rewrite add_agents Hai //. by apply insert_subseteq.
    + apply add_ldLoading.
    + exists a. split; [done|]. by rewrite -Hget.
Qed.

(** What an operation of an agent may change, seen from the data model. *)
Definition agent_moves (a a' : DeviceAgent) : Prop :=
  da_deviceID a' = da_deviceID a ∧ da_deviceProxy a' = da_deviceProxy a ∧
  da_isRootdevice a' = da_isRootdevice a ∧ agent_inv a' ∧
  (∀ id, id ≠ da_deviceID a → dp_get (Obj := Device) id (da_store a') = dp_get id (da_store a)).

Lemma managed_moves id a a' s :
  managed s → co_deviceAgents s !! id = Some a → agent_moves (attach s a) a' →
  managed (detach a' (set_deviceAgents (<[id := a']> (co_deviceAgents s)) s)).
Proof.
  intros (Hm & Hroot & Hwf) Ha (Hid & Hp & Hr & [Hget Hwfa] & Hother).
  destruct (Hm _ _ Ha) as (Hia & Hpa & Hgeta & Hra). simpl in *. rewrite Hid Hia in Hget. split_and!; simpl.
  - intros id' b. destruct (decide (id' = id)) as [->|Hne].
    + rewrite lookup_insert_eq. intros [= <-]. unfold agent_managed. simpl.
      split_and!; [congruence..|]. by rewrite Hr.
    + rewrite lookup_insert_ne //. intros Hb. destruct (Hm _ _ Hb) as (? & ? & ? & ?).
      unfold agent_managed. simpl. by rewrite Hother ?Hia.
  - intros id' Hs. destruct (decide (id' = id)) as [->|Hne]; [rewrite lookup_insert_eq; by eexists|].
    rewrite lookup_insert_ne //. by apply Hroot.
  - intros id' d. destruct (decide (id' = id)) as [->|Hne].
    + rewrite Hget. intros [= <-]. exact Hwfa.
    + rewrite Hother ?Hia //. apply Hwf.
Qed.

Lemma attached_inv id a s : managed s → co_deviceAgents s !! id = Some a → agent_inv (attach s a).
Proof.
  intros (Hm & _ & Hwf) Ha. destruct (Hm _ _ Ha) as (Hia & _ & Hget & _). split; simpl.
  - by rewrite Hia.
  - by eapply Hwf.
Qed.

(** Reading the device of an agent. *)
Lemma on_agent_device id a s :
  managed s → co_deviceAgents s !! id = Some a →
  ∃ s1, on_agent id getDeviceWithoutLock s = (Ok (da_device a), s1) ∧ managed s1 ∧ co_store s1 = co_store s ∧
    dom (co_deviceAgents s1) = dom (co_deviceAgents s) ∧ co_ldLoading s1 = co_ldLoading s.
Proof.
  intros Hm Ha. unfold on_agent, getDeviceWithoutLock, gets. rewrite Ha. cbv beta iota zeta.
  eexists. split; [done|]. split_and!; [|done| |done].
  - apply (managed_moves _ a); [done..|]. split_and!; [done..|by eapply attached_inv|done].
  - simpl. rewrite dom_insert_L. apply elem_of_dom_2 in Ha. set_solver.
Qed.

(** ** How far loading climbs *)

Definition isActive (d : Device) : bool :=
  bool_decide (¬ (dev_AdminState d = Admin_PREPROVISIONED ∨ dev_AdminState d = Admin_DELETED)).

(** Loading stops at a device that is not active, is a root or has no parent. *)
Definition stops (d : Device) : bool :=
  negb (isActive d) || dev_Root d || bool_decide (dev_ParentId d = EmptyString).

Inductive climbs (st : Store) : string → nat → Prop :=
  | climbs_absent id : (∀ d, dp_get (Obj := Device) id st ≠ Ok (Some d)) → climbs st id 0
  | climbs_stop id d : dp_get id st = Ok (Some d) → stops d = true → climbs st id 0
  | climbs_up id d n :
      dp_get id st = Ok (Some d) → stops d = false → climbs st (dev_ParentId d) n → climbs st id (S n).

(** What [load] does once the device [d] is in memory. *)
Definition load_rest (d : Device) (parents : string → M Core unit) : M Core unit :=
  if decide (dev_AdminState d = Admin_PREPROVISIONED ∨ dev_AdminState d = Admin_DELETED) then ret tt
  else if dev_Root d then loadRootDeviceParentAndChildren d
  else if decide (dev_ParentId d = EmptyString) then ret tt
  else parents (dev_ParentId d).

Lemma load_rest_stops d k k' : stops d = true → load_rest d k = load_rest d k'.
Proof.
  unfold stops, isActive, load_rest. destruct (decide (_ ∨ _)) as [Hd|Hd]; [done|].
  rewrite (bool_decide_true _ Hd). destruct (dev_Root d); [done|]. simpl.
  intros Hp%bool_decide_eq_true. by rewrite !decide_True.
Qed.
Lemma load_rest_climbs d k : stops d = false → load_rest d k = k (dev_ParentId d).
Proof.
  unfold stops, isActive, load_rest. rewrite !orb_false_iff negb_false_iff. intros [[Hd Hr] Hp].
  apply bool_decide_eq_true in Hd. apply bool_decide_eq_false in Hp. by rewrite decide_False // Hr decide_False.
Qed.

(** ** Logical devices leave the devices alone *)

Definition devices_are (f : string → outcome (option Device)) (st : Store) : Prop :=
  ∀ id, dp_get (Obj := Device) id st = f id.
Definition logical_frame f (a : @LogicalState Store) : Prop := devices_are f (lda_store a).

Lemma logical_written f id st st' :
  devices_are f st → dp_written (Obj := LogicalDevice) id st st' → devices_are f st'.
Proof. intros Hst Hw id'. by rewrite (dp_apart _ _ _ _ Hw). Qed.

Lemma frame_start f load createProxy : preserves (logical_frame f) (LogicalPorts.start load createProxy).
Proof.
  unfold LogicalPorts.start. apply preserves_get_bind. intros s0 Hs0.
  apply preserves_bind; [|intros []; preserves_tac; by apply preserves_modify].
  destruct load.
  - destruct (dp_get _ _) as [[ld|]|e|]; preserves_tac; by apply preserves_modify.
  - preserves_tac; apply preserves_modify; try done. intros s1 _.
    apply (logical_written f (lda_logicalDeviceID s0) (lda_store s0)); [done|].
    apply (f_equal snd) in Heqp. simpl in *. rewrite -Heqp. constructor.
Qed.

Lemma frame_stop f : preserves (logical_frame f) LogicalPorts.stop.
Proof.
  intros s Hs. unfold LogicalPorts.stop.
  pose proof (written_remove (Obj := LogicalDevice) (lda_logicalDeviceID s) (lda_store s)) as Hw.
  destruct (dp_remove _ _) as [[| |e] st]; by apply (logical_written f _ _ _ Hs) in Hw.
Qed.

(** The devices, their agents and the data of the devices are as in [s]. *)
Definition same_devices s s' : Prop :=
  co_deviceAgents s' = co_deviceAgents s ∧ co_rootDevices s' = co_rootDevices s ∧
  devices_are (λ id, dp_get id (co_store s)) (co_store s').

Lemma managed_same_devices s s' : same_devices s s' → managed s → managed s'.
Proof. intros (Ha & Hr & Hst). by apply managed_same. Qed.

Lemma same_on_new_logical {A} s0 agent (m : M (@LogicalState Store) A) :
  (∀ f, preserves (logical_frame f) m) → preserves (same_devices s0) (on_new_logical agent m).
Proof.
  intros Hm s (Ha & Hr & Hst). unfold on_new_logical.
  specialize (Hm (λ id, dp_get id (co_store s0)) (attach_logical s agent) Hst).
  by destruct (m (attach_logical s agent)) as [[r|e|] a'].
Qed.

Lemma same_on_logical {A} s0 id (m : M (@LogicalState Store) A) :
  (∀ f, preserves (logical_frame f) m) → preserves (same_devices s0) (on_logical id m).
Proof.
  intros Hm s (Ha & Hr & Hst). unfold on_logical. destruct (co_logicalAgents s !! id) as [a|]; [|done].
  specialize (Hm (λ id, dp_get id (co_store s0)) (attach_logical s a) Hst).
  by destruct (m (attach_logical s a)) as [r a'].
Qed.

Lemma same_getLogicalDeviceFromModel s0 id : preserves (same_devices s0) (getLogicalDeviceFromModel id).
Proof. by intros s Hs. Qed.

#[local] Hint Resolve same_on_new_logical same_on_logical same_getLogicalDeviceFromModel frame_start frame_stop
  : preserves.

Lemma same_ldm_load s0 id : preserves (same_devices s0) (ldm_load id).
Proof.
  unfold ldm_load. preserves_tac; apply preserves_modify; intros ? [? [? ?]]; done.
Qed.

Lemma start_returns createProxy (a : @LogicalState Store) :
  (∀ id, dp_get (Obj := LogicalDevice) id (lda_store a) ≠ Panic) → (∀ p, createProxy p ≠ Panic) →
  (LogicalPorts.start true createProxy a).1 ≠ Panic.
Proof.
  intros Hget Hproxy. specialize (Hget (lda_logicalDeviceID a)).
  pose proof (Hproxy "flows"). pose proof (Hproxy "meters"). pose proof (Hproxy "flow_groups"). pose proof (Hproxy "").
  unfold LogicalPorts.start, sbind, get, lift, modify, fail, panic, addLogicalPortsToMap, ret, spawn.
  cbv beta iota.
  destruct (dp_get _ _) as [[ld|]|e|]; cbv beta iota; [|done..].
  destruct (createProxy "flows"); [|done..]. destruct (createProxy "meters"); [|done..].
  destruct (createProxy "flow_groups"); [|done..]. by destruct (createProxy "") as [[]| |].
Qed.

(** Loading a logical device returns, unless an earlier load of it hangs. *)
Lemma ldm_load_returns id s :
  id ∉ co_ldLoading s → (∀ id', dp_get (Obj := LogicalDevice) id' (co_store s) ≠ Panic) →
  (∀ p, env_createLogicalProxy id p ≠ Panic) → (ldm_load id s).1 ≠ Panic.
Proof.
  intros Hload Hget Hproxy. unfold ldm_load. case_decide; [done|].
  rewrite (sbind_run get _ s s s eq_refl) decide_False //.
  destruct (co_logicalAgents s !! id) as [a|] eqn:Ha.
  { unfold sbind, ret, get. cbv beta iota. by rewrite Ha. }
  unfold sbind, attempt, getLogicalDeviceFromModel, get, ret, modify, fail. cbv beta iota.
  destruct (dp_get id (co_store s)) as [[ld|]|e|] eqn:Hld; [|by rewrite Ha..|by apply Hget in Hld].
  cbv beta iota zeta. unfold on_new_logical at 1.
  match goal with |- context [LogicalPorts.start true ?p ?a] =>
    pose proof (start_returns p a (Hget : ∀ id, dp_get id (lda_store a) ≠ Panic) Hproxy) as Hstart;
    destruct (LogicalPorts.start true p a) as [[[]|e|] a'] end; cbv beta iota; [..|done].
  - simpl. by rewrite lookup_insert_eq.
  - unfold start_keeps_lock. rewrite Hld. unfold on_new_logical, LogicalPorts.stop.
    destruct (dp_remove _ _) as [[| |e'] st]; cbv beta iota; simpl; [by rewrite ?Ha..|done].
Qed.

(** ** Children *)

Notation in_memory s id := (is_Some (co_deviceAgents s !! id)).

Lemma load_children ids s :
  managed s → ids_match (co_store s) →
  match for_each loadDevice ids s with
  | (Ok _, s') => managed s' ∧ co_store s' = co_store s ∧ co_deviceAgents s ⊆ co_deviceAgents s' ∧
      ∀ c, c ∈ ids → in_memory s' c
  | (_, s') => managed s'
  end.
Proof.
  revert s. induction ids as [|c ids IH]; intros s Hm Hids; cbn [for_each].
  { split_and!; [done..|]. set_solver. }
  pose proof (loadDevice_run c s Hm Hids) as Hrun. unfold sbind.
  destruct (loadDevice c s) as [[[]|e|] s1]; [|destruct Hrun as [-> _]; done|by subst].
  destruct Hrun as (Hm1 & Hst & Hsub & _ & a & Ha & _).
  assert (ids_match (co_store s1)) as Hids1 by (by rewrite Hst).
  specialize (IH s1 Hm1 Hids1). destruct (for_each loadDevice ids s1) as [[[]|e|] s2]; [|done..].
  destruct IH as (Hm2 & Hst2 & Hsub2 & Hin). split_and!; [done|congruence|by etrans|].
  intros x [->|Hx]%elem_of_cons; [|by apply Hin]. exists a. by eapply lookup_weaken.
Qed.

(** What the surroundings must offer for loading to return. *)
Definition surroundings_ok s : Prop :=
  (∀ id, env_createProxy id = Ok tt) ∧ (∀ id p, env_createLogicalProxy id p ≠ Panic) ∧
  (∀ id, dp_get (Obj := Device) id (co_store s) ≠ Panic) ∧
  (∀ id, dp_get (Obj := LogicalDevice) id (co_store s) ≠ Panic) ∧ co_ldLoading s = ∅.

Lemma start_ok (a : DeviceAgent) (d : Device) :
  dp_get (da_deviceID a) (da_store a) = Ok (Some d) → ∃ a', DeviceAgent.start None (Ok tt) a = (Ok d, a').
Proof.
  intros Hget. unfold DeviceAgent.start. rewrite (sbind_run get _ a a a eq_refl).
  unfold sbind, lift, modify, ret. cbv beta iota. rewrite Hget. by eexists.
Qed.

Lemma start_or_stop_returns device (d : Device) s :
  (∀ id, env_createProxy id = Ok tt) →
  dp_get (da_deviceID (newDeviceAgent env_random device (co_store s) (co_sent s) 0)) (co_store s) = Ok (Some d) →
  (start_or_stop device s).1 ≠ Panic.
Proof.
  intros Hproxy Hget. unfold start_or_stop, sbind, get, attempt, on_new_agent. cbv beta iota zeta.
  set (a := newDeviceAgent env_random device _ _ _).
  assert (attach s a = a) as -> by done. rewrite Hproxy.
  destruct (start_ok a d Hget) as [a' ->]. done.
Qed.

Lemma loadDevice_returns id s :
  ids_match (co_store s) → (∀ id, env_createProxy id = Ok tt) →
  (∀ id, dp_get (Obj := Device) id (co_store s) ≠ Panic) → (loadDevice id s).1 ≠ Panic.
Proof.
  intros Hids Hproxy Hget. unfold loadDevice. case_decide as Hempty; [done|].
  assert (∀ s', ((let* cached := IsDeviceInCache id in
      if (cached : bool) then ret tt else fail (Status Aborted ("Error loading device " +:+ id))) s').1 ≠ Panic) as Hend.
  { intros s'. unfold IsDeviceInCache, sbind, gets, ret, fail. cbv beta iota. by destruct (bool_decide _). }
  destruct (co_deviceAgents s !! id) as [a|] eqn:Ha.
  { rewrite (sbind_run _ _ _ _ _ (cached_yes _ _ _ Ha)) (sbind_run _ _ s tt s); [apply Hend | done]. }
  rewrite (sbind_run _ _ _ _ _ (cached_no _ _ Ha)). unfold sbind at 1 2, attempt, getDeviceFromModel.
  destruct (dp_get id (co_store s)) as [[d|]|e|] eqn:Hd; cbv beta iota; [|apply Hend..|by apply Hget in Hd].
  assert ((start_or_stop d s).1 ≠ Panic) as Hstart.
  { apply (start_or_stop_returns d d); [done|]. simpl. by rewrite (Hids _ _ Hd) decide_False. }
  destruct (start_or_stop d s) as [[[]|e|] s']; [apply Hend | done | done].
Qed.

Lemma children_return ids s :
  managed s → ids_match (co_store s) → (∀ id, env_createProxy id = Ok tt) →
  (∀ id, dp_get (Obj := Device) id (co_store s) ≠ Panic) → (for_each loadDevice ids s).1 ≠ Panic.
Proof.
  revert s. induction ids as [|c ids IH]; intros s Hm Hids Hproxy Hget; cbn [for_each]; [done|].
  pose proof (loadDevice_run c s Hm Hids) as Hrun.
  pose proof (loadDevice_returns c s Hids Hproxy Hget) as Hret. unfold sbind.
  destruct (loadDevice c s) as [[[]|e|] s1]; [|done..]. destruct Hrun as (Hm1 & Hst & _).
  apply IH; [done| by rewrite Hst | done | by rewrite Hst].
Qed.

(** The logical device of a root is loaded first; an error of it is dropped. *)
Lemma root_run d s :
  managed s → ids_match (co_store s) → dev_Root d = true →
  match loadRootDeviceParentAndChildren d s with
  | (Ok _, s') => managed s' ∧ devices_are (λ id, dp_get id (co_store s)) (co_store s') ∧
      co_deviceAgents s ⊆ co_deviceAgents s' ∧ ∀ c, c ∈ getAllChildDeviceIds d → in_memory s' c
  | (Panic, _) => ¬ surroundings_ok s
  | (Err _, s') => managed s'
  end.
Proof.
  intros Hm Hids Hroot. unfold loadRootDeviceParentAndChildren. rewrite Hroot. unfold sbind at 1.
  assert (∃ r s1, (if decide (dev_ParentId d = EmptyString) then ret tt
                   else let* _ := attempt (ldm_load (dev_ParentId d)) in ret tt) s = (r, s1) ∧
          same_devices s s1 ∧ (r = Ok tt ∨ r = Panic ∧ ¬ surroundings_ok s)) as (r & s1 & -> & Hsame & Hr).
  { case_decide; [by exists (Ok tt), s; split_and!; try done; left|].
    pose proof (same_ldm_load s (dev_ParentId d) s) as Hl. unfold sbind, attempt, ret.
    pose proof (ldm_load_returns (dev_ParentId d) s) as Hret.
    destruct (ldm_load (dev_ParentId d) s) as [[[]|e|] s1]; (do 2 eexists; split; [done|]; split; [by apply Hl|]);
      [by left | by left |]. right. split; [done|].
    intros (_ & Hp & _ & Hg & Hld). apply Hret; [by rewrite Hld | done | done | done]. }
  pose proof (managed_same_devices _ _ Hsame Hm) as Hm1. destruct Hsame as (Ha & Hroots & Hst).
  assert (ids_match (co_store s1)) as Hids1 by (intros id d'; rewrite Hst; apply Hids).
  destruct Hr as [->|[-> Hno]]; [|done]. cbv beta iota.
  pose proof (load_children (getAllChildDeviceIds d) s1 Hm1 Hids1) as Hrun.
  pose proof (children_return (getAllChildDeviceIds d) s1 Hm1 Hids1) as Hret.
  destruct (for_each _ _ s1) as [[[]|e|] s2].
  - destruct Hrun as (Hm2 & Hst2 & Hsub & Hin). split_and!; [done | by rewrite Hst2 | by rewrite -Ha | done].
  - done.
  - intros (Hp & _ & Hg & _). apply Hret; [done | | done]. intros id. by rewrite Hst.
Qed.

(** One level of the recursion: the device cannot be loaded, or it is in memory
    and the rest depends on it. *)
Lemma load_unfold id s :
  managed s → ids_match (co_store s) →
  (∃ r s', (∀ f, load (S f) id s = (r, s')) ∧ r ≠ Ok tt ∧ (surroundings_ok s → r ≠ Panic) ∧
     (r = Panic ∨ id = EmptyString ∨ ∀ d, dp_get (Obj := Device) id (co_store s) ≠ Ok (Some d)) ∧ s' = s) ∨
  ∃ d s1, dp_get id (co_store s) = Ok (Some d) ∧ managed s1 ∧ co_store s1 = co_store s ∧
      co_ldLoading s1 = co_ldLoading s ∧
      in_memory s1 id ∧ dom (co_deviceAgents s) ⊆ dom (co_deviceAgents s1) ∧
      ∀ f, load (S f) id s = load_rest d (load f) s1.
Proof.
  intros Hm Hids. pose proof (loadDevice_run id s Hm Hids) as Hrun.
  pose proof (loadDevice_returns id s Hids) as Hret.
  destruct (loadDevice id s) as [[[]|e|] s'] eqn:Hl; [right|left..].
  - destruct Hrun as (Hm' & Hst & Hsub & Hld & a & Ha & Hget).
    destruct (on_agent_device id a s' Hm' Ha) as (s1 & Hon & Hm1 & Hst1 & Hdom & Hld1).
    exists (da_device a), s1. split_and!; [done..|congruence|congruence| | |].
    + apply elem_of_dom. rewrite Hdom. by eapply elem_of_dom_2.
    + rewrite Hdom. by apply subseteq_dom.
    + intros f'. cbn [load]. by rewrite (sbind_run _ _ _ _ _ Hl) (sbind_run _ _ _ _ _ Hon).
  - destruct Hrun as [-> Habs]. exists (Err e), s. split_and!; [|done|done|by right|done].
    intros f. cbn [load]. by rewrite (sbind_err _ _ _ _ _ Hl).
  - exists Panic, s'. split_and!; [|done|by intros (? & _ & ? & _); apply Hret|by left|done].
    intros f. cbn [load]. unfold sbind at 1. by rewrite Hl.
Qed.

(** ** Loading a device *)

(** What belongs to a device: itself, the devices above it, and the children of
    the root that is reached. *)
Inductive family (st : Store) : string → string → Prop :=
  | family_self id : family st id id
  | family_child id d c :
      dp_get id st = Ok (Some d) → isActive d = true → dev_Root d = true → c ∈ getAllChildDeviceIds d →
      family st id c
  | family_parent id d x :
      dp_get id st = Ok (Some d) → stops d = false → family st (dev_ParentId d) x → family st id x.

Lemma load_rest_root d k : isActive d = true → dev_Root d = true → load_rest d k = loadRootDeviceParentAndChildren d.
Proof.
  unfold isActive, load_rest. intros Ha%bool_decide_eq_true Hr. by rewrite decide_False // Hr.
Qed.

Lemma surroundings_same s s1 :
  co_store s1 = co_store s → co_ldLoading s1 = co_ldLoading s → surroundings_ok s → surroundings_ok s1.
Proof. unfold surroundings_ok. by intros -> ->. Qed.

Lemma rest_returns d k s :
  managed s → ids_match (co_store s) → surroundings_ok s → stops d = true → (load_rest d k s).1 ≠ Panic.
Proof.
  intros Hm Hids Hok Hstop. unfold load_rest. case_decide; [done|].
  destruct (dev_Root d) eqn:Hr.
  - pose proof (root_run d s Hm Hids Hr) as Hrun.
    by destruct (loadRootDeviceParentAndChildren d s) as [[[]|e|] s'].
  - revert Hstop. unfold stops, isActive. rewrite bool_decide_true // Hr. simpl.
    intros Hp%bool_decide_eq_true. by rewrite decide_True.
Qed.

(** C16: loading a device ends.  When the devices above it are [n] levels high,
    no more than [n] further calls are made, however many are allowed; and when
    proxies can be created, the data model can be read and no earlier loading of
    a logical device hangs, the call returns. *)
Theorem load_terminates id n s fuel :
  managed s → ids_match (co_store s) → climbs (co_store s) id n → (S n ≤ fuel)%nat →
  load fuel id s = load (S n) id s ∧ (surroundings_ok s → (load fuel id s).1 ≠ Panic).
Proof.
  intros Hm Hids Hc. revert s fuel Hm Hids Hc.
  assert (∀ st, climbs st id n → ∀ s fuel, co_store s = st → managed s → ids_match st → (S n ≤ fuel)%nat →
    load fuel id s = load (S n) id s ∧ (surroundings_ok s → (load fuel id s).1 ≠ Panic)) as Hgen;
    [|intros s fuel Hm Hids Hc Hf; by eapply Hgen].
  intros st Hc. induction Hc as [id Hno|id d Hd Hstop|id d n Hd Hup _ IH]; intros s fuel Hst Hm Hids Hf;
    (destruct fuel as [|fuel]; [lia|]); subst st;
    destruct (load_unfold id s Hm Hids) as
      [(r & s' & Hl & _ & Hret & _)|(d' & s1 & Hget & Hm1 & Hst1 & Hld1 & _ & _ & Hl)];
    rewrite !Hl; try done.
  - by destruct (Hno d').
  - assert (d' = d) as -> by congruence. rewrite (load_rest_stops _ (load fuel) (load 0)) //. split; [done|].
    intros Hok. refine (rest_returns _ _ _ Hm1 _ (surroundings_same _ _ Hst1 Hld1 Hok) Hstop). by rewrite Hst1.
  - assert (d' = d) as -> by congruence. rewrite !load_rest_climbs //.
    destruct (IH s1 fuel) as [Heq Hret]; [done|done|done|lia|]. split; [done|].
    intros Hok. exact (Hret (surroundings_same _ _ Hst1 Hld1 Hok)).
Qed.

Lemma load_family fuel : ∀ id s s',
  managed s → ids_match (co_store s) → load fuel id s = (Ok tt, s') →
  managed s' ∧ devices_are (λ id, dp_get id (co_store s)) (co_store s') ∧
  dom (co_deviceAgents s) ⊆ dom (co_deviceAgents s') ∧
  ∀ x, family (co_store s) id x → in_memory s' x.
Proof.
  induction fuel as [|fuel IH]; intros id s s' Hm Hids; [done|].
  destruct (load_unfold id s Hm Hids) as
    [(r & s0 & Hl & Hno & _)|(d & s1 & Hget & Hm1 & Hst1 & _ & Hin & Hdom & Hl)];
    rewrite Hl; [by intros [= -> _]|].
  assert (∀ s', in_memory s' id → (isActive d = true → dev_Root d = true → ∀ c, c ∈ getAllChildDeviceIds d → in_memory s' c) →
    (∀ x, stops d = false → family (co_store s) (dev_ParentId d) x → in_memory s' x) →
    ∀ x, family (co_store s) id x → in_memory s' x) as Hfam.
  { intros t Hself Hch Hpar x Hx. inversion Hx as [|? d0 ? Hg ? ? ?|? d0 ? Hg ? ?]; subst; [done|..];
      (assert (d0 = d) as -> by congruence); [by apply Hch|by apply Hpar]. }
  destruct (stops d) eqn:Hstop.
  - destruct (decide (isActive d = true ∧ dev_Root d = true)) as [[Ha Hr]|Hnr].
    + rewrite load_rest_root //. pose proof (root_run d s1 Hm1) as Hrun. rewrite Hst1 in Hrun.
      specialize (Hrun Hids Hr). intros Heq. rewrite Heq in Hrun. destruct Hrun as (Hm' & Hst' & Hsub & Hch).
      apply subseteq_dom in Hsub. split_and!; [done|done|by etrans|]. apply Hfam; [|by intros _ _ c; apply Hch|done].
      apply elem_of_dom, Hsub, elem_of_dom, Hin.
    + assert (load_rest d (load fuel) s1 = (Ok tt, s1)) as ->.
      { revert Hnr Hstop. unfold stops, isActive, load_rest. destruct (decide (_ ∨ _)) as [Ha|Ha]; [done|].
        rewrite (bool_decide_true _ Ha). destruct (dev_Root d); [by intros []|].
        simpl. intros _ Hp%bool_decide_eq_true. by rewrite decide_True. }
      intros [= <-]. split_and!; [done|by intros ?; rewrite Hst1|done|]. apply Hfam; [done| |done].
      intros Ha Hr. by destruct Hnr.
  - rewrite load_rest_climbs //. intros Heq. destruct (IH _ _ _ Hm1 (eq_rect _ ids_match Hids _ (eq_sym Hst1)) Heq)
      as (Hm' & Hst' & Hsub & Hx). rewrite Hst1 in Hst'. rewrite Hst1 in Hx. split_and!; [done|done|by etrans|].
    apply Hfam; [by apply elem_of_dom, Hsub, elem_of_dom| |by intros x _; apply Hx].
    intros Ha Hr. revert Hstop. unfold stops. by rewrite Ha Hr.
Qed.

(** A device that was loaded is in memory with all that belongs to it: the
    devices above it, the root they lead to, and, when that is an active device,
    all of its children.  Every agent in memory was started and holds the device
    of the data model, and no device was changed. *)
Theorem load_brings_family fuel id s s' :
  managed s → ids_match (co_store s) → load fuel id s = (Ok tt, s') →
  managed s' ∧ (∀ x, family (co_store s) id x → (IsDeviceInCache x s').1 = Ok true) ∧
  ∀ x, dp_get (Obj := Device) x (co_store s') = dp_get x (co_store s).
Proof.
  intros Hm Hids Hl. destruct (load_family fuel id s s' Hm Hids Hl) as (Hm' & Hst & _ & Hx).
  split_and!; [done| |done]. intros x Hf. destruct (Hx x Hf) as [a Ha]. by rewrite (cached_yes _ _ _ Ha).
Qed.

(** Devices that are each other's parents are never loaded.  When none of
    them is a root and all of them are active, loading one of them climbs for
    ever: however many calls are allowed, they are not enough. *)
Theorem load_cycle_never_returns (cycle : string → Prop) s :
  managed s → ids_match (co_store s) →
  (∀ id, cycle id → id ≠ EmptyString ∧
     ∃ d, dp_get id (co_store s) = Ok (Some d) ∧ stops d = false ∧ cycle (dev_ParentId d)) →
  ∀ fuel id, cycle id → (load fuel id s).1 = Panic.
Proof.
  intros Hm Hids Hcycle fuel. revert s Hm Hids Hcycle. induction fuel as [|fuel IH]; [done|].
  intros s Hm Hids Hcycle id Hid. destruct (Hcycle id Hid) as (Hne & d & Hget & Hup & Hpar).
  destruct (load_unfold id s Hm Hids) as
    [(r & s0 & Hl & _ & _ & Habs & _)|(d' & s1 & Hget' & Hm1 & Hst1 & _ & _ & _ & Hl)]; rewrite Hl.
  - destruct Habs as [->|[->|Habs]]; [done|done|by destruct (Habs d)].
  - assert (d' = d) as -> by congruence. rewrite load_rest_climbs //. apply IH; rewrite ?Hst1 //.
Qed.
End ManagerFacts.

(** ** Witnesses *)

Definition SampleStore : Type := gmap string Device * gmap string LogicalDevice.

#[local] Instance sample_devices : DataProxy Device SampleStore := two_left.
#[local] Instance sample_logical_devices : DataProxy LogicalDevice SampleStore := two_right.
#[local] Instance sample_list : DataList Device SampleStore := {| dl_list st := Ok (Some (map_to_list st.1).*2) |}.
#[local] Instance sample_logical_list : DataList LogicalDevice SampleStore :=
  {| dl_list st := Ok (Some (map_to_list st.2).*2) |}.
#[local] Instance sample_apart : DataProxyApart LogicalDevice Device SampleStore := two_apart_right.
#[local] Instance sample_env : CoreEnv :=
  {| env_random n := Ok (replicate n 1); env_createProxy _ := Ok tt; env_createLogicalProxy _ _ := Ok true |}.
#[local] Existing Instances canonical_range sample_adapter sample_adapter_mgr sample_text sample_manager sample_calls.

(** An OLT with one ONU, known to the data model only. *)
Definition sample_root : Device :=
  set_Ports [mkPort 1 "pon-1" PON_OLT Admin_ENABLED Oper_ACTIVE "" [mkPeer "onu" 1] 0 0 0 0 0 0]
    (set_AdminState Admin_ENABLED (set_Root true (sample_device_of "olt"))).
Definition sample_child (parentID : string) : Device :=
  set_ParentId parentID (set_AdminState Admin_ENABLED (sample_device_of "onu")).
Definition sample_model_of (ds : list Device) : SampleStore := (list_to_map ((λ d, (dev_Id d, d)) <$> ds), ∅).
Definition sample_core_of (ds : list Device) : Core := newManagers (sample_model_of ds) 1000.
Definition sample_managers_state : Core := sample_core_of [sample_root; sample_child "olt"].

Lemma sample_core_managed ds : Forall device_wf ds → managed (sample_core_of ds).
Proof.
  intros Hwf. split_and!; simpl; [by intros ? ?|by intros ? []|].
  intros id d [= Hd]. apply elem_of_list_to_map_2 in Hd. apply list_elem_of_fmap in Hd as (d' & [= -> ->] & Hin).
  by eapply Forall_forall in Hwf.
Qed.

Lemma sample_core_ids ds : ids_match (co_store (sample_core_of ds)).
Proof.
  intros id d [= Hd]. apply elem_of_list_to_map_2 in Hd.
  by apply list_elem_of_fmap in Hd as (d' & [= -> ->] & _).
Qed.

Lemma sample_managed : managed sample_managers_state.
Proof. apply sample_core_managed. repeat constructor; simpl; set_solver. Qed.

Lemma sample_climbs : climbs (co_store sample_managers_state) "onu" 1.
Proof. eapply climbs_up; [by vm_compute|done|]. eapply climbs_stop; by vm_compute. Qed.

Lemma load_terminates_witness :
  load 2 "onu" sample_managers_state = load 5 "onu" sample_managers_state ∧
  (load 5 "onu" sample_managers_state).1 ≠ Panic.
Proof.
  destruct (load_terminates "onu" 1 sample_managers_state 5 sample_managed (sample_core_ids _) sample_climbs ltac:(lia))
    as [Heq Hret]. split; [by symmetry|]. apply Hret. by split_and!.
Defined.

Lemma load_brings_family_witness :
  ∃ s', load 2 "onu" sample_managers_state = (Ok tt, s') ∧ managed s' ∧
    (IsDeviceInCache "olt" s').1 = Ok true ∧ (IsDeviceInCache "onu" s').1 = Ok true.
Proof.
  assert (∃ s', load 2 "onu" sample_managers_state = (Ok tt, s')) as [s' Hl].
  { eexists. vm_compute. reflexivity. }
  exists s'. split; [done|].
  destruct (load_brings_family 2 "onu" _ _ sample_managed (sample_core_ids _) Hl) as (Hm & Hf & _).
  split_and!; [done| |apply Hf; constructor].
  apply Hf. eapply family_parent; [by vm_compute|done|]. constructor.
Defined.

Lemma load_cycle_never_returns_witness :
  (load 100 "onu" (sample_core_of [sample_child "onu"])).1 = Panic.
Proof.
  apply (load_cycle_never_returns (λ id, id = "onu")); [|apply sample_core_ids| |done].
  - apply sample_core_managed. repeat constructor; simpl; set_solver.
  - intros id ->. split; [done|]. exists (sample_child "onu"). by vm_compute.
Defined.
