(* ===== verification/LogicalMgr.v ===== *)
(** * Logical device manager

    [rw_core/core/logical_device_manager.go]: the requests on logical devices,
    sent to the agent of the logical device, and the life cycle of these agents.
    The state, the loading and the look-up of the agents are in Managers. *)

From S2P Require Import Prelude OpenFlow VolthaTypes FlowUtils Decomposer CoreUtils DataProxy.
From S2P Require Import DeviceAgent LogicalAgent LogicalTables LogicalPorts Managers.

(** A [LogicalPortId] message. *)
Record LogicalPortId := mkLogicalPortId { lpi_Id : string; lpi_PortId : string }.

(** [strings.Replace(s, ":", "", -1)]. *)
Fixpoint remove_colons (s : string) : string :=
  match s with
  | EmptyString => EmptyString
  | String c s => if Ascii.eqb c ":" then remove_colons s else String c (remove_colons s)
  end.

Section LogicalMgr.
Context {Store : Type} `{DataProxy Device Store, DataProxy LogicalDevice Store, DataList Device Store,
  DataList LogicalDevice Store, Adapter, AdapterMgrView, ProtoText, GoRange, DeviceManagerView,
  DeviceManagerCalls, CoreEnv}.
Notation Core := (Core (Store := Store)).
Notation LogicalDeviceAgent := (@LogicalState Store).

(** [others] is what other goroutines do while an agent released its lock. *)
Variable fuel : nat.
Variable others : LogicalDeviceAgent → LogicalDeviceAgent.

(** [if agent := getLogicalDeviceAgent(id); agent != nil { ... }; return nil]. *)
Definition if_logical (id : string) (m : M LogicalDeviceAgent unit) : M Core unit :=
  let* found := getLogicalDeviceAgent id in
  if (found : bool) then on_logical id m else ret tt.

(** ** Queries *)

Definition getLogicalDevice (id : string) : M Core (option LogicalDevice) := with_logical id GetLogicalDevice.

Definition listManagedLogicalDevices : M Core (list LogicalDevice) :=
  gets (λ s, omap (λ e, lda_logicalDevice e.2) (go_range (co_logicalAgents s))).

Definition listLogicalDevices : M Core (list LogicalDevice) :=
  let* s := get in
  let* logicalDevices := lift (dl_list (Obj := LogicalDevice) (co_store s)) in
  ret (default [] logicalDevices).

Definition getLogicalDeviceID (device : Device) : M Core string :=
  if dev_Root device then ret (dev_ParentId device)
  else
    let* parentDevice := getParentDevice fuel device in
    match parentDevice with
    | Some p => ret (dev_ParentId p)
    | None => fail (Status NotFound (dev_Id device))
    end.

Definition getLogicalDeviceIDFromDeviceID (deviceID : string) : M Core string :=
  let* device := GetDevice fuel deviceID in getLogicalDeviceID device.

(** The first port of the logical device that satisfies [p]; a nil logical
    device is dereferenced. *)
Definition find_port (p : LogicalPort → bool) (id : string) (e : GoError) : M Core LogicalPort :=
  let* lDevice := getLogicalDevice id in
  let* lDevice := lift (deref lDevice) in
  match find p (ld_Ports lDevice) with
  | Some port => ret port
  | None => fail e
  end.

Definition getLogicalPortID (device : Device) : M Core LogicalPortId :=
  let* lDeviceID := getLogicalDeviceID device in
  let* port := find_port (λ port, bool_decide (lp_DeviceId port = dev_Id device)) lDeviceID
                 (Status NotFound (dev_Id device)) in
  ret (mkLogicalPortId lDeviceID (lp_Id port)).

Definition getLogicalPort (lPortID : LogicalPortId) : M Core LogicalPort :=
  find_port (has_id (lpi_PortId lPortID)) (lpi_Id lPortID)
    (Status NotFound (lpi_Id lPortID +:+ "-" +:+ lpi_PortId lPortID)).

Definition ldm_ListFlows (id : string) := with_logical id ListLogicalDeviceFlows.
Definition ldm_ListFlowGroups (id : string) := with_logical id ListLogicalDeviceFlowGroups.
Definition ldm_ListPorts (id : string) := with_logical id ListLogicalDevicePorts.
Definition ldm_ListMeters (id : string) := with_logical id ListLogicalDeviceMeters.

(** ** Life cycle *)

(** The agent is in the map before the root device names it as its parent; when
    that fails, it stays there. *)
Definition createLogicalDevice (device : Device) : M Core string :=
  if negb (dev_Root device) then fail (Plain "device-not-root")
  else
    let id := remove_colons (dev_MacAddress device) in
    if decide (id = EmptyString) then fail (Plain "mac-address-not-set")
    else
      let* s := get in
      let agent := newLogicalDeviceAgent id (dev_Id device) (co_store s) (co_requests s) (co_defaultTimeout s) in
      let* _ := addLogicalDeviceAgentToMap agent in
      let* _ := setParentID fuel device id in
      let* _ := go_task (TaskStartLogicalDevice id (dev_Id device)
                           (bool_decide (co_logicalAgents s !! id = None))) in
      ret id.

(** The goroutine of [createLogicalDevice]. *)
Definition start_logical (id rootDeviceID : string) (mapped : bool) : M Core unit :=
  let* s := get in
  match mapped, co_logicalAgents s !! id with
  | true, Some _ => on_logical id (LogicalPorts.start false (env_createLogicalProxy id))
  | _, _ =>
      let agent := newLogicalDeviceAgent id rootDeviceID (co_store s) (co_requests s) (co_defaultTimeout s) in
      let* _ := on_new_logical agent (LogicalPorts.start false (env_createLogicalProxy id)) in ret tt
  end.

(** The loop over the agents ends at the first one that cannot be stopped. *)
Fixpoint stop_agents_of (rootDeviceID ldID : string) (agents : list (string * LogicalDeviceAgent))
    : M Core string :=
  match agents with
  | [] => ret ldID
  | (key, ldAgent) :: agents =>
      if decide (lda_rootDeviceID ldAgent = rootDeviceID) then
        let* stopped := attempt (on_logical key LogicalPorts.stop) in
        match stopped with
        | inr _ => ret ldID
        | inl _ =>
            let* _ := deleteLogicalDeviceAgent key in stop_agents_of rootDeviceID key agents
        end
      else stop_agents_of rootDeviceID ldID agents
  end.

Definition stopManagingLogicalDeviceWithDeviceID (id : string) : M Core string :=
  let* s := get in stop_agents_of id EmptyString (go_range (co_logicalAgents s)).

Definition deleteLogicalDevice (device : Device) : M Core unit :=
  if negb (dev_Root device) then fail (Plain "device-not-root")
  else
    let logDeviceID := dev_ParentId device in
    let* found := getLogicalDeviceAgent logDeviceID in
    if (found : bool) then
      let* _ := on_logical logDeviceID LogicalPorts.stop in
      let* _ := deleteLogicalDeviceAgent logDeviceID in
      abandon logDeviceID
    else ret tt.

(** ** Ports *)

(** Without a logical device the port is set up later. *)
Definition ldm_updateLogicalPort (device : Device) (port : Port) : M Core unit :=
  let* ldID := attempt (getLogicalDeviceID device) in
  match ldID with
  | inr _ => ret tt
  | inl ldID =>
      if decide (ldID = EmptyString) then ret tt
      else if_logical ldID (LogicalPorts.updateLogicalPort others device port)
  end.

(** An error of the agent is only logged. *)
Definition ldm_deleteLogicalPort (lPortID : LogicalPortId) : M Core unit :=
  let* logicalPort := getLogicalPort lPortID in
  if lp_RootPort logicalPort then fail (Plain "device-root")
  else if_logical (lpi_Id lPortID)
         (let* _ := attempt (LogicalPorts.deleteLogicalPort logicalPort) in ret tt).

Definition ldm_deleteLogicalPorts (deviceID : string) : M Core unit :=
  let* ldID := getLogicalDeviceIDFromDeviceID deviceID in
  if_logical ldID (LogicalPorts.deleteLogicalPorts deviceID).

Definition ldm_setupUNILogicalPorts (childDevice : Device) : M Core unit :=
  if dev_Root childDevice then fail (Plain "Device-root")
  else
    let parentID := dev_ParentId childDevice in
    let* logDeviceID := GetParentDeviceID fuel parentID in
    if decide (parentID = EmptyString ∨ logDeviceID = EmptyString) then fail (Plain "device-in-invalid-state")
    else if_logical logDeviceID (LogicalPorts.setupUNILogicalPorts others childDevice).

Definition ldm_deleteAllLogicalPorts (device : Device) : M Core unit :=
  let* ldID := getLogicalDeviceID device in
  if_logical ldID (LogicalPorts.deleteAllLogicalPorts device).

Definition ldm_updatePortState (deviceID : string) (portNo : Z) (state : OperStatus) : M Core unit :=
  let* ldID := getLogicalDeviceIDFromDeviceID deviceID in
  if_logical ldID (LogicalPorts.updatePortState deviceID portNo state).

Definition ldm_updatePortsState (device : Device) (state : OperStatus) : M Core unit :=
  let* ldID := getLogicalDeviceID device in
  if_logical ldID (LogicalPorts.updatePortsState device state).

Definition ldm_enableLogicalPort (id : LogicalPortId) : M Core unit :=
  with_logical (lpi_Id id) (LogicalPorts.enableLogicalPort (lpi_PortId id)).
Definition ldm_disableLogicalPort (id : LogicalPortId) : M Core unit :=
  with_logical (lpi_Id id) (LogicalPorts.disableLogicalPort (lpi_PortId id)).

(** ** Tables and packets *)

Definition ldm_updateFlowTable (id : string) (flow : option OfpFlowMod) : M Core unit :=
  with_logical id (LogicalTables.updateFlowTable flow).
Definition ldm_updateMeterTable (id : string) (meter : option OfpMeterMod) : M Core unit :=
  with_logical id (LogicalTables.updateMeterTable meter).
Definition ldm_updateGroupTable (id : string) (groupMod : option OfpGroupMod) : M Core unit :=
  with_logical id (LogicalTables.updateGroupTable groupMod).

(** An unknown logical device is only logged. *)
Definition ldm_packetIn (logicalDeviceID : string) (port : Z) (transactionID : string) (packet : list Z)
    : M Core unit :=
  if_logical logicalDeviceID (LogicalPorts.packetIn port transactionID packet).
End LogicalMgr.
