(* ===== verification/DeviceMgr.v ===== *)
(** * Device manager

    [rw_core/core/device_manager.go]: the requests on devices, sent to the agent
    of the device, the creation of devices, and what happens to the other
    devices when one changes.  The state, the loading and the look-up of the
    agents are in Managers.  The methods keep the names they have in the source;
    those of the agents are written with the name of their file. *)

From S2P Require Import Prelude OpenFlow VolthaTypes FlowUtils Decomposer CoreUtils DataProxy Transitions.
From S2P Require Import DeviceAgent LogicalAgent LogicalTables LogicalPorts Managers LogicalMgr.

(** What an adapter answers when it is asked for data. *)
Class AdapterQueries := {
  aq_GetOfpDeviceInfo : Device → outcome SwitchCapability;
  aq_GetOfpPortInfo : Device → Z → outcome PortCapability;
  aq_GetImageDownloadStatus : Device → ImageDownload → outcome ImageDownload
}.

Definition GetHostAndPort (device : Device) : string :=
  match dev_Address device with Some (HostAndPort a) => a | _ => EmptyString end.

Definition isOkToReconcile (device : Device) : bool :=
  bool_decide (dev_AdminState device ≠ Admin_PREPROVISIONED ∧ dev_AdminState device ≠ Admin_DELETED).

Section DeviceMgr.
Context {Store : Type} `{DataProxy Device Store, DataProxy LogicalDevice Store, DataList Device Store,
  DataList LogicalDevice Store, DataList DeviceType Store, Adapter, AdapterMgrView, AdapterQueries, ProtoText,
  GoRange, DeviceManagerView, DeviceManagerCalls, CoreEnv}.
Notation Core := (Core (Store := Store)).
Notation DeviceAgent := (@AgentState Store).

Variable fuel : nat.
Variable others : @LogicalState Store → @LogicalState Store.
Variable tie : nat → bool.

Notation with_agent := (Managers.with_agent fuel).
Notation getDeviceAgent := (Managers.getDeviceAgent fuel).
Notation GetDevice := (Managers.GetDevice fuel).

(** ** Creating and listing devices *)

Definition is_same_parent (newDevice device : Device) : bool :=
  dev_Root device &&
  (bool_decide (GetHostAndPort newDevice ≠ EmptyString ∧ GetHostAndPort newDevice = GetHostAndPort device)
   || bool_decide (dev_MacAddress newDevice ≠ EmptyString ∧ dev_MacAddress newDevice = dev_MacAddress device)).

Definition isParentDeviceExist (newDevice : Device) : M Core bool :=
  let* s := get in
  let* devices := lift (dl_list (co_store s)) in
  ret (existsb (is_same_parent newDevice) (default [] devices)).

(** The agent enters the map, unless there is one with its identifier, and is
    started then: a failure leaves it there. *)
Definition add_and_start (device : Device) : M Core (string * Device) :=
  let* s := get in
  let agent := newDeviceAgent env_random device (co_store s) (co_sent s) (co_defaultTimeout s) in
  let id := da_deviceID agent in
  let start := DeviceAgent.start (Some device) (env_createProxy id) in
  let* _ := addDeviceAgentToMap agent in
  let* d := match co_deviceAgents s !! id with
            | None => on_agent id start
            | Some _ => let* r := on_new_agent agent start in ret r.1
            end in
  ret (id, d).

Definition createDevice (device : Device) : M Core Device :=
  let* deviceExist := isParentDeviceExist device in
  if (deviceExist : bool) then fail (Plain "Device is already pre-provisioned")
  else let* r := add_and_start (set_Root true device) in ret r.2.

Definition list_devices (devices : list Device) : M Core unit :=
  for_each (λ device,
    let* cached := IsDeviceInCache (dev_Id device) in
    if (cached : bool) then ret tt else start_or_stop device) devices.

Definition ListDevices : M Core (list Device) :=
  let* s := get in
  let* devices := lift (dl_list (Obj := Device) (co_store s)) in
  let* _ := list_devices (default [] devices) in
  ret (default [] devices).

Definition ListDeviceIds : M Core (list string) := gets (λ s, (go_range (co_deviceAgents s)).*1).

(** ** Requests to one device *)

Definition enableDevice (id : string) : M Core unit := with_agent id DeviceAgent.enableDevice.
Definition disableDevice (id : string) : M Core unit := with_agent id DeviceAgent.disableDevice.
Definition rebootDevice (id : string) : M Core unit := with_agent id DeviceAgent.rebootDevice.
Definition deleteDevice (id : string) : M Core unit := with_agent id DeviceAgent.deleteDevice.

Definition updateDeviceUsingAdapterData (device : Device) : M Core unit :=
  with_agent (dev_Id device) (DeviceAgent.updateDeviceUsingAdapterData device).
Definition deletePeerPorts (fromDeviceID deviceID : string) : M Core unit :=
  with_agent fromDeviceID (DeviceAgent.deletePeerPorts deviceID).
Definition addFlowsAndGroups (deviceID : string) (flows : list OfpFlowStats) (groups : list OfpGroupEntry)
    (md : option FlowMetadata) : M Core unit :=
  with_agent deviceID (DeviceAgent.addFlowsAndGroups tie flows groups md).
Definition deleteFlowsAndGroups (deviceID : string) (flows : list OfpFlowStats) (groups : list OfpGroupEntry)
    (md : option FlowMetadata) : M Core unit :=
  with_agent deviceID (DeviceAgent.deleteFlowsAndGroups tie flows groups md).
Definition updateFlowsAndGroups (deviceID : string) (flows : list OfpFlowStats) (groups : list OfpGroupEntry)
    (md : option FlowMetadata) : M Core unit :=
  with_agent deviceID (DeviceAgent.updateFlowsAndGroups tie flows groups md).

Definition invalid_device_Id : GoError := Status FailedPrecondition "invalid-device-Id".

Definition updatePmConfigs (pmConfigs : PmConfigs) : M Core unit :=
  if decide (pm_Id pmConfigs = EmptyString) then fail invalid_device_Id
  else with_agent (pm_Id pmConfigs) (DeviceAgent.updatePmConfigs pmConfigs).
Definition initPmConfigs (deviceID : string) (pmConfigs : PmConfigs) : M Core unit :=
  if decide (pm_Id pmConfigs = EmptyString) then fail invalid_device_Id
  else with_agent deviceID (DeviceAgent.initPmConfigs pmConfigs).
Definition listPmConfigs (deviceID : string) : M Core (option PmConfigs) :=
  with_agent deviceID DeviceAgent.listPmConfigs.

Definition updateDeviceStatus (deviceID : string) (operStatus : OperStatus) (connStatus : ConnectStatus)
    : M Core unit :=
  with_agent deviceID (DeviceAgent.updateDeviceStatus operStatus connStatus).
Definition packetOut (deviceID : string) (outPort : Z) (packet : OfpPacketOut) : M Core unit :=
  with_agent deviceID (DeviceAgent.packetOut outPort packet).
Definition updateDeviceReason (deviceID reason : string) : M Core unit :=
  with_agent deviceID (DeviceAgent.updateDeviceReason reason).
Definition enablePort (port : Port) : M Core unit :=
  with_agent (port_DeviceId port) (DeviceAgent.enablePort (port_PortNo port)).
Definition disablePort (port : Port) : M Core unit :=
  with_agent (port_DeviceId port) (DeviceAgent.disablePort (port_PortNo port)).
Definition SetAdminStateToEnable (cDevice : Device) : M Core unit :=
  with_agent (dev_Id cDevice) (updateAdminState Admin_ENABLED).

(** An unknown device is not reported. *)
Definition simulateAlarm (id : string) (req : Opaque) : M Core unit :=
  let* found := getDeviceAgent id in
  if (found : bool) then on_agent id (DeviceAgent.simulateAlarm req) else ret tt.

(** Only a device in memory is changed. *)
Definition UpdateDeviceAttribute (deviceID attribute : string) (value : option AttrValue) : M Core unit :=
  let* cached := IsDeviceInCache deviceID in
  if (cached : bool) then on_agent deviceID (updateDeviceAttribute attribute value) else ret tt.

(** *** Images *)

Definition downloadImage (img : ImageDownload) : M Core unit :=
  with_agent (img_Id img) (DeviceAgent.downloadImage img).
Definition cancelImageDownload (img : ImageDownload) : M Core unit :=
  with_agent (img_Id img) (DeviceAgent.cancelImageDownload img).
Definition activateImage (img : ImageDownload) : M Core unit :=
  with_agent (img_Id img) (DeviceAgent.activateImage img).
Definition revertImage (img : ImageDownload) : M Core unit :=
  with_agent (img_Id img) (DeviceAgent.revertImage img).
Definition getImageDownloadStatus (img : ImageDownload) : M Core ImageDownload :=
  with_agent (img_Id img)
    (let* device := getDeviceWithoutLock in lift (aq_GetImageDownloadStatus device img)).
Definition updateImageDownload (deviceID : string) (img : ImageDownload) : M Core unit :=
  let* found := getDeviceAgent deviceID in
  if (found : bool) then on_agent deviceID (DeviceAgent.updateImageDownload img)
  else fail (Status NotFound (img_Id img)).
Definition getImageDownload (img : ImageDownload) : M Core ImageDownload :=
  with_agent (img_Id img) (DeviceAgent.getImageDownload img).
Definition listImageDownloads (deviceID : string) : M Core (option (list (option ImageDownload))) :=
  with_agent deviceID DeviceAgent.listImageDownloads.

(** *** Capabilities *)

(** The agent asks the manager for its own device. *)
Definition ask_device {A} (deviceID : string) (query : Device → outcome A) : M Core A :=
  let* found := getDeviceAgent deviceID in
  if (found : bool) then let* device := GetDevice deviceID in lift (query device)
  else fail (Status NotFound deviceID).

Definition getSwitchCapability (deviceID : string) : M Core SwitchCapability :=
  ask_device deviceID aq_GetOfpDeviceInfo.
Definition getPortCapability (deviceID : string) (portNo : Z) : M Core PortCapability :=
  ask_device deviceID (λ device, aq_GetOfpPortInfo device portNo).

(** Without a device there are no ports. *)
Definition getPorts (deviceID : string) (portType : PortType) : M Core (list Port) :=
  let* found := getDeviceAgent deviceID in
  if (found : bool) then
    let* device := attempt (GetDevice deviceID) in
    match device with
    | inl d => ret (List.filter (λ port, bool_decide (port_Type port = portType)) (dev_Ports d))
    | inr _ => ret []
    end
  else fail (Status NotFound deviceID).

(** ** Ports *)

(** A peer without agent is skipped. *)
Definition addPort (deviceID : string) (port : Port) : M Core unit :=
  let* found := getDeviceAgent deviceID in
  if (found : bool) then
    let* _ := on_agent deviceID (DeviceAgent.addPort port) in
    let meAsPeer := mkPeer deviceID (port_PortNo port) in
    let* _ := for_each (λ peerPort,
      let* found := getDeviceAgent (peer_DeviceId peerPort) in
      if (found : bool) then on_agent (peer_DeviceId peerPort) (DeviceAgent.addPeerPort meAsPeer) else ret tt)
      (port_Peers port) in
    let* device := GetDevice deviceID in
    go_task (TaskUpdateLogicalPort device port)
  else fail (Status NotFound deviceID).

(** The method ends with the error of an unknown device, whatever happened. *)
Definition updatePortState (deviceID : string) (portType : PortType) (portNo : Z) (operStatus : OperStatus)
    : M Core unit :=
  let* found := getDeviceAgent deviceID in
  let* _ :=
    if (found : bool) then
      let* _ := on_agent deviceID (DeviceAgent.updatePortState portType portNo operStatus) in
      go_task (TaskUpdatePortState deviceID portNo operStatus)
    else ret tt in
  fail (Status NotFound deviceID).

Definition deleteAllPorts (deviceID : string) : M Core unit :=
  let* found := getDeviceAgent deviceID in
  if (found : bool) then
    let* _ := on_agent deviceID DeviceAgent.deleteAllPorts in
    let* device := GetDevice deviceID in
    go_task (TaskDeleteAllLogicalPorts device)
  else fail (Status NotFound deviceID).

Definition updatePortsState (deviceID : string) (state : OperStatus) : M Core unit :=
  let* found := getDeviceAgent deviceID in
  if (found : bool) then
    let* _ := if decide (state = Oper_ACTIVE ∨ state = Oper_UNKNOWN)
              then on_agent deviceID (updatePortsOperState state)
              else fail (Status Unimplemented "state-change-not-implemented") in
    let* device := GetDevice deviceID in
    ldm_updatePortsState fuel device state
  else fail (Status NotFound deviceID).

(** The packet goes to the logical device of a root device. *)
Definition PacketIn (deviceID : string) (port : Z) (transactionID : string) (packet : list Z) : M Core unit :=
  let* device := GetDevice deviceID in
  if negb (dev_Root device) then fail (Status FailedPrecondition deviceID)
  else ldm_packetIn (dev_ParentId device) port transactionID packet.

(** ** Children *)

Definition error_string (e : GoError) : string := match e with Status _ msg | Plain msg => msg end.

(** The parent of the children; its error is reported as [Aborted]. *)
Definition aborted_on_error {A} (m : M Core A) : M Core A :=
  let* r := attempt m in
  match r with inl a => ret a | inr e => fail (Status Aborted (error_string e)) end.

(** With both a number and a serial number, both must be those of the child. *)
Definition is_child (serialNumber : string) (onuID parentPortNo : Z) (device : Device) : outcome bool :=
  let? proxyAddress := deref (dev_ProxyAddress device) in
  let foundOnuID := (pa_OnuId proxyAddress =? u32 onuID) && (dev_ParentPortNo device =? u32 parentPortNo) in
  let foundSerialNumber := bool_decide (dev_SerialNumber device = serialNumber) in
  Ok (if decide (0 < onuID ∧ serialNumber ≠ EmptyString)
      then foundOnuID && foundSerialNumber else foundOnuID || foundSerialNumber).

Fixpoint find_child (p : Device → outcome bool) (childDeviceIds : list string) : M Core (option Device) :=
  match childDeviceIds with
  | [] => ret None
  | childDeviceID :: childDeviceIds =>
      let* searchDevice := attempt (GetDevice childDeviceID) in
      match searchDevice with
      | inr _ => find_child p childDeviceIds
      | inl d => let* found := lift (p d) in
                 if (found : bool) then ret (Some d) else find_child p childDeviceIds
      end
  end.

Definition GetChildDevice (parentDeviceID serialNumber : string) (onuID parentPortNo : Z) : M Core Device :=
  let* parentDevice := aborted_on_error (GetDevice parentDeviceID) in
  let* found := find_child (is_child serialNumber onuID parentPortNo) (getAllChildDeviceIds parentDevice) in
  match found with
  | Some d => ret d
  | None => fail (Status NotFound parentDeviceID)
  end.

(** The address of the child, a pointer into a copy of the device, is compared
    with the argument: no child is ever found. *)
Definition GetChildDeviceWithProxyAddress (proxyAddress : ProxyAddress) (printed : string) : M Core Device :=
  let* parentDevice := aborted_on_error (GetDevice (pa_DeviceId proxyAddress)) in
  let* found := find_child (λ _, Ok false) (getAllChildDeviceIds parentDevice) in
  match found with
  | Some d => ret d
  | None => fail (Status NotFound printed)
  end.

Definition getAllChildDevices (parentDeviceID : string) : M Core (list Device) :=
  let* parentDevice := attempt (GetDevice parentDeviceID) in
  match parentDevice with
  | inr _ => fail (Status NotFound parentDeviceID)
  | inl p =>
      foldr (λ deviceID rest,
        let* d := attempt (GetDevice deviceID) in
        let* ds := rest in
        ret (match d with inl d => d :: ds | inr _ => ds end)) (ret []) (getAllChildDeviceIds p)
  end.

Definition updateChildrenStatus (deviceID : string) (operStatus : OperStatus) (connStatus : ConnectStatus)
    : M Core unit :=
  let* parentDevice := aborted_on_error (GetDevice deviceID) in
  for_each (λ childDeviceID,
    let* found := getDeviceAgent childDeviceID in
    if (found : bool) then
      let* r := attempt (on_agent childDeviceID (DeviceAgent.updateDeviceStatus operStatus connStatus)) in
      match r with
      | inl _ => ret tt
      | inr e => fail (Status Aborted ("childDevice:" +:+ childDeviceID +:+ ", error:" +:+ error_string e))
      end
    else ret tt) (getAllChildDeviceIds parentDevice).

(** All children are asked; [err] holds the answer of the last one asked and is
    returned when one of them failed ([ok] is false). *)
Fixpoint ask_children (m : M DeviceAgent unit) (ok : bool) (err : option GoError) (childDeviceIds : list string)
    : M Core unit :=
  match childDeviceIds with
  | [] => match ok, err with false, Some e => fail e | _, _ => ret tt end
  | childDeviceID :: childDeviceIds =>
      let* found := getDeviceAgent childDeviceID in
      if (found : bool) then
        let* r := attempt (on_agent childDeviceID m) in
        match r with
        | inl _ => ask_children m ok None childDeviceIds
        | inr e => ask_children m false (Some e) childDeviceIds
        end
      else ask_children m ok err childDeviceIds
  end.

Definition DisableAllChildDevices (parentDevice : Device) : M Core unit :=
  ask_children DeviceAgent.disableDevice true None (getAllChildDeviceIds parentDevice).
Definition DeleteAllChildDevices (parentDevice : Device) : M Core unit :=
  ask_children DeviceAgent.deleteDevice true None (getAllChildDeviceIds parentDevice).

Definition childDevicesLost (parentDeviceID : string) : M Core unit :=
  let* parentDevice := GetDevice parentDeviceID in DisableAllChildDevices parentDevice.

(** The children are enabled by goroutines, which also write to [err]: [raced] is
    what the last one wrote before the method returned, if any did. *)
Fixpoint enable_children (raced : option (option GoError)) (started : bool) (err : option GoError)
    (childDeviceIds : list string) : M Core unit :=
  match childDeviceIds with
  | [] =>
      match err with
      | None => ret tt
      | Some e =>
          match started, raced with
          | true, Some None => ret tt
          | true, Some (Some e') => fail e'
          | _, _ => fail e
          end
      end
  | childDeviceID :: childDeviceIds =>
      let* found := getDeviceAgent childDeviceID in
      if (found : bool) then
        let* _ := go_task (TaskEnableDevice childDeviceID) in
        enable_children raced true err childDeviceIds
      else
        enable_children raced started
          (Some (Status Unavailable ("no agent for child device " +:+ childDeviceID))) childDeviceIds
  end.

Definition childDevicesDetected (raced : option (option GoError)) (parentDeviceID : string) : M Core unit :=
  let* parentDevice := GetDevice parentDeviceID in
  enable_children raced false None (getAllChildDeviceIds parentDevice).

(** *** A new child *)

(** The adapter of the first device type with the vendor. *)
Fixpoint type_of_vendor (vendorID : string) (types : list DeviceType) : string :=
  match types with
  | [] => EmptyString
  | dType :: types =>
      if decide (vendorID ∈ dt_VendorIds dType) then dt_Adapter dType else type_of_vendor vendorID types
  end.

Definition child_device (deviceType parentID : string) (parentPortNo : Z) (vendorID serialNumber : string)
    (proxyAddress : ProxyAddress) : Device := {|
  dev_Id := ""; dev_Type := deviceType; dev_Root := false; dev_ParentId := parentID;
  dev_ParentPortNo := parentPortNo; dev_Vendor := ""; dev_Model := ""; dev_HardwareVersion := "";
  dev_FirmwareVersion := ""; dev_SerialNumber := serialNumber; dev_VendorId := vendorID; dev_Adapter := "";
  dev_Vlan := 0; dev_MacAddress := ""; dev_Address := None; dev_ExtraArgs := "";
  dev_ProxyAddress := Some proxyAddress; dev_AdminState := Admin_UNKNOWN; dev_OperStatus := Oper_UNKNOWN;
  dev_Reason := ""; dev_ConnectStatus := Conn_UNKNOWN; dev_Ports := []; dev_Flows := [];
  dev_FlowGroups := []; dev_PmConfigs := None; dev_ImageDownloads := None |}.

(** The result and whether it is reported as already existing. *)
Definition childDeviceDetected (parentDeviceID : string) (parentPortNo : Z) (deviceType : string)
    (channelID : Z) (vendorID serialNumber : string) (onuID : Z) : M Core (Device * bool) :=
  let* s := get in
  let* deviceType :=
    if decide (deviceType = EmptyString ∧ vendorID ≠ EmptyString) then
      let* deviceTypes := lift (dl_list (Obj := DeviceType) (co_store s)) in
      ret (type_of_vendor vendorID (default [] deviceTypes))
    else ret deviceType in
  if decide (deviceType = EmptyString) then fail (Status NotFound vendorID)
  else
    let* found := attempt (GetDevice parentDeviceID) in
    match found with
    | inr _ => fail (Status NotFound parentDeviceID)
    | inl parentDevice =>
        let* existing := attempt (GetChildDevice parentDeviceID serialNumber onuID parentPortNo) in
        match existing with
        | inl device => ret (device, true)
        | inr _ =>
            let proxyAddress := mkProxyAddress parentDeviceID (dev_Type parentDevice) (u32 channelID) 0 "" (u32 onuID) 0 in
            let* r := add_and_start (child_device deviceType parentDeviceID (u32 parentPortNo) vendorID
                                       serialNumber proxyAddress) in
            let* _ := go_task (TaskOwnedByMe r.1) in
            let* found := getDeviceAgent r.1 in
            let* _ := if (found : bool) then go_task (TaskEnableDevice r.1) else panic in
            let* _ := go_task (TaskDeviceDiscovered r.1 deviceType parentDeviceID) in
            ret (r.2, false)
        end
    end.

(** ** Reconciliation *)

(** Every device is loaded; the call succeeds when all of them were. *)
Fixpoint reconcile_all (reconciled : nat) (ids : list string) : M Core nat :=
  match ids with
  | [] => ret reconciled
  | id :: ids =>
      let* r := attempt (load fuel id) in
      reconcile_all (match r with inl _ => S reconciled | inr _ => reconciled end) ids
  end.

Definition ReconcileDevices (ids : list string) : M Core unit :=
  match ids with
  | [] => fail (Status InvalidArgument "empty-list-of-ids")
  | _ =>
      let* reconciled := reconcile_all 0 ids in
      if decide (length ids = reconciled) then ret tt
      else fail (Status DataLoss ("less-device-reconciled-than-requested:" +:+ pretty reconciled +:+ "/" +:+
                                  pretty (length ids)))
  end.

(** The request goes straight to the adapter, without an agent. *)
Definition sendReconcileDeviceRequest (device : Device) : M Core completion := λ s,
  let req := ReconcileDevice device in
  (Ok match adapter_flow_reply (co_sent s) req with
      | Some (t, Some _) => Some (t, Some (Status Internal ("device: " +:+ dev_Id device)))
      | c => c
      end, set_co_sent (co_sent s ++ [req]) s).

(** [device, _ := getDeviceFromModel(id)]. *)
Definition device_in_model (deviceID : string) : M Core (option Device) :=
  let* d := attempt (getDeviceFromModel deviceID) in
  ret (match d with inl d => Some d | inr _ => None end).

(** The children of one root, up to the first one of another adapter. *)
Fixpoint reconcile_children_of (adapterID : string) (childDeviceIds : list string) : M Core (list completion) :=
  match childDeviceIds with
  | [] => ret []
  | id :: childDeviceIds =>
      let* childDevice := device_in_model id in
      match childDevice with
      | None => reconcile_children_of adapterID childDeviceIds
      | Some d =>
          if decide (dev_Adapter d = adapterID) then
            let* response := if isOkToReconcile d then let* r := sendReconcileDeviceRequest d in ret [r]
                             else ret [] in
            let* responses := reconcile_children_of adapterID childDeviceIds in
            ret (response ++ responses)
          else ret []
      end
  end.

Fixpoint reconcile_roots (adapterID : string) (rootDeviceIds : list string) : M Core (list completion) :=
  match rootDeviceIds with
  | [] => ret []
  | id :: rootDeviceIds =>
      let* rootDevice := device_in_model id in
      let* response :=
        match rootDevice with
        | None => ret []
        | Some d =>
            if decide (dev_Adapter d = adapterID) then
              if isOkToReconcile d then let* r := sendReconcileDeviceRequest d in ret [r] else ret []
            else reconcile_children_of adapterID (getAllChildDeviceIds d)
        end in
      let* responses := reconcile_roots adapterID rootDeviceIds in
      ret (response ++ responses)
  end.

Definition await_all (responses : list completion) : M Core unit :=
  let* s := get in
  match (WaitForNilOrErrorResponses tie (co_defaultTimeout s) responses).1 with
  | None => ret tt
  | Some _ => fail (Status Aborted "errors")
  end.

(** [rootDeviceIds] is [deviceOwnership.GetAllDeviceIdsOwnedByMe()]. *)
Definition adapterRestarted (rootDeviceIds : list string) (adapterID : string) : M Core unit :=
  let* responses := reconcile_roots adapterID rootDeviceIds in
  match responses with
  | [] => ret tt
  | _ => await_all responses
  end.

Fixpoint reconcile_each (childDeviceIds : list string) : M Core (list completion) :=
  match childDeviceIds with
  | [] => ret []
  | id :: childDeviceIds =>
      let* childDevice := device_in_model id in
      let* response := match childDevice with
                       | None => ret []
                       | Some d => let* r := sendReconcileDeviceRequest d in ret [r]
                       end in
      let* responses := reconcile_each childDeviceIds in
      ret (response ++ responses)
  end.

Definition reconcileChildDevices (parentDeviceID : string) : M Core unit :=
  let* parentDevice := device_in_model parentDeviceID in
  match parentDevice with
  | None => ret tt
  | Some d => let* responses := reconcile_each (getAllChildDeviceIds d) in await_all responses
  end.

(** ** Deleted devices and transitions *)

(** A second [stop] would wait for the reader of [exitChannel] forever; the agent
    leaves the map after the first. *)
Definition stopManagingDevice (id : string) : M Core unit :=
  let* cached := IsDeviceInCache id in
  if (cached : bool) then
    let* root := IsRootDevice id in
    let* _ :=
      if (root : bool) then
        let* ldeviceID := stopManagingLogicalDeviceWithDeviceID id in
        if decide (ldeviceID = EmptyString) then ret tt else abandon ldeviceID
      else ret tt in
    let* found := getDeviceAgent id in
    if (found : bool) then
      let* _ := on_agent id DeviceAgent.stop in
      let* _ := deleteDeviceAgentFromMap id in
      abandon id
    else ret tt
  else ret tt.

Definition RunPostDeviceDelete (cDevice : Device) : M Core unit := stopManagingDevice (dev_Id cDevice).

Definition CreateLogicalDevice (cDevice : Device) : M Core unit :=
  if decide (dev_ParentId cDevice = EmptyString)
  then let* _ := createLogicalDevice fuel cDevice in ret tt
  else ret tt.

Definition DeleteLogicalDevice (cDevice : Device) : M Core unit :=
  let* _ := deleteLogicalDevice cDevice in
  UpdateDeviceAttribute (dev_Id cDevice) "ParentId" (Some (AttrString EmptyString)).

Definition DeleteLogicalPort (device : Device) : M Core unit :=
  let* lPortID := getLogicalPortID fuel device in ldm_deleteLogicalPort lPortID.

Definition DeleteLogicalPorts (device : Device) : M Core unit := ldm_deleteLogicalPorts fuel (dev_Id device).

Definition SetupUNILogicalPorts (cDevice : Device) : M Core unit :=
  ldm_setupUNILogicalPorts fuel others cDevice.

Definition ChildDeviceLost (cDevice : Device) : M Core unit :=
  let* found := getDeviceAgent (dev_ParentId cDevice) in
  if (found : bool) then on_agent (dev_ParentId cDevice) (DeviceAgent.ChildDeviceLost cDevice)
  else fail (Status NotFound (dev_Id cDevice)).

Definition NotifyInvalidTransition (pcDevice : Device) : M Core unit := ret tt.

Definition run_handler (handler : TransitionHandler) (current : Device) : M Core unit :=
  match handler with
  | Transitions.CreateLogicalDevice => CreateLogicalDevice current
  | Transitions.SetupUNILogicalPorts => SetupUNILogicalPorts current
  | Transitions.RunPostDeviceDelete => RunPostDeviceDelete current
  | Transitions.DisableAllChildDevices => DisableAllChildDevices current
  | Transitions.DeleteAllChildDevices => DeleteAllChildDevices current
  | Transitions.DeleteLogicalDevice => DeleteLogicalDevice current
  | Transitions.ChildDeviceLost => ChildDeviceLost current
  | Transitions.DeleteLogicalPorts => DeleteLogicalPorts current
  | Transitions.NotifyInvalidTransition => NotifyInvalidTransition current
  end.

(** The handlers run in order, up to the first that fails. *)
Definition processTransition (previous current : Device) : M Core unit :=
  match GetTransitionHandler NewTransitionMap previous current with
  | None => ret tt
  | Some handlers => for_each (λ handler, run_handler handler current) handlers
  end.

(** ** The goroutines *)

(** [enableDevice] on the agent the goroutine was started with; one that left the
    map in the meantime is not followed. *)
Definition enable_if_mapped (deviceID : string) : M Core unit :=
  let* cached := IsDeviceInCache deviceID in
  if (cached : bool) then on_agent deviceID DeviceAgent.enableDevice else ret tt.

(** A goroutine runs on its own; its error is logged. *)
Definition run_core_task (t : CoreTask) : M Core unit :=
  let* _ := attempt (match t with
    | TaskOwnedByMe _ | TaskDeviceDiscovered _ _ _ => ret tt
    | TaskUpdateLogicalPort device port => ldm_updateLogicalPort fuel others device port
    | TaskUpdatePortState deviceID portNo operStatus => ldm_updatePortState fuel deviceID portNo operStatus
    | TaskDeleteAllLogicalPorts device => ldm_deleteAllLogicalPorts fuel device
    | TaskEnableDevice deviceID => enable_if_mapped deviceID
    | TaskStartLogicalDevice id rootDeviceID mapped => start_logical id rootDeviceID mapped
    | TaskProcessTransition previous current => processTransition previous current
    end) in
  ret tt.

Definition run_task_at (i : nat) : M Core unit :=
  let* s := get in
  match co_tasks s !! i with
  | None => ret tt
  | Some t => let* _ := modify (set_co_tasks (delete_at i (co_tasks s))) in run_core_task t
  end.

(** The callback of the data model on a changed device. *)
Definition processUpdate (previous current : Device) : M Core unit :=
  go_task (TaskProcessTransition previous current).
End DeviceMgr.
