(* ===== verification/CoreInvariant.v ===== *)
(** * The invariant of the managers

    Every request on the device manager and on the logical device manager, and
    every goroutine they leave behind, keeps the agents in memory and the data
    model in step.  What an operation of an agent may touch comes first: a
    logical device agent changes no device, a device agent changes its own. *)

From S2P Require Import Prelude OpenFlow VolthaTypes FlowUtils Routes Decomposer CoreUtils DataProxy Transitions.
From S2P Require Import DeviceAgent LogicalAgent LogicalTables LogicalPorts Managers Loading LogicalMgr DeviceMgr.

Lemma preserves_pure {S A} (I : S → Prop) (m : M S A) : (∀ s, (m s).2 = s) → preserves I m.
Proof. intros Hm s Hs. by rewrite Hm. Qed.

(** ** Logical device agents leave the devices alone *)

Section LogicalFrame.
Context {Store : Type} `{DataProxy Device Store, DataProxy LogicalDevice Store, GoRange, DeviceManagerView,
  DeviceManagerCalls, ProtoText}.
Context `{!DataProxyApart LogicalDevice Device Store}.
Implicit Types (a : @LogicalState Store).

Variable f : string → outcome (option Device).
Variable others : @LogicalState Store → @LogicalState Store.
Hypothesis others_frame : ∀ a, logical_frame f a → logical_frame f (others a).

Lemma frame_write ld : preserves (logical_frame f) (updateLogicalDeviceWithoutLock ld).
Proof.
  intros a Ha. unfold updateLogicalDeviceWithoutLock.
  pose proof (written_update (Obj := LogicalDevice) (lda_logicalDeviceID a) (lda_store a) ld) as Hw.
  destruct (dp_update _ _ _) as [[| |e] st]; by apply (logical_written f _ _ _ Ha) in Hw.
Qed.

Lemma frame_routes m : preserves (logical_frame f) (with_routes m).
Proof.
  intros a Ha. unfold with_routes. destruct (lda_deviceRoutes a) as [dr|]; [|done]. by destruct (m dr).
Qed.

Lemma frame_ensure : preserves (logical_frame f) ensure_routes.
Proof. intros a Ha. unfold ensure_routes, modify. simpl. by destruct (lda_deviceRoutes a). Qed.
Lemma frame_read : preserves (logical_frame f) getLogicalDeviceWithoutLock.
Proof. by intros a Ha. Qed.
Lemma frame_call req : preserves (logical_frame f) (call req).
Proof. by intros a Ha. Qed.
Lemma frame_decompose flows groups : preserves (logical_frame f) (decompose flows groups).
Proof. by intros a Ha. Qed.

Ltac head_of t := lazymatch t with ?g _ => head_of g | _ => t end.
Ltac frame_step :=
  first
    [ apply frame_write | apply frame_routes | apply frame_ensure | apply frame_read | apply frame_call | apply frame_decompose
    | lazymatch goal with |- preserves _ (modify _) => apply preserves_modify; by intros ? end
    | preserves_step
    | lazymatch goal with |- preserves _ ?m => let h := head_of m in unfold h end ].
Ltac frame_tac := repeat frame_step.

Lemma frame_call_devices req failed rules : preserves (logical_frame f) (call_devices req failed rules).
Proof. induction rules as [|[id v] rules IH]; cbn [call_devices]; repeat first [apply IH | frame_step]. Qed.

Lemma frame_add_logical_port build device port :
  preserves (logical_frame f) (add_logical_port others build device port).
Proof.
  unfold add_logical_port.
  repeat first [lazymatch goal with |- preserves _ (modify others) => by apply preserves_modify end | frame_step].
Qed.

Lemma frame_setup_nni device err ports : preserves (logical_frame f) (setup_nni others device err ports).
Proof.
  revert err. induction ports as [|port ports IH]; intros err; cbn [setup_nni];
    repeat first [apply IH | apply frame_add_logical_port | frame_step].
Qed.

Lemma frame_setup_uni device err ports : preserves (logical_frame f) (setup_uni others device err ports).
Proof.
  revert err. induction ports as [|port ports IH]; intros err; cbn [setup_uni];
    repeat first [apply IH | apply frame_add_logical_port | frame_step].
Qed.

Lemma frame_setup_children durations children :
  preserves (logical_frame f) (setup_children others durations children).
Proof.
  revert durations. induction children as [|child children IH]; intros durations; cbn [setup_children];
    repeat first [apply IH | apply frame_setup_uni | frame_step].
Qed.

Lemma frame_setupUNI device : preserves (logical_frame f) (setupUNILogicalPorts others device).
Proof. unfold setupUNILogicalPorts. repeat first [apply frame_setup_uni | frame_step]. Qed.

(** No operation of a logical device agent changes a device. *)
Lemma frame_run_op op : preserves (logical_frame f) (LogicalPorts.run_op others op).
Proof.
  destruct op; cbn [LogicalPorts.run_op];
    repeat first [ apply frame_setup_nni | apply frame_setup_uni | apply frame_setup_children
                 | apply frame_add_logical_port | apply frame_call_devices | frame_step ].
Qed.
End LogicalFrame.

(** ** A device agent changes its own device only *)

Section AgentFrame.
Context {Store : Type} `{DataProxy Device Store, Adapter, AdapterMgrView, ProtoText}.
Context `{!DataProxyLaws Device Store, !DataProxyFrame Device Store}.
Implicit Types (a : @AgentState Store).

(** An agent as it was before an operation, as far as its manager relies on it. *)
Record agent_bound (id : string) (proxy root : bool) (f : string → outcome (option Device)) a : Prop := {
  bound_id : da_deviceID a = id;
  bound_proxy : da_deviceProxy a = proxy;
  bound_root : da_isRootdevice a = root;
  bound_others : ∀ id', id' ≠ id → dp_get id' (da_store a) = f id';
  bound_device : dp_get id (da_store a) = Ok (Some (da_device a));
  bound_name : dev_Id (da_device a) = id
}.

Context (id : string) (proxy root : bool) (f : string → outcome (option Device)).
Notation bound := (agent_bound id proxy root f).

Lemma bound_update d : dev_Id d = id → preserves bound (updateDeviceInStoreWithoutLock d).
Proof.
  intros Hd a [Hid Hp Hr Ho Hdev Hn]. unfold updateDeviceInStoreWithoutLock.
  pose proof (written_update (da_deviceID a) (da_store a) d) as Hw.
  destruct (dp_update (da_deviceID a) d (da_store a)) as [r st] eqn:Hu. simpl in Hw. rewrite Hid in Hw, Hu.
  assert (∀ id', id' ≠ id → dp_get id' st = f id') as Ho'.
  { intros id' Hne. by rewrite (dp_frame _ _ _ _ Hw Hne) Ho. }
  destruct r as [| |e]; split; simpl; try done.
  - by eapply dp_update_get.
  - by rewrite (dp_update_fail _ _ _ _ _ Hu).
  - by rewrite (dp_update_fail _ _ _ _ _ Hu).
Qed.

Lemma bound_send req : preserves bound (send req).
Proof. intros a [? ? ? ? ? ?]. unfold send. by destruct (adapter_reply _ _). Qed.
Lemma bound_send_async req : preserves bound (send_async req).
Proof. by intros a [? ? ? ? ? ?]. Qed.
Lemma bound_reconcile : preserves bound reconcileWithKVStore.
Proof.
  intros a [Hid ? ? ? Hdev ?]. unfold reconcileWithKVStore. by rewrite Hid Hdev.
Qed.
Lemma bound_read {A} (k : Device → M (@AgentState Store) A) :
  (∀ d, dev_Id d = id → preserves bound (k d)) → preserves bound (sbind getDeviceWithoutLock k).
Proof. intros Hk a Ha. apply Hk; [by apply (bound_name _ _ _ _ a Ha)|done]. Qed.

Lemma bound_adapterData d : preserves bound (DeviceAgent.updateDeviceUsingAdapterData d).
Proof. intros a Ha. refine (bound_update _ _ a Ha). exact (bound_name _ _ _ _ a Ha). Qed.

Ltac head_of t := lazymatch t with ?g _ => head_of g | _ => t end.
Ltac bound_step :=
  first
    [ apply bound_read; intros ?d ?Hd | apply bound_update | apply bound_send | apply bound_send_async | apply bound_adapterData
    | apply bound_reconcile | preserves_step
    | progress cbv zeta
    | lazymatch goal with |- preserves _ ?m => let h := head_of m in unfold h end ].

Definition keeps_name (op : agent_op) : Prop :=
  match op with op_updateDeviceAttribute name _ => name ≠ "Id" | _ => True end.

Lemma images_name img g d d' : dev_Id d = id → update_images img g d = Ok d' → dev_Id d' = id.
Proof. intros Hd. unfold update_images. destruct (mapO _ _); simpl; [by intros [= <-]|done..]. Qed.

Lemma attribute_name name v d u : name ≠ "Id" → dev_Id d = id → set_attribute name v d = Ok u → dev_Id (default d u) = id.
Proof.
  intros Hne Hd. unfold set_attribute.
  repeat (destruct (decide _) as [?|_]; [first [done | destruct v; [try done..]; try (intros [= <-]; exact Hd); done]|]).
  by intros [= <-].
Qed.

Lemma bound_run_op op : keeps_name op → preserves bound (DeviceAgent.run_op op).
Proof.
  intros Hop. destruct op; cbn [DeviceAgent.run_op keeps_name] in *.
  all: repeat bound_step; try done.
  all: try (simpl; by eapply images_name). all: try (by eapply attribute_name).
  all: try by repeat case_match.
all: match goal with |- ?G => idtac G end.
Qed.
End AgentFrame.

(** ** The managers *)

Section CoreInvariant.
Context {Store : Type} `{DataProxy Device Store, DataProxy LogicalDevice Store, DataList Device Store,
  DataList LogicalDevice Store, DataList DeviceType Store, Adapter, AdapterMgrView, AdapterQueries, ProtoText,
  GoRange, DeviceManagerView, DeviceManagerCalls, CoreEnv}.
Context `{!DataProxyLaws Device Store, !DataProxyFrame Device Store, !DataProxyApart LogicalDevice Device Store}.
Notation Core := (Core (Store := Store)).
Notation DeviceAgent := (@AgentState Store).
Implicit Types (s : Core) (a : DeviceAgent).

(** The agents are in step with the data model, which stores every device under
    its identifier. *)
Definition sound s : Prop := managed s ∧ ids_match (co_store s).

(** Sound, and the devices are those of [f]. *)
Definition snap (f : string → outcome (option Device)) s : Prop := sound s ∧ devices_are f (co_store s).

Lemma preserves_snap {A} (m : M Core A) : (∀ f, preserves (snap f) m) → preserves sound m.
Proof. intros Hm s Hs. exact (proj1 (Hm (λ id, dp_get id (co_store s)) s (conj Hs (λ _, eq_refl)))). Qed.

Ltac head_of t := lazymatch t with ?g _ => head_of g | _ => t end.

(** *** Methods of an agent *)

Definition well_behaved {A} (m : M DeviceAgent A) : Prop := ∀ a,
  agent_inv a → dev_Id (da_device a) = da_deviceID a →
  agent_moves a (m a).2 ∧ dev_Id (da_device (m a).2) = da_deviceID a.

Lemma well_run_op op : DeviceAgent.op_ok op → keeps_name op → well_behaved (DeviceAgent.run_op op).
Proof.
  intros Hok Hname a Ha Hid. set (f := λ id, dp_get (Obj := Device) id (da_store a)).
  assert (agent_bound (da_deviceID a) (da_deviceProxy a) (da_isRootdevice a) f a) as Hb.
  { split; try done. apply Ha. }
  destruct (bound_run_op _ _ _ f op Hname a Hb) as [? ? ? Ho ? ?].
  split; [|done]. split_and!; [done..|by apply run_op_inv|exact Ho].
Qed.

Lemma well_read {A} (g : DeviceAgent → A) : well_behaved (gets g).
Proof. intros a Ha Hid. by split_and!. Qed.
Lemma well_lift_read {A B} (g : DeviceAgent → A) (k : A → outcome B) :
  well_behaved (let* x := gets g in lift (k x)).
Proof. intros a Ha Hid. by split_and!. Qed.

(** A query of an agent. *)
Lemma well_pure {A} (m : M DeviceAgent A) : (∀ a, (m a).2 = a) → well_behaved m.
Proof. intros Hm a Ha Hid. rewrite Hm. by split_and!. Qed.

Lemma agent_named s id a : sound s → co_deviceAgents s !! id = Some a → dev_Id (da_device a) = id.
Proof. intros [(Hm & _) Hids] Ha. destruct (Hm _ _ Ha) as (_ & _ & Hget & _). by apply Hids. Qed.

Lemma sound_on_agent {A} id (m : M DeviceAgent A) : well_behaved m → preserves sound (on_agent id m).
Proof.
  intros Hm s Hs. unfold on_agent. destruct (co_deviceAgents s !! id) as [a|] eqn:Ha; [|done].
  pose proof (agent_named _ _ _ Hs Ha) as Hname. destruct Hs as [Hman Hids].
  destruct (proj1 Hman _ _ Ha) as (Hia & _ & Hga & _).
  destruct (Hm (attach s a)) as [Hmv Hname']; [by eapply attached_inv|simpl; congruence|].
  pose proof (managed_moves id a (m (attach s a)).2 s Hman Ha Hmv) as Hman'.
  destruct (m (attach s a)) as [r a']. split; [exact Hman'|]. simpl in *.
  destruct Hmv as (Hid & _ & _ & [Hget _] & Ho). simpl in *. intros id' d.
  destruct (decide (id' = id)) as [->|Hne].
  - rewrite Hid Hia in Hget. rewrite Hget. intros [= <-]. congruence.
  - rewrite Ho ?Hia //. apply Hids.
Qed.

(** *** Loading and looking up *)

Lemma snap_same_devices f s s' : same_devices s s' → snap f s → snap f s'.
Proof.
  intros Hsame [[Hm Hids] Hf]. destruct (id Hsame) as (_ & _ & Hst). split; [split|].
  - by eapply managed_same_devices.
  - intros x d. rewrite Hst. apply Hids.
  - intros x. by rewrite Hst.
Qed.

Lemma snap_same {A} f (m : M Core A) : (∀ s0, preserves (same_devices s0) m) → preserves (snap f) m.
Proof. intros Hm s Hs. eapply snap_same_devices; [|done]. apply Hm. by split_and!. Qed.

Lemma snap_ldm_load f id : preserves (snap f) (ldm_load id).
Proof. apply snap_same. intros s0. apply same_ldm_load. Qed.

Lemma snap_loadDevice f id : preserves (snap f) (loadDevice id).
Proof.
  intros s [[Hm Hids] Hf]. pose proof (loadDevice_run id s Hm Hids) as Hrun.
  destruct (loadDevice id s) as [[[]|e|] s']; simpl.
  - destruct Hrun as (Hm' & Hst & _). unfold snap, sound. rewrite Hst. done.
  - by destruct Hrun as [-> _].
  - by subst.
Qed.

Lemma snap_read f id : preserves (snap f) (on_agent id getDeviceWithoutLock).
Proof.
  intros s [Hs Hf]. split; [by apply sound_on_agent; [apply well_read|]|].
  unfold on_agent. by destruct (co_deviceAgents s !! id).
Qed.

Lemma snap_modify f g : (∀ s, same_devices s (g s)) → preserves (snap f) (modify g).
Proof. intros Hg s Hs. exact (snap_same_devices f s (g s) (Hg s) Hs). Qed.

#[local] Hint Resolve snap_ldm_load snap_loadDevice snap_read : preserves.

Lemma snap_load f fuel id : preserves (snap f) (load fuel id).
Proof.
  revert id. induction fuel as [|fuel IH]; intros id; cbn [load]; [apply preserves_panic|].
  unfold loadRootDeviceParentAndChildren. preserves_tac.
Qed.
#[local] Hint Resolve snap_load : preserves.

Lemma snap_cached f id : preserves (snap f) (IsDeviceInCache id).
Proof. by intros s Hs. Qed.
Lemma snap_task f t : preserves (snap f) (go_task t).
Proof. apply snap_modify. intros s. by split_and!. Qed.
#[local] Hint Resolve snap_cached snap_task : preserves.

Lemma snap_getDeviceAgent f fuel id : preserves (snap f) (getDeviceAgent fuel id).
Proof. unfold getDeviceAgent. preserves_tac. Qed.
#[local] Hint Resolve snap_getDeviceAgent : preserves.

Lemma snap_GetDevice f fuel id : preserves (snap f) (GetDevice fuel id).
Proof. unfold GetDevice, with_agent. preserves_tac. Qed.
#[local] Hint Resolve snap_GetDevice : preserves.

Lemma snap_find_child f fuel p ids : preserves (snap f) (find_child fuel p ids).
Proof. induction ids as [|id ids IH]; cbn [find_child]; repeat first [apply IH | preserves_step]. Qed.
Lemma snap_aborted {A} f (m : M Core A) : preserves (snap f) m → preserves (snap f) (aborted_on_error m).
Proof. intros Hm. unfold aborted_on_error. preserves_tac. Qed.
#[local] Hint Resolve snap_find_child snap_aborted : preserves.

Lemma snap_GetChildDevice f fuel p sn onu port : preserves (snap f) (GetChildDevice fuel p sn onu port).
Proof. unfold GetChildDevice. preserves_tac. Qed.

(** *** What the operations are made of *)

Lemma sound_snap {A} (m : M Core A) : (∀ f, preserves (snap f) m) → preserves sound m.
Proof. apply preserves_snap. Qed.

Lemma sound_modify g : (∀ s, same_devices s (g s)) → preserves sound (modify g).
Proof. intros Hg. apply preserves_snap. intros f. by apply snap_modify. Qed.

Lemma sound_logical {A} id (m : M (@LogicalState Store) A) :
  (∀ f, preserves (logical_frame f) m) → preserves sound (on_logical id m).
Proof. intros Hm. apply preserves_snap. intros f. apply snap_same. intros s0. by apply same_on_logical. Qed.

Lemma sound_getDeviceAgent fuel id : preserves sound (getDeviceAgent fuel id).
Proof. apply preserves_snap. intros f. apply snap_getDeviceAgent. Qed.
Lemma sound_GetDevice fuel id : preserves sound (GetDevice fuel id).
Proof. apply preserves_snap. intros f. apply snap_GetDevice. Qed.
Lemma sound_load fuel id : preserves sound (load fuel id).
Proof. apply preserves_snap. intros f. apply snap_load. Qed.
Lemma sound_task t : preserves sound (go_task t).
Proof. apply sound_modify. intros s. by split_and!. Qed.
Lemma sound_abandon id : preserves sound (abandon id).
Proof. apply sound_modify. intros s. by split_and!. Qed.
Lemma sound_cached id : preserves sound (IsDeviceInCache id).
Proof. by intros s Hs. Qed.

Lemma sound_with_agent {A} fuel id (m : M DeviceAgent A) : well_behaved m → preserves sound (with_agent fuel id m).
Proof.
  intros Hm. unfold with_agent. preserves_tac; [apply sound_getDeviceAgent|by apply sound_on_agent].
Qed.

Lemma sound_getLogicalDeviceAgent id : preserves sound (getLogicalDeviceAgent id).
Proof.
  unfold getLogicalDeviceAgent. preserves_tac. apply preserves_snap. intros f. apply snap_ldm_load.
Qed.

Lemma sound_with_logical {A} id (m : M (@LogicalState Store) A) :
  (∀ f, preserves (logical_frame f) m) → preserves sound (with_logical id m).
Proof.
  intros Hm. unfold with_logical. preserves_tac; [apply sound_getLogicalDeviceAgent|by apply sound_logical].
Qed.
Lemma sound_if_logical id (m : M (@LogicalState Store) unit) :
  (∀ f, preserves (logical_frame f) m) → preserves sound (if_logical id m).
Proof.
  intros Hm. unfold if_logical. preserves_tac; [apply sound_getLogicalDeviceAgent|by apply sound_logical].
Qed.

#[local] Hint Resolve sound_getDeviceAgent sound_GetDevice sound_load sound_task sound_abandon sound_cached
  sound_getLogicalDeviceAgent : preserves.

(** *** Stopping an agent *)

Lemma sound_stop id : preserves sound
  (let* _ := on_agent id DeviceAgent.stop in let* _ := deleteDeviceAgentFromMap id in abandon id).
Proof.
  intros s Hs. pose proof Hs as [(Hm & Hroot & Hwf) Hids].
  unfold sbind at 1, on_agent. destruct (co_deviceAgents s !! id) as [a|] eqn:Ha; [|exact Hs].
  destruct (Hm _ _ Ha) as (Hia & Hp & Hget & Hr). unfold DeviceAgent.stop. simpl. rewrite Hp. simpl.
  pose proof (written_remove (Obj := Device) (da_deviceID a) (co_store s)) as Hw.
  destruct (dp_remove (da_deviceID a) (co_store s)) as [r st] eqn:Hrem. simpl in Hw. rewrite Hia in Hw.
  assert (∀ id', id' ≠ id → dp_get (Obj := Device) id' st = dp_get id' (co_store s)) as Ho.
  { intros id'. by apply (dp_frame _ _ _ _ Hw). }
  assert (dp_get (Obj := Device) id st = Ok None ∨ dp_get (Obj := Device) id st = dp_get id (co_store s)) as Hself.
  { pose proof (dp_remove_get (Obj := Device) (da_deviceID a) (co_store s)) as Hself. by rewrite Hrem Hia in Hself. }
  assert (∀ id' (d : Device), dp_get id' st = Ok (Some d) → dp_get id' (co_store s) = Ok (Some d)) as Hback.
  { intros id' d. destruct (decide (id' = id)) as [->|Hne]; [|by rewrite Ho].
    destruct Hself as [->| ->]; [done|done]. }
  split; [split_and!|]; simpl.
  - intros id' b. destruct (decide (id' = id)) as [->|Hne]; [by rewrite lookup_delete_eq|].
    rewrite lookup_delete_ne // lookup_insert_ne //. intros Hb. destruct (Hm _ _ Hb) as (? & ? & ? & ?).
    unfold agent_managed. simpl. by rewrite Ho // lookup_delete_ne.
  - intros id'. destruct (decide (id' = id)) as [->|Hne]; [rewrite lookup_delete_eq; by intros []|].
    rewrite !lookup_delete_ne // lookup_insert_ne //. apply Hroot.
  - intros id' d Hd. by apply (Hwf id'), Hback.
  - intros id' d Hd. by apply Hids, Hback.
Qed.

(** *** A new device *)

(** The device that is stored for [device], under the identifier [id]. *)
Definition created_device (id : string) (device : Device) : Device :=
  let d := set_Flows [] (set_FlowGroups [] (set_AdminState Admin_PREPROVISIONED (set_Id id device))) in
  match dev_Root device, dev_ProxyAddress device with
  | false, Some pa => set_Vlan (pa_ChannelId pa) d
  | _, _ => d
  end.

Definition new_id s (device : Device) : string :=
  da_deviceID (newDeviceAgent env_random device (co_store s) (co_sent s) (co_defaultTimeout s)).

Lemma created_fields id device :
  dev_Id (created_device id device) = id ∧ dev_Ports (created_device id device) = dev_Ports device ∧
  dev_Flows (created_device id device) = [] ∧ dev_Root (created_device id device) = dev_Root device ∧
  dev_AdminState (created_device id device) = Admin_PREPROVISIONED.
Proof. unfold created_device. by destruct (dev_Root device) eqn:Hr, (dev_ProxyAddress device). Qed.

Lemma start_creates device st' a :
  dp_add (da_deviceID a) (created_device (da_deviceID a) device) (da_store a) = (UpdOk, st') →
  DeviceAgent.start (Some device) (Ok tt) a =
    (Ok (created_device (da_deviceID a) device),
     set_deviceProxy true (set_device (created_device (da_deviceID a) device) (set_store st' a))).
Proof.
  intros Hadd. unfold DeviceAgent.start. rewrite (sbind_run get _ a a a eq_refl).
  unfold sbind, modify, ret, lift. cbv zeta. unfold created_device in *. cbv zeta in *. by rewrite Hadd.
Qed.

(** The data model accepts new devices, and proxies can be created. *)
Definition accepts_devices : Prop :=
  (∀ id d (st : Store), (dp_add (Obj := Device) id d st).1 = UpdOk) ∧ (∀ id, env_createProxy id = Ok tt).

Lemma add_and_start_run device s :
  accepts_devices → co_deviceAgents s !! new_id s device = None →
  let id := new_id s device in let d := created_device id device in
  ∃ s' a, add_and_start device s = (Ok (id, d), s') ∧
    co_deviceAgents s' = <[id := a]> (co_deviceAgents s) ∧ co_rootDevices s' = <[id := dev_Root device]> (co_rootDevices s) ∧
    da_deviceID a = id ∧ da_deviceProxy a = true ∧ da_isRootdevice a = dev_Root device ∧ da_device a = d ∧
    dp_get id (co_store s') = Ok (Some d) ∧
    (∀ x, x ≠ id → dp_get (Obj := Device) x (co_store s') = dp_get x (co_store s)) ∧
    co_tasks s' = co_tasks s.
Proof.
  intros [Hadd Hproxy] Hnone id d. unfold add_and_start. rewrite (sbind_run get _ s s s eq_refl).
  unfold new_id in *. set (agent := newDeviceAgent _ _ _ _ _) in *. cbv zeta. fold id. rewrite Hproxy.
  pose proof (Hadd id d (co_store s)) as Hok. destruct (dp_add id d (co_store s)) as [r st'] eqn:Hst. simpl in Hok. subst r.
  set (s1 := (addDeviceAgentToMap agent s).2).
  assert (co_deviceAgents s1 = <[id := agent]> (co_deviceAgents s)) as Hs1 by (by apply add_agents).
  assert (co_store s1 = co_store s) as Hst1 by apply add_store.
  rewrite (sbind_run (addDeviceAgentToMap agent) _ s tt s1 eq_refl) Hnone.
  assert (on_agent id (DeviceAgent.start (Some device) (Ok tt)) s1 =
    (Ok d, detach (set_deviceProxy true (set_device d (set_store st' (attach s1 agent))))
       (set_deviceAgents (<[id := set_deviceProxy true (set_device d (set_store st' (attach s1 agent)))]>
          (co_deviceAgents s1)) s1))) as Hon.
  { unfold on_agent. rewrite Hs1 lookup_insert_eq.
    rewrite (start_creates device st' (attach s1 agent)); [done|]. simpl. by rewrite Hst1. }
  rewrite (sbind_run _ _ _ _ _ Hon). do 2 eexists. split; [done|]. simpl. split_and!.
  - rewrite Hs1. by rewrite insert_insert_eq.
  - unfold addDeviceAgentToMap, modify. simpl. by rewrite Hnone.
  - done.
  - done.
  - done.
  - done.
  - by eapply dp_add_get.
  - intros x Hx. pose proof (written_add (Obj := Device) id (co_store s) d) as Hw. rewrite Hst in Hw.
    by apply (dp_frame _ _ _ _ Hw).
  - unfold addDeviceAgentToMap, modify. simpl. by rewrite Hnone.
Qed.

Lemma sound_add_and_start device s :
  accepts_devices → sound s → NoDup (DeviceAgent.port_key <$> dev_Ports device) →
  (∀ d, dp_get (Obj := Device) (new_id s device) (co_store s) ≠ Ok (Some d)) → sound (add_and_start device s).2.
Proof.
  intros Hok [(Hm & Hroot & Hwf) Hids] Hports Hfresh.
  assert (co_deviceAgents s !! new_id s device = None) as Hnone.
  { destruct (co_deviceAgents s !! _) as [a|] eqn:Ha; [|done]. destruct (Hm _ _ Ha) as (_ & _ & Hg & _).
    by destruct (Hfresh _ Hg). }
  destruct (add_and_start_run device s Hok Hnone) as (s' & a & -> & Hag & Hrt & Hid & Hp & Hr & Hd & Hget & Ho & _).
  set (id := new_id s device) in *. destruct (created_fields id device) as (Hn & Hps & Hfs & _).
  assert (∀ x d, dp_get x (co_store s') = Ok (Some d) → x = id ∧ d = created_device id device ∨
            x ≠ id ∧ dp_get x (co_store s) = Ok (Some d)) as Hback.
  { intros x d. destruct (decide (x = id)) as [->|Hne]; [left|right; by rewrite -Ho]. split; [done|congruence]. }
  split; [split_and!|]; simpl.
  - intros x b. rewrite Hag. destruct (decide (x = id)) as [->|Hne].
    + rewrite lookup_insert_eq. intros [= <-]. unfold agent_managed. rewrite Hrt lookup_insert_eq Hd Hr. by split_and!.
    + rewrite lookup_insert_ne //. intros Hb. destruct (Hm _ _ Hb) as (? & ? & ? & ?). unfold agent_managed.
      by rewrite Hrt lookup_insert_ne // Ho.
  - intros x. rewrite Hag Hrt. destruct (decide (x = id)) as [->|Hne]; [by rewrite !lookup_insert_eq|].
    rewrite !lookup_insert_ne //. apply Hroot.
  - intros x d [[-> ->]|[_ Hg]]%Hback; [|by eapply Hwf]. split; [by rewrite Hps|rewrite Hfs; constructor].
  - intros x d [[-> ->]|[_ Hg]]%Hback; [done|by apply Hids].
Qed.

(** *** The requests *)

Context (fuel : nat) (others : @LogicalState Store → @LogicalState Store) (tie : nat → bool).

(** The requests on the two managers, the goroutines they leave behind, and the
    callback of the data model. *)
Inductive core_op :=
  | DmCreateDevice (device : Device) | DmListDevices | DmGetDevice (id : string)
  | DmEnableDevice (id : string) | DmDisableDevice (id : string) | DmRebootDevice (id : string)
  | DmDeleteDevice (id : string) | DmAdapterData (device : Device) | DmDeletePeerPorts (from id : string)
  | DmAddFlows (id : string) (fs : list OfpFlowStats) (gs : list OfpGroupEntry) (md : option FlowMetadata)
  | DmDeleteFlows (id : string) (fs : list OfpFlowStats) (gs : list OfpGroupEntry) (md : option FlowMetadata)
  | DmUpdateFlows (id : string) (fs : list OfpFlowStats) (gs : list OfpGroupEntry) (md : option FlowMetadata)
  | DmUpdatePmConfigs (pm : PmConfigs) | DmDeviceStatus (id : string) (o : OperStatus) (c : ConnectStatus)
  | DmPacketOut (id : string) (port : Z) (packet : OfpPacketOut) | DmReason (id reason : string)
  | DmEnablePort (port : Port) | DmDisablePort (port : Port) | DmSetAdminStateToEnable (device : Device)
  | DmSimulateAlarm (id : string) (req : Opaque)
  | DmAttribute (id name : string) (value : option AttrValue)
  | DmDownloadImage (img : ImageDownload) | DmCancelImage (img : ImageDownload)
  | DmActivateImage (img : ImageDownload) | DmRevertImage (img : ImageDownload)
  | DmUpdateImage (id : string) (img : ImageDownload)
  | DmAddPort (id : string) (port : Port) | DmPortState (id : string) (t : PortType) (no : Z) (o : OperStatus)
  | DmDeleteAllPorts (id : string) | DmPortsState (id : string) (state : OperStatus)
  | DmPacketIn (id : string) (port : Z) (tid : string) (packet : list Z)
  | DmGetChildDevice (pid serial : string) (onu port : Z) | DmGetAllChildDevices (pid : string)
  | DmChildrenStatus (id : string) (o : OperStatus) (c : ConnectStatus)
  | DmChildDevicesLost (id : string) | DmChildDevicesDetected (raced : option (option GoError)) (id : string)
  | DmChildDetected (pid : string) (port : Z) (type : string) (channel : Z) (vendor serial : string) (onu : Z)
  | DmReconcileDevices (ids : list string) | DmAdapterRestarted (roots : list string) (adapter : string)
  | DmReconcileChildren (id : string) | DmStopManaging (id : string)
  | DmTransition (previous current : Device) | DmProcessUpdate (previous current : Device)
  | DmRunTask (i : nat)
  | LdGetLogicalDevice (id : string) | LdFlowTable (id : string) (flow : option OfpFlowMod)
  | LdMeterTable (id : string) (meter : option OfpMeterMod) | LdGroupTable (id : string) (group : option OfpGroupMod)
  | LdEnablePort (id : LogicalPortId) | LdDisablePort (id : LogicalPortId) | LdDeletePort (device : Device)
  | DmListDeviceIds | DmGetPorts (id : string) (t : PortType) | DmListPmConfigs (id : string)
  | DmImageStatus (img : ImageDownload) | DmGetImage (img : ImageDownload) | DmListImages (id : string)
  | LdListManaged | LdListLogical | LdListFlows (id : string) | LdListGroups (id : string)
  | LdListPorts (id : string) | LdListMeters (id : string) | LdGetPort (id : LogicalPortId)
  | LdPacketOut (id : string) (packet : OfpPacketOut).

Definition ignore {A} (m : M Core A) : M Core unit := let* _ := m in ret tt.

Definition run_core_op (op : core_op) : M Core unit :=
  match op with
  | DmCreateDevice device => ignore (createDevice device)
  | DmListDevices => ignore ListDevices
  | DmGetDevice id => ignore (GetDevice fuel id)
  | DmEnableDevice id => enableDevice fuel id
  | DmDisableDevice id => disableDevice fuel id
  | DmRebootDevice id => rebootDevice fuel id
  | DmDeleteDevice id => deleteDevice fuel id
  | DmAdapterData device => updateDeviceUsingAdapterData fuel device
  | DmDeletePeerPorts from id => deletePeerPorts fuel from id
  | DmAddFlows id fs gs md => addFlowsAndGroups fuel tie id fs gs md
  | DmDeleteFlows id fs gs md => deleteFlowsAndGroups fuel tie id fs gs md
  | DmUpdateFlows id fs gs md => updateFlowsAndGroups fuel tie id fs gs md
  | DmUpdatePmConfigs pm => updatePmConfigs fuel pm
  | DmDeviceStatus id o c => updateDeviceStatus fuel id o c
  | DmPacketOut id port packet => packetOut fuel id port packet
  | DmReason id reason => updateDeviceReason fuel id reason
  | DmEnablePort port => enablePort fuel port
  | DmDisablePort port => disablePort fuel port
  | DmSetAdminStateToEnable device => SetAdminStateToEnable fuel device
  | DmSimulateAlarm id req => simulateAlarm fuel id req
  | DmAttribute id name value => UpdateDeviceAttribute id name value
  | DmDownloadImage img => downloadImage fuel img
  | DmCancelImage img => cancelImageDownload fuel img
  | DmActivateImage img => activateImage fuel img
  | DmRevertImage img => revertImage fuel img
  | DmUpdateImage id img => updateImageDownload fuel id img
  | DmAddPort id port => addPort fuel id port
  | DmPortState id t no o => updatePortState fuel id t no o
  | DmDeleteAllPorts id => deleteAllPorts fuel id
  | DmPortsState id state => updatePortsState fuel id state
  | DmPacketIn id port tid packet => PacketIn fuel id port tid packet
  | DmGetChildDevice pid serial onu port => ignore (GetChildDevice fuel pid serial onu port)
  | DmGetAllChildDevices pid => ignore (getAllChildDevices fuel pid)
  | DmChildrenStatus id o c => updateChildrenStatus fuel id o c
  | DmChildDevicesLost id => childDevicesLost fuel id
  | DmChildDevicesDetected raced id => childDevicesDetected fuel raced id
  | DmChildDetected pid port type channel vendor serial onu =>
      ignore (childDeviceDetected fuel pid port type channel vendor serial onu)
  | DmReconcileDevices ids => ReconcileDevices fuel ids
  | DmAdapterRestarted roots adapter => adapterRestarted tie roots adapter
  | DmReconcileChildren id => reconcileChildDevices tie id
  | DmStopManaging id => stopManagingDevice fuel id
  | DmTransition previous current => processTransition fuel others previous current
  | DmProcessUpdate previous current => processUpdate previous current
  | DmRunTask i => run_task_at fuel others i
  | LdGetLogicalDevice id => ignore (getLogicalDevice id)
  | LdFlowTable id flow => ldm_updateFlowTable id flow
  | LdMeterTable id meter => ldm_updateMeterTable id meter
  | LdGroupTable id group => ldm_updateGroupTable id group
  | LdEnablePort id => ldm_enableLogicalPort id
  | LdDisablePort id => ldm_disableLogicalPort id
  | LdDeletePort device => DeleteLogicalPort fuel device
  | DmListDeviceIds => ignore ListDeviceIds
  | DmGetPorts id t => ignore (getPorts fuel id t)
  | DmListPmConfigs id => ignore (listPmConfigs fuel id)
  | DmImageStatus img => ignore (getImageDownloadStatus fuel img)
  | DmGetImage img => ignore (getImageDownload fuel img)
  | DmListImages id => ignore (listImageDownloads fuel id)
  | LdListManaged => ignore listManagedLogicalDevices
  | LdListLogical => ignore listLogicalDevices
  | LdListFlows id => ignore (ldm_ListFlows id)
  | LdListGroups id => ignore (ldm_ListFlowGroups id)
  | LdListPorts id => ignore (ldm_ListPorts id)
  | LdListMeters id => ignore (ldm_ListMeters id)
  | LdGetPort id => ignore (getLogicalPort id)
  | LdPacketOut id packet => if_logical id (LogicalPorts.packetOut packet)
  end.

(** What a request must bring along: new identifiers are new, the flows of a
    request have distinct keys, the ports of a new device distinct numbers, and
    devices are never renamed. *)
Definition core_op_ok (op : core_op) s : Prop :=
  match op with
  | DmCreateDevice device =>
      NoDup (DeviceAgent.port_key <$> dev_Ports device) ∧
      ∀ d, dp_get (Obj := Device) (new_id s device) (co_store s) ≠ Ok (Some d)
  | DmChildDetected _ _ _ _ _ _ _ =>
      ∀ d, dp_get (Obj := Device) (Ids.CreateDeviceID env_random) (co_store s) ≠ Ok (Some d)
  | DmListDevices => ∀ l, dl_list (co_store s) = Ok (Some l) → ∀ d : Device, d ∈ l → dev_Id d ≠ EmptyString
  | DmAddFlows _ fs _ _ | DmUpdateFlows _ fs _ _ => NoDup (flow_key <$> fs)
  | DmAttribute _ name _ => name ≠ "Id"
  | _ => True
  end.

(** *** Every request keeps the managers sound *)

Hypothesis others_frame : ∀ f (l : @LogicalState Store), logical_frame f l → logical_frame f (others l).
Hypothesis accepts : accepts_devices.

Lemma well_attribute name v : name ≠ "Id" → well_behaved (updateDeviceAttribute name v).
Proof. intros Hne. exact (well_run_op (op_updateDeviceAttribute name v) I Hne). Qed.

Ltac pure_tac :=
  let a := fresh "a" in intros a;
  unfold DeviceAgent.listPmConfigs, DeviceAgent.getImageDownload, DeviceAgent.listImageDownloads,
    getDeviceWithoutLock, ListLogicalDeviceFlows, ListLogicalDeviceFlowGroups, ListLogicalDevicePorts,
    ListLogicalDeviceMeters, getLogicalDeviceWithoutLock, sbind, gets, get, lift, ret, fail;
  repeat (case_match; simplify_eq/=); done.

Ltac well_tac :=
  first
    [ exact (well_run_op op_enableDevice I I) | exact (well_run_op op_disableDevice I I)
    | exact (well_run_op op_rebootDevice I I) | exact (well_run_op op_deleteDevice I I)
    | exact (well_run_op (op_updateAdminState _) I I) | exact (well_run_op (op_setParentID _) I I)
    | exact (well_run_op (op_updatePmConfigs _) I I) | exact (well_run_op (op_downloadImage _) I I)
    | exact (well_run_op (op_cancelImageDownload _) I I) | exact (well_run_op (op_activateImage _) I I)
    | exact (well_run_op (op_revertImage _) I I) | exact (well_run_op (op_updateImageDownload _) I I)
    | exact (well_run_op (op_deleteFlows _ _ _ _) I I)
    | refine (well_run_op (op_addFlows _ _ _ _) _ I); assumption
    | refine (well_run_op (op_updateFlows _ _ _ _) _ I); assumption
    | exact (well_run_op (op_updatePortsOperState _) I I) | exact (well_run_op (DeviceAgent.op_updatePortState _ _ _) I I)
    | exact (well_run_op op_deleteAllPorts I I) | exact (well_run_op (op_addPort _) I I)
    | exact (well_run_op (op_addPeerPort _) I I) | exact (well_run_op (op_deletePeerPorts _) I I)
    | exact (well_run_op (op_disablePort _) I I) | exact (well_run_op (op_enablePort _) I I)
    | exact (well_run_op (op_updateDeviceUsingAdapterData _) I I)
    | exact (well_run_op (op_updateDeviceStatus _ _) I I) | exact (well_run_op (op_updateDeviceReason _) I I)
    | exact (well_run_op (op_simulateAlarm _) I I) | exact (well_run_op (DeviceAgent.op_packetOut _ _) I I)
    | exact (well_run_op (op_ChildDeviceLost _) I I)
    | apply well_attribute; first [assumption | discriminate]
    | apply well_read | apply well_pure; pure_tac ].

Ltac logical_tac :=
  let f := fresh "f" in intros f; pose proof (others_frame f) as Hothers;
  first
    [ exact (frame_run_op f others Hothers (op_updateLogicalPort _ _))
    | exact (frame_run_op f others Hothers (LogicalPorts.op_updatePortState _ _ _))
    | exact (frame_run_op f others Hothers (op_updatePortsState _ _))
    | exact (frame_run_op f others Hothers (op_deleteAllLogicalPorts _))
    | exact (frame_run_op f others Hothers (op_deleteLogicalPorts _))
    | exact (frame_run_op f others Hothers (op_enableLogicalPort _))
    | exact (frame_run_op f others Hothers (op_disableLogicalPort _))
    | exact (frame_run_op f others Hothers (op_packetIn _ _ _))
    | exact (frame_run_op f others Hothers (op_table (FlowTableMod _)))
    | exact (frame_run_op f others Hothers (op_table (MeterTableMod _)))
    | exact (frame_run_op f others Hothers (op_table (GroupTableMod _)))
    | exact (frame_run_op f others Hothers (LogicalPorts.op_packetOut _))
    | apply frame_start | apply frame_stop | by apply frame_setupUNI | apply preserves_gets
    | apply preserves_pure; pure_tac
    | (* the error of a deletion is dropped *)
      apply preserves_bind; [apply preserves_attempt; exact (frame_run_op f others Hothers (op_deleteLogicalPort _))
                            | intros ?; apply preserves_ret] ].

(** Splits an operation of a manager into its calls. *)
Ltac sound_step :=
  first
    [ apply sound_with_agent; well_tac | apply sound_on_agent; well_tac
    | apply sound_if_logical; logical_tac | apply sound_with_logical; logical_tac | apply sound_logical; logical_tac
    | preserves_step | progress cbv zeta ].
Ltac sound_tac := repeat sound_step.

Lemma sound_getParentDevice d : preserves sound (getParentDevice fuel d).
Proof. unfold getParentDevice. sound_tac. Qed.
Lemma sound_GetParentDeviceID id : preserves sound (GetParentDeviceID fuel id).
Proof. unfold GetParentDeviceID. sound_tac. Qed.
#[local] Hint Resolve sound_getParentDevice sound_GetParentDeviceID : preserves.

Lemma sound_getLogicalDeviceID d : preserves sound (getLogicalDeviceID fuel d).
Proof. unfold getLogicalDeviceID. sound_tac. Qed.
#[local] Hint Resolve sound_getLogicalDeviceID : preserves.

Lemma sound_getLogicalDeviceIDFromDeviceID id : preserves sound (getLogicalDeviceIDFromDeviceID fuel id).
Proof. unfold getLogicalDeviceIDFromDeviceID. sound_tac. Qed.
#[local] Hint Resolve sound_getLogicalDeviceIDFromDeviceID : preserves.

Lemma sound_find_port p id e : preserves sound (find_port p id e).
Proof. unfold find_port, getLogicalDevice. sound_tac. Qed.
#[local] Hint Resolve sound_find_port : preserves.

Lemma sound_createLogicalDevice d : preserves sound (createLogicalDevice fuel d).
Proof.
  unfold createLogicalDevice, setParentID, addLogicalDeviceAgentToMap. sound_tac.
  apply sound_modify. intros s. by destruct (co_logicalAgents s !! _); split_and!.
Qed.

Lemma sound_stop_agents_of root ldID agents : preserves sound (stop_agents_of root ldID agents).
Proof.
  revert ldID. induction agents as [|[key a] agents IH]; intros ldID; cbn [stop_agents_of]; [apply preserves_ret|].
  repeat first [apply IH | sound_step].
Qed.

Lemma sound_deleteLogicalDevice d : preserves sound (deleteLogicalDevice d).
Proof.
  unfold deleteLogicalDevice. sound_tac.
Qed.

Lemma sound_stopManagingDevice id : preserves sound (stopManagingDevice fuel id).
Proof.
  unfold stopManagingDevice, stopManagingLogicalDeviceWithDeviceID, IsRootDevice.
  repeat first [apply sound_stop | apply sound_stop_agents_of | sound_step].
Qed.
#[local] Hint Resolve sound_createLogicalDevice sound_deleteLogicalDevice sound_stopManagingDevice : preserves.

Lemma sound_ask_children m ok err ids : well_behaved m → preserves sound (ask_children fuel m ok err ids).
Proof.
  intros Hm. revert ok err. induction ids as [|id ids IH]; intros ok err; cbn [ask_children];
    repeat first [apply IH | by apply sound_on_agent | sound_step].
Qed.

Lemma sound_run_handler h d : preserves sound (run_handler fuel others h d).
Proof.
  destruct h; cbn [run_handler];
    unfold CreateLogicalDevice, SetupUNILogicalPorts, ldm_setupUNILogicalPorts, RunPostDeviceDelete,
      DisableAllChildDevices, DeleteAllChildDevices, DeleteLogicalDevice, UpdateDeviceAttribute, ChildDeviceLost,
      DeleteLogicalPorts, ldm_deleteLogicalPorts, NotifyInvalidTransition;
    repeat first [apply sound_ask_children; well_tac | sound_step].
Qed.
#[local] Hint Resolve sound_run_handler : preserves.

Lemma sound_processTransition p c : preserves sound (processTransition fuel others p c).
Proof. unfold processTransition. sound_tac. Qed.
#[local] Hint Resolve sound_processTransition : preserves.

Lemma sound_start_logical id root mapped : preserves sound (start_logical id root mapped).
Proof.
  unfold start_logical. sound_tac. all: apply sound_snap; intros f; apply snap_same; intros s0.
  all: apply same_on_new_logical; intros g; apply frame_start.
Qed.
#[local] Hint Resolve sound_start_logical : preserves.

Lemma sound_run_core_task t : preserves sound (run_core_task fuel others t).
Proof.
  destruct t; unfold run_core_task, ldm_updateLogicalPort, ldm_updatePortState, ldm_deleteAllLogicalPorts,
    enable_if_mapped; sound_tac.
Qed.
#[local] Hint Resolve sound_run_core_task : preserves.

Lemma sound_run_task_at i : preserves sound (run_task_at fuel others i).
Proof. unfold run_task_at. sound_tac. Qed.

(** Requests to the adapter change no device. *)
Lemma sound_reconcile_request d : preserves sound (sendReconcileDeviceRequest d).
Proof. intros s Hs. exact Hs. Qed.
Lemma sound_in_model id : preserves sound (device_in_model id).
Proof.
  intros s Hs. unfold device_in_model, sbind, attempt, getDeviceFromModel.
  by destruct (dp_get id (co_store s)) as [[d|]|e|].
Qed.
#[local] Hint Resolve sound_reconcile_request sound_in_model : preserves.

Lemma sound_reconcile_children_of adapter ids : preserves sound (reconcile_children_of adapter ids).
Proof. induction ids as [|id ids IH]; cbn [reconcile_children_of]; repeat first [apply IH | sound_step]. Qed.
Lemma sound_reconcile_roots adapter ids : preserves sound (reconcile_roots adapter ids).
Proof.
  induction ids as [|id ids IH]; cbn [reconcile_roots];
    repeat first [apply IH | apply sound_reconcile_children_of | sound_step].
Qed.
Lemma sound_reconcile_each ids : preserves sound (reconcile_each ids).
Proof. induction ids as [|id ids IH]; cbn [reconcile_each]; repeat first [apply IH | sound_step]. Qed.
Lemma sound_reconcile_all n ids : preserves sound (reconcile_all fuel n ids).
Proof. revert n. induction ids as [|id ids IH]; intros n; cbn [reconcile_all]; repeat first [apply IH | sound_step]. Qed.

Lemma sound_enable_children raced started err ids : preserves sound (enable_children fuel raced started err ids).
Proof.
  revert started err. induction ids as [|id ids IH]; intros started err; cbn [enable_children];
    repeat first [apply IH | sound_step].
Qed.

Lemma sound_getAllChildDevices id : preserves sound (getAllChildDevices fuel id).
Proof.
  unfold getAllChildDevices. sound_tac.
  generalize (getAllChildDeviceIds d). intros ids. induction ids as [|x ids IH]; cbn [foldr];
    repeat first [apply IH | sound_step].
Qed.

Lemma sound_start_or_stop d s :
  sound s → dev_Id d ≠ EmptyString → co_deviceAgents s !! dev_Id d = None → sound (start_or_stop d s).2.
Proof.
  intros [Hm Hids] Hne Hnone. pose proof (start_or_stop_run d s) as Hrun.
  destruct (start_or_stop d s) as [[[]|e|] s']; simpl; [|done|by subst].
  destruct Hrun as (a & -> & Hid & _ & Hp & Hget).
  assert (da_deviceID a = dev_Id d) as Hida by (rewrite Hid; simpl; by rewrite decide_False).
  rewrite -Hida in Hnone. split; [by apply managed_add|]. by rewrite add_store.
Qed.

Lemma sound_list_devices ds s :
  Forall (λ d : Device, dev_Id d ≠ EmptyString) ds → sound s → sound (list_devices ds s).2.
Proof.
  intros Hds. revert s. induction Hds as [|d ds Hd _ IH]; intros s Hs; [exact Hs|].
  unfold list_devices. cbn [for_each]. unfold sbind at 1 2.
  destruct (co_deviceAgents s !! dev_Id d) as [a|] eqn:Ha.
  - rewrite (cached_yes _ _ _ Ha). by apply IH.
  - rewrite (cached_no _ _ Ha). pose proof (sound_start_or_stop d s Hs Hd Ha) as Hs'.
    destruct (start_or_stop d s) as [[[]|e|] s']; [by apply IH|done|done].
Qed.

Lemma sound_ListDevices s : core_op_ok DmListDevices s → sound s → sound (ListDevices s).2.
Proof.
  intros Hok Hs. unfold ListDevices. rewrite (sbind_run get _ s s s eq_refl). unfold sbind at 1, lift.
  simpl in Hok. destruct (dl_list (co_store s)) as [l|e|] eqn:Hl; [|done..].
  assert (sound (list_devices (default [] l) s).2) as Hs'.
  { apply sound_list_devices; [|done]. apply Forall_forall. intros d Hd. destruct l as [l|]; [exact (Hok l eq_refl d Hd)|].
    by apply not_elem_of_nil in Hd. }
  unfold sbind. by destruct (list_devices _ s) as [[[]|e|] s'].
Qed.

(** Up to the creation of a child nothing but the agents changes. *)
Lemma sound_after_snap {A B} f (m : M Core A) (k : A → M Core B) s :
  preserves (snap f) m → snap f s → (∀ x s', snap f s' → sound (k x s').2) → sound (sbind m k s).2.
Proof.
  intros Hm Hs Hk. specialize (Hm s Hs). unfold sbind.
  destruct (m s) as [[x|e|] s']; [by apply Hk|apply Hm|apply Hm].
Qed.

Lemma sound_createDevice d s : core_op_ok (DmCreateDevice d) s → sound s → sound (createDevice d s).2.
Proof.
  intros [Hports Hfresh] Hs. unfold createDevice, isParentDeviceExist, sbind, get, lift, ret, fail. cbv beta iota.
  destruct (dl_list (co_store s)) as [l|e|]; [|exact Hs..]. cbv beta iota.
  destruct (existsb _ _); [exact Hs|].
  pose proof (sound_add_and_start (set_Root true d) s accepts Hs Hports Hfresh) as Hs'.
  by destruct (add_and_start (set_Root true d) s) as [[r|e|] s'].
Qed.

Lemma sound_childDeviceDetected pid port ty channel vendor serial onu s :
  core_op_ok (DmChildDetected pid port ty channel vendor serial onu) s → sound s →
  sound (childDeviceDetected fuel pid port ty channel vendor serial onu s).2.
Proof.
  intros Hfresh Hs. set (f := λ id, dp_get (Obj := Device) id (co_store s)).
  assert (snap f s) as Hsnap by (split; [done|by intros id]).
  unfold childDeviceDetected. rewrite (sbind_run get _ s s s eq_refl).
  eapply (sound_after_snap f); [|exact Hsnap|].
  { preserves_tac. }
  intros ty' s1 Hs1. case_decide; [apply Hs1|].
  eapply (sound_after_snap f); [apply preserves_attempt, snap_GetDevice|exact Hs1|].
  intros [parentDevice|e2] s2 Hs2; [|apply Hs2].
  eapply (sound_after_snap f); [apply preserves_attempt, snap_GetChildDevice|exact Hs2|].
  intros [existing|e3] s3 Hs3; [apply Hs3|]. cbv zeta.
  set (c := child_device _ _ _ _ _ _). destruct Hs3 as [Hs3 Hf].
  pose proof (sound_add_and_start c s3 accepts Hs3 (NoDup_nil_2 : NoDup (DeviceAgent.port_key <$> dev_Ports c))) as Hadd.
  assert (sound (add_and_start c s3).2) as Hs4.
  { apply Hadd. intros d. rewrite Hf. exact (Hfresh d). }
  unfold sbind at 1. destruct (add_and_start c s3) as [[[id d]|e|] s4]; [|exact Hs4..].
  cbv beta iota. simpl in Hs4. clear Hadd. revert s4 Hs4.
  change (preserves sound (let* _ := go_task (TaskOwnedByMe id) in
    let* found := getDeviceAgent fuel id in
    let* _ := if (found : bool) then go_task (TaskEnableDevice id) else panic in
    let* _ := go_task (TaskDeviceDiscovered id ty' pid) in ret (d, false))).
  sound_tac.
Qed.

Definition adds_devices (op : core_op) : bool :=
  match op with DmCreateDevice _ | DmListDevices | DmChildDetected _ _ _ _ _ _ _ => true | _ => false end.

Lemma sound_plain_op op s : adds_devices op = false → core_op_ok op s → preserves sound (run_core_op op).
Proof.
  intros Hplain Hok. destruct op; try done; cbn [run_core_op core_op_ok] in *; unfold ignore;
    try (apply preserves_bind; [|intros ?; apply preserves_ret]);
    try first [apply sound_run_task_at | apply sound_getAllChildDevices | apply sound_stopManagingDevice];
    try (apply sound_snap; intros f; apply snap_GetChildDevice).
  all: lazymatch goal with |- preserves _ ?m => let h := head_of m in unfold h end.
  all: unfold ldm_updatePortsState, ldm_packetIn, ldm_deleteLogicalPort, getLogicalPortID, getLogicalPort,
         DisableAllChildDevices, await_all.
  all: repeat first [apply sound_ask_children; well_tac | apply sound_enable_children | apply sound_reconcile_all
                    | apply sound_reconcile_roots | apply sound_reconcile_each
                    | apply preserves_snap; intros f; apply snap_aborted, snap_GetDevice | sound_step].
Qed.

Lemma sound_run_core_op op s : core_op_ok op s → sound s → sound (run_core_op op s).2.
Proof.
  intros Hok Hs. destruct (adds_devices op) eqn:Hadd; [|by eapply sound_plain_op].
  assert (∀ A (m : M Core A), sound (m s).2 → sound (ignore m s).2) as Hig.
  { intros A m Hm. unfold ignore, sbind. by destruct (m s) as [[x|e|] s']. }
  destruct op; try done; apply Hig;
    first [by apply sound_createDevice | by apply sound_ListDevices | by eapply sound_childDeviceDetected].
Qed.

(** One request after the other. *)
Inductive core_step s : Core → Prop :=
  | core_request op : core_op_ok op s → core_step s (run_core_op op s).2.

Lemma sound_reachable s s' : rtc core_step s s' → sound s → sound s'.
Proof.
  induction 1 as [|s1 s2 s3 Hstep _ IH]; [done|]. intros Hs. apply IH. destruct Hstep. by apply sound_run_core_op.
Qed.

Lemma GetDevice_stored id d s s' :
  sound s → GetDevice fuel id s = (Ok d, s') → dp_get id (co_store s) = Ok (Some d).
Proof.
  intros Hs. set (f := λ x, dp_get (Obj := Device) x (co_store s)).
  assert (snap f s) as Hsnap by (split; [done|by intros x]).
  unfold GetDevice, with_agent. pose proof (snap_getDeviceAgent f fuel id s Hsnap) as Hs1. unfold sbind.
  destruct (getDeviceAgent fuel id s) as [[[]|e|] s1]; [|done..]. simpl in Hs1.
  unfold on_agent. destruct (co_deviceAgents s1 !! id) as [a|] eqn:Ha; [|done]. simpl. intros [= <- _].
  destruct Hs1 as [[(Hm & _) _] Hf]. destruct (Hm _ _ Ha) as (_ & _ & Hget & _).
  rewrite -Hget. symmetry. exact (Hf id).
Qed.

Lemma sound_newManagers (store : Store) (timeout : Z) :
  (∀ x d, dp_get x store = Ok (Some d) → device_wf d ∧ dev_Id d = x) → sound (newManagers store timeout).
Proof.
  intros Hstore. split; [split_and!|]; simpl.
  - by intros ? ?.
  - by intros ? [].
  - intros x d Hd. by apply Hstore in Hd as [? _].
  - intros x d Hd. by apply Hstore in Hd as [_ ?].
Qed.

Lemma sound_agents s id :
  sound s →
  match co_deviceAgents s !! id with
  | Some a => da_deviceID a = id ∧ da_deviceProxy a = true ∧ co_rootDevices s !! id = Some (da_isRootdevice a) ∧
      dp_get id (co_store s) = Ok (Some (da_device a)) ∧ device_wf (da_device a) ∧ dev_Id (da_device a) = id
  | None => co_rootDevices s !! id = None
  end.
Proof.
  intros [(Hm & Hroot & Hwf) Hids]. destruct (co_deviceAgents s !! id) as [a|] eqn:Ha.
  - destruct (Hm _ _ Ha) as (? & ? & Hget & ?). split_and!; [done..|by eapply Hwf|by apply Hids].
  - destruct (co_rootDevices s !! id) as [b|] eqn:Hb; [|done].
    destruct (Hroot id (ex_intro _ b Hb)) as [a Ha']. congruence.
Qed.

End CoreInvariant.

(** ** Witness *)

#[local] Existing Instances sample_devices sample_logical_devices sample_list sample_logical_list sample_apart
  two_left_laws two_left_frame sample_env canonical_range sample_adapter sample_adapter_mgr sample_text
  sample_manager sample_calls.
#[local] Instance sample_type_list : DataList DeviceType SampleStore := {| dl_list _ := Ok None |}.
#[local] Instance sample_queries : AdapterQueries :=
  {| aq_GetOfpDeviceInfo _ := Ok (mkSwitchCapability "" ""); aq_GetOfpPortInfo _ _ := Ok None;
     aq_GetImageDownloadStatus _ img := Ok img |}.

Definition sample_request_op : core_op := DmChildDevicesLost "olt".
Definition sample_after : Core := (run_core_op 2 (λ l, l) (λ _, true) sample_request_op sample_managers_state).2.

Lemma sample_accepts : accepts_devices (Store := SampleStore).
Proof. by split. Qed.

