(* ===== verification/DeviceMgrFacts.v ===== *)
(** * What the device manager does

    The creation of devices, the deletion of devices, and the requests to the
    children of a device, on every branch. *)

From S2P Require Import Prelude OpenFlow VolthaTypes FlowUtils Routes Decomposer CoreUtils DataProxy Transitions.
From S2P Require Import DeviceAgent LogicalAgent LogicalTables LogicalPorts Managers Loading LogicalMgr DeviceMgr CoreInvariant.

Section Facts.
Context {Store : Type} `{DataProxy Device Store, DataProxy LogicalDevice Store, DataList Device Store,
  DataList LogicalDevice Store, DataList DeviceType Store, Adapter, AdapterMgrView, AdapterQueries, ProtoText,
  GoRange, DeviceManagerView, DeviceManagerCalls, CoreEnv}.
Notation Core := (Core (Store := Store)).
Notation DeviceAgent := (@AgentState Store).
Implicit Types (s : Core) (a : DeviceAgent).
Context (fuel : nat).

(** ** Devices in memory *)

Lemma getDeviceAgent_cached id a s :
  co_deviceAgents s !! id = Some a → getDeviceAgent fuel id s = (Ok true, s).
Proof. intros Ha. unfold getDeviceAgent. by rewrite (sbind_run _ _ _ _ _ (cached_yes _ _ _ Ha)). Qed.

Lemma with_agent_cached {A} id a (m : M DeviceAgent A) s :
  co_deviceAgents s !! id = Some a → with_agent fuel id m s = on_agent id m s.
Proof. intros Ha. unfold with_agent. by rewrite (sbind_run _ _ _ _ _ (getDeviceAgent_cached _ _ _ Ha)). Qed.

Lemma on_agent_run {A} id a (m : M DeviceAgent A) s :
  co_deviceAgents s !! id = Some a →
  on_agent id m s =
    ((m (attach s a)).1, detach (m (attach s a)).2
       (set_deviceAgents (<[id := (m (attach s a)).2]> (co_deviceAgents s)) s)).
Proof. intros Ha. unfold on_agent. rewrite Ha. by destruct (m (attach s a)). Qed.

(** ** Creating a device *)

(** An active or pre-provisioned root device has the same address. *)
Definition duplicate_of (device : Device) (stored : list Device) : Prop :=
  ∃ d, d ∈ stored ∧ dev_Root d = true ∧
    (GetHostAndPort device ≠ EmptyString ∧ GetHostAndPort device = GetHostAndPort d ∨
     dev_MacAddress device ≠ EmptyString ∧ dev_MacAddress device = dev_MacAddress d).

Lemma duplicate_spec device stored : existsb (is_same_parent device) stored = true ↔ duplicate_of device stored.
Proof.
  rewrite existsb_exists. unfold duplicate_of, is_same_parent. split.
  - intros (d & Hd & [Hr Hs]%andb_true_iff). exists d. split_and!; [by apply list_elem_of_In|done|].
    apply orb_true_iff in Hs as [Hs|Hs]; apply bool_decide_eq_true in Hs; auto.
  - intros (d & Hd & Hr & Hs). exists d. split; [by apply list_elem_of_In|]. rewrite Hr. simpl.
    apply orb_true_iff. destruct Hs; [left|right]; by apply bool_decide_eq_true.
Qed.

(** ** Creations that fail *)

Lemma start_refused device st' e proxy a :
  dp_add (da_deviceID a) (created_device (da_deviceID a) device) (da_store a) = (UpdErr e, st') →
  DeviceAgent.start (Some device) proxy a = (Err e, set_store st' a).
Proof.
  intros Hadd. unfold DeviceAgent.start. rewrite (sbind_run get _ a a a eq_refl).
  unfold sbind, modify, ret, lift, fail. cbv zeta. unfold created_device in *. cbv zeta in *. by rewrite Hadd.
Qed.

Lemma stop_agents_none root ldID agents s :
  (∀ k l, (k, l) ∈ agents → lda_rootDeviceID l ≠ root) → stop_agents_of root ldID agents s = (Ok ldID, s).
Proof.
  induction agents as [|[k l] agents IH]; intros Hno; [done|]. cbn [stop_agents_of].
  rewrite decide_False; [|by apply (Hno k); set_solver]. apply IH. intros k' l' Hin. apply (Hno k'). set_solver.
Qed.

(** a device that could not be created stays.  When the data model refuses
    the new device, the caller gets the error, but the agent is in memory: the
    device is answered as if it existed, and the first attempt to remove it
    crashes the core. *)
Theorem failed_creation_leaves_ghost device stored e st' s :
  dl_list (co_store s) = Ok stored → ¬ duplicate_of device (default [] stored) →
  let id := new_id s device in
  co_deviceAgents s !! id = None →
  dp_add id (created_device id (set_Root true device)) (co_store s) = (UpdErr e, st') →
  (∀ ldID l, co_logicalAgents s !! ldID = Some l → lda_rootDeviceID l ≠ id) →
  ∃ s', createDevice device s = (Err e, s') ∧
    (GetDevice fuel id s').1 = Ok (set_Root true device) ∧ (stopManagingDevice fuel id s').1 = Panic.
Proof.
  intros Hlist Hno id Hnone Hadd Hld. set (d := set_Root true device).
  set (agent := newDeviceAgent env_random d (co_store s) (co_sent s) (co_defaultTimeout s)).
  assert (da_deviceID agent = id) as Hid by done.
  set (s1 := (addDeviceAgentToMap agent s).2).
  assert (co_deviceAgents s1 = <[id := agent]> (co_deviceAgents s)) as Hs1 by (by apply add_agents).
  assert (co_store s1 = co_store s) as Hst1 by apply add_store.
  set (a' := set_store st' (attach s1 agent)).
  set (s' := detach a' (set_deviceAgents (<[id := a']> (co_deviceAgents s1)) s1)).
  assert (createDevice device s = (Err e, s')) as Hrun.
  { unfold createDevice, isParentDeviceExist. unfold sbind at 1 2 3, get, lift, ret, fail. cbv beta iota.
    rewrite Hlist. cbv beta iota. destruct (existsb _ _) eqn:Hex; [by apply duplicate_spec in Hex|].
    unfold add_and_start. erewrite sbind_err; [done|]. rewrite (sbind_run get _ s s s eq_refl). fold d. fold agent.
    cbv zeta. rewrite Hid. rewrite (sbind_run (addDeviceAgentToMap agent) _ s tt s1 eq_refl) Hnone.
    erewrite sbind_err; [done|]. rewrite (on_agent_run id agent); [|by rewrite Hs1 lookup_insert_eq].
    rewrite (start_refused d st' e); [done|]. simpl. by rewrite Hst1. }
  exists s'. split; [exact Hrun|].
  assert (co_deviceAgents s' !! id = Some a') as Ha' by (simpl; by rewrite lookup_insert_eq).
  split.
  - unfold GetDevice. by rewrite (with_agent_cached _ a') // (on_agent_run _ a').
  - unfold stopManagingDevice. rewrite (sbind_run _ _ _ _ _ (cached_yes _ _ _ Ha')).
    assert (co_rootDevices s' !! id = Some true) as Hroot.
    { simpl. unfold addDeviceAgentToMap, modify. simpl. rewrite Hnone. simpl. by rewrite lookup_insert_eq. }
    assert (IsRootDevice id s' = (Ok true, s')) as Hr by (unfold IsRootDevice, gets; by rewrite Hroot).
    rewrite (sbind_run _ _ _ _ _ Hr).
    assert (stopManagingLogicalDeviceWithDeviceID id s' = (Ok EmptyString, s')) as Hstop.
    { unfold stopManagingLogicalDeviceWithDeviceID. rewrite (sbind_run get _ s' s' s' eq_refl).
      apply stop_agents_none. intros k l Hin. rewrite go_range_perm in Hin. apply elem_of_map_to_list in Hin.
      apply (Hld k). revert Hin. simpl. unfold addDeviceAgentToMap, modify. simpl. by rewrite Hnone. }
    assert ((let* ldeviceID := stopManagingLogicalDeviceWithDeviceID id in
             if decide (ldeviceID = EmptyString) then ret tt else abandon ldeviceID) s' = (Ok tt, s')) as Hroots
      by (by rewrite (sbind_run _ _ _ _ _ Hstop)).
    rewrite (sbind_run _ _ _ _ _ Hroots).
    rewrite (sbind_run _ _ _ _ _ (getDeviceAgent_cached _ _ _ Ha')).
    unfold sbind. by rewrite (on_agent_run id a').
Qed.

(** ** Creations that succeed *)

Context `{!DataProxyLaws Device Store, !DataProxyFrame Device Store, !DataProxyApart LogicalDevice Device Store}.
Context (others : @LogicalState Store → @LogicalState Store).


(** [updatePortState] always reports that the device does not exist.  When
    the agent of the device changed the port, the change is stored and the
    logical device is told, and the caller still gets the error. *)
Theorem update_port_state_always_fails id t no o s :
  (∀ r, (updatePortState fuel id t no o s).1 ≠ Ok r) ∧
  ∀ a a', co_deviceAgents s !! id = Some a → DeviceAgent.updatePortState t no o (attach s a) = (Ok tt, a') →
    ∃ s', updatePortState fuel id t no o s = (Err (Status NotFound id), s') ∧
      co_deviceAgents s' !! id = Some a' ∧ co_store s' = da_store a' ∧
      co_tasks s' = co_tasks s ++ [TaskUpdatePortState id no o].
Proof.
  split.
  - intros r. unfold updatePortState, sbind, fail. destruct (getDeviceAgent fuel id s) as [[[]|e|] s1]; [|done..].
    by destruct (on_agent _ _ s1) as [[[]|e|] s2].
  - intros a a' Ha Hrun. unfold updatePortState. rewrite (sbind_run _ _ _ _ _ (getDeviceAgent_cached _ _ _ Ha)).
    unfold sbind. rewrite (on_agent_run id a) // Hrun. simpl. eexists. split; [done|]. simpl.
    by rewrite lookup_insert_eq.
Qed.

(** ** Asking all children *)

(** The children are asked in turn, each in the state the ones before left;
    [answers] are those of the children that have an agent. *)
Inductive asked (m : M DeviceAgent unit) : list string → Core → list (option GoError) → Core → Prop :=
  | asked_nil s : asked m [] s [] s
  | asked_skip id ids s s1 answers s' :
      getDeviceAgent fuel id s = (Ok false, s1) → asked m ids s1 answers s' → asked m (id :: ids) s answers s'
  | asked_child id ids s s1 r s2 answers s' :
      getDeviceAgent fuel id s = (Ok true, s1) → attempt (on_agent id m) s1 = (Ok r, s2) →
      asked m ids s2 answers s' → asked m (id :: ids) s (err_of r :: answers) s'.

Definition last_answer (err : option GoError) (answers : list (option GoError)) : outcome unit :=
  match default err (last answers) with Some e => Err e | None => Ok tt end.

Lemma ask_children_asked m ids : ∀ ok err s r s',
  (ok = true → err = None) →
  ask_children fuel m ok err ids s = (r, s') → r ≠ Panic →
  ∃ answers, asked m ids s answers s' ∧ r = last_answer err answers.
Proof.
  induction ids as [|id ids IH]; intros ok err s r s' Hok; cbn [ask_children].
  { intros Hr _. exists []. unfold last_answer. simpl. destruct ok.
    - rewrite Hok // in Hr |- *. injection Hr as <- <-. by split; [constructor|].
    - destruct err as [e|]; injection Hr as <- <-; by split; [constructor|]. }
  unfold sbind at 1. destruct (getDeviceAgent fuel id s) as [[[]|e|] s1] eqn:Hg.
  - cbv beta iota. unfold sbind at 1. destruct (attempt (on_agent id m) s1) as [[r1|e|] s2] eqn:Ha.
    + intros Hr Hp. assert (∃ answers, asked m ids s2 answers s' ∧ r = last_answer (err_of r1) answers) as (ans & Has & ->).
      { destruct r1 as [u|e]; [by apply (IH ok None s2 r s')|by apply (IH false (Some e) s2 r s')]. }
      exists (err_of r1 :: ans). split; [by eapply asked_child|]. unfold last_answer. rewrite last_cons.
      by destruct (last ans).
    + unfold attempt in Ha. by destruct (on_agent id m s1) as [[]].
    + by intros [= <- <-].
  - intros Hr Hp. destruct (IH _ _ _ _ _ Hok Hr Hp) as (ans & Has & ->). exists ans. split; [by eapply asked_skip|done].
  - exfalso. revert Hg. unfold getDeviceAgent, IsDeviceInCache, sbind, gets, ret, attempt, go_task, modify. cbv beta iota.
    destruct (bool_decide _); [done|]. destruct (load fuel id s) as [[[]|e'|] s2]; cbv beta iota; try done.
    by destruct (bool_decide _).
  - by intros [= <- <-].
Qed.

(** Disabling, or deleting, all the children of a device asks every child
    that has an agent, in the order of the ports, even when one of them fails;
    and the result is the answer of the last one alone: the failure of a child is
    lost when the last child succeeds. *)
Theorem children_all_asked device s r s' :
  r ≠ Panic →
  (DisableAllChildDevices fuel device s = (r, s') →
     ∃ answers, asked DeviceAgent.disableDevice (getAllChildDeviceIds device) s answers s' ∧ r = last_answer None answers) ∧
  (DeleteAllChildDevices fuel device s = (r, s') →
     ∃ answers, asked DeviceAgent.deleteDevice (getAllChildDeviceIds device) s answers s' ∧ r = last_answer None answers).
Proof. intros Hp. split; intros Hr; by eapply ask_children_asked. Qed.

(** ** Deleting a device *)

Definition stop_logical_part (id : string) (root : bool) : M Core unit :=
  if root then
    let* ldeviceID := stopManagingLogicalDeviceWithDeviceID id in
    if decide (ldeviceID = EmptyString) then ret tt else abandon ldeviceID
  else ret tt.

Lemma same_stop_agents s0 root ldID agents : preserves (same_devices s0) (stop_agents_of root ldID agents).
Proof.
  revert ldID. induction agents as [|[key l] agents IH]; intros ldID; cbn [stop_agents_of]; [apply preserves_ret|].
  repeat first [apply IH | apply same_on_logical; intros f; apply frame_stop | preserves_step].
Qed.

Lemma stop_agents_no_error root ldID agents s e s' : stop_agents_of root ldID agents s ≠ (Err e, s').
Proof.
  revert ldID s. induction agents as [|[key l] agents IH]; intros ldID s; cbn [stop_agents_of]; [done|].
  case_decide; [|apply IH]. unfold sbind, attempt, deleteLogicalDeviceAgent, modify, ret.
  destruct (on_logical key LogicalPorts.stop s) as [[[]|e'|] s1]; [apply IH|done|done].
Qed.

Lemma stop_logical_run id root s :
  same_devices s (stop_logical_part id root s).2 ∧ ∀ e, (stop_logical_part id root s).1 ≠ Err e.
Proof.
  unfold stop_logical_part. destruct root; [|by split_and!]. unfold sbind, stopManagingLogicalDeviceWithDeviceID.
  pose proof (same_stop_agents s id EmptyString (go_range (co_logicalAgents s)) s) as Hsame.
  pose proof (stop_agents_no_error id EmptyString (go_range (co_logicalAgents s)) s) as Herr.
  unfold sbind, get. destruct (stop_agents_of id EmptyString _ s) as [[ld|e|] s1].
  - simpl in *. assert (same_devices s s1) as (? & ? & ?) by (by apply Hsame). case_decide; by split_and!.
  - by destruct (Herr e s1).
  - simpl in *. split; [by apply Hsame|done].
Qed.

(** A device that is no longer managed has left both tables, and its ownership
    was given up. *)
Lemma stop_managing_run id s r s' :
  sound s → stopManagingDevice fuel id s = (r, s') → r ≠ Panic →
  r = Ok tt ∧ co_deviceAgents s' !! id = None ∧ co_rootDevices s' !! id = None ∧
  (is_Some (co_deviceAgents s !! id) → id ∈ co_abandoned s').
Proof.
  intros Hs. destruct Hs as [Hman Hids]. pose proof Hman as (Hm & Hroot & _).
  unfold stopManagingDevice. destruct (co_deviceAgents s !! id) as [a|] eqn:Ha.
  - rewrite (sbind_run _ _ _ _ _ (cached_yes _ _ _ Ha)).
    assert (IsRootDevice id s = (Ok (default false (co_rootDevices s !! id)), s)) as Hr by done.
    rewrite (sbind_run _ _ _ _ _ Hr). set (root := default false _).
    change (if root then _ else ret tt) with (stop_logical_part id root).
    destruct (stop_logical_run id root s) as [Hsame Hno]. unfold sbind at 1.
    destruct (stop_logical_part id root s) as [[[]|e|] s1]; [|by destruct (Hno e)|by intros [= <- _]].
    simpl in Hsame. pose proof (managed_same_devices _ _ Hsame Hman) as Hm1. destruct Hsame as (Hag & _ & _).
    assert (co_deviceAgents s1 !! id = Some a) as Ha1 by (by rewrite Hag).
    destruct (proj1 Hm1 _ _ Ha1) as (Hia & Hp & _).
    rewrite (sbind_run _ _ _ _ _ (getDeviceAgent_cached _ _ _ Ha1)). unfold sbind at 1.
    rewrite (on_agent_run id a) //. unfold DeviceAgent.stop. simpl. rewrite Hp.
    destruct (dp_remove _ _) as [r1 st]. simpl. intros [= <- <-] _. split_and!; [done|..]; simpl.
    + by rewrite lookup_delete_eq.
    + by rewrite lookup_delete_eq.
    + intros _. set_solver.
  - rewrite (sbind_run _ _ _ _ _ (cached_no _ _ Ha)). intros [= <- <-] _. split_and!; [done..| |by intros []].
    destruct (co_rootDevices s !! id) as [b|] eqn:Hb; [|done]. destruct (Hroot id (ex_intro _ b Hb)). congruence.
Qed.

Lemma processTransition_handlers previous current hs :
  GetTransitionHandler NewTransitionMap previous current = Some hs →
  processTransition fuel others previous current = for_each (λ handler, run_handler fuel others handler current) hs.
Proof. intros Hhs. unfold processTransition. rewrite Hhs. reflexivity. Qed.

(** A deleted device is no longer managed.  When the device that becomes
    DELETED was pre-provisioned, disabled, or an enabled child, and all handlers
    of the transition succeed, its agent has left the memory, it is no root
    device any more, and the managers stay in step with the data model. *)
Theorem deleted_device_unmanaged previous current s s' :
  (∀ f (l : @LogicalState Store), logical_frame f l → logical_frame f (others l)) →
  sound s → dev_AdminState current = Admin_DELETED →
  dev_AdminState previous = Admin_PREPROVISIONED ∨ dev_AdminState previous = Admin_DISABLED ∨
    dev_AdminState previous = Admin_ENABLED ∧ dev_Root previous = false →
  processTransition fuel others previous current s = (Ok tt, s') →
  (IsDeviceInCache (dev_Id current) s').1 = Ok false ∧ (IsRootDevice (dev_Id current) s').1 = Ok false ∧ sound s'.
Proof.
  intros Hothers Hs Hdel Hprev Hrun. pose proof (sound_processTransition fuel others Hothers previous current s Hs) as Hs'.
  rewrite Hrun in Hs'. destruct (cleanup_last previous current Hdel Hprev) as [hs Hhs].
  rewrite (processTransition_handlers _ _ _ Hhs) in Hrun. apply for_each_snoc in Hrun as (s1 & Hl & Hx).
  assert (sound s1) as Hs1.
  { pose proof (preserves_for_each sound (λ handler, run_handler fuel others handler current) hs) as Hp.
    specialize (Hp (λ h, sound_run_handler fuel others Hothers h current) s Hs). by rewrite Hl in Hp. }
  destruct (stop_managing_run (dev_Id current) s1 (Ok tt) s' Hs1 Hx ltac:(done)) as (_ & Hag & Hrt & _).
  rewrite (cached_no _ _ Hag). split_and!; [done| |done]. unfold IsRootDevice, gets. by rewrite Hrt.
Qed.

(** ** A child is discovered *)

(** The device type an adapter reports, or the one of the vendor. *)
Definition reported_type (ty vendor : string) (types : option (list DeviceType)) : string :=
  if decide (ty = EmptyString ∧ vendor ≠ EmptyString) then type_of_vendor vendor (default [] types) else ty.

Lemma reported_type_run ty vendor types s :
  dl_list (Obj := DeviceType) (co_store s) = Ok types →
  (if decide (ty = EmptyString ∧ vendor ≠ EmptyString) then
     let* deviceTypes := lift (dl_list (Obj := DeviceType) (co_store s)) in
     ret (type_of_vendor vendor (default [] deviceTypes))
   else ret ty) s = (Ok (reported_type ty vendor types), s).
Proof. intros Htypes. unfold reported_type. case_decide; [|done]. unfold sbind, lift. by rewrite Htypes. Qed.

Lemma snap_fresh f s id :
  snap f s → (∀ d, f id ≠ Ok (Some d)) → co_deviceAgents s !! id = None.
Proof.
  intros [[(Hm & _) _] Hf] Hno. destruct (co_deviceAgents s !! id) as [a|] eqn:Ha; [|done].
  destruct (Hm _ _ Ha) as (_ & _ & Hg & _). destruct (Hno (da_device a)). by rewrite -(Hf id).
Qed.

End Facts.

(** ** Witnesses *)

#[local] Existing Instances sample_devices sample_logical_devices sample_list sample_logical_list sample_apart
  two_left_laws two_left_frame sample_env canonical_range sample_adapter sample_adapter_mgr sample_text
  sample_manager sample_calls.
#[local] Instance sample_type_list : DataList DeviceType SampleStore :=
  {| dl_list _ := Ok (Some [mkDeviceType "brcm_onu" "" ["BRCM"] "openonu" false false false]) |}.
#[local] Instance sample_queries : AdapterQueries :=
  {| aq_GetOfpDeviceInfo _ := Ok (mkSwitchCapability "" ""); aq_GetOfpPortInfo _ _ := Ok None;
     aq_GetImageDownloadStatus _ img := Ok img |}.

Definition sample_new_id : string := Ids.CreateDeviceID env_random.

Lemma sample_sound ds : Forall device_wf ds → sound (sample_core_of ds).
Proof. intros Hwf. split; [by apply sample_core_managed|apply sample_core_ids]. Qed.
Lemma sample_family_sound : sound sample_managers_state.
Proof. split; [exact sample_managed|apply sample_core_ids]. Qed.
Lemma sample_accepted : accepts_devices (Store := SampleStore).
Proof. by split. Qed.


(** The children of the sample OLT. *)
Lemma children_all_asked_witness :
  ∃ r s', DisableAllChildDevices 2 sample_root sample_managers_state = (r, s') ∧ r = Ok tt ∧
    ∃ answers, asked 2 DeviceAgent.disableDevice ["onu"] sample_managers_state answers s' ∧ r = last_answer None answers.
Proof.
  destruct (DisableAllChildDevices 2 sample_root sample_managers_state) as [r s'] eqn:Hr. exists r, s'.
  assert (r = Ok tt) as ->.
  { transitivity (DisableAllChildDevices 2 sample_root sample_managers_state).1; [by rewrite Hr|by vm_compute]. }
  split_and!; [done..|].
  destruct (children_all_asked 2 sample_root sample_managers_state (Ok tt) s' ltac:(done)) as [Hdis _].
  exact (Hdis Hr).
Defined.

(** The deletion of a pre-provisioned device. *)
Definition sample_before : Device := set_AdminState Admin_PREPROVISIONED sample_root.
Definition sample_gone : Device := set_AdminState Admin_DELETED sample_root.
Lemma deleted_device_unmanaged_witness :
  ∃ s', processTransition 2 (λ l, l) sample_before sample_gone sample_managers_state = (Ok tt, s') ∧
    (IsDeviceInCache "olt" s').1 = Ok false.
Proof.
  destruct (processTransition 2 (λ l, l) sample_before sample_gone sample_managers_state) as [r s'] eqn:Hr.
  assert (r = Ok tt) as ->.
  { transitivity (processTransition 2 (λ l, l) sample_before sample_gone sample_managers_state).1;
      [by rewrite Hr|by vm_compute]. }
  exists s'. split; [done|].
  destruct (deleted_device_unmanaged 2 (λ l, l) sample_before sample_gone sample_managers_state s'
    (λ _ _ Hl, Hl) sample_family_sound eq_refl ltac:(by left) Hr) as [Hc _]. exact Hc.
Defined.

Lemma update_port_state_always_fails_witness :
  ∃ s s', updatePortState 2 "olt" PON_OLT 1 Oper_UNKNOWN s = (Err (Status NotFound "olt"), s') ∧
    co_tasks s' = co_tasks s ++ [TaskUpdatePortState "olt" 1 Oper_UNKNOWN].
Proof.
  set (s := (load 2 "olt" sample_managers_state).2). exists s.
  destruct (update_port_state_always_fails 2 "olt" PON_OLT 1 Oper_UNKNOWN s) as [_ Hrun].
  destruct (co_deviceAgents s !! "olt") as [a|] eqn:Ha; [|by vm_compute in Ha].
  destruct (DeviceAgent.updatePortState PON_OLT 1 Oper_UNKNOWN (attach s a)) as [r a'] eqn:Hu.
  assert (r = Ok tt) as ->.
  { assert ((λ a, (DeviceAgent.updatePortState PON_OLT 1 Oper_UNKNOWN (attach s a)).1) <$> co_deviceAgents s !! "olt"
      = Some (Ok tt)) as Hok by (vm_compute; reflexivity).
    rewrite Ha in Hok. simpl in Hok. rewrite Hu in Hok. by injection Hok. }
  destruct (Hrun a a' eq_refl Hu) as (s' & Hs & _ & _ & Ht). exists s'. by split.
Defined.

(** An OLT without children. *)
Definition sample_lone : Device := set_Ports [] sample_root.
Definition sample_lone_state : Core := sample_core_of [sample_lone].
Lemma sample_lone_sound : sound sample_lone_state.
Proof. apply sample_sound. repeat constructor; simpl; set_solver. Qed.


(** A data model that takes no new device. *)
#[local] Instance refusing_devices : DataProxy Device SampleStore := {|
  dp_get id s := dp_get (DataProxy := sample_devices) id s;
  dp_update id d s := dp_update (DataProxy := sample_devices) id d s;
  dp_add _ _ s := (UpdErr (Plain "refused"), s);
  dp_remove id s := dp_remove (DataProxy := sample_devices) id s
|}.

Lemma failed_creation_leaves_ghost_witness :
  ∃ s', createDevice (sample_device_of "") sample_managers_state = (Err (Plain "refused"), s') ∧
    (GetDevice 2 sample_new_id s').1 = Ok (set_Root true (sample_device_of "")).
Proof.
  destruct (failed_creation_leaves_ghost 2 (sample_device_of "") (Some [sample_child "olt"; sample_root])
    (Plain "refused") (co_store sample_managers_state) sample_managers_state) as (s' & Hrun & Hget & _).
  - by vm_compute.
  - intros Hdup%duplicate_spec. by vm_compute in Hdup.
  - by vm_compute.
  - reflexivity.
  - intros ldID l Hl. by vm_compute in Hl.
  - exists s'. by split.
Defined.
