(* ===== verification/AdapterProxy.v ===== *)
(** * Adapter proxy

    [rw_core/core/adapter_proxy.go]: each request to an adapter is a remote
    procedure call over Kafka.  The proxy gives the device agents the interface
    they work with, and the adapter can read every request back. *)

From S2P Require Import Prelude OpenFlow VolthaTypes CoreUtils DataProxy DeviceAgent DeviceMgr.

(** ** Calls *)

(** The messages that are passed as arguments.  [IntType] has 64 bits, so a
    [uint32] fits. *)
Inductive ArgValue :=
  | ArgDevice (d : Device) | ArgInt (v : Z) | ArgStr (v : string) | ArgPort (p : Port)
  | ArgImage (img : ImageDownload) | ArgFlows (l : list OfpFlowStats) | ArgGroups (l : list OfpGroupEntry)
  | ArgFlowChanges (c : FlowChanges) | ArgGroupChanges (c : FlowGroupChanges) | ArgMetadata (md : option FlowMetadata)
  | ArgPmConfigs (pm : PmConfigs) | ArgPacket (p : OfpPacketOut) | ArgSimulate (r : Opaque).
Record KVArg := mkKVArg { kv_Key : string; kv_Value : ArgValue }.

(** The arguments of [InvokeRPC]; a topic is its name. *)
Record RPC := mkRPC {
  rpc_name : string; rpc_toTopic : string; rpc_replyToTopic : string; rpc_waitForResponse : bool;
  rpc_key : string; rpc_args : list KVArg }.

(** [kafka.InterContainerProxy] and [ptypes.UnmarshalAny]: a call is answered, given
    the calls before it, by a result and a message, which may be nil, after some
    time.  An error message is its reason. *)
Class InterContainerProxy (Any : Type) := {
  ic_InvokeRPC : list RPC → RPC → bool * option Any;
  ic_duration : list RPC → RPC → Z;
  ic_Error : option Any → string + GoError;
  ic_SwitchCapability : option Any → SwitchCapability + GoError;
  ic_PortCapability : option Any → PortCapability + GoError;
  ic_ImageDownload : option Any → ImageDownload + GoError
}.

Section AdapterProxy.
Context {Any : Type} `{InterContainerProxy Any}.

(** [ap_calls] are the calls that were made, in order. *)
Record ProxyState := mkProxyState {
  ap_TestMode : bool; ap_deviceTopicRegistered : bool; ap_corePairTopic : string; ap_calls : list RPC }.

Definition NewAdapterProxy (corePairTopic : string) : ProxyState := mkProxyState false false corePairTopic [].

Definition set_deviceTopicRegistered v (s : ProxyState) :=
  mkProxyState (ap_TestMode s) v (ap_corePairTopic s) (ap_calls s).
Definition set_ap_calls v (s : ProxyState) :=
  mkProxyState (ap_TestMode s) (ap_deviceTopicRegistered s) (ap_corePairTopic s) v.

Definition unPackResponse (success : bool) (response : option Any) : outcome unit :=
  if success then Ok tt
  else match ic_Error response with inl reason => Err (Status Canceled reason) | inr e => Err e end.

Definition getCoreTopic (s : ProxyState) : string := ap_corePairTopic s.
Definition getAdapterTopic (adapterName : string) : string := adapterName.

Definition InvokeRPC (rpc toTopic key : string) (args : list KVArg) : M ProxyState (bool * option Any) := λ s,
  let call := mkRPC rpc toTopic (getCoreTopic s) true key args in
  (Ok (ic_InvokeRPC (ap_calls s) call), set_ap_calls (ap_calls s ++ [call]) s).

(** A call whose answer is an error or nothing. *)
Definition invoke (rpc toTopic key : string) (args : list KVArg) : M ProxyState unit :=
  let* (success, result) := InvokeRPC rpc (getAdapterTopic toTopic) key args in
  lift (unPackResponse success result).
(** A call on a device. *)
Definition invoke_on (rpc : string) (device : Device) (args : list KVArg) : M ProxyState unit :=
  invoke rpc (dev_Adapter device) (dev_Id device) (mkKVArg "device" (ArgDevice device) :: args).

Definition AdoptDevice (device : Device) : M ProxyState unit :=
  let* _ := modify (set_deviceTopicRegistered true) in
  invoke_on "adopt_device" device [].
Definition DisableDevice (device : Device) : M ProxyState unit := invoke_on "disable_device" device [].
Definition ReEnableDevice (device : Device) : M ProxyState unit := invoke_on "reenable_device" device [].
Definition RebootDevice (device : Device) : M ProxyState unit := invoke_on "reboot_device" device [].
Definition DeleteDevice (device : Device) : M ProxyState unit := invoke_on "delete_device" device [].
Definition ReconcileDevice (device : Device) : M ProxyState unit := invoke_on "reconcile_device" device [].

Definition DownloadImage (device : Device) (download : ImageDownload) : M ProxyState unit :=
  invoke_on "download_image" device [mkKVArg "request" (ArgImage download)].
Definition CancelImageDownload (device : Device) (download : ImageDownload) : M ProxyState unit :=
  invoke_on "cancel_image_download" device [mkKVArg "request" (ArgImage download)].
Definition ActivateImageUpdate (device : Device) (download : ImageDownload) : M ProxyState unit :=
  invoke_on "activate_image_update" device [mkKVArg "request" (ArgImage download)].
Definition RevertImageUpdate (device : Device) (download : ImageDownload) : M ProxyState unit :=
  invoke_on "revert_image_update" device [mkKVArg "request" (ArgImage download)].

Definition packetOut (deviceType deviceID : string) (outPort : Z) (packet : OfpPacketOut) : M ProxyState unit :=
  invoke "receive_packet_out" deviceType deviceID
    [mkKVArg "deviceId" (ArgStr deviceID); mkKVArg "outPort" (ArgInt outPort); mkKVArg "packet" (ArgPacket packet)].

Definition UpdateFlowsBulk (device : Device) (flows : list OfpFlowStats) (groups : list OfpGroupEntry)
    (flowMetadata : option FlowMetadata) : M ProxyState unit :=
  invoke_on "update_flows_bulk" device
    [mkKVArg "flows" (ArgFlows flows); mkKVArg "groups" (ArgGroups groups);
     mkKVArg "flow_metadata" (ArgMetadata flowMetadata)].
Definition UpdateFlowsIncremental (device : Device) (flowChanges : FlowChanges) (groupChanges : FlowGroupChanges)
    (flowMetadata : option FlowMetadata) : M ProxyState unit :=
  invoke_on "update_flows_incrementally" device
    [mkKVArg "flow_changes" (ArgFlowChanges flowChanges); mkKVArg "group_changes" (ArgGroupChanges groupChanges);
     mkKVArg "flow_metadata" (ArgMetadata flowMetadata)].
Definition UpdatePmConfigs (device : Device) (pmConfigs : PmConfigs) : M ProxyState unit :=
  invoke_on "Update_pm_config" device [mkKVArg "pm_configs" (ArgPmConfigs pmConfigs)].
Definition SimulateAlarm (device : Device) (simulatereq : Opaque) : M ProxyState unit :=
  let* _ := modify (set_deviceTopicRegistered true) in
  invoke_on "simulate_alarm" device [mkKVArg "request" (ArgSimulate simulatereq)].

Definition disablePort (device : Device) (port : Port) : M ProxyState unit :=
  invoke "disable_port" (dev_Adapter device) (dev_Id device)
    [mkKVArg "deviceId" (ArgStr (dev_Id device)); mkKVArg "port" (ArgPort port)].
Definition enablePort (device : Device) (port : Port) : M ProxyState unit :=
  invoke "enable_port" (dev_Adapter device) (dev_Id device)
    [mkKVArg "deviceId" (ArgStr (dev_Id device)); mkKVArg "port" (ArgPort port)].
Definition ChildDeviceLost (deviceType pDeviceID : string) (pPortNo onuID : Z) : M ProxyState unit :=
  invoke "child_device_lost" deviceType pDeviceID
    [mkKVArg "pDeviceId" (ArgStr pDeviceID); mkKVArg "pPortNo" (ArgInt pPortNo); mkKVArg "onuID" (ArgInt onuID)].

(** The queries read the answer; an error that cannot be read has no reason. *)
Definition unpack {A} (f : option Any → A + GoError) (result : option Any) : M ProxyState A :=
  match f result with inl a => ret a | inr e => fail (Status InvalidArgument (error_string e)) end.
Definition internal_error (result : option Any) : GoError :=
  Status Internal (match ic_Error result with inl reason => reason | inr _ => EmptyString end).

Definition GetOfpDeviceInfo (device : Device) : M ProxyState SwitchCapability :=
  let* (success, result) := InvokeRPC "get_ofp_device_info" (getAdapterTopic (dev_Adapter device)) (dev_Id device)
    [mkKVArg "device" (ArgDevice device)] in
  if (success : bool) then unpack ic_SwitchCapability result else fail (internal_error result).
Definition GetOfpPortInfo (device : Device) (portNo : Z) : M ProxyState PortCapability :=
  let* (success, result) := InvokeRPC "get_ofp_port_info" (getAdapterTopic (dev_Adapter device)) (dev_Id device)
    [mkKVArg "device" (ArgDevice device); mkKVArg "port_no" (ArgInt portNo)] in
  if (success : bool) then unpack ic_PortCapability result else fail (internal_error result).
Definition GetImageDownloadStatus (device : Device) (download : ImageDownload) : M ProxyState ImageDownload :=
  let* (success, result) := InvokeRPC "get_image_download_status" (getAdapterTopic (dev_Adapter device)) (dev_Id device)
    [mkKVArg "device" (ArgDevice device); mkKVArg "request" (ArgImage download)] in
  if (success : bool) then unpack ic_ImageDownload result
  else match ic_Error result with inl reason => fail (Status Internal reason) | inr e => fail e end.

(** ** The requests of the agents *)

(** The method an agent calls for a request. *)
Definition perform (r : AdapterRequest) : M ProxyState unit :=
  match r with
  | DeviceAgent.AdoptDevice d => AdoptDevice d
  | DeviceAgent.ReEnableDevice d => ReEnableDevice d
  | DeviceAgent.DisableDevice d => DisableDevice d
  | DeviceAgent.RebootDevice d => RebootDevice d
  | DeviceAgent.DeleteDevice d => DeleteDevice d
  | DeviceAgent.UpdateFlowsBulk d flows groups md => UpdateFlowsBulk d flows groups md
  | DeviceAgent.UpdateFlowsIncremental d fc gc md => UpdateFlowsIncremental d fc gc md
  | DeviceAgent.UpdatePmConfigs d pm => UpdatePmConfigs d pm
  | DeviceAgent.DownloadImage d img => DownloadImage d img
  | DeviceAgent.CancelImageDownload d img => CancelImageDownload d img
  | DeviceAgent.ActivateImageUpdate d img => ActivateImageUpdate d img
  | DeviceAgent.RevertImageUpdate d img => RevertImageUpdate d img
  | PacketOut deviceType deviceID outPort packet => packetOut deviceType deviceID outPort packet
  | DeviceAgent.SimulateAlarm d req => SimulateAlarm d req
  | DisablePort d p => disablePort d p
  | EnablePort d p => enablePort d p
  | ChildLost deviceType deviceID parentPortNo onuID => ChildDeviceLost deviceType deviceID parentPortNo onuID
  | DeviceAgent.ReconcileDevice d => ReconcileDevice d
  end.

(** The adapter a request is for, and the device it is about. *)
Definition request_adapter (r : AdapterRequest) : string :=
  match r with
  | PacketOut deviceType _ _ _ | ChildLost deviceType _ _ _ => deviceType
  | DeviceAgent.AdoptDevice d | DeviceAgent.ReEnableDevice d | DeviceAgent.DisableDevice d
  | DeviceAgent.RebootDevice d | DeviceAgent.DeleteDevice d | DeviceAgent.UpdateFlowsBulk d _ _ _
  | DeviceAgent.UpdateFlowsIncremental d _ _ _ | DeviceAgent.UpdatePmConfigs d _ | DeviceAgent.DownloadImage d _
  | DeviceAgent.CancelImageDownload d _ | DeviceAgent.ActivateImageUpdate d _ | DeviceAgent.RevertImageUpdate d _
  | DeviceAgent.SimulateAlarm d _ | DisablePort d _ | EnablePort d _ | DeviceAgent.ReconcileDevice d => dev_Adapter d
  end.
Definition request_device (r : AdapterRequest) : string :=
  match r with
  | PacketOut _ deviceID _ _ | ChildLost _ deviceID _ _ => deviceID
  | DeviceAgent.AdoptDevice d | DeviceAgent.ReEnableDevice d | DeviceAgent.DisableDevice d
  | DeviceAgent.RebootDevice d | DeviceAgent.DeleteDevice d | DeviceAgent.UpdateFlowsBulk d _ _ _
  | DeviceAgent.UpdateFlowsIncremental d _ _ _ | DeviceAgent.UpdatePmConfigs d _ | DeviceAgent.DownloadImage d _
  | DeviceAgent.CancelImageDownload d _ | DeviceAgent.ActivateImageUpdate d _ | DeviceAgent.RevertImageUpdate d _
  | DeviceAgent.SimulateAlarm d _ | DisablePort d _ | EnablePort d _ | DeviceAgent.ReconcileDevice d => dev_Id d
  end.

(** The requests on ports carry the identifier of the device only. *)
Definition same_request (r r' : AdapterRequest) : Prop :=
  match r, r' with
  | DisablePort d p, DisablePort d' p' | EnablePort d p, EnablePort d' p' =>
      dev_Id d = dev_Id d' ∧ dev_Adapter d = dev_Adapter d' ∧ p = p'
  | _, _ => r = r'
  end.

(** ** What the adapter reads *)

(** An adapter reads the arguments of a call by their keys. *)
Definition arg (call : RPC) (key : string) : option ArgValue :=
  kv_Value <$> List.find (λ a, bool_decide (kv_Key a = key)) (rpc_args call).
Definition device_arg (call : RPC) : option Device :=
  match arg call "device" with Some (ArgDevice d) => Some d | _ => None end.
Definition image_arg (call : RPC) : option ImageDownload :=
  match arg call "request" with Some (ArgImage i) => Some i | _ => None end.
Definition int_arg (call : RPC) (key : string) : option Z :=
  match arg call key with Some (ArgInt v) => Some v | _ => None end.
Definition str_arg (call : RPC) (key : string) : option string :=
  match arg call key with Some (ArgStr v) => Some v | _ => None end.
Definition port_arg (call : RPC) : option Port :=
  match arg call "port" with Some (ArgPort p) => Some p | _ => None end.

(** A request on an image, and one on a port of the device with the identifier. *)
Definition image_request (f : Device → ImageDownload → AdapterRequest) (call : RPC) : option AdapterRequest :=
  d ← device_arg call; i ← image_arg call; Some (f d i).
Definition port_request (stub : string → string → Device) (f : Device → Port → AdapterRequest) (call : RPC)
    : option AdapterRequest :=
  id ← str_arg call "deviceId"; p ← port_arg call; Some (f (stub id (rpc_toTopic call)) p).
Definition metadata_arg (call : RPC) : option (option FlowMetadata) :=
  match arg call "flow_metadata" with Some (ArgMetadata md) => Some md | _ => None end.

(** The procedures of an adapter; [stub] is the device with an identifier that the
    adapter manages. *)
Definition procedures (stub : string → string → Device) : list (string * (RPC → option AdapterRequest)) :=
  [("adopt_device", λ c, DeviceAgent.AdoptDevice <$> device_arg c);
   ("disable_device", λ c, DeviceAgent.DisableDevice <$> device_arg c);
   ("reenable_device", λ c, DeviceAgent.ReEnableDevice <$> device_arg c);
   ("reboot_device", λ c, DeviceAgent.RebootDevice <$> device_arg c);
   ("delete_device", λ c, DeviceAgent.DeleteDevice <$> device_arg c);
   ("reconcile_device", λ c, DeviceAgent.ReconcileDevice <$> device_arg c);
   ("download_image", image_request DeviceAgent.DownloadImage);
   ("cancel_image_download", image_request DeviceAgent.CancelImageDownload);
   ("activate_image_update", image_request DeviceAgent.ActivateImageUpdate);
   ("revert_image_update", image_request DeviceAgent.RevertImageUpdate);
   ("receive_packet_out", λ c, id ← str_arg c "deviceId"; no ← int_arg c "outPort";
      match arg c "packet" with Some (ArgPacket p) => Some (PacketOut (rpc_toTopic c) id no p) | _ => None end);
   ("update_flows_bulk", λ c, d ← device_arg c; md ← metadata_arg c;
      match arg c "flows", arg c "groups" with
      | Some (ArgFlows fs), Some (ArgGroups gs) => Some (DeviceAgent.UpdateFlowsBulk d fs gs md) | _, _ => None end);
   ("update_flows_incrementally", λ c, d ← device_arg c; md ← metadata_arg c;
      match arg c "flow_changes", arg c "group_changes" with
      | Some (ArgFlowChanges fc), Some (ArgGroupChanges gc) => Some (DeviceAgent.UpdateFlowsIncremental d fc gc md)
      | _, _ => None end);
   ("Update_pm_config", λ c, d ← device_arg c;
      match arg c "pm_configs" with Some (ArgPmConfigs pm) => Some (DeviceAgent.UpdatePmConfigs d pm) | _ => None end);
   ("simulate_alarm", λ c, d ← device_arg c;
      match arg c "request" with Some (ArgSimulate r) => Some (DeviceAgent.SimulateAlarm d r) | _ => None end);
   ("disable_port", port_request stub DisablePort);
   ("enable_port", port_request stub EnablePort);
   ("child_device_lost", λ c, id ← str_arg c "pDeviceId"; no ← int_arg c "pPortNo"; onu ← int_arg c "onuID";
      Some (ChildLost (rpc_toTopic c) id no onu))].

Definition read_request (stub : string → string → Device) (call : RPC) : option AdapterRequest :=
  p ← List.find (λ p, bool_decide (p.1 = rpc_name call)) (procedures stub); p.2 call.

(** ** Every request arrives *)

(** An answer as the core sees it. *)
Definition answered (answer : bool * option Any) : outcome unit :=
  match answer.1, ic_Error answer.2 with
  | true, _ => Ok tt
  | false, inl reason => Err (Status Canceled reason)
  | false, inr e => Err e
  end.

Lemma invoke_run rpc toTopic key args s :
  let call := mkRPC rpc toTopic (ap_corePairTopic s) true key args in
  invoke rpc toTopic key args s = (answered (ic_InvokeRPC (ap_calls s) call), set_ap_calls (ap_calls s ++ [call]) s).
Proof.
  simpl. unfold invoke, InvokeRPC, sbind, getAdapterTopic, getCoreTopic. destruct (ic_InvokeRPC _ _) as [success result].
  unfold lift, unPackResponse, answered. simpl. destruct success; [done|]. by destruct (ic_Error result).
Qed.

Lemma answered_cases answer : answered answer = Ok tt ∨ ∃ e, answered answer = Err e.
Proof. unfold answered. destruct answer.1; [by left|]. destruct (ic_Error _); right; by eexists. Qed.

Lemma perform_answered r s : ∃ call, (perform r s).1 = answered (ic_InvokeRPC (ap_calls s) call).
Proof.
  assert (∀ rpc topic key args s', (invoke rpc topic key args s').1 =
    answered (ic_InvokeRPC (ap_calls s') (mkRPC rpc topic (ap_corePairTopic s') true key args))) as Hi.
  { intros rpc topic key args s'. by rewrite (invoke_run rpc topic key args s'). }
  destruct r; eexists; first [apply Hi | exact (Hi _ _ _ _ (set_deviceTopicRegistered true s))].
Qed.


(** ** The interface of the agents *)

(** The proxy after the requests [sent]. *)
Definition replay (corePairTopic : string) (sent : list AdapterRequest) : ProxyState :=
  fold_left (λ s r, (perform r s).2) sent (NewAdapterProxy corePairTopic).

Lemma replay_snoc corePairTopic sent r :
  replay corePairTopic (sent ++ [r]) = (perform r (replay corePairTopic sent)).2.
Proof. unfold replay. by rewrite fold_left_app. Qed.

Definition error_of {A} (o : outcome A) : option GoError := match o with Err e => Some e | _ => None end.

(** What the agents and the device manager ask of the adapters is answered by the
    proxy; the requests on flows wait for their answer in a goroutine. *)
Definition proxy_adapter (corePairTopic : string) : Adapter := {|
  adapter_reply sent r := error_of (perform r (replay corePairTopic sent)).1;
  adapter_flow_reply sent r :=
    let s := replay corePairTopic sent in
    let (o, s') := perform r s in
    Some (match last (ap_calls s') with Some call => ic_duration (ap_calls s) call | None => 0 end, error_of o)
|}.

Definition proxy_queries (s : ProxyState) : AdapterQueries := {|
  aq_GetOfpDeviceInfo d := (GetOfpDeviceInfo d s).1;
  aq_GetOfpPortInfo d no := (GetOfpPortInfo d no s).1;
  aq_GetImageDownloadStatus d img := (GetImageDownloadStatus d img s).1
|}.

(** An agent that sends a request calls the proxy. *)
Lemma agent_send_perform {Store} corePairTopic (r : AdapterRequest) (a : AgentState (Store := Store)) :
  @send _ (proxy_adapter corePairTopic) r a =
    ((perform r (replay corePairTopic (da_sent a))).1, set_sent (da_sent a ++ [r]) a).
Proof.
  unfold send. simpl. destruct (perform_answered r (replay corePairTopic (da_sent a))) as [call ->].
  destruct (answered_cases (ic_InvokeRPC (ap_calls (replay corePairTopic (da_sent a))) call)) as [->|[e ->]]; done.
Qed.
End AdapterProxy.

(** ** A call that an adapter refuses *)

Definition refusing_proxy : InterContainerProxy string := {|
  ic_InvokeRPC _ call := if decide (rpc_name call = "reboot_device") then (false, Some "busy") else (true, None);
  ic_duration _ _ := 10;
  ic_Error m := match m with Some reason => inl reason | None => inr (Plain "message is nil") end;
  ic_SwitchCapability _ := inr (Plain "message is nil");
  ic_PortCapability _ := inr (Plain "message is nil");
  ic_ImageDownload _ := inr (Plain "message is nil") |}.
#[local] Existing Instance refusing_proxy.

Definition sample_stub (id adapter : string) : Device := set_Adapter adapter (set_Id id (sample_device_of "")).


Example reboot_refused :
  (perform (DeviceAgent.RebootDevice (sample_stub "olt" "openolt")) (NewAdapterProxy "pair")).1 = Err (Status Canceled "busy").
Proof. reflexivity. Qed.
