(* ===== verification/Requests.v ===== *)
(** * Requests to the core

    What the handlers of the northbound API and of the adapters share: the state
    of a whole core, in which the managers, the ownership of devices and the
    adapter manager work together, and the acquisition of a request by one core
    of a pair ([takeRequestOwnership] of [adapter_request_handler.go] and of
    [grpc_nbi_api_handler.go]).  The goroutines a handler starts run later. *)

From S2P Require Import Prelude OpenFlow VolthaTypes FlowUtils Decomposer CoreUtils DataProxy.
From S2P Require Import DeviceAgent LogicalAgent LogicalTables LogicalPorts KVStore Ownership Transaction AdapterMgr.
From S2P Require Import Managers LogicalMgr DeviceMgr CoreInvariant.

(** The configuration a handler works with; [hc_txnPrefix] is the prefix of the
    global [TransactionContext], whose owner is the core. *)
Record HandlerConfig := mkConfig {
  hc_TestMode : bool; hc_coreInCompetingMode : bool; hc_txnPrefix : string;
  hc_defaultRequestTimeout : Z; hc_longRunningRequestTimeout : Z; hc_CoreBindingKey : string }.

Definition ErrorTransactionNotAcquired : GoError := Plain "transaction-not-acquired".
Definition ErrorTransactionInvalidId : GoError := Plain "transaction-invalid-id".
Definition errorTransactionNotAcquired : GoError := Status Canceled "transaction-not-acquired".
Definition errorIDNotFound : GoError := Status NotFound "id-not-found".

(** A goroutine a handler starts with a method of a manager, whose error is only
    logged. *)
Inductive Goroutine :=
  | GoCore (op : core_op)
  | GoGetImageDownloadStatus (img : ImageDownload)
  | GoInitPmConfigs (deviceID : string) (pmConfigs : PmConfigs)
  | GoUpdateAdapters (adapter : VolthaAdapter).

Section Requests.
Context {Store KV : Type} `{DataProxy Device Store, DataProxy LogicalDevice Store, DataList Device Store,
  DataList LogicalDevice Store, DataList DeviceType Store, Adapter, AdapterMgrView, AdapterQueries, ProtoText,
  GoRange, DeviceManagerView, DeviceManagerCalls, CoreEnv, KVClient KV,
  DataProxy VolthaAdapter Store, DataList VolthaAdapter Store, DataProxy DeviceType Store}.
Notation Core := (Managers.Core (Store := Store)).
Notation DeviceOwnership := (DeviceOwnership (KV := KV)).
Notation AdapterManager := (AdapterManager (Store := Store)).
Notation KVTransaction := (KVTransaction (KV := KV)).

(** ** State *)

(** [vc_background] are the goroutines the handlers started.  The adapter
    manager works on the data model of [vc_core], and the transactions on the
    key-value store of [vc_own]. *)
Record VolthaCore := mkVoltha {
  vc_core : Core; vc_own : DeviceOwnership; vc_adapters : AdapterManager; vc_background : list Goroutine }.

Definition set_core v (s : VolthaCore) := mkVoltha v (vc_own s) (vc_adapters s) (vc_background s).
Definition set_own v (s : VolthaCore) := mkVoltha (vc_core s) v (vc_adapters s) (vc_background s).
Definition set_adapters v (s : VolthaCore) := mkVoltha (vc_core s) (vc_own s) v (vc_background s).
Definition set_background v (s : VolthaCore) := mkVoltha (vc_core s) (vc_own s) (vc_adapters s) v.

Context (fuel : nat) (others : @LogicalState Store → @LogicalState Store) (tie : nat → bool).

(** ** Calling a component *)

Definition on_own {A} (m : M DeviceOwnership A) : M VolthaCore A := λ s,
  let (r, o) := m (vc_own s) in (r, set_own o s).

Definition on_adapters {A} (m : M AdapterManager A) : M VolthaCore A := λ s,
  let (r, a) := m (set_am_store (co_store (vc_core s)) (vc_adapters s)) in
  (r, set_core (set_co_store (am_store a) (vc_core s)) (set_adapters a s)).

(** [AbandonDevice], as often as the managers called it; its errors are only
    logged. *)
Definition abandon_all (ids : list string) : M VolthaCore unit :=
  for_each (λ id, let* _ := attempt (on_own (AbandonDevice id)) in ret tt) ids.

(** A method of the managers; the devices it gave up are abandoned. *)
Definition on_core {A} (m : M Core A) : M VolthaCore A :=
  let* r := λ s, let (r, c) := m (vc_core s) in
                 (Ok (r, co_abandoned c), set_core (set_abandoned [] c) s) in
  let* _ := abandon_all r.2 in
  lift r.1.

Definition go (g : Goroutine) : M VolthaCore unit :=
  modify (λ s, set_background (vc_background s ++ [g]) s).

Definition run_goroutine (g : Goroutine) : M VolthaCore unit :=
  match g with
  | GoCore op => on_core (run_core_op fuel others tie op)
  | GoGetImageDownloadStatus img =>
      let* _ := on_core (DeviceMgr.getImageDownloadStatus fuel img) in ret tt
  | GoInitPmConfigs deviceID pmConfigs => on_core (DeviceMgr.initPmConfigs fuel deviceID pmConfigs)
  | GoUpdateAdapters adapter => on_adapters (updateAdaptersAndDevicetypesInMemory adapter)
  end.

(** ** Ownership of the device of a request *)

(** [getOwnershipKey] looks the device up, unless its key is cached. *)
Definition find_device (id : RequestID) : M VolthaCore Ownership.Managers :=
  let* s := get in
  match id with
  | DeviceID dID =>
      match do_deviceToKeyMap (vc_own s) !! dID with
      | Some _ => ret (mkManagers (λ _, None) (λ _, None))
      | None =>
          let* r := attempt (on_core (GetDevice fuel dID)) in
          ret (mkManagers (λ _, match r with inl d => Some d | inr _ => None end) (λ _, None))
      end
  | LogicalDeviceID ldID =>
      match do_deviceToKeyMap (vc_own s) !! ldID with
      | Some _ => ret (mkManagers (λ _, None) (λ _, None))
      | None =>
          let* r := attempt (on_core (getLogicalDevice ldID)) in
          ret (mkManagers (λ _, None) (λ _, match r with inl ld => ld | inr _ => None end))
      end
  | NilID | OtherID _ => ret (mkManagers (λ _, None) (λ _, None))
  end.

Definition owned_by_me (id : RequestID) : M VolthaCore bool :=
  let* mg := find_device id in on_own (OwnedByMe mg id).

(** ** Acquiring a request *)

(** What happens to a request from outside: the wake-ups of its watch, what the
    other requests of this core do before it goes on, and the error of its
    context when its client gives up before the answer. *)
Record ReqEnv := mkReqEnv {
  re_wakes : list watch_wake; re_meanwhile : VolthaCore → VolthaCore; re_timeout : option GoError }.

(** The transaction of a request is a variable of its handler. *)
Definition on_txn {A} (t : KVTransaction) (m : M KVTransaction A) : M VolthaCore (A * KVTransaction) := λ s,
  let (r, t') := m (set_txn_kv (do_kvClient (vc_own s)) t) in
  let s' := set_own (set_kvClient (tx_kvClient t') (vc_own s)) s in
  match r with Ok a => (Ok (a, t'), s') | Err e => (Err e, s') | Panic => (Panic, s') end.

Context (cfg : HandlerConfig).

Definition new_transaction (txnID : string) : M VolthaCore KVTransaction :=
  gets (λ s, NewKVTransaction (do_instanceID (vc_own s)) (hc_txnPrefix cfg) (do_kvClient (vc_own s)) txnID).

(** The acquisition of [txnID] for the resource [id]; [None]: no resource.  A
    watch that nothing ends waits forever. *)
Definition acquire (env : ReqEnv) (timeout : Z) (unknown denied : GoError) (id : option RequestID)
    (t : KVTransaction) : M VolthaCore KVTransaction :=
  let* ownedByMe :=
    match id with
    | None => ret None
    | Some id =>
        let* r := attempt (owned_by_me id) in
        match r with inl b => ret (Some b) | inr _ => fail unknown end
    end in
  let* r := on_txn t (Acquired timeout ownedByMe (re_wakes env)) in
  let* _ := modify (re_meanwhile env) in
  match r.1 with
  | None => panic
  | Some true => ret r.2
  | Some false => fail denied
  end.

(** [takeRequestOwnership] of the adapter request handler: an empty identifier
    stands for no device. *)
Definition takeRequestOwnership (env : ReqEnv) (transactionID devID : string) : M VolthaCore KVTransaction :=
  let* txn := new_transaction transactionID in
  acquire env (hc_defaultRequestTimeout cfg) ErrorTransactionInvalidId ErrorTransactionNotAcquired
    (if decide (devID = EmptyString) then None else Some (DeviceID devID)) txn.

(** [defer txn.Close()]: it runs whatever the rest of the handler returns. *)
Definition with_transaction {A} (take : M VolthaCore KVTransaction) (body : M VolthaCore A) : M VolthaCore A :=
  let* t := take in
  λ s, let (r, s1) := body s in
       match on_txn t Transaction.Close s1 with
       | (Panic, s2) => (Panic, s2)
       | (_, s2) => (r, s2)
       end.

(** [if competeForTransaction() { ... }]. *)
Definition competing {A} (take : M VolthaCore KVTransaction) (body : M VolthaCore A) : M VolthaCore A :=
  if hc_coreInCompetingMode cfg then with_transaction take body else body.

(** ** The goroutines *)

(** A goroutine of a handler, one of the managers, or of the adapter manager, or
    a round of a monitoring goroutine. *)
Inductive vc_task :=
  | RunBackground (i : nat)
  | RunCoreTask (i : nat)
  | RunRestart (i : nat)
  | RunMonitor (i : nat) (w : wake).

Definition run_vc_task (t : vc_task) : M VolthaCore unit :=
  let* s := get in
  match t with
  | RunBackground i =>
      match vc_background s !! i with
      | None => ret tt
      | Some g =>
          let* _ := modify (set_background (delete_at i (vc_background s))) in
          let* _ := attempt (run_goroutine g) in ret tt
      end
  | RunCoreTask i =>
      let* _ := match co_tasks (vc_core s) !! i with
                | Some (TaskOwnedByMe id) => let* _ := attempt (owned_by_me (DeviceID id)) in ret tt
                | _ => ret tt
                end in
      on_core (run_task_at fuel others i)
  | RunRestart i =>
      match am_restarts (vc_adapters s) !! i with
      | None => ret tt
      | Some adapter =>
          let* _ := modify (λ s, set_adapters (set_restarts (delete_at i (am_restarts (vc_adapters s)))
                                                 (vc_adapters s)) s) in
          let* owned := on_own GetAllDeviceIdsOwnedByMe in
          let* _ := attempt (on_core (adapterRestarted tie owned (va_Id adapter))) in ret tt
      end
  | RunMonitor i w => on_own (run_own_op (OpMonitor i w))
  end.
End Requests.
