(* ===== verification/AdapterRequests.v ===== *)
(** * Requests of the adapters

    [rw_core/core/adapter_request_handler.go]: the requests an adapter sends over
    Kafka.  A handler decodes its arguments, competes for the request with the
    other core of the pair, and calls a manager, most often in a goroutine. *)

From S2P Require Import Prelude OpenFlow VolthaTypes FlowUtils Decomposer CoreUtils DataProxy.
From S2P Require Import DeviceAgent LogicalAgent LogicalTables LogicalPorts KVStore Ownership Transaction AdapterMgr.
From S2P Require Import Managers LogicalMgr DeviceMgr CoreInvariant Requests.

(** ** Arguments *)

(** The types of the messages in which arguments arrive, and the messages. *)
Inductive FieldType :=
  | T_ID | T_StrType | T_IntType | T_Device | T_Port | T_ProxyAddress | T_PmConfigs | T_Packet
  | T_ImageDownload | T_Adapter | T_DeviceTypes.
Inductive Field :=
  | F_ID (Id : string) | F_StrType (Val : string) | F_IntType (Val : Z) | F_Device (d : Device)
  | F_Port (p : Port) | F_ProxyAddress (p : ProxyAddress) | F_PmConfigs (pm : PmConfigs)
  | F_Packet (Payload : list Z) | F_ImageDownload (img : ImageDownload)
  | F_Adapter (a : VolthaAdapter) | F_DeviceTypes (Items : list DeviceType).

Definition type_of (f : Field) : FieldType :=
  match f with
  | F_ID _ => T_ID | F_StrType _ => T_StrType | F_IntType _ => T_IntType | F_Device _ => T_Device
  | F_Port _ => T_Port | F_ProxyAddress _ => T_ProxyAddress | F_PmConfigs _ => T_PmConfigs
  | F_Packet _ => T_Packet | F_ImageDownload _ => T_ImageDownload | F_Adapter _ => T_Adapter
  | F_DeviceTypes _ => T_DeviceTypes
  end.

(** [ptypes.UnmarshalAny] into a message of a given type, a vendored library. *)
Class AnyCodec (Any : Type) := UnmarshalAny : FieldType → Any → outcome Field.

Record Argument (Any : Type) := mkArgument { arg_Key : string; arg_Value : Any }.
Arguments mkArgument {Any}.
Arguments arg_Key {Any}.
Arguments arg_Value {Any}.

Definition TransactionKey : string := "transactionID".

(** The variables of a handler, by the key that sets them; [signature] is the
    switch over the keys.  Other keys are ignored, a repeated key sets its
    variable again. *)
Definition Vars := gmap string Field.

Section Decoding.
Context {Any : Type} `{AnyCodec Any}.

Definition case_of (signature : list (string * FieldType)) (key : string) : option FieldType :=
  snd <$> List.find (λ c, bool_decide (c.1 = key)) signature.

Fixpoint decode (signature : list (string * FieldType)) (args : list (Argument Any)) (vars : Vars)
    : outcome Vars :=
  match args with
  | [] => Ok vars
  | arg :: args =>
      match case_of signature (arg_Key arg) with
      | None => decode signature args vars
      | Some t =>
          let? f := UnmarshalAny t (arg_Value arg) in
          decode signature args (<[arg_Key arg := f]> vars)
      end
  end.
End Decoding.

(** Reading a variable; one that was not set has its zero value. *)
Definition str (vars : Vars) (key : string) : string :=
  match vars !! key with Some (F_ID s | F_StrType s) => s | _ => EmptyString end.
Definition int (vars : Vars) (key : string) : Z :=
  match vars !! key with Some (F_IntType v) => v | _ => 0 end.

(** [voltha.OperStatus_Types(v)] and the like: an [int64] is cut to 32 bits. *)
Definition oper_status (v : Z) : OperStatus :=
  match i32 v with
  | 0 => Oper_UNKNOWN | 1 => Oper_DISCOVERED | 2 => Oper_ACTIVATING | 3 => Oper_TESTING
  | 4 => Oper_ACTIVE | 5 => Oper_FAILED | v => Oper_other v
  end.
Definition connect_status (v : Z) : ConnectStatus :=
  match i32 v with 0 => Conn_UNKNOWN | 1 => Conn_UNREACHABLE | 2 => Conn_REACHABLE | v => Conn_other v end.
Definition port_type (v : Z) : PortType :=
  match i32 v with
  | 0 => Port_UNKNOWN | 1 => ETHERNET_NNI | 2 => ETHERNET_UNI | 3 => PON_OLT | 4 => PON_ONU
  | 5 => VENET_OLT | 6 => VENET_ONU | v => Port_other v
  end.

Definition device_of (vars : Vars) (key : string) : Device :=
  match vars !! key with Some (F_Device d) => d | _ => Device_zero end.
Definition port_of (vars : Vars) (key : string) : Port :=
  match vars !! key with
  | Some (F_Port p) => p
  | _ => mkPort 0 "" Port_UNKNOWN Admin_UNKNOWN Oper_UNKNOWN "" [] 0 0 0 0 0 0
  end.
Definition proxy_of (vars : Vars) (key : string) : ProxyAddress :=
  match vars !! key with Some (F_ProxyAddress p) => p | _ => mkProxyAddress "" "" 0 0 "" 0 0 end.
Definition pm_of (vars : Vars) (key : string) : PmConfigs :=
  match vars !! key with Some (F_PmConfigs pm) => pm | _ => mkPmConfigs "" 0 false false [] [] end.
Definition packet_of (vars : Vars) (key : string) : list Z :=
  match vars !! key with Some (F_Packet p) => p | _ => [] end.
Definition image_of (vars : Vars) (key : string) : ImageDownload :=
  match vars !! key with
  | Some (F_ImageDownload img) => img
  | _ => mkImageDownload "" "" "" 0 DOWNLOAD_UNKNOWN "" 0 0 "" false "" IMAGE_UNKNOWN 0
  end.
Definition adapter_of (vars : Vars) (key : string) : VolthaAdapter :=
  match vars !! key with Some (F_Adapter a) => a | _ => adapter_named "" end.
Definition types_of (vars : Vars) (key : string) : list DeviceType :=
  match vars !! key with Some (F_DeviceTypes ts) => ts | _ => [] end.

(** ** Handlers *)

Section Handlers.
Context {Store KV Any : Type} `{DataProxy Device Store, DataProxy LogicalDevice Store, DataList Device Store,
  DataList LogicalDevice Store, DataList DeviceType Store, Adapter, AdapterMgrView, AdapterQueries, ProtoText,
  GoRange, DeviceManagerView, DeviceManagerCalls, CoreEnv, KVClient KV,
  DataProxy VolthaAdapter Store, DataList VolthaAdapter Store, DataProxy DeviceType Store, AnyCodec Any}.
Notation VolthaCore := (VolthaCore (Store := Store) (KV := KV)).

Context (fuel : nat) (cfg : HandlerConfig) (env : ReqEnv (Store := Store) (KV := KV)).
Notation args_t := (list (Argument Any)).

(** A handler answers an error, nil ([None]) or a result. *)
Definition with_args {A} (n : nat) (message : string) (signature : list (string * FieldType)) (args : args_t)
    (handler : Vars → M VolthaCore A) : M VolthaCore A :=
  if (length args <? n)%nat then fail (Plain message)
  else
    let* vars := lift (decode signature args ∅) in
    handler vars.

Definition invalid_number : string := "invalid-number-of-args".

(** Most handlers compete for the request with the identifier of a device, and
    then answer a test or do their work. *)
Definition compete_for (vars : Vars) (devID : string) {A} (body : M VolthaCore A) : M VolthaCore A :=
  competing cfg (takeRequestOwnership fuel cfg env (str vars TransactionKey) devID) body.

(** In a test the handlers that work in a goroutine answer nil. *)
Definition in_goroutine (g : Goroutine) : M VolthaCore (option unit) :=
  if hc_TestMode cfg then ret None else let* _ := go g in ret (Some tt).

(** ** Registration *)

(** The core that did not get the request reads the adapters from the data
    model. *)
Definition Register (args : args_t) : M VolthaCore string :=
  with_args 3 invalid_number [("adapter", T_Adapter); ("deviceTypes", T_DeviceTypes); (TransactionKey, T_StrType)]
    args (λ vars,
    let adapter := adapter_of vars "adapter" in
    let take :=
      let* r := attempt (takeRequestOwnership fuel cfg env (str vars TransactionKey) EmptyString) in
      match r with
      | inl txn => ret txn
      | inr e =>
          let* _ := if decide (e = ErrorTransactionNotAcquired) then go (GoUpdateAdapters adapter) else ret tt in
          fail e
      end in
    competing cfg take
      (if hc_TestMode cfg then ret "CoreInstance"
       else on_adapters (registerAdapter adapter (Some (types_of vars "deviceTypes"))))).

(** ** Queries *)

Definition GetDevice (args : args_t) : M VolthaCore Device :=
  with_args 2 invalid_number [("device_id", T_ID); (TransactionKey, T_StrType)] args (λ vars,
    let pID := str vars "device_id" in
    compete_for vars pID
      (if hc_TestMode cfg then ret (set_Id pID Device_zero)
       else
         let* device := attempt (on_core (Managers.GetDevice fuel pID)) in
         match device with inl d => ret d | inr e => fail (Status NotFound (error_string e)) end)).

Definition GetChildDevice (args : args_t) : M VolthaCore Device :=
  with_args 3 invalid_number [("device_id", T_ID); ("serial_number", T_StrType); ("onu_id", T_IntType);
    ("parent_port_no", T_IntType); (TransactionKey, T_StrType)] args (λ vars,
    let pID := str vars "device_id" in
    compete_for vars pID
      (if hc_TestMode cfg then ret (set_Id pID Device_zero)
       else on_core (DeviceMgr.GetChildDevice fuel pID (str vars "serial_number") (int vars "onu_id")
                       (int vars "parent_port_no")))).

(** [text] renders a message. *)
Definition GetChildDeviceWithProxyAddress (text : ProxyAddress → string) (args : args_t) : M VolthaCore Device :=
  with_args 2 invalid_number [("proxy_address", T_ProxyAddress); (TransactionKey, T_StrType)] args (λ vars,
    let proxyAddress := proxy_of vars "proxy_address" in
    compete_for vars (pa_DeviceId proxyAddress)
      (if hc_TestMode cfg then ret (set_Id (pa_DeviceId proxyAddress) Device_zero)
       else on_core (DeviceMgr.GetChildDeviceWithProxyAddress fuel proxyAddress (text proxyAddress)))).

(** This handler answers a test before it competes. *)
Definition GetPorts (args : args_t) : M VolthaCore (list Port) :=
  with_args 3 invalid_number [("device_id", T_ID); ("port_type", T_IntType); (TransactionKey, T_StrType)] args
    (λ vars,
    let deviceID := str vars "device_id" in
    if hc_TestMode cfg
    then ret [mkPort 0 "test_port" Port_UNKNOWN Admin_UNKNOWN Oper_UNKNOWN "" [] 0 0 0 0 0 0]
    else compete_for vars deviceID (on_core (getPorts fuel deviceID (port_type (int vars "port_type"))))).

Definition GetChildDevices (args : args_t) : M VolthaCore (list Device) :=
  with_args 2 invalid_number [("device_id", T_ID); (TransactionKey, T_StrType)] args (λ vars,
    let pID := str vars "device_id" in
    compete_for vars pID
      (if hc_TestMode cfg then ret [] else on_core (getAllChildDevices fuel pID))).

(** ** Children *)

(** A child that is known already is reported as an error. *)
Definition ChildDeviceDetected (args : args_t) : M VolthaCore (option Device) :=
  with_args 5 invalid_number [("parent_device_id", T_ID); ("parent_port_no", T_IntType);
    ("child_device_type", T_StrType); ("channel_id", T_IntType); ("vendor_id", T_StrType);
    ("serial_number", T_StrType); ("onu_id", T_IntType); (TransactionKey, T_StrType)] args (λ vars,
    let pID := str vars "parent_device_id" in
    compete_for vars pID
      (if hc_TestMode cfg then ret None
       else
         let* r := on_core (childDeviceDetected fuel pID (int vars "parent_port_no") (str vars "child_device_type")
                      (int vars "channel_id") (str vars "vendor_id") (str vars "serial_number")
                      (int vars "onu_id")) in
         if (r.2 : bool) then fail (Status AlreadyExists (str vars "serial_number")) else ret (Some r.1))).

(** [raced] is the interference between the goroutines of the method. *)
Definition ChildDevicesDetected (raced : option (option GoError)) (args : args_t) : M VolthaCore (option unit) :=
  with_args 2 invalid_number [("parent_device_id", T_ID); (TransactionKey, T_StrType)] args (λ vars,
    let parentDeviceID := str vars "parent_device_id" in
    compete_for vars parentDeviceID
      (if hc_TestMode cfg then ret None
       else let* _ := on_core (childDevicesDetected fuel raced parentDeviceID) in ret (Some tt))).

Definition ChildDevicesLost (args : args_t) : M VolthaCore (option unit) :=
  with_args 2 invalid_number [("parent_device_id", T_ID); (TransactionKey, T_StrType)] args (λ vars,
    let parentDeviceID := str vars "parent_device_id" in
    compete_for vars parentDeviceID (in_goroutine (GoCore (DmChildDevicesLost parentDeviceID)))).

Definition ReconcileChildDevices (args : args_t) : M VolthaCore (option unit) :=
  with_args 2 invalid_number [("parent_device_id", T_ID); (TransactionKey, T_StrType)] args (λ vars,
    let parentDeviceID := str vars "parent_device_id" in
    compete_for vars parentDeviceID (in_goroutine (GoCore (DmReconcileChildren parentDeviceID)))).

(** ** Updates *)

(** This one does not answer nil in a test. *)
Definition DeviceUpdate (args : args_t) : M VolthaCore (option unit) :=
  with_args 2 invalid_number [("device", T_Device); (TransactionKey, T_StrType)] args (λ vars,
    let device := device_of vars "device" in
    compete_for vars (dev_Id device)
      (if hc_TestMode cfg then ret (Some tt) else in_goroutine (GoCore (DmAdapterData device)))).

Definition status_signature : list (string * FieldType) :=
  [("device_id", T_ID); ("oper_status", T_IntType); ("connect_status", T_IntType); (TransactionKey, T_StrType)].

Definition DeviceStateUpdate (args : args_t) : M VolthaCore (option unit) :=
  with_args 3 invalid_number status_signature args (λ vars,
    let deviceID := str vars "device_id" in
    compete_for vars deviceID
      (in_goroutine (GoCore (DmDeviceStatus deviceID (oper_status (int vars "oper_status"))
                               (connect_status (int vars "connect_status")))))).

Definition ChildrenStateUpdate (args : args_t) : M VolthaCore (option unit) :=
  with_args 3 invalid_number status_signature args (λ vars,
    let deviceID := str vars "device_id" in
    compete_for vars deviceID
      (in_goroutine (GoCore (DmChildrenStatus deviceID (oper_status (int vars "oper_status"))
                               (connect_status (int vars "connect_status")))))).

Definition PortsStateUpdate (args : args_t) : M VolthaCore (option unit) :=
  with_args 2 invalid_number [("device_id", T_ID); ("oper_status", T_IntType); (TransactionKey, T_StrType)] args
    (λ vars,
    let deviceID := str vars "device_id" in
    compete_for vars deviceID
      (in_goroutine (GoCore (DmPortsState deviceID (oper_status (int vars "oper_status")))))).

Definition PortStateUpdate (args : args_t) : M VolthaCore (option unit) :=
  with_args 3 invalid_number [("device_id", T_ID); ("oper_status", T_IntType); ("port_type", T_IntType);
    ("port_no", T_IntType); (TransactionKey, T_StrType)] args (λ vars,
    let deviceID := str vars "device_id" in
    compete_for vars deviceID
      (in_goroutine (GoCore (DmPortState deviceID (port_type (int vars "port_type")) (u32 (int vars "port_no"))
                               (oper_status (int vars "oper_status")))))).

Definition DeleteAllPorts (args : args_t) : M VolthaCore (option unit) :=
  with_args 3 invalid_number [("device_id", T_ID); (TransactionKey, T_StrType)] args (λ vars,
    let deviceID := str vars "device_id" in
    compete_for vars deviceID (in_goroutine (GoCore (DmDeleteAllPorts deviceID)))).

Definition PortCreated (args : args_t) : M VolthaCore (option unit) :=
  with_args 3 invalid_number [("device_id", T_ID); ("port", T_Port); (TransactionKey, T_StrType)] args (λ vars,
    let deviceID := str vars "device_id" in
    compete_for vars deviceID (in_goroutine (GoCore (DmAddPort deviceID (port_of vars "port"))))).

Definition DevicePMConfigUpdate (args : args_t) : M VolthaCore (option unit) :=
  with_args 2 invalid_number [("device_pm_config", T_PmConfigs); (TransactionKey, T_StrType)] args (λ vars,
    let pmConfigs := pm_of vars "device_pm_config" in
    compete_for vars (pm_Id pmConfigs) (in_goroutine (GoInitPmConfigs (pm_Id pmConfigs) pmConfigs))).

Definition PacketIn (args : args_t) : M VolthaCore (option unit) :=
  with_args 4 invalid_number [("device_id", T_ID); ("port", T_IntType); ("packet", T_Packet);
    (TransactionKey, T_StrType)] args (λ vars,
    let deviceID := str vars "device_id" in
    compete_for vars deviceID
      (in_goroutine (GoCore (DmPacketIn deviceID (u32 (int vars "port")) (str vars TransactionKey)
                               (packet_of vars "packet"))))).

Definition UpdateImageDownload (args : args_t) : M VolthaCore (option unit) :=
  with_args 2 invalid_number [("device_id", T_ID); ("image_download", T_ImageDownload); (TransactionKey, T_StrType)]
    args (λ vars,
    let deviceID := str vars "device_id" in
    compete_for vars deviceID (in_goroutine (GoCore (DmUpdateImage deviceID (image_of vars "image_download"))))).

Definition DeviceReasonUpdate (args : args_t) : M VolthaCore (option unit) :=
  with_args 2 "DeviceReasonUpdate: invalid-number-of-args"
    [("device_id", T_ID); ("device_reason", T_StrType); (TransactionKey, T_StrType)] args (λ vars,
    let deviceID := str vars "device_id" in
    compete_for vars deviceID (in_goroutine (GoCore (DmReason deviceID (str vars "device_reason"))))).
End Handlers.
