(* ===== verification/Northbound.v ===== *)
(** * Requests of the controller and the operator

    [rw_core/core/grpc_nbi_api_handler.go]: the gRPC calls on the core.  A call
    competes for the request with the other core of the pair, starts a manager
    in a goroutine and waits for its response, or for its client to give up.
    Results that accompany an error are dropped, as gRPC does. *)

From S2P Require Import Prelude OpenFlow VolthaTypes FlowUtils Decomposer CoreUtils DataProxy.
From S2P Require Import DeviceAgent LogicalAgent LogicalTables LogicalPorts KVStore Ownership Transaction AdapterMgr.
From S2P Require Import Managers LogicalMgr DeviceMgr CoreInvariant Requests.

(** The metadata of the context of a call; [None]: there is none. *)
Definition Metadata := option (gmap string (list string)).

Definition serial_number_key : string := "voltha_serial_number".
Definition api_test : string := "api_test".

(** A key of the metadata has at least one value; an empty slice panics. *)
Definition serial_number (md : Metadata) : outcome string :=
  match md with
  | None => Err (Plain "metadata-not-found")
  | Some md =>
      match md !! serial_number_key with
      | None => Err (Plain "serial-number-not-found")
      | Some serNum => index serNum 0
      end
  end.

Definition isTestMode (md : Metadata) : bool :=
  match md with Some md => bool_decide (is_Some (md !! api_test)) | None => false end.

Definition isOFControllerRequest (cfg : HandlerConfig) (md : Metadata) : bool :=
  match md with Some md => bool_decide (is_Some (md !! hc_CoreBindingKey cfg)) | None => false end.

Inductive ImageRequest := ImageDownloadRequest | CancelImageDownloadRequest | ActivateImageRequest | RevertImageRequest.

(** What the loop of [StreamPacketsOut] receives. *)
Inductive stream_event := StreamPacket (logicalDeviceID : string) (packet : OfpPacketOut) | StreamEOF | StreamError | StreamDone.

Section Northbound.
Context {Store KV : Type} `{DataProxy Device Store, DataProxy LogicalDevice Store, DataList Device Store,
  DataList LogicalDevice Store, DataList DeviceType Store, Adapter, AdapterMgrView, AdapterQueries, ProtoText,
  GoRange, DeviceManagerView, DeviceManagerCalls, CoreEnv, KVClient KV,
  DataProxy VolthaAdapter Store, DataList VolthaAdapter Store, DataProxy DeviceType Store}.
Notation Core := (Managers.Core (Store := Store)).
Notation VolthaCore := (VolthaCore (Store := Store) (KV := KV)).
Notation KVTransaction := (KVTransaction (KV := KV)).

Context (fuel : nat) (tie : nat → bool) (others : @LogicalState Store → @LogicalState Store).
Context (cfg : HandlerConfig) (env : ReqEnv (Store := Store) (KV := KV)) (md : Metadata).

(** ** Acquiring and waiting *)

Definition createKvTransaction : M VolthaCore KVTransaction :=
  let* txnID := lift (serial_number md) in new_transaction cfg txnID.

Definition takeRequestOwnership (timeout : Z) (id : option RequestID) : M VolthaCore KVTransaction :=
  let* txn := createKvTransaction in
  acquire fuel env timeout errorIDNotFound errorTransactionNotAcquired id txn.

Definition compete_for (id : option RequestID) {A} (body : M VolthaCore A) : M VolthaCore A :=
  competing cfg (takeRequestOwnership (hc_defaultRequestTimeout cfg) id) body.
Definition compete_long_for (id : option RequestID) {A} (body : M VolthaCore A) : M VolthaCore A :=
  competing cfg (takeRequestOwnership (hc_longRunningRequestTimeout cfg) id) body.

(** The response of the goroutine [g], whose method is [m], or the error of the
    context: then the goroutine is left behind. *)
Definition wait_for {A} (g : Goroutine) (m : M Core A) : M VolthaCore A :=
  match re_timeout env with
  | None => on_core m
  | Some e => let* _ := go g in fail e
  end.

Definition waitForNilResponseOnSuccess (op : core_op) : M VolthaCore unit :=
  wait_for (GoCore op) (run_core_op fuel others tie op).

(** Tests are answered at once. *)
Definition tested {A} (answer : A) (body : M VolthaCore A) : M VolthaCore A :=
  if isTestMode md then ret answer else body.

(** ** Logical devices *)

Definition of_logical (id : string) : option RequestID := Some (LogicalDeviceID id).
Definition of_device (id : string) : option RequestID := Some (DeviceID id).

Definition GetLogicalDevicePort (id : LogicalPortId) : M VolthaCore LogicalPort :=
  compete_for (of_logical (lpi_Id id)) (on_core (getLogicalPort id)).

Definition EnableLogicalDevicePort (id : LogicalPortId) : M VolthaCore unit :=
  tested tt (compete_for (of_logical (lpi_Id id)) (waitForNilResponseOnSuccess (LdEnablePort id))).
Definition DisableLogicalDevicePort (id : LogicalPortId) : M VolthaCore unit :=
  tested tt (compete_for (of_logical (lpi_Id id)) (waitForNilResponseOnSuccess (LdDisablePort id))).

Definition UpdateLogicalDeviceFlowTable (id : string) (flow : option OfpFlowMod) : M VolthaCore unit :=
  tested tt (compete_for (of_logical id) (waitForNilResponseOnSuccess (LdFlowTable id flow))).
Definition UpdateLogicalDeviceFlowGroupTable (id : string) (group : option OfpGroupMod) : M VolthaCore unit :=
  tested tt (compete_for (of_logical id) (waitForNilResponseOnSuccess (LdGroupTable id group))).
Definition UpdateLogicalDeviceMeterTable (id : string) (meter : option OfpMeterMod) : M VolthaCore unit :=
  tested tt (compete_for (of_logical id) (waitForNilResponseOnSuccess (LdMeterTable id meter))).

Definition GetLogicalDevice (id : string) : M VolthaCore (option LogicalDevice) :=
  compete_for (of_logical id) (on_core (getLogicalDevice id)).

(** A competing core answers a controller with the logical devices it manages. *)
Definition ListLogicalDevices : M VolthaCore (list LogicalDevice) :=
  compete_for None
    (if hc_coreInCompetingMode cfg && isOFControllerRequest cfg md
     then on_core listManagedLogicalDevices else on_core listLogicalDevices).

Definition ListLogicalDeviceFlows (id : string) := compete_for (of_logical id) (on_core (ldm_ListFlows id)).
Definition ListLogicalDeviceFlowGroups (id : string) :=
  compete_for (of_logical id) (on_core (ldm_ListFlowGroups id)).
Definition ListLogicalDevicePorts (id : string) := compete_for (of_logical id) (on_core (ldm_ListPorts id)).
Definition ListLogicalDeviceMeters (id : string) := compete_for (of_logical id) (on_core (ldm_ListMeters id)).

(** ** Devices *)

Definition GetDevice (id : string) : M VolthaCore Device := on_core (Managers.GetDevice fuel id).
Definition ListDevices : M VolthaCore (list Device) := on_core DeviceMgr.ListDevices.
Definition ListDeviceIds : M VolthaCore (list string) := tested [] (on_core DeviceMgr.ListDeviceIds).
Definition ReconcileDevices (ids : list string) : M VolthaCore unit :=
  tested tt (waitForNilResponseOnSuccess (DmReconcileDevices ids)).

(** The core that created the device tries to become its owner. *)
Definition CreateDevice (device : Device) : M VolthaCore Device :=
  if decide (dev_MacAddress device = EmptyString ∧ GetHostAndPort device = EmptyString)
  then fail (Plain "no-device-info-present; MAC or HOSTIP&PORT")
  else
    tested (set_Id (dev_Id device) Device_zero)
      (compete_for None
        (let* d := wait_for (GoCore (DmCreateDevice device)) (createDevice device) in
         let* _ := attempt (owned_by_me fuel (DeviceID (dev_Id d))) in
         ret d)).

Definition EnableDevice (id : string) : M VolthaCore unit :=
  tested tt (compete_long_for (of_device id) (waitForNilResponseOnSuccess (DmEnableDevice id))).
Definition DisableDevice (id : string) : M VolthaCore unit :=
  tested tt (compete_for (of_device id) (waitForNilResponseOnSuccess (DmDisableDevice id))).
Definition RebootDevice (id : string) : M VolthaCore unit :=
  tested tt (compete_for (of_device id) (waitForNilResponseOnSuccess (DmRebootDevice id))).

(** The core that did not get the request and does not own the device stops
    managing it. *)
Definition DeleteDevice (id : string) : M VolthaCore unit :=
  let take :=
    let* r := attempt (takeRequestOwnership (hc_defaultRequestTimeout cfg) (of_device id)) in
    match r with
    | inl txn => ret txn
    | inr e =>
        let* _ :=
          if decide (e = errorTransactionNotAcquired) then
            let* owned := attempt (owned_by_me fuel (DeviceID id)) in
            match owned with
            | inl false => on_core (stopManagingDevice fuel id)
            | _ => ret tt
            end
          else ret tt in
        fail e
    end in
  tested tt (competing cfg take (waitForNilResponseOnSuccess (DmDeleteDevice id))).

Definition ListDevicePorts (id : string) : M VolthaCore (list Port) :=
  compete_for (of_device id)
    (let* device := on_core (Managers.GetDevice fuel id) in ret (dev_Ports device)).
Definition ListDeviceFlows (id : string) : M VolthaCore (list OfpFlowStats) :=
  compete_for (of_device id)
    (let* device := on_core (Managers.GetDevice fuel id) in ret (dev_Flows device)).
Definition ListDeviceFlowGroups (id : string) : M VolthaCore (list OfpGroupEntry) :=
  let* device := attempt (on_core (Managers.GetDevice fuel id)) in
  match device with
  | inl d => ret (dev_FlowGroups d)
  | inr _ => fail (Status NotFound ("device-" +:+ id))
  end.

Definition EnablePort (port : Port) : M VolthaCore unit :=
  tested tt (compete_for (of_device (port_DeviceId port)) (waitForNilResponseOnSuccess (DmEnablePort port))).
Definition DisablePort (port : Port) : M VolthaCore unit :=
  tested tt (compete_for (of_device (port_DeviceId port)) (waitForNilResponseOnSuccess (DmDisablePort port))).

(** The answer does not wait for the alarm. *)
Definition SimulateAlarm (id : string) (req : Opaque) : M VolthaCore unit :=
  tested tt (compete_long_for (of_device id) (go (GoCore (DmSimulateAlarm id req)))).

(** ** Adapters *)

Definition ListAdapters : M VolthaCore (list VolthaAdapter) := on_adapters listAdapters.
Definition ListDeviceTypes : M VolthaCore (list DeviceType) := on_adapters listDeviceTypes.
Definition GetDeviceType (id : string) : M VolthaCore DeviceType :=
  let* deviceType := on_adapters (getDeviceType id) in
  match deviceType with
  | Some dt => ret dt
  | None => fail (Status NotFound ("device_type-" +:+ id))
  end.

(** ** Images and metrics *)

Definition image_op (requestType : ImageRequest) (img : ImageDownload) : core_op :=
  match requestType with
  | ImageDownloadRequest => DmDownloadImage img
  | CancelImageDownloadRequest => DmCancelImage img
  | ActivateImageRequest => DmActivateImage img
  | RevertImageRequest => DmRevertImage img
  end.

(** The result is [OPERATION_SUCCESS]. *)
Definition processImageRequest (img : ImageDownload) (requestType : ImageRequest) : M VolthaCore unit :=
  tested tt (compete_for (of_device (img_Id img)) (waitForNilResponseOnSuccess (image_op requestType img))).

Definition DownloadImage (img : ImageDownload) : M VolthaCore unit :=
  tested tt (processImageRequest img ImageDownloadRequest).
Definition CancelImageDownload (img : ImageDownload) : M VolthaCore unit :=
  tested tt (processImageRequest img CancelImageDownloadRequest).
Definition ActivateImageUpdate (img : ImageDownload) : M VolthaCore unit :=
  tested tt (processImageRequest img ActivateImageRequest).
Definition RevertImageUpdate (img : ImageDownload) : M VolthaCore unit :=
  tested tt (processImageRequest img RevertImageRequest).

Definition succeeded_download : ImageDownload :=
  mkImageDownload "" "" "" 0 DOWNLOAD_SUCCEEDED "" 0 0 "" false "" IMAGE_UNKNOWN 0.

Definition GetImageDownloadStatus (img : ImageDownload) : M VolthaCore ImageDownload :=
  tested succeeded_download
    (compete_for (of_device (img_Id img))
       (wait_for (GoGetImageDownloadStatus img) (DeviceMgr.getImageDownloadStatus fuel img))).
Definition GetImageDownload (img : ImageDownload) : M VolthaCore ImageDownload :=
  tested succeeded_download (on_core (DeviceMgr.getImageDownload fuel img)).
Definition ListImageDownloads (id : string) : M VolthaCore (option (list (option ImageDownload))) :=
  tested (Some []) (on_core (DeviceMgr.listImageDownloads fuel id)).

Definition UpdateDevicePmConfigs (configs : PmConfigs) : M VolthaCore unit :=
  tested tt (compete_for (of_device (pm_Id configs)) (waitForNilResponseOnSuccess (DmUpdatePmConfigs configs))).

(** The identifier of the device is passed on as that of a logical device. *)
Definition ListDevicePmConfigs (id : string) : M VolthaCore (option PmConfigs) :=
  compete_for (of_logical id) (on_core (DeviceMgr.listPmConfigs fuel id)).

(** ** Packets of the controller *)

Definition forwardPacketOut (id : string) (packet : OfpPacketOut) : M VolthaCore unit :=
  let* owned := attempt (owned_by_me fuel (LogicalDeviceID id)) in
  match owned with
  | inl true => on_core (if_logical id (LogicalPorts.packetOut packet))
  | _ => ret tt
  end.

(** The loop goes on after an error of the stream; it ends with the events. *)
Fixpoint StreamPacketsOut (events : list stream_event) : M VolthaCore unit :=
  match events with
  | [] => ret tt
  | (StreamEOF | StreamDone) :: _ => ret tt
  | StreamError :: events => StreamPacketsOut events
  | StreamPacket id packet :: events =>
      let* _ := forwardPacketOut id packet in StreamPacketsOut events
  end.
End Northbound.
