(* ===== verification/Streams.v ===== *)
(** * Streams to the controller

    [rw_core/core/grpc_nbi_api_handler.go]: the packets and the port changes for
    the OpenFlow controller wait in a queue; a streaming call takes them out and
    sends them ([sendPacketIn] and [ReceivePacketsIn], [sendChangeEvent] and
    [ReceiveChangeEvents], which work alike).  A new call tells the running one to
    end.  Calls run at the same time, so each receive is a step. *)

From S2P Require Import Prelude.

Section Streams.
Context {P : Type}.

(** A streaming call: it waits for its queue, or is about to send a packet. *)
Inductive call_state := Waiting | Sending (packet : P).

(** [st_calls] are the running calls; [st_tracker] is the entry of
    [streamingTracker.calls], with the packet that was saved; [st_done] counts
    the messages in the buffer of [packetInQueueDone].  [st_sent] are the packets
    of the core and [st_received] those the controller got, in this order. *)
Record Stream := mkStream {
  st_queue : list P; st_done : nat; st_tracker : option (option P); st_calls : list call_state;
  st_sent : list P; st_received : list P }.

(** The buffers of the channels: 100 packets and one message. *)
Definition queue_capacity : nat := 100.
Definition done_capacity : nat := 1.

Definition empty_stream : Stream := mkStream [] 0 None [] [] [].

(** [sendPacketIn] waits for a free place in the queue. *)
Definition sendPacketIn (packet : P) (s : Stream) : option Stream :=
  if decide (length (st_queue s) < queue_capacity)%nat
  then Some (mkStream (st_queue s ++ [packet]) (st_done s) (st_tracker s) (st_calls s)
               (st_sent s ++ [packet]) (st_received s))
  else None.

(** [getStreamingTracker] waits for a free place for its message. *)
Definition getStreamingTracker (s : Stream) : option Stream :=
  match st_tracker s with
  | Some _ =>
      if decide (st_done s < done_capacity)%nat
      then Some (mkStream (st_queue s) (S (st_done s)) (st_tracker s) (st_calls s) (st_sent s) (st_received s))
      else None
  | None => Some (mkStream (st_queue s) (st_done s) (Some None) (st_calls s) (st_sent s) (st_received s))
  end.

(** [flushFailedPackets] puts the saved packet back, and keeps it saved. *)
Definition flushFailedPackets (s : Stream) : option Stream :=
  match st_tracker s with
  | Some (Some packet) =>
      if decide (length (st_queue s) < queue_capacity)%nat
      then Some (mkStream (st_queue s ++ [packet]) (st_done s) (st_tracker s) (st_calls s) (st_sent s) (st_received s))
      else None
  | _ => Some s
  end.

(** A call starts. *)
Definition start_call (s : Stream) : option Stream :=
  s ← getStreamingTracker s; s ← flushFailedPackets s;
  Some (mkStream (st_queue s) (st_done s) (st_tracker s) (st_calls s ++ [Waiting]) (st_sent s) (st_received s)).

(** The select of call [i]: a packet, or the message to end. *)
Definition take_packet (i : nat) (s : Stream) : option Stream :=
  match st_calls s !! i, st_queue s with
  | Some Waiting, packet :: queue =>
      Some (mkStream queue (st_done s) (st_tracker s) (<[i := Sending packet]> (st_calls s))
              (st_sent s) (st_received s))
  | _, _ => None
  end.
Definition take_done (i : nat) (s : Stream) : option Stream :=
  match st_calls s !! i, st_done s with
  | Some Waiting, S n =>
      Some (mkStream (st_queue s) n (st_tracker s) (delete i (st_calls s)) (st_sent s) (st_received s))
  | _, _ => None
  end.

(** [packetsIn.Send]: a packet that cannot be sent is saved in the tracker, one
    that was sent clears it. *)
Definition send_packet (i : nat) (failed : bool) (s : Stream) : option Stream :=
  match st_calls s !! i with
  | Some (Sending packet) =>
      Some (mkStream (st_queue s) (st_done s) (Some (if failed then Some packet else None))
              (<[i := Waiting]> (st_calls s)) (st_sent s)
              (if failed then st_received s else st_received s ++ [packet]))
  | _ => None
  end.

(** What happens to the stream. *)
Inductive stream_op :=
  | OpSend (packet : P)
  | OpStart
  | OpTake (i : nat)
  | OpDone (i : nat)
  | OpDeliver (i : nat) (failed : bool).

Definition run_stream_op (op : stream_op) (s : Stream) : option Stream :=
  match op with
  | OpSend packet => sendPacketIn packet s
  | OpStart => start_call s
  | OpTake i => take_packet i s
  | OpDone i => take_done i s
  | OpDeliver i failed => send_packet i failed s
  end.

Fixpoint run_stream (ops : list stream_op) (s : Stream) : option Stream :=
  match ops with
  | [] => Some s
  | op :: ops => s ← run_stream_op op s; run_stream ops s
  end.

(** ** Without failures, every packet is in one place *)

Definition no_failure (op : stream_op) : Prop := match op with OpDeliver _ failed => failed = false | _ => True end.

Definition held (c : call_state) : list P := match c with Sending packet => [packet] | Waiting => [] end.
Definition in_flight (s : Stream) : list P := st_calls s ≫= held.

Record stream_inv (s : Stream) : Prop := {
  si_packets : st_sent s ≡ₚ st_received s ++ in_flight s ++ st_queue s;
  si_saved : ∀ packet, st_tracker s ≠ Some (Some packet);
  si_calls : match st_tracker s with
             | None => st_calls s = [] ∧ st_done s = O
             | Some _ => length (st_calls s) = S (st_done s)
             end;
  si_queue : (length (st_queue s) ≤ queue_capacity)%nat;
  si_done : (st_done s ≤ done_capacity)%nat
}.

Lemma bind_insert (l : list call_state) i c c' :
  l !! i = Some c → (<[i := c']> l) ≫= held ≡ₚ held c' ++ (delete i l ≫= held).
Proof.
  intros Hi. rewrite -(take_drop_middle l i c Hi).
  assert (length (take i l) = i) as Hlen.
  { rewrite length_take. apply lookup_lt_Some in Hi. lia. }
  rewrite insert_app_r_alt ?Hlen // Nat.sub_diag. rewrite delete_take_drop.
  rewrite take_app_length' // drop_app_ge ?Hlen; [|lia]. replace (S i - i)%nat with 1%nat by lia. simpl.
  rewrite drop_0 !bind_app. simpl. by rewrite (comm (++) (take i l ≫= held) (held c' ++ _)) -(assoc (++)) (comm (++) (drop _ _ ≫= held)).
Qed.

Lemma lookup_in_flight (l : list call_state) i p : l !! i = Some (Sending p) → p ∈ l ≫= held.
Proof. intros Hi. apply list_elem_of_bind. exists (Sending p). split; [|by eapply list_elem_of_lookup_2]. by left. Qed.

Lemma delete_in_flight (l : list call_state) i : l !! i = Some Waiting → delete i l ≫= held ≡ₚ l ≫= held.
Proof. intros Hi. rewrite -{2}(list_insert_id l i Waiting Hi). by rewrite (bind_insert l i Waiting Waiting Hi). Qed.

Lemma flush_nothing s : (∀ packet, st_tracker s ≠ Some (Some packet)) → flushFailedPackets s = Some s.
Proof. unfold flushFailedPackets. destruct (st_tracker s) as [[p|]|] eqn:Ht; [|done..]. intros Hno. by destruct (Hno p). Qed.

Lemma stream_inv_step op s s' : no_failure op → stream_inv s → run_stream_op op s = Some s' → stream_inv s'.
Proof.
  intros Hop [Hp Hs Hc Hq Hd]. destruct op as [packet| |i|i|i failed]; simpl in *.
  - unfold sendPacketIn. case_decide as Hlt; [|done]. intros [= <-]. split; simpl; [|done|done| |done].
    + rewrite !assoc -(assoc (++) (st_received s)). by rewrite -Hp.
    + rewrite length_app /=. unfold queue_capacity in *. lia.
  - unfold start_call, getStreamingTracker. destruct (st_tracker s) as [saved|] eqn:Ht.
    + case_decide as Hlt; [|done]. simpl. rewrite flush_nothing //=. intros [= <-].
      unfold done_capacity in *. split; simpl; [|done| |done|unfold done_capacity; lia].
      * unfold in_flight. simpl. rewrite bind_app. simpl. by rewrite app_nil_r.
      * rewrite length_app /=. lia.
    + simpl. intros [= <-]. destruct Hc as [Hcalls Hdone].
      split; simpl; [|done| |done|done].
      * unfold in_flight in *. simpl. rewrite Hcalls in Hp |- *. done.
      * by rewrite Hcalls Hdone.
  - unfold take_packet. destruct (st_calls s !! i) as [[|p]|] eqn:Hi; [|done|done].
    destruct (st_queue s) as [|p queue] eqn:Hqueue; [done|]. intros [= <-]. split; simpl; [|exact Hs| | |exact Hd].
    + unfold in_flight in *. simpl. rewrite (bind_insert _ _ _ _ Hi) (delete_in_flight _ _ Hi) /=.
      rewrite Hp. apply Permutation_app_head. by rewrite Permutation_middle.
    + rewrite length_insert. destruct (st_tracker s); [done|]. destruct Hc as [Hcalls _]. by rewrite Hcalls in Hi.
    + simpl in Hq. lia.
  - unfold take_done. destruct (st_calls s !! i) as [[|p]|] eqn:Hi; [|done..].
    destruct (st_done s) as [|n] eqn:Hdone; [done|]. intros [= <-]. split; simpl; [|done| |done|lia].
    + unfold in_flight in *. simpl. by rewrite (delete_in_flight _ _ Hi).
    + destruct (st_tracker s); [|by destruct Hc]. apply lookup_lt_Some in Hi. rewrite length_delete; [lia|].
      by apply lookup_lt_is_Some.
  - subst failed. unfold send_packet. destruct (st_calls s !! i) as [[|p]|] eqn:Hi; [done| |done].
    intros [= <-]. split; simpl; [|done| |done|done].
    + unfold in_flight in *. simpl. rewrite (bind_insert _ _ _ Waiting Hi) /=.
      assert (st_calls s ≫= held ≡ₚ p :: delete i (st_calls s) ≫= held) as Hfl.
      { rewrite -{1}(list_insert_id _ _ _ Hi). by rewrite (bind_insert _ _ _ (Sending p) Hi). }
      rewrite Hp Hfl -assoc. simpl. done.
    + rewrite length_insert. destruct (st_tracker s); [done|]. destruct Hc as [Hcalls _]. by rewrite Hcalls in Hi.
Qed.

Lemma stream_inv_empty : stream_inv empty_stream.
Proof. split; simpl; [done|done|done|unfold queue_capacity; lia|unfold done_capacity; lia]. Qed.

Lemma stream_inv_run ops s s' :
  Forall no_failure ops → stream_inv s → run_stream ops s = Some s' → stream_inv s'.
Proof.
  intros Hops. revert s. induction Hops as [|op ops Hop _ IH]; intros s Hs; simpl; [by intros [= <-]|].
  destruct (run_stream_op op s) as [s1|] eqn:Hrun; [|done]. simpl. apply IH. by eapply stream_inv_step.
Qed.


(** *** One call keeps the order *)

Definition is_start (op : stream_op) : bool := match op with OpStart => true | _ => false end.
Definition ordered (s : Stream) : Prop := st_sent s = st_received s ++ in_flight s ++ st_queue s.

Lemma ordered_step op s s' :
  no_failure op → is_start op = false → (length (st_calls s) ≤ 1)%nat → ordered s →
  run_stream_op op s = Some s' → ordered s' ∧ (length (st_calls s') ≤ 1)%nat.
Proof.
  unfold ordered, in_flight. intros Hop Hst Hlen Ho. destruct op as [packet| |i|i|i failed]; simpl in *; [|done|..].
  - unfold sendPacketIn. case_decide; [|done]. intros [= <-]. simpl. by rewrite Ho -!assoc.
  - unfold take_packet. destruct (st_calls s) as [|c [|]]; [done| |simpl in Hlen; lia].
    destruct i; [|done]. simpl in *. destruct c, (st_queue s); try done. by intros [= <-].
  - unfold take_done. destruct (st_calls s) as [|c [|]]; [done| |simpl in Hlen; lia].
    destruct i; [|done]. simpl in *. destruct c, (st_done s); try done. intros [= <-]. by split; [|simpl; lia].
  - subst failed. unfold send_packet. destruct (st_calls s) as [|c [|]]; [done| |simpl in Hlen; lia].
    destruct i; [|done]. simpl in *. destruct c; try done. intros [= <-]. simpl. by rewrite Ho -!assoc.
Qed.

Lemma ordered_running ops s s' :
  Forall no_failure ops → List.filter is_start ops = [] → (length (st_calls s) ≤ 1)%nat → ordered s →
  run_stream ops s = Some s' → ordered s'.
Proof.
  intros Hops. revert s. induction Hops as [|op ops Hop _ IH]; intros s Hst Hlen Ho; simpl; [by intros [= <-]|].
  simpl in Hst. destruct (is_start op) eqn:Hs; [done|].
  destruct (run_stream_op op s) as [s1|] eqn:Hrun; [|done]. simpl.
  destruct (ordered_step op s s1 Hop Hs Hlen Ho Hrun). by apply IH.
Qed.

Lemma ordered_run ops s s' :
  Forall no_failure ops → (length (List.filter is_start ops) ≤ 1)%nat →
  st_calls s = [] → st_tracker s = None → ordered s → run_stream ops s = Some s' → ordered s'.
Proof.
  intros Hops. revert s. induction Hops as [|op ops Hop Hops IH]; intros s Hst Hcalls Ht Ho; simpl; [by intros [= <-]|].
  destruct (run_stream_op op s) as [s1|] eqn:Hrun; [|done]. simpl.
  destruct (is_start op) eqn:Hs.
  - destruct op; try done. simpl in *. unfold start_call, getStreamingTracker in Hrun. rewrite Ht /= in Hrun.
    injection Hrun as <-. intros Hr.
    refine (ordered_running ops _ s' Hops _ _ _ Hr); simpl.
    + destruct (List.filter is_start ops); [done|simpl in Hst; lia].
    + by rewrite Hcalls.
    + revert Ho. unfold ordered, in_flight. simpl. by rewrite Hcalls.
  - destruct (ordered_step op s s1 Hop Hs ltac:(rewrite Hcalls; simpl; lia) Ho Hrun) as [Ho1 _].
    simpl in Hst. rewrite Hs in Hst. apply IH; [done| |..|done].
    + destruct op; simpl in *; try done.
      * unfold sendPacketIn in Hrun. case_decide; [|done]. by injection Hrun as <-.
      * unfold take_packet in Hrun. by rewrite Hcalls in Hrun.
      * unfold take_done in Hrun. by rewrite Hcalls in Hrun.
      * unfold send_packet in Hrun. by rewrite Hcalls in Hrun.
    + destruct op; simpl in *; try done.
      * unfold sendPacketIn in Hrun. case_decide; [|done]. by injection Hrun as <-.
      * unfold take_packet in Hrun. by rewrite Hcalls in Hrun.
      * unfold take_done in Hrun. by rewrite Hcalls in Hrun.
      * unfold send_packet in Hrun. by rewrite Hcalls in Hrun.
Qed.

(** C13: as long as no packet fails to be sent, none is lost and none is sent
    twice, however many streaming calls come and go: every packet of the core was
    received, is in the hands of a call, or waits in the queue; neither channel
    holds more than its buffer; and once a call was made, there is one more call
    running than there are messages to end.  A single call keeps the order. *)
Theorem stream_exactly_once (ops : list stream_op) s :
  Forall no_failure ops → run_stream ops empty_stream = Some s →
  st_sent s ≡ₚ st_received s ++ in_flight s ++ st_queue s ∧
  (length (st_queue s) ≤ queue_capacity)%nat ∧ (st_done s ≤ done_capacity)%nat ∧
  (is_Some (st_tracker s) → length (st_calls s) = S (st_done s)) ∧
  ((length (List.filter is_start ops) ≤ 1)%nat → st_sent s = st_received s ++ in_flight s ++ st_queue s).
Proof.
  intros Hops Hrun. destruct (stream_inv_run ops _ s Hops stream_inv_empty Hrun) as [Hp _ Hc Hq Hd].
  split_and!; [done..| |].
  - intros [saved Hs]. by rewrite Hs in Hc.
  - intros Hst. by apply (ordered_run ops empty_stream).
Qed.

(** ** A packet can be lost *)

Definition gone (p : P) (s : Stream) : Prop :=
  p ∉ st_queue s ∧ p ∉ in_flight s ∧ p ∉ st_received s ∧ st_tracker s ≠ Some (Some p).

Lemma in_flight_insert (l : list call_state) i c p :
  p ∉ held c → p ∉ l ≫= held → p ∉ (<[i := c]> l) ≫= held.
Proof.
  intros Hc Hl Hin. destruct (l !! i) as [c'|] eqn:Hi.
  - rewrite (bind_insert _ _ _ _ Hi) in Hin. apply elem_of_app in Hin as [?|Hin]; [done|]. apply Hl.
    rewrite -(list_insert_id _ _ _ Hi) (bind_insert _ _ _ c' Hi). apply elem_of_app. by right.
  - by rewrite list_insert_ge in Hin; [|by apply lookup_ge_None].
Qed.

Lemma gone_step op p s s' :
  op ≠ OpSend p → gone p s → run_stream_op op s = Some s' → gone p s'.
Proof.
  unfold gone, in_flight. intros Hop (Hq & Hf & Hr & Ht). destruct op as [packet| |i|i|i failed]; simpl in *.
  - unfold sendPacketIn. case_decide; [|done]. intros [= <-]. simpl. split_and!; [|done..].
    rewrite not_elem_of_app not_elem_of_cons. split_and!; [done|congruence|apply not_elem_of_nil].
  - unfold start_call, getStreamingTracker, flushFailedPackets.
    destruct (st_tracker s) as [[saved|]|]; simpl; repeat (case_decide; simpl); intros Hs; simplify_eq/=; rewrite ?bind_app ?not_elem_of_app;
      split_and!; try done; try apply not_elem_of_nil; try congruence.
    rewrite not_elem_of_cons. split; [congruence|apply not_elem_of_nil].
  - unfold take_packet. destruct (st_calls s !! i) as [[|held_p]|], (st_queue s) as [|packet queue]; try done.
    apply not_elem_of_cons in Hq as [Hne Hq]. intros [= <-]. simpl. split_and!; [done| |done..].
    apply in_flight_insert; [|done]. simpl. by apply not_elem_of_cons; split; [|apply not_elem_of_nil].
  - unfold take_done. destruct (st_calls s !! i) as [[|held_p]|] eqn:Hi, (st_done s); try done. intros [= <-]. simpl.
    by rewrite (delete_in_flight _ _ Hi).
  - unfold send_packet. destruct (st_calls s !! i) as [[|packet]|] eqn:Hi; try done. intros [= <-]. simpl.
    assert (packet ≠ p) as Hne.
    { intros ->. apply Hf. by eapply lookup_in_flight. }
    split_and!; [done|by apply in_flight_insert; [apply not_elem_of_nil|]| |by destruct failed; congruence].
    destruct failed; [done|]. rewrite not_elem_of_app not_elem_of_cons. split_and!; [done|done|apply not_elem_of_nil].
Qed.

(** When two packets in a row cannot be sent, the first is lost.  Only one
    packet is saved: the second replaces the first, and unless the core sends the
    first again, the controller never gets it, whatever calls follow. *)
Theorem second_failure_loses_packet i p q s s' ops s'' :
  st_tracker s = Some (Some p) → st_calls s !! i = Some (Sending q) → p ≠ q →
  p ∉ st_queue s → p ∉ in_flight s → p ∉ st_received s →
  send_packet i true s = Some s' → OpSend p ∉ ops → run_stream ops s' = Some s'' → p ∉ st_received s''.
Proof.
  intros Ht Hi Hne Hq Hf Hr Hsend. unfold send_packet in Hsend. rewrite Hi in Hsend.
  assert (gone p s') as Hg.
  { injection Hsend as <-. unfold gone, in_flight. simpl.
    split_and!; [done|by apply in_flight_insert; [apply not_elem_of_nil|]|done|congruence]. }
  clear Hsend. revert s' Hg. induction ops as [|op ops IH]; intros s' Hg Hops; simpl; [intros [= <-]; apply Hg|].
  destruct (run_stream_op op s') as [s1|] eqn:Hrun; [|done]. simpl.
  apply not_elem_of_cons in Hops as [Hop Hops]. apply IH; [|done]. eapply gone_step; [|done|done]. congruence.
Qed.

(** A new call may take its own message, and leave the old one running. *)
Lemma new_call_may_end s s1 :
  is_Some (st_tracker s) → start_call s = Some s1 →
  ∃ s2, take_done (length (st_calls s)) s1 = Some s2 ∧ st_calls s2 = st_calls s.
Proof.
  intros [saved Hs]. unfold start_call, getStreamingTracker, flushFailedPackets. rewrite Hs.
  case_decide; [|done]. simpl.
  assert (∀ st : Stream, st_calls st = st_calls s ++ [Waiting] → ∀ n, st_done st = S n →
    ∃ s2, take_done (length (st_calls s)) st = Some s2 ∧ st_calls s2 = st_calls s) as Hend.
  { intros st Hc n Hn. unfold take_done. rewrite Hc lookup_app_r // Nat.sub_diag /= Hn. eexists. split; [done|].
    simpl. by rewrite delete_middle app_nil_r. }
  destruct saved as [packet|]; simpl; [case_decide; [|done]; simpl|]; intros [= <-]; by eapply Hend.
Qed.
End Streams.

(** ** The two streams of the handler *)

Section Handler.
Context {Packet PortStatus : Type}.

(** The packets and the port changes have queues and trackers of their own. *)
Notation ChangeEvent := (string * PortStatus)%type.
Notation Handler := (Stream (P := string * Packet) * Stream (P := ChangeEvent))%type.

Definition sendChangeEvent (deviceID : string) (portStatus : PortStatus) : Stream (P := ChangeEvent) → option Stream :=
  sendPacketIn (deviceID, portStatus).

(** Calls of [ReceivePacketsIn] and [ReceiveChangeEvents], in any interleaving. *)
Inductive handler_op := PacketOp (op : stream_op (P := string * Packet)) | ChangeOp (op : stream_op (P := ChangeEvent)).
Definition run_handler_op (op : handler_op) (s : Handler) : option Handler :=
  match op with
  | PacketOp op => s1 ← run_stream_op op s.1; Some (s1, s.2)
  | ChangeOp op => s2 ← run_stream_op op s.2; Some (s.1, s2)
  end.
Fixpoint run_handler (ops : list handler_op) (s : Handler) : option Handler :=
  match ops with
  | [] => Some s
  | op :: ops => s ← run_handler_op op s; run_handler ops s
  end.

Definition packet_ops : list handler_op → list stream_op := omap (λ op, match op with PacketOp op => Some op | _ => None end).
Definition change_ops : list handler_op → list stream_op := omap (λ op, match op with ChangeOp op => Some op | _ => None end).

(** Neither stream waits for the other, whatever the interleaving. *)
Lemma streams_independent ops s s' :
  run_handler ops s = Some s' ↔ run_stream (packet_ops ops) s.1 = Some s'.1 ∧ run_stream (change_ops ops) s.2 = Some s'.2.
Proof.
  revert s. induction ops as [|[op|op] ops IH]; intros [s1 s2]; simpl.
  - destruct s' as [s1' s2']. simpl. split; [by intros [= -> ->] | by intros [[= ->] [= ->]]].
  - destruct (run_stream_op op s1) as [s3|]; simpl; [apply IH | by split; [|intros []]].
  - destruct (run_stream_op op s2) as [s3|]; simpl; [apply IH | by split; [|intros []]].
Qed.
End Handler.

(** ** Witnesses *)

Lemma stream_exactly_once_witness :
  ∃ s, run_stream [OpSend 1; OpSend 2; OpStart; OpTake 0; OpDeliver 0 false; OpStart; OpTake 1] empty_stream = Some s ∧
    st_sent s = [1; 2] ∧ st_received s = [1] ∧ in_flight s = [2] ∧ length (st_calls s) = 2%nat.
Proof.
  eexists. split; [vm_compute; reflexivity|]. split_and!; [done..|].
  eapply (stream_exactly_once [OpSend 1; OpSend 2; OpStart; OpTake 0; OpDeliver 0 false; OpStart; OpTake 1]);
    [repeat constructor|vm_compute; reflexivity|by eexists].
Defined.

Definition sample_failing : Stream (P := Z) :=
  mkStream [] 0 (Some (Some 1)) [Sending 2] [1; 2] [].

Lemma second_failure_loses_packet_witness :
  ∃ s s', send_packet 0 true sample_failing = Some s ∧
    run_stream [OpStart; OpTake 0; OpDeliver 0 false] s = Some s' ∧ 1 ∉ st_received s' ∧ st_received s' = [2].
Proof.
  eexists _, _. split_and!; [vm_compute; reflexivity|vm_compute; reflexivity| |reflexivity].
  eapply (second_failure_loses_packet 0 1 2 sample_failing _ [OpStart; OpTake 0; OpDeliver 0 false]);
    try (vm_compute; reflexivity); try done; set_solver.
Defined.
