(* ===== verification/RequestFacts.v ===== *)
(** * What a request does to the core

    Every request of an adapter or of the northbound API, and every goroutine,
    keeps the whole core consistent; a request is closed when its handler ends;
    arguments are decoded as they were encoded. *)

From S2P Require Import Prelude OpenFlow VolthaTypes FlowUtils Decomposer CoreUtils DataProxy.
From S2P Require Import DeviceAgent LogicalAgent LogicalTables LogicalPorts KVStore Ownership Transaction AdapterMgr.
From S2P Require Import Managers Loading LogicalMgr DeviceMgr CoreInvariant Requests AdapterRequests Northbound.

(** ** Arguments *)

Section Arguments.
Context {Any : Type} `{AnyCodec Any}.

(** A message is packed with its type, and unpacked into a message of that type. *)
Variable pack : Field → Any.
Hypothesis unmarshal_pack : ∀ f, UnmarshalAny (type_of f) (pack f) = Ok f.

Definition encode (v : string * Field) : Argument Any := mkArgument v.1 (pack v.2).

Lemma decode_known signature args vars :
  decode signature args vars =
  decode signature (List.filter (λ a, bool_decide (is_Some (case_of signature (arg_Key a)))) args) vars.
Proof.
  revert vars. induction args as [|a args IH]; intros vars; [done|]. simpl.
  destruct (case_of signature (arg_Key a)) as [t|] eqn:Hc.
  - rewrite bool_decide_true; [|by eexists]. simpl. rewrite Hc.
    destruct (UnmarshalAny t (arg_Value a)); [|done..]. apply IH.
  - rewrite bool_decide_false; [apply IH|]. by intros [? ?].
Qed.

Lemma decode_encoded signature fields vars :
  NoDup fields.*1 → Forall (λ v, case_of signature v.1 = Some (type_of v.2)) fields →
  decode signature (encode <$> fields) vars = Ok (list_to_map fields ∪ vars).
Proof.
  intros Hnd Hf. revert vars. induction Hf as [|[k f] fields Hc _ IH]; intros vars; simpl in *.
  { by rewrite left_id_L. }
  rewrite Hc unmarshal_pack. simpl. apply NoDup_cons in Hnd as [Hk Hnd].
  rewrite IH // -insert_union_r ?insert_union_l //. by apply not_elem_of_list_to_map_1.
Qed.

(** C14: a handler reads the variables that its request was sent with.  The
    arguments may come in any order, and others, that the handler does not know,
    are ignored. *)
Theorem arguments_roundtrip (signature : list (string * FieldType)) (fields : list (string * Field))
    (extra args : list (Argument Any)) :
  NoDup fields.*1 → Forall (λ v, case_of signature v.1 = Some (type_of v.2)) fields →
  Forall (λ a, case_of signature (arg_Key a) = None) extra →
  args ≡ₚ (encode <$> fields) ++ extra →
  decode signature args ∅ = Ok (list_to_map fields).
Proof.
  intros Hnd Hf Hx Hp. rewrite decode_known.
  set (known := λ a : Argument Any, bool_decide (is_Some (case_of signature (arg_Key a)))).
  assert (List.filter known args ≡ₚ encode <$> fields) as Hk.
  { transitivity (List.filter known ((encode <$> fields) ++ extra)).
    - clear -Hp. induction Hp as [|a l l' _ IH|a b l|l1 l2 l3 _ IH1 _ IH2]; simpl; [done| | |by etrans].
      + destruct (known a); [by f_equiv|done].
      + destruct (known a), (known b); try done. constructor.
    - rewrite List.filter_app. rewrite (_ : List.filter known extra = []).
      + rewrite app_nil_r. clear -Hf. induction Hf as [|[k f] fields Hc _ IH]; [done|]. simpl.
        unfold known at 1. simpl. rewrite bool_decide_true; [by f_equiv|]. by eexists.
      + clear -Hx. induction Hx as [|a extra Hc _ IH]; [done|]. simpl. unfold known at 1.
        rewrite bool_decide_false //. rewrite Hc. by intros [? ?]. }
  destruct (Permutation_map_inv _ _ Hk) as (fields' & Heq & Hp'). rewrite Heq.
  change (List.map encode fields') with (encode <$> fields').
  rewrite decode_encoded.
  - rewrite right_id_L. f_equal. symmetry. apply list_to_map_proper; [|done]. done.
  - by rewrite -Hp'.
  - by rewrite -Hp'.
Qed.
Lemma decode_app signature args1 args2 vars :
  decode signature (args1 ++ args2) vars = (let? vars1 := decode signature args1 vars in decode signature args2 vars1).
Proof.
  revert vars. induction args1 as [|a args1 IH]; intros vars; [done|]. simpl.
  destruct (case_of signature (arg_Key a)) as [t|]; [|apply IH]. destruct (UnmarshalAny t (arg_Value a)); [apply IH|done..].
Qed.

Hypothesis unmarshal_typed : ∀ t a f, UnmarshalAny t a = Ok f → type_of f = t.

(** The argument that set the variable of [k]: the last one with this key. *)
Definition set_by (signature : list (string * FieldType)) (args : list (Argument Any)) (k : string) (f : Field) : Prop :=
  ∃ a before after, args = before ++ a :: after ∧ arg_Key a = k ∧ Forall (λ b, arg_Key b ≠ k) after ∧
    case_of signature k = Some (type_of f) ∧ UnmarshalAny (type_of f) (arg_Value a) = Ok f.

Lemma set_by_snoc signature args k f a :
  set_by signature args k f → arg_Key a ≠ k → set_by signature (args ++ [a]) k f.
Proof.
  intros (b & l1 & l2 & -> & Hk & Hl2 & Hc & Hu) Hne. exists b, l1, (l2 ++ [a]).
  rewrite -app_assoc. split_and!; [done..| |done|done]. apply Forall_app. split; [done|]. by constructor.
Qed.

(** C15: decoding gives every variable of a handler its type.  A variable holds
    what the last argument with its key was unpacked to, a message of the type
    that the handler expects for the key; a variable that is left at its zero
    value is one that no argument named. *)
Theorem decode_typed (signature : list (string * FieldType)) (args : list (Argument Any)) vars k :
  decode signature args ∅ = Ok vars →
  match vars !! k with
  | Some f => set_by signature args k f
  | None => case_of signature k = None ∨ Forall (λ b, arg_Key b ≠ k) args
  end.
Proof.
  revert vars. induction args as [|a args IH] using rev_ind; intros vars.
  { intros [= <-]. rewrite lookup_empty. by right. }
  rewrite decode_app. destruct (decode signature args ∅) as [vars1|e|]; [|done..]. specialize (IH vars1 eq_refl).
  assert (arg_Key a ≠ k →
    match vars1 !! k with
    | Some f => set_by signature (args ++ [a]) k f
    | None => case_of signature k = None ∨ Forall (λ b, arg_Key b ≠ k) (args ++ [a])
    end) as Hother.
  { intros Hne. destruct (vars1 !! k) as [g|]; [by apply set_by_snoc|].
    destruct IH as [?|?]; [by left|right]. apply Forall_app. split; [done|]. by constructor. }
  simpl. destruct (case_of signature (arg_Key a)) as [t|] eqn:Hc.
  - destruct (UnmarshalAny t (arg_Value a)) as [f|e|] eqn:Hf; [|done..]. intros [= <-].
    destruct (decide (arg_Key a = k)) as [<-|Hne].
    + assert ((<[arg_Key a := f]> vars1 : Vars) !! arg_Key a = Some f) as -> by (by rewrite lookup_insert_eq).
      pose proof (unmarshal_typed _ _ _ Hf) as <-. by exists a, args, [].
    + assert ((<[arg_Key a := f]> vars1 : Vars) !! k = vars1 !! k) as -> by (by rewrite lookup_insert_ne). by apply Hother.
  - intros [= <-]. destruct (decide (arg_Key a = k)) as [<-|Hne]; [|by apply Hother].
    destruct (vars1 !! arg_Key a); [|by left]. destruct IH as (_ & _ & _ & _ & _ & _ & Hc' & _). by rewrite Hc in Hc'.
Qed.
End Arguments.

(** ** How an acquisition ends *)

Section Waiting.
Context {KV : Type} `{KVClient KV}.

(** A watch gives a result or panics, and leaves the transaction as it is. *)
Lemma watch_loop_ends seen wakes (t : KVTransaction (KV := KV)) :
  match watch_loop seen wakes t with
  | (Ok _, t') => tx_monitorCh t' = tx_monitorCh t ∧ tx_txnKey t' = tx_txnKey t
  | (Err _, _) => False
  | (Panic, _) => True
  end.
Proof.
  revert seen t. induction wakes as [|w wakes IH]; intros seen t; [done|]. cbn [watch_loop].
  unfold sbind at 1.
  assert (w = WatchEvent None ∨ w ≠ WatchEvent None) as [->|Hw]
    by (destruct w as [[]|]; [by right|by left|by right]); [done|].
  destruct (watch_round_ok seen w t Hw) as (r & t1 & Hr). rewrite Hr.
  assert (tx_monitorCh t1 = tx_monitorCh t ∧ tx_txnKey t1 = tx_txnKey t) as [Hm Hk].
  { revert Hr. unfold watch_round, sbind, get, ret, attempt, Delete. destruct w as [[e|]|]; repeat case_match; naive_solver. }
  destruct r as [res|seen']; [done|]. specialize (IH seen' t1). by rewrite -Hm -Hk.
Qed.

Lemma Watch_ends wakes (t : KVTransaction (KV := KV)) :
  match Watch wakes t with
  | (Ok _, t') => tx_monitorCh t' = tx_monitorCh t ∧ tx_txnKey t' = tx_txnKey t
  | (Err _, _) => False
  | (Panic, _) => True
  end.
Proof.
  unfold Watch, sbind at 1. destruct (watch_start_ok t) as (r & t1 & Hr). rewrite Hr.
  assert (tx_monitorCh t1 = tx_monitorCh t ∧ tx_txnKey t1 = tx_txnKey t) as [Hm Hk].
  { revert Hr. unfold watch_start, sbind, get, ret, attempt, Delete. repeat case_match; naive_solver. }
  destruct r as [res|seen]; [done|]. pose proof (watch_loop_ends seen wakes t1). by rewrite -Hm -Hk.
Qed.

(** A transaction that was reserved has an open channel; one that was taken over
    has none. *)
Lemma Acquired_ends minDuration owned wakes (t : KVTransaction (KV := KV)) :
  match Acquired minDuration owned wakes t with
  | (Ok _, t') => tx_txnKey t' = tx_txnKey t ∧ (tx_monitorCh t' = Some false ∨ tx_monitorCh t' = tx_monitorCh t)
  | (Err _, _) => False
  | (Panic, _) => True
  end.
Proof.
  unfold Acquired. set (d := reservation_duration minDuration * 2).
  assert (∀ t1, tx_monitorCh t1 = tx_monitorCh t → tx_txnKey t1 = tx_txnKey t →
    match (let* res := Watch wakes in ret (acquires <$> res)) t1 with
    | (Ok _, t') => tx_txnKey t' = tx_txnKey t ∧ (tx_monitorCh t' = Some false ∨ tx_monitorCh t' = tx_monitorCh t)
    | (Err _, _) => False
    | (Panic, _) => True
    end) as Hwatch.
  { intros t1 Hm Hk. unfold sbind. pose proof (Watch_ends wakes t1) as Hw.
    destruct (Watch wakes t1) as [[r|e|] t2]; [|done..]. simpl. destruct Hw. split; [congruence|right; congruence]. }
  destruct (tries_to_reserve owned); [|by apply Hwatch].
  unfold attempt, sbind at 1 2. unfold tryToReserveTxn.
  destruct (kv_Reserve _ _ _ _ _) as [[value e] kv]. destruct value as [v|]; [|by apply Hwatch].
  destruct (ToString v) as [w|e'|]; [|by apply Hwatch|done]. case_decide; [|by apply Hwatch].
  split; [done|by left].
Qed.
End Waiting.

(** ** The state of the whole core *)

Section CoreState.
Context {Store KV Any : Type} `{DataProxy Device Store, DataProxy LogicalDevice Store, DataList Device Store,
  DataList LogicalDevice Store, DataList DeviceType Store, Adapter, AdapterMgrView, AdapterQueries, ProtoText,
  GoRange, DeviceManagerView, DeviceManagerCalls, CoreEnv, KVClient KV,
  DataProxy VolthaAdapter Store, DataList VolthaAdapter Store, DataProxy DeviceType Store, AnyCodec Any}.
Context `{!DataProxyLaws Device Store, !DataProxyFrame Device Store, !DataProxyApart LogicalDevice Device Store,
  !DataProxyApart VolthaAdapter Device Store, !DataProxyApart DeviceType Device Store}.
Notation Core := (Managers.Core (Store := Store)).
Notation VolthaCore := (VolthaCore (Store := Store) (KV := KV)).
Notation AM := (AdapterManager (Store := Store)).
Implicit Types s : VolthaCore.
Context (fuel : nat) (others : @LogicalState Store → @LogicalState Store) (tie : nat → bool).
Hypothesis others_frame : ∀ f (l : @LogicalState Store), logical_frame f l → logical_frame f (others l).
Hypothesis accepts : accepts_devices.

(** The managers are in step with the data model, and the ownership has one
    goroutine per device. *)
Definition consistent s : Prop := sound (vc_core s) ∧ own_inv (vc_own s).

Lemma consistent_own {A} (m : M (DeviceOwnership (KV := KV)) A) : preserves own_inv m → preserves consistent (on_own m).
Proof.
  intros Hm s [Hc Ho]. unfold on_own. specialize (Hm _ Ho). destruct (m (vc_own s)) as [r o]. by split.
Qed.

Lemma safe_preserves {A} (m : M (DeviceOwnership (KV := KV)) A) : safe own_inv m → preserves own_inv m.
Proof. intros Hm s Hs. specialize (Hm s Hs). by destruct (m s) as [[] ?]. Qed.

Lemma consistent_abandon_all ids : preserves consistent (abandon_all ids).
Proof.
  apply preserves_for_each. intros id. apply preserves_bind; [|intros ?; apply preserves_ret].
  apply preserves_attempt, consistent_own, safe_preserves, inv_AbandonDevice.
Qed.

Lemma consistent_on_core {A} (m : M Core A) s :
  consistent s → sound (m (vc_core s)).2 → consistent (on_core m s).2.
Proof.
  intros [Hc Ho] Hm. unfold on_core, sbind. destruct (m (vc_core s)) as [r c]. simpl in Hm. cbv beta iota.
  set (s1 := set_core (set_abandoned [] c) s).
  assert (consistent s1) as Hs1.
  { split; [|exact Ho]. revert Hm. by apply (sound_modify (set_abandoned [])). }
  pose proof (consistent_abandon_all (co_abandoned c) s1 Hs1) as Hs2. cbn [snd fst].
  destruct (abandon_all (co_abandoned c) s1) as [[[]|e|] s2]; [|exact Hs2..].
  cbv beta iota. exact Hs2.
Qed.

Lemma consistent_core {A} (m : M Core A) : preserves sound m → preserves consistent (on_core m).
Proof. intros Hm s Hs. apply consistent_on_core; [done|]. apply Hm, Hs. Qed.

(** The operations that bring no device. *)
Lemma consistent_op op :
  adds_devices op = false → (∀ s : Core, core_op_ok op s) → preserves consistent (on_core (run_core_op fuel others tie op)).
Proof.
  intros Hop Hok. apply consistent_core. intros c. by apply (sound_plain_op fuel others tie others_frame op c).
Qed.

Lemma consistent_query {A} (m : M Core A) op :
  run_core_op fuel others tie op = ignore m → adds_devices op = false → (∀ s : Core, core_op_ok op s) →
  preserves consistent (on_core m).
Proof.
  intros Hrun Hop Hok. apply consistent_core. intros c Hc.
  pose proof (sound_plain_op fuel others tie others_frame op c Hop (Hok c) c Hc) as Hs.
  rewrite Hrun in Hs. unfold ignore, sbind in Hs. by destruct (m c) as [[x|e|] c'].
Qed.

(** *** The adapter manager writes no device *)

Lemma adapters_save {Obj} `{DataProxy Obj Store, !DataProxyApart Obj Device Store} (f : string → outcome (option Device))
    id (o : Obj) : preserves (λ a : AM, devices_are f (am_store a)) (save_absent id o).
Proof.
  intros a Ha. unfold save_absent, sbind, get, lift. cbv beta iota.
  destruct (dp_get id (am_store a)) as [[o'|]|e|]; [exact Ha| |exact Ha..]. cbv beta iota.
  destruct (dp_add id o (am_store a)) as [r st] eqn:Hadd. unfold modify. cbv beta iota.
  assert (devices_are f st) as Hst.
  { intros x. rewrite -(Ha x). apply (dp_apart (Obj := Obj) id). 
    replace st with (dp_add id o (am_store a)).2 by (by rewrite Hadd). constructor. }
  by destruct r.
Qed.

Lemma adapters_modify f (g : AM → AM) :
  (∀ a, am_store (g a) = am_store a) → preserves (λ a : AM, devices_are f (am_store a)) (modify g).
Proof. intros Hg a Ha. simpl. by rewrite Hg. Qed.

Lemma adapters_register f adapter ts :
  preserves (λ a : AM, devices_are f (am_store a)) (registerAdapter adapter ts).
Proof.
  unfold registerAdapter, getAdapter, addAdapter, addDeviceTypes, add_device_type, adapter_restarted.
  repeat first [apply adapters_save | apply adapters_modify; done | preserves_step].
Qed.

Lemma adapters_update f adapter :
  preserves (λ a : AM, devices_are f (am_store a)) (updateAdaptersAndDevicetypesInMemory adapter).
Proof.
  unfold updateAdaptersAndDevicetypesInMemory, updateAdapterWithoutLock, updateDeviceTypeWithoutLock, adapter_restarted.
  repeat first [apply adapters_modify; done | preserves_step].
Qed.

Lemma sound_store (c : Core) st :
  sound c → devices_are (λ id, dp_get (Obj := Device) id (co_store c)) st → sound (set_co_store st c).
Proof.
  intros [Hm Hi] Hst. split; [|by intros id d; simpl; rewrite Hst; apply Hi].
  apply (managed_same_devices c); [|done]. split_and!; [done..|exact Hst].
Qed.

Lemma consistent_adapters {A} (m : M AM A) :
  (∀ f, preserves (λ a : AM, devices_are f (am_store a)) m) → preserves consistent (on_adapters m).
Proof.
  intros Hm s [Hc Ho]. unfold on_adapters.
  specialize (Hm (λ id, dp_get (Obj := Device) id (co_store (vc_core s)))
    (set_am_store (co_store (vc_core s)) (vc_adapters s)) ltac:(by intros x)).
  destruct (m _) as [r a]. split; [|exact Ho]. by apply sound_store.
Qed.

(** *** Acquiring *)

Lemma consistent_owned_by_me id : preserves consistent (owned_by_me fuel id).
Proof.
  unfold owned_by_me. apply preserves_bind.
  - unfold find_device. apply preserves_get_bind. intros s _.
    destruct id as [|dID|ldID|printed]; try apply preserves_ret; destruct (_ !! _); try apply preserves_ret;
      (apply preserves_bind; [apply preserves_attempt|intros ?; apply preserves_ret]).
    + by apply (consistent_query _ (DmGetDevice dID)).
    + by apply (consistent_query _ (LdGetLogicalDevice ldID)).
  - intros mg. apply consistent_own, safe_preserves, inv_OwnedByMe.
Qed.

Lemma consistent_txn {A} t (m : M (KVTransaction (KV := KV)) A) : preserves consistent (on_txn t m).
Proof.
  intros s [Hc Ho]. unfold on_txn. destruct (m _) as [r t'].
  by destruct r; (split; [exact Hc|exact (inv_shape _ _ (shape_kv _ _) Ho)]).
Qed.

Lemma consistent_go g : preserves consistent (go g).
Proof. by intros s Hs. Qed.

Section Calls.
Context (cfg : HandlerConfig) (env : ReqEnv (Store := Store) (KV := KV)).
Hypothesis meanwhile_ok : ∀ s, consistent s → consistent (re_meanwhile env s).

Lemma consistent_acquire timeout unknown denied id t :
  preserves consistent (acquire fuel env timeout unknown denied id t).
Proof.
  unfold acquire. repeat first
    [ apply consistent_owned_by_me | apply consistent_txn | intros s; exact (meanwhile_ok s) | preserves_step ].
Qed.

Lemma consistent_take txnID devID : preserves consistent (Requests.takeRequestOwnership fuel cfg env txnID devID).
Proof. apply preserves_bind; [apply preserves_gets|intros t; apply consistent_acquire]. Qed.

(** The state in which the work of a request starts. *)
Definition body_state {T} (take : M VolthaCore T) s s1 : Prop :=
  if hc_coreInCompetingMode cfg then ∃ t, take s = (Ok t, s1) else s1 = s.

Lemma consistent_competing_at {A} take (body : M VolthaCore A) s :
  preserves consistent take → consistent s →
  (∀ s1, body_state take s s1 → consistent s1 → consistent (body s1).2) →
  consistent (competing cfg take body s).2.
Proof.
  unfold body_state, competing, with_transaction. intros Ht Hs Hb. destruct (hc_coreInCompetingMode cfg).
  - unfold sbind. specialize (Ht s Hs). destruct (take s) as [[t|e|] s1]; [|exact Ht..].
    specialize (Hb s1 (ex_intro _ t eq_refl) Ht). destruct (body s1) as [r s2].
    pose proof (consistent_txn t Transaction.Close s2 Hb) as Hc. by destruct (on_txn _ _ s2) as [[] s3].
  - by apply Hb.
Qed.

Lemma consistent_competing {A} take (body : M VolthaCore A) :
  preserves consistent take → preserves consistent body → preserves consistent (competing cfg take body).
Proof. intros Ht Hb s Hs. apply consistent_competing_at; [done..|]. intros s1 _. apply Hb. Qed.

(** *** Requests of the adapters *)

Inductive adapter_call :=
  | CallRegister | CallGetDevice | CallGetChildDevice
  | CallGetChildDeviceWithProxyAddress (text : ProxyAddress → string)
  | CallGetPorts | CallGetChildDevices | CallChildDeviceDetected
  | CallChildDevicesDetected (raced : option (option GoError)) | CallChildDevicesLost | CallReconcileChildDevices
  | CallDeviceUpdate | CallDeviceStateUpdate | CallChildrenStateUpdate | CallPortsStateUpdate | CallPortStateUpdate
  | CallDeleteAllPorts | CallPortCreated | CallDevicePMConfigUpdate | CallPacketIn | CallUpdateImageDownload
  | CallDeviceReasonUpdate.

Definition no_result {A} (m : M VolthaCore A) : M VolthaCore unit := let* _ := m in ret tt.

Definition run_adapter_call (c : adapter_call) (args : list (Argument Any)) : M VolthaCore unit :=
  match c with
  | CallRegister => no_result (Register fuel cfg env args)
  | CallGetDevice => no_result (AdapterRequests.GetDevice fuel cfg env args)
  | CallGetChildDevice => no_result (AdapterRequests.GetChildDevice fuel cfg env args)
  | CallGetChildDeviceWithProxyAddress text =>
      no_result (AdapterRequests.GetChildDeviceWithProxyAddress fuel cfg env text args)
  | CallGetPorts => no_result (GetPorts fuel cfg env args)
  | CallGetChildDevices => no_result (GetChildDevices fuel cfg env args)
  | CallChildDeviceDetected => no_result (ChildDeviceDetected fuel cfg env args)
  | CallChildDevicesDetected raced => no_result (ChildDevicesDetected fuel cfg env raced args)
  | CallChildDevicesLost => no_result (ChildDevicesLost fuel cfg env args)
  | CallReconcileChildDevices => no_result (ReconcileChildDevices fuel cfg env args)
  | CallDeviceUpdate => no_result (DeviceUpdate fuel cfg env args)
  | CallDeviceStateUpdate => no_result (DeviceStateUpdate fuel cfg env args)
  | CallChildrenStateUpdate => no_result (ChildrenStateUpdate fuel cfg env args)
  | CallPortsStateUpdate => no_result (PortsStateUpdate fuel cfg env args)
  | CallPortStateUpdate => no_result (PortStateUpdate fuel cfg env args)
  | CallDeleteAllPorts => no_result (DeleteAllPorts fuel cfg env args)
  | CallPortCreated => no_result (PortCreated fuel cfg env args)
  | CallDevicePMConfigUpdate => no_result (DevicePMConfigUpdate fuel cfg env args)
  | CallPacketIn => no_result (AdapterRequests.PacketIn fuel cfg env args)
  | CallUpdateImageDownload => no_result (UpdateImageDownload fuel cfg env args)
  | CallDeviceReasonUpdate => no_result (DeviceReasonUpdate fuel cfg env args)
  end.

(** The identifier drawn for a child that is discovered is new when the work
    starts. *)
Definition adapter_call_ok (c : adapter_call) s : Prop :=
  match c with
  | CallChildDeviceDetected =>
      ∀ txnID devID s1, body_state (Requests.takeRequestOwnership fuel cfg env txnID devID) s s1 →
      ∀ d, dp_get (Obj := Device) (Ids.CreateDeviceID env_random) (co_store (vc_core s1)) ≠ Ok (Some d)
  | _ => True
  end.

Lemma consistent_with_args {A} n message signature args (handler : Vars → M VolthaCore A) s :
  consistent s → (∀ vars, consistent (handler vars s).2) →
  consistent (with_args n message signature args handler s).2.
Proof.
  intros Hs Hh. unfold with_args. destruct (_ <? _)%nat; [exact Hs|]. unfold sbind, lift.
  by destruct (decode signature args ∅).
Qed.

Lemma consistent_no_result {A} (m : M VolthaCore A) s : consistent (m s).2 → consistent (no_result m s).2.
Proof. intros Hm. unfold no_result, sbind. by destruct (m s) as [[] ?]. Qed.

Ltac call_step :=
  first
    [ apply consistent_go | apply consistent_owned_by_me | apply consistent_take | apply consistent_competing
    | apply consistent_adapters; intros f; first [apply adapters_register | apply preserves_gets]
    | eapply (consistent_query _ (DmGetDevice _)); [reflexivity|done..]
    | eapply (consistent_query _ (DmGetChildDevice _ _ _ _)); [reflexivity|done..]
    | eapply (consistent_query _ (DmGetPorts _ _)); [reflexivity|done..]
    | eapply (consistent_query _ (DmGetAllChildDevices _)); [reflexivity|done..]
    | eapply (consistent_op (DmChildDevicesDetected _ _)); done
    | preserves_step ].

Lemma consistent_proxy_query address text :
  preserves consistent (on_core (DeviceMgr.GetChildDeviceWithProxyAddress fuel address text)).
Proof.
  apply consistent_core, sound_snap. intros f. unfold DeviceMgr.GetChildDeviceWithProxyAddress.
  repeat first [apply snap_aborted, snap_GetDevice | apply snap_find_child | preserves_step].
Qed.

Lemma consistent_adapter_call c args s :
  adapter_call_ok c s → consistent s → consistent (run_adapter_call c args s).2.
Proof.
  intros Hok Hs. destruct c; cbn [run_adapter_call]; apply consistent_no_result;
    apply consistent_with_args; try exact Hs; intros vars.
  7: {
    apply consistent_competing_at; [apply consistent_take|exact Hs|]. intros s1 Hs1 Hc.
    case_match; [exact Hc|]. specialize (Hok _ _ s1 Hs1).
    pose proof (consistent_on_core (childDeviceDetected fuel (str vars "parent_device_id") (int vars "parent_port_no")
      (str vars "child_device_type") (int vars "channel_id") (str vars "vendor_id") (str vars "serial_number")
      (int vars "onu_id")) s1 Hc) as Hr.
    unfold sbind. destruct (on_core _ s1) as [[[d []]|e|] s2]; apply Hr;
      (apply (sound_childDeviceDetected fuel accepts); [exact Hok|apply Hc]). }
  all: revert s Hok Hs; intros s _ Hs; revert s Hs; try change (preserves consistent (AdapterRequests.compete_for fuel cfg env vars _ _)).
  all: unfold AdapterRequests.compete_for, in_goroutine.
  all: match goal with |- ∀ s, consistent s → consistent (?m s).2 => change (preserves consistent m) end.
  all: repeat first [apply consistent_proxy_query | call_step].
Qed.

(** *** Requests of the northbound API *)

Context (md : Metadata).

Inductive north_call :=
  | NbGetLogicalDevicePort (id : LogicalPortId) | NbEnableLogicalDevicePort (id : LogicalPortId)
  | NbDisableLogicalDevicePort (id : LogicalPortId) | NbFlowTable (id : string) (flow : option OfpFlowMod)
  | NbGroupTable (id : string) (group : option OfpGroupMod) | NbMeterTable (id : string) (meter : option OfpMeterMod)
  | NbGetLogicalDevice (id : string) | NbListLogicalDevices | NbListFlows (id : string) | NbListGroups (id : string)
  | NbListPorts (id : string) | NbListMeters (id : string) | NbGetDevice (id : string) | NbListDevices
  | NbListDeviceIds | NbReconcileDevices (ids : list string) | NbCreateDevice (device : Device)
  | NbEnableDevice (id : string) | NbDisableDevice (id : string) | NbRebootDevice (id : string)
  | NbDeleteDevice (id : string) | NbListDevicePorts (id : string) | NbListDeviceFlows (id : string)
  | NbListDeviceFlowGroups (id : string) | NbEnablePort (port : Port) | NbDisablePort (port : Port)
  | NbSimulateAlarm (id : string) (req : Opaque) | NbListAdapters | NbListDeviceTypes | NbGetDeviceType (id : string)
  | NbImage (request : ImageRequest) (img : ImageDownload) | NbGetImageDownloadStatus (img : ImageDownload)
  | NbGetImageDownload (img : ImageDownload) | NbListImageDownloads (id : string)
  | NbUpdateDevicePmConfigs (configs : PmConfigs) | NbListDevicePmConfigs (id : string)
  | NbStreamPacketsOut (events : list stream_event).

Definition image_call (request : ImageRequest) : ImageDownload → M VolthaCore unit :=
  match request with
  | ImageDownloadRequest => DownloadImage fuel tie others cfg env md
  | CancelImageDownloadRequest => CancelImageDownload fuel tie others cfg env md
  | ActivateImageRequest => ActivateImageUpdate fuel tie others cfg env md
  | RevertImageRequest => RevertImageUpdate fuel tie others cfg env md
  end.

Definition run_north_call (c : north_call) : M VolthaCore unit :=
  match c with
  | NbGetLogicalDevicePort id => no_result (GetLogicalDevicePort fuel cfg env md id)
  | NbEnableLogicalDevicePort id => EnableLogicalDevicePort fuel tie others cfg env md id
  | NbDisableLogicalDevicePort id => DisableLogicalDevicePort fuel tie others cfg env md id
  | NbFlowTable id flow => UpdateLogicalDeviceFlowTable fuel tie others cfg env md id flow
  | NbGroupTable id group => UpdateLogicalDeviceFlowGroupTable fuel tie others cfg env md id group
  | NbMeterTable id meter => UpdateLogicalDeviceMeterTable fuel tie others cfg env md id meter
  | NbGetLogicalDevice id => no_result (Northbound.GetLogicalDevice fuel cfg env md id)
  | NbListLogicalDevices => no_result (ListLogicalDevices fuel cfg env md)
  | NbListFlows id => no_result (Northbound.ListLogicalDeviceFlows fuel cfg env md id)
  | NbListGroups id => no_result (Northbound.ListLogicalDeviceFlowGroups fuel cfg env md id)
  | NbListPorts id => no_result (Northbound.ListLogicalDevicePorts fuel cfg env md id)
  | NbListMeters id => no_result (Northbound.ListLogicalDeviceMeters fuel cfg env md id)
  | NbGetDevice id => no_result (Northbound.GetDevice fuel id)
  | NbListDevices => no_result Northbound.ListDevices
  | NbListDeviceIds => no_result (Northbound.ListDeviceIds md)
  | NbReconcileDevices ids => Northbound.ReconcileDevices fuel tie others env md ids
  | NbCreateDevice device => no_result (CreateDevice fuel cfg env md device)
  | NbEnableDevice id => EnableDevice fuel tie others cfg env md id
  | NbDisableDevice id => DisableDevice fuel tie others cfg env md id
  | NbRebootDevice id => RebootDevice fuel tie others cfg env md id
  | NbDeleteDevice id => DeleteDevice fuel tie others cfg env md id
  | NbListDevicePorts id => no_result (ListDevicePorts fuel cfg env md id)
  | NbListDeviceFlows id => no_result (ListDeviceFlows fuel cfg env md id)
  | NbListDeviceFlowGroups id => no_result (ListDeviceFlowGroups fuel id)
  | NbEnablePort port => EnablePort fuel tie others cfg env md port
  | NbDisablePort port => DisablePort fuel tie others cfg env md port
  | NbSimulateAlarm id req => SimulateAlarm fuel cfg env md id req
  | NbListAdapters => no_result ListAdapters
  | NbListDeviceTypes => no_result ListDeviceTypes
  | NbGetDeviceType id => no_result (GetDeviceType id)
  | NbImage request img => image_call request img
  | NbGetImageDownloadStatus img => no_result (GetImageDownloadStatus fuel cfg env md img)
  | NbGetImageDownload img => no_result (GetImageDownload fuel md img)
  | NbListImageDownloads id => no_result (ListImageDownloads fuel md id)
  | NbUpdateDevicePmConfigs configs => UpdateDevicePmConfigs fuel tie others cfg env md configs
  | NbListDevicePmConfigs id => no_result (ListDevicePmConfigs fuel cfg env md id)
  | NbStreamPacketsOut events => StreamPacketsOut fuel events
  end.

(** A new device has ports with distinct numbers, and the identifier drawn for it
    is new when the work starts. *)
Definition north_call_ok (c : north_call) s : Prop :=
  match c with
  | NbCreateDevice device =>
      ∀ s1, body_state (Northbound.takeRequestOwnership fuel cfg env md (hc_defaultRequestTimeout cfg) None) s s1 →
      core_op_ok (DmCreateDevice device) (vc_core s1)
  | NbListDevices => core_op_ok DmListDevices (vc_core s)
  | _ => True
  end.

Lemma consistent_north_take timeout id :
  preserves consistent (Northbound.takeRequestOwnership fuel cfg env md timeout id).
Proof.
  apply preserves_bind; [|intros t; apply consistent_acquire].
  apply preserves_lift_bind. intros txnID _. apply preserves_gets.
Qed.

Lemma consistent_wait op :
  adds_devices op = false → (∀ s : Core, core_op_ok op s) →
  preserves consistent (waitForNilResponseOnSuccess fuel tie others env op).
Proof.
  intros Hop Hok. unfold waitForNilResponseOnSuccess, wait_for. destruct (re_timeout env).
  - apply preserves_bind; [apply consistent_go|intros ?; apply preserves_fail].
  - by apply consistent_op.
Qed.

Lemma consistent_ListDevices s :
  core_op_ok DmListDevices (vc_core s) → consistent s → consistent (Northbound.ListDevices s).2.
Proof.
  intros Hok Hs. unfold Northbound.ListDevices. apply consistent_on_core; [exact Hs|].
  apply sound_ListDevices; [exact Hok|apply Hs].
Qed.

Lemma consistent_forward id packet : preserves consistent (forwardPacketOut fuel id packet).
Proof.
  unfold forwardPacketOut. apply preserves_bind; [apply preserves_attempt, consistent_owned_by_me|].
  intros [[]|e]; try apply preserves_ret. by apply (consistent_op (LdPacketOut id packet)).
Qed.

Lemma consistent_stream events : preserves consistent (StreamPacketsOut fuel events).
Proof.
  induction events as [|[id packet| | |] events IH]; cbn [StreamPacketsOut]; try apply preserves_ret; [|done].
  apply preserves_bind; [apply consistent_forward|done].
Qed.

Lemma consistent_CreateDevice device s :
  north_call_ok (NbCreateDevice device) s → consistent s → consistent (CreateDevice fuel cfg env md device s).2.
Proof.
  intros Hok Hs. unfold CreateDevice, tested. case_decide; [exact Hs|]. destruct (isTestMode md); [exact Hs|].
  apply consistent_competing_at; [apply consistent_north_take|exact Hs|]. intros s1 Hs1 Hc. specialize (Hok s1 Hs1).
  unfold wait_for. destruct (re_timeout env); [exact Hc|].
  pose proof (consistent_on_core (createDevice device) s1 Hc
    (sound_createDevice accepts device (vc_core s1) Hok (proj1 Hc))) as Hr.
  unfold sbind at 1. destruct (on_core _ s1) as [[d|e|] s2]; [|exact Hr..]. revert s2 Hr.
  change (preserves consistent (let* _ := attempt (owned_by_me fuel (DeviceID (dev_Id d))) in ret d)).
  apply preserves_bind; [apply preserves_attempt, consistent_owned_by_me|intros ?; apply preserves_ret].
Qed.

Ltac head_of t := lazymatch t with ?g _ => head_of g | _ => t end.

Ltac query_step :=
  first
    [ eapply (consistent_query _ (DmGetDevice _)); [reflexivity|done..]
    | eapply (consistent_query _ (LdGetLogicalDevice _)); [reflexivity|done..]
    | eapply (consistent_query _ (LdGetPort _)); [reflexivity|done..]
    | eapply (consistent_query _ LdListManaged); [reflexivity|done..]
    | eapply (consistent_query _ LdListLogical); [reflexivity|done..]
    | eapply (consistent_query _ (LdListFlows _)); [reflexivity|done..]
    | eapply (consistent_query _ (LdListGroups _)); [reflexivity|done..]
    | eapply (consistent_query _ (LdListPorts _)); [reflexivity|done..]
    | eapply (consistent_query _ (LdListMeters _)); [reflexivity|done..]
    | eapply (consistent_query _ DmListDeviceIds); [reflexivity|done..]
    | eapply (consistent_query _ (DmImageStatus _)); [reflexivity|done..]
    | eapply (consistent_query _ (DmGetImage _)); [reflexivity|done..]
    | eapply (consistent_query _ (DmListImages _)); [reflexivity|done..]
    | eapply (consistent_query _ (DmListPmConfigs _)); [reflexivity|done..]
    | eapply (consistent_op (DmStopManaging _)); done ].

Lemma consistent_north_call c s : north_call_ok c s → consistent s → consistent (run_north_call c s).2.
Proof.
  intros Hok Hs. destruct c as [| | | | | | | | | | | | | | | |device| | | | | | | | | | | | | |request| | | | | | ];
    cbn [run_north_call]; try apply consistent_no_result.
  all: try solve [by apply consistent_CreateDevice | by apply consistent_ListDevices].
  all: clear Hok; revert s Hs.
  all: lazymatch goal with |- ∀ s, consistent s → consistent (?m s).2 => change (preserves consistent m) end.
  all: try (destruct request; cbn [image_call]).
  all: try apply consistent_stream.
  all: lazymatch goal with |- preserves _ ?m => let h := head_of m in unfold h end.
  all: unfold processImageRequest, tested, compete_for, compete_long_for, wait_for, image_op.
  all: repeat first
    [ apply consistent_go | apply consistent_owned_by_me | apply consistent_north_take
    | apply consistent_wait; done | apply consistent_competing
    | apply consistent_adapters; intros f; apply preserves_gets | query_step | preserves_step ].
Qed.
End Calls.

(** *** Goroutines *)

(** When a goroutine may run: what it creates is new, and a monitoring goroutine
    is woken up by a channel that is ready.  [initPmConfigs] writes the device
    past its agent: it is left out. *)
Definition task_ok (t : vc_task) s : Prop :=
  match t with
  | RunBackground i =>
      match vc_background s !! i with
      | Some (GoCore op) => core_op_ok op (vc_core s)
      | Some (GoInitPmConfigs _ _) => False
      | _ => True
      end
  | RunMonitor i w => op_enabled (OpMonitor i w) (vc_own s)
  | _ => True
  end.

Lemma consistent_attempt_at {A} (m : M VolthaCore A) s :
  consistent (m s).2 → consistent ((let* _ := attempt m in ret tt) s).2.
Proof. unfold attempt, sbind. by destruct (m s) as [[]]. Qed.

Lemma consistent_run_goroutine g s :
  task_ok (RunBackground 0) (set_background [g] s) → consistent s → consistent (run_goroutine fuel others tie g s).2.
Proof.
  intros Hok Hs. destruct g as [op|img|id pm|adapter]; simpl in Hok; [| |done|]; cbn [run_goroutine].
  - apply consistent_on_core; [done|]. by apply (sound_run_core_op fuel others tie others_frame accepts op _ Hok (proj1 Hs)).
  - apply consistent_no_result. revert s Hs Hok. intros s Hs _. revert s Hs.
    change (preserves consistent (on_core (DeviceMgr.getImageDownloadStatus fuel img))).
    by eapply (consistent_query _ (DmImageStatus img)).
  - revert s Hs Hok. intros s Hs _. revert s Hs.
    change (preserves consistent (on_adapters (updateAdaptersAndDevicetypesInMemory adapter))).
    apply consistent_adapters. intros f. apply adapters_update.
Qed.

Lemma consistent_restart (adapter : string) owned :
  preserves consistent (on_core (adapterRestarted tie owned adapter)).
Proof. by apply (consistent_op (DmAdapterRestarted owned adapter)). Qed.

Lemma consistent_task t s : task_ok t s → consistent s → consistent (run_vc_task fuel others tie t s).2.
Proof.
  intros Hok Hs. unfold run_vc_task. rewrite (sbind_run get _ s s s eq_refl). destruct t as [i|i|i|i w].
  - destruct (vc_background s !! i) as [g|] eqn:Hg; [|exact Hs]. rewrite (sbind_run (modify _) _ s tt _ eq_refl).
    apply consistent_attempt_at, consistent_run_goroutine; [|exact Hs]. simpl in *. by rewrite Hg in Hok.
  - revert s Hs Hok. intros s Hs _. 
    assert (preserves consistent (on_core (run_task_at fuel others i))) as Ht
      by (by apply (consistent_op (DmRunTask i))).
    destruct (co_tasks (vc_core s) !! i) as [[]|];
      (apply preserves_bind; [|intros ?; apply Ht|exact Hs]); try apply preserves_ret.
    apply preserves_bind; [apply preserves_attempt, consistent_owned_by_me|intros ?; apply preserves_ret].
  - destruct (am_restarts _ !! i) as [adapter|]; [|exact Hs]. rewrite (sbind_run (modify _) _ s tt _ eq_refl).
    assert (consistent (set_adapters (set_restarts (delete_at i (am_restarts (vc_adapters s))) (vc_adapters s)) s)) as Hs1
      by exact Hs.
    revert Hs1. generalize (set_adapters (set_restarts (delete_at i (am_restarts (vc_adapters s))) (vc_adapters s)) s).
    change (preserves consistent (let* owned := on_own GetAllDeviceIdsOwnedByMe in
      let* _ := attempt (on_core (adapterRestarted tie owned (va_Id adapter))) in ret tt)).
    apply preserves_bind; [apply consistent_own, preserves_gets|]. intros owned.
    apply preserves_bind; [apply preserves_attempt, consistent_restart|intros ?; apply preserves_ret].
  - destruct Hs as [Hc Ho]. pose proof (inv_run_op (OpMonitor i w) (vc_own s) Ho Hok ltac:(done)) as [_ Hi].
    unfold on_own. destruct (run_own_op (OpMonitor i w) (vc_own s)) as [r o]. by split.
Qed.

(** *** Runs of the core *)

(** A request, or a goroutine.  While a request waits for its transaction the
    core runs any other requests and goroutines. *)
Inductive vc_step : VolthaCore → VolthaCore → Prop :=
  | step_adapter cfg env call args s :
      (∀ s1, vc_steps s1 (re_meanwhile env s1)) → adapter_call_ok cfg env call s →
      vc_step s (run_adapter_call cfg env call args s).2
  | step_north cfg env md call s :
      (∀ s1, vc_steps s1 (re_meanwhile env s1)) → north_call_ok cfg env md call s →
      vc_step s (run_north_call cfg env md call s).2
  | step_task t s : task_ok t s → vc_step s (run_vc_task fuel others tie t s).2
with vc_steps : VolthaCore → VolthaCore → Prop :=
  | steps_done s : vc_steps s s
  | steps_more s1 s2 s3 : vc_step s1 s2 → vc_steps s2 s3 → vc_steps s1 s3.

Scheme vc_step_mut := Minimality for vc_step Sort Prop
  with vc_steps_mut := Minimality for vc_steps Sort Prop.

Lemma consistent_steps s s' : vc_steps s s' → consistent s → consistent s'.
Proof.
  revert s s'. apply (vc_steps_mut (λ s s', consistent s → consistent s') (λ s s', consistent s → consistent s')).
  - intros cfg env call args s _ IH Hok Hs. by apply consistent_adapter_call.
  - intros cfg env md call s _ IH Hok Hs. by apply consistent_north_call.
  - intros t s. apply consistent_task.
  - done.
  - intros s1 s2 s3 _ IH1 _ IH2 Hs. by apply IH2, IH1.
Qed.

(** *** Reading keeps every stored device *)

Definition shown (f : string → outcome (option Device)) s : Prop := snap f (vc_core s).

Lemma shown_on_core {A} f (m : M Core A) : preserves (snap f) m → preserves (shown f) (on_core m).
Proof.
  intros Hm s Hs. unfold on_core, sbind. specialize (Hm _ Hs). destruct (m (vc_core s)) as [r c]. cbv beta iota. cbn [fst snd].
  assert (preserves (shown f) (abandon_all (KV := KV) (Store := Store) (co_abandoned c))) as Hab.
  { apply preserves_for_each. intros id. apply preserves_bind; [|intros ?; apply preserves_ret].
    apply preserves_attempt. intros s1 Hs1. unfold on_own. by destruct (AbandonDevice id _). }
  assert (shown f (set_core (set_abandoned [] c) s)) as Hs1.
  { apply (snap_modify f (set_abandoned [])); [|exact Hm]. intros c'. by split_and!. }
  specialize (Hab _ Hs1). destruct (abandon_all _ _) as [[[]|e|] s2]; [|exact Hab..]. exact Hab.
Qed.

Lemma shown_owned_by_me f id : preserves (shown f) (owned_by_me fuel id).
Proof.
  unfold owned_by_me. apply preserves_bind; [|intros mg s Hs; unfold on_own; by destruct (OwnedByMe _ _ _)].
  unfold find_device. apply preserves_get_bind. intros s _.
  destruct id as [|dID|ldID|printed]; try apply preserves_ret; destruct (_ !! _); try apply preserves_ret;
    (apply preserves_bind; [apply preserves_attempt, shown_on_core|intros ?; apply preserves_ret]).
  - apply snap_GetDevice.
  - apply snap_same. intros s0. unfold getLogicalDevice, with_logical, getLogicalDeviceAgent.
    preserves_tac.
    + apply same_ldm_load.
    + apply same_on_logical. intros g. preserves_tac.
Qed.

(** *** How a request ends *)

Lemma acquire_ends env timeout unknown denied id t s :
  match acquire fuel env timeout unknown denied id t s with
  | (Ok t', _) => tx_txnKey t' = tx_txnKey t ∧ (tx_monitorCh t' = Some false ∨ tx_monitorCh t' = tx_monitorCh t)
  | (Err e, _) => e = unknown ∨ e = denied
  | (Panic, _) => True
  end.
Proof.
  unfold acquire, sbind at 1.
  assert (∀ owned s1,
    match (let* r := on_txn t (Acquired timeout owned (re_wakes env)) in
           let* _ := modify (re_meanwhile env) in
           match r.1 with None => panic | Some true => ret r.2 | Some false => fail denied end) s1 with
    | (Ok t', _) => tx_txnKey t' = tx_txnKey t ∧ (tx_monitorCh t' = Some false ∨ tx_monitorCh t' = tx_monitorCh t)
    | (Err e, _) => e = unknown ∨ e = denied
    | (Panic, _) => True
    end) as Hrest.
  { intros owned s1. unfold sbind, on_txn, modify.
    pose proof (Acquired_ends timeout owned (re_wakes env) (set_txn_kv (do_kvClient (vc_own s1)) t)) as He.
    destruct (Acquired _ _ _ _) as [[r|e|] t1]; [|done..]. cbn -[set_core]. destruct r as [[]|]; simpl; auto. }
  destruct id as [id|]; [|apply Hrest].
  unfold sbind at 1, attempt. destruct (owned_by_me fuel id s) as [[b|e|] s1]; [apply Hrest|by left|done].
Qed.

Lemma shown_acquire f env timeout unknown denied id t :
  preserves (shown f) (modify (re_meanwhile env)) → preserves (shown f) (acquire fuel env timeout unknown denied id t).
Proof.
  intros Hm. unfold acquire.
  assert (∀ (m : M (KVTransaction (KV := KV)) (option bool)), preserves (shown f) (on_txn t m)) as Ht.
  { intros m s Hs. unfold on_txn. by destruct (m _) as [[] ?]. }
  repeat first [apply shown_owned_by_me | apply Ht | exact Hm | preserves_step].
Qed.

(** The state of a core that just started. *)
Definition new_core (store : Store) (timeout : Z) (instanceID : string) (kv : KV) (prefix : string)
    (reservationTimeout : Z) : VolthaCore :=
  mkVoltha (newManagers store timeout) (NewDeviceOwnership instanceID kv prefix reservationTimeout)
    (newAdapterManager store instanceID) [].




(** [ListDevicePmConfigs] looks for a device among the logical devices.  A
    core that competes for the request answers that it does not know the
    identifier, even when it manages the device, unless the owner of the device
    is already cached or a logical device has the same identifier. *)
Theorem list_pm_configs_not_found cfg env md serial id s r s1 :
  hc_coreInCompetingMode cfg = true → serial_number md = Ok serial →
  do_deviceToKeyMap (vc_own s) !! id = None →
  on_core (getLogicalDevice id) s = (r, s1) → r ≠ Panic → (∀ ld, r ≠ Ok (Some ld)) →
  do_deviceToKeyMap (vc_own s1) !! id = None →
  (ListDevicePmConfigs fuel cfg env md id s).1 = Err errorIDNotFound.
Proof.
  intros Hc Hmd Hkey Hget Hp Hld Hkey1.
  assert (∃ e s2, owned_by_me fuel (LogicalDeviceID id) s = (Err e, s2)) as (e & s2 & Hown).
  { unfold owned_by_me, find_device, sbind, get, attempt, ret. rewrite Hkey Hget.
    assert (∀ mg, mg_getLogicalDevice mg id = None →
      ∃ e o, OwnedByMe mg (LogicalDeviceID id) (vc_own s1) = (Err e, o)) as Hmg.
    { intros mg Hmg. unfold OwnedByMe, getOwnershipKey, sbind, get. rewrite Hkey1 Hmg. by do 2 eexists. }
    destruct r as [[ld|]|e|]; [by destruct (Hld ld)|..|done]; unfold on_own;
      (edestruct Hmg as (e' & o & ->); [reflexivity|by do 2 eexists]). }
  unfold ListDevicePmConfigs, Northbound.compete_for, competing, with_transaction, Northbound.takeRequestOwnership,
    createKvTransaction, new_transaction, acquire, of_logical.
  rewrite Hc. unfold sbind, attempt, lift, gets. rewrite Hmd. cbv beta iota. by rewrite Hown.
Qed.
End CoreState.

(** ** Witnesses *)

Section Samples.
#[local] Existing Instances sample_devices sample_logical_devices sample_list sample_logical_list sample_apart
  two_left_laws two_left_frame sample_env canonical_range sample_adapter sample_adapter_mgr sample_text
  sample_manager sample_calls sample_type_list sample_queries map_kv map_kv_reliable.

(** A path of the data model that holds nothing. *)
#[local] Instance empty_path {Obj} : DataProxy Obj SampleStore | 100 := {|
  dp_get _ _ := Ok None; dp_update _ _ st := (UpdNil, st); dp_add _ _ st := (UpdErr (Plain "full"), st);
  dp_remove _ st := (UpdNil, st) |}.
Lemma empty_path_apart {Obj} : @DataProxyApart Obj Device SampleStore empty_path sample_devices.
Proof. by intros id s s' id' [d|d|]. Qed.
#[local] Existing Instance empty_path_apart.
#[local] Instance sample_adapter_list : DataList VolthaAdapter SampleStore := {| dl_list _ := Ok None |}.

#[local] Instance field_type_dec : EqDecision FieldType.
Proof. solve_decision. Defined.
#[local] Instance sample_codec : AnyCodec Field := λ t f,
  if decide (type_of f = t) then Ok f else Err (Plain "mismatched message type").

Lemma sample_codec_typed t (f g : Field) : UnmarshalAny t f = Ok g → type_of g = t.
Proof. unfold UnmarshalAny, sample_codec. case_decide; [by intros [= <-]|done]. Qed.

Definition sample_fields : list (string * Field) := [("device_id", F_ID "olt"); (TransactionKey, F_StrType "7")].
Definition sample_signature : list (string * FieldType) := [("device_id", T_ID); (TransactionKey, T_StrType)].

Lemma arguments_roundtrip_witness :
  decode sample_signature [mkArgument TransactionKey (F_StrType "7"); mkArgument "new_key" (F_IntType 1);
    mkArgument "device_id" (F_ID "olt")] ∅ = Ok (list_to_map sample_fields).
Proof.
  apply (arguments_roundtrip id) with (extra := [mkArgument "new_key" (F_IntType 1)]).
  - by intros [].
  - simpl. apply NoDup_cons. split; [set_solver|apply NoDup_singleton].
  - repeat constructor.
  - repeat constructor.
  - simpl. unfold encode, id, sample_fields. simpl. etransitivity; [|apply perm_swap].
    constructor. etransitivity; [apply perm_swap|]. done.
Defined.

Definition sample_arguments : list (Argument Field) :=
  [mkArgument "device_id" (F_ID "onu"); mkArgument "device_id" (F_ID "olt")].
Definition sample_vars : Vars := <["device_id" := F_ID "olt"]> ∅.

Lemma decode_typed_witness : set_by sample_signature sample_arguments "device_id" (F_ID "olt").
Proof.
  exact (decode_typed sample_codec_typed sample_signature sample_arguments sample_vars "device_id" eq_refl).
Defined.

(** *** A core of a pair that serves an adapter *)

Notation SampleCore := (VolthaCore (Store := SampleStore) (KV := gmap string string)).

Definition sample_config : HandlerConfig := mkConfig false true "txn/" 3000 10000 "binding".
Definition sample_req_env : ReqEnv (Store := SampleStore) (KV := gmap string string) :=
  mkReqEnv [WatchTimeout] (λ s, s) None.
Definition sample_voltha : SampleCore :=
  new_core (sample_model_of [sample_root; sample_child "olt"]) 1000 "rw0" ∅ "own/" 10.

(** The children of the OLT are lost: the handler starts a goroutine. *)
Definition sample_served : SampleCore :=
  (run_adapter_call 2 sample_config sample_req_env CallChildDevicesLost
     [mkArgument "parent_device_id" (F_ID "olt"); mkArgument TransactionKey (F_StrType "7")] sample_voltha).2.
Definition sample_done : SampleCore := (run_vc_task 2 (λ l, l) (λ _, true) (RunBackground 0) sample_served).2.

Lemma sample_stored_wf x d :
  dp_get x (sample_model_of [sample_root; sample_child "olt"]) = Ok (Some d) → device_wf d ∧ dev_Id d = x.
Proof. intros Hd. split; [exact (proj2 (proj2 sample_managed) x d Hd)|exact (sample_core_ids _ x d Hd)]. Qed.



(** The other core completed the request. *)
Definition sample_late : SampleCore :=
  new_core (sample_model_of [sample_root; sample_child "olt"]) 1000 "rw1" {["txn/7" := TransactionComplete]} "own/" 10.


Lemma list_pm_configs_not_found_witness :
  (match (on_core (Managers.GetDevice 2 "olt") sample_voltha).1 with Ok d => dev_Id d | _ => "" end) = "olt" ∧
  (ListDevicePmConfigs 2 sample_config sample_req_env (Some {["voltha_serial_number" := ["7"]]}) "olt" sample_voltha).1
  = Err errorIDNotFound.
Proof.
  split; [by vm_compute|].
  apply (list_pm_configs_not_found 2 sample_config sample_req_env (Some {["voltha_serial_number" := ["7"]]}) "7" "olt" sample_voltha
    (on_core (getLogicalDevice "olt") sample_voltha).1 (on_core (getLogicalDevice "olt") sample_voltha).2
    eq_refl ltac:(by vm_compute) eq_refl (surjective_pairing _)).
  - assert ((match (on_core (getLogicalDevice "olt") sample_voltha).1 with Err _ => true | _ => false end) = true) as He
      by (by vm_compute). by destruct ((on_core _ _).1).
  - assert ((match (on_core (getLogicalDevice "olt") sample_voltha).1 with Err _ => true | _ => false end) = true) as He
      by (by vm_compute). by destruct ((on_core _ _).1).
  - by vm_compute.
Defined.
End Samples.
