(* ===== verification/ModelTree.v ===== *)
(** * The data model: revisions and branches

    [db/model]: [data_revision.go], [non_persisted_revision.go],
    [persisted_revision.go] and [branch.go].  The data model is a tree of nodes;
    each node has branches, a branch has revisions, and a revision has the data
    of the node and the revisions of its children.  These are shared objects: the
    state is a heap, and a pointer is a number.  The messages, the reflection on
    them, the hash function and the backend are interfaces. *)

From stdpp Require Import sorting.
From S2P Require Import Prelude.

(** ** Messages *)

(** The value of a key in a path: a string, or a number as [Sprintf] prints it. *)
Inductive KeyValue := KeyString (s : string) | KeyNumber (text : string).
Definition Sprintf_s (v : KeyValue) : string := match v with KeyString s | KeyNumber s => s end.

Record ChildType := mkChildType {
  ct_ClassType : string; ct_IsContainer : bool; ct_Key : string; ct_KeyFromStr : string → KeyValue }.

(** What the data model knows of a message by reflection on the generated types:
    its children fields, an attribute as [reflect.Value.String] and as [Sprintf]
    render it, the messages in a field, and the message with a field replaced.  A
    field that is no list has one message, which may be nil.  [msg_New] is an
    empty message of a type, [msg_depth] how deeply messages are nested, [md5_12] the
    first twelve hexadecimal digits of the hash, [ptr_text] how a pointer to a root
    is printed. *)
Class Schema (Msg : Type) := {
  ChildrenFields : Msg → gmap string ChildType;
  attr_String : Msg → string → string;
  attr_Sprintf : Msg → string → string;
  attr_children : Msg → string → option (list Msg);
  attr_set : Msg → string → list Msg → Msg;
  msg_type : Msg → string;
  msg_String : Msg → string;
  msg_Marshal : Msg → option string;
  msg_Unmarshal : string → string → option Msg;
  msg_New : string → Msg;
  msg_depth : Msg → nat;
  md5_12 : string → string;
  ptr_text : option nat → string
}.

(** The messages in a message are nested less deeply. *)
Class SchemaLaws (Msg : Type) `{Schema Msg} : Prop :=
  msg_depth_child : ∀ m f l c, attr_children m f = Some l → c ∈ l → (msg_depth c < msg_depth m)%nat.

(** [db.Backend]: blobs with their versions under keys, and the reservations of
    its client. *)
Class Backend (KV : Type) := {
  bk_Put : string → string → KV → bool * KV;
  bk_Delete : string → KV → bool * KV;
  bk_List : string → KV → gmap string (string * Z) + GoError;
  bk_Reserve : string → Z → KV → option GoError * KV;
  bk_Release : string → KV → bool * KV
}.

Inductive CallbackType :=
  | CbGet | PreUpdate | PostUpdate | PreAdd | PostAdd | PreRemove | PostRemove | PostListchange.
#[export] Instance CallbackType_eq_dec : EqDecision CallbackType.
Proof. solve_decision. Defined.

Inductive ProxyOperation :=
  | ProxyNone | ProxyGet | ProxyList | ProxyAdd | ProxyUpdate | ProxyRemove | ProxyCreate | ProxyWatch.
#[export] Instance ProxyOperation_eq_dec : EqDecision ProxyOperation.
Proof. solve_decision. Defined.

(** [strings.SplitN(path, "/", 2)]: the rest is empty when there is no slash. *)
Fixpoint SplitN (path : string) : string * string :=
  match path with
  | EmptyString => (EmptyString, EmptyString)
  | String "/" rest => (EmptyString, rest)
  | String c rest => let (a, b) := SplitN rest in (String c a, b)
  end.

(** The loop that removes the leading slashes. *)
Fixpoint trim_slashes (path : string) : string :=
  match path with String "/" rest => trim_slashes rest | _ => path end.

(** A loop that changes a local variable. *)
Fixpoint for_each_acc {S A B} (f : B → A → M S B) (l : list A) (acc : B) : M S B :=
  match l with
  | [] => ret acc
  | x :: l => let* acc := f acc x in for_each_acc f l acc
  end.

(** ** The heap *)

Section Heap.
Context {Msg KV : Type}.

(** The configuration of a revision is compared as a pointer. *)
Record DataRevision := mkData { cf_ptr : nat; cf_Data : Msg; cf_Hash : string }.

(** A slice of revisions: nil, or its elements, which may be nil. *)
Definition Slice : Type := option (list (option nat)).

Record NonPersistedRevision := mkNPR {
  np_Root : option nat; np_Config : DataRevision; np_Children : gmap string Slice; np_Hash : string;
  np_Branch : nat; np_Name : string; np_lastUpdate : Z }.

(** What a persisted revision adds to the revision it embeds; [pe_events]: its
    channel was made. *)
Record Persisted := mkPersisted { pe_Version : Z; pe_isStored : bool; pe_isWatched : bool; pe_events : bool }.
Record Revision := mkRevision { rv_npr : nat; rv_persisted : option Persisted }.

Record Branch := mkBranch {
  br_Node : nat; br_Txid : string; br_Origin : option nat; br_Revisions : gmap string nat; br_Latest : option nat }.

(** The data of a change: a message, a revision, a field, or nil. *)
Inductive ChangeData := DataOf (m : Msg) | DataRev (r : nat) | DataContext (field : string) | DataNil.
Record ChangeTuple := mkChange { ch_Type : CallbackType; ch_PreviousData : ChangeData; ch_LatestData : ChangeData }.
Record CallbackTuple := mkCallback { cb_proxy : nat; cb_change : ChangeTuple }.

Record Node := mkNode {
  nd_Root : nat; nd_Type : Msg; nd_Branches : gmap string nat; nd_Proxy : option nat }.
Record Root := mkRoot {
  rt_node : nat; rt_Callbacks : list CallbackTuple; rt_DirtyNodes : nat; rt_KvStore : bool }.
Record Proxy := mkProxy {
  px_Root : nat; px_Node : nat; px_ParentNode : nat; px_Path : string; px_FullPath : string; px_Exclusive : bool;
  px_Callbacks : list (CallbackType * gmap string nat); px_operation : ProxyOperation }.

(** [hp_cache] is the cache of revisions by name, [hp_watches] the table of the
    watches, [hp_started] the callbacks whose goroutines were started, [hp_now]
    the time in nanoseconds. *)
Record Heap := mkHeap {
  hp_next : nat; hp_nprs : gmap nat NonPersistedRevision; hp_revs : gmap nat Revision;
  hp_branches : gmap nat Branch; hp_nodes : gmap nat Node; hp_roots : gmap nat Root;
  hp_proxies : gmap nat Proxy; hp_dirty : gmap nat (gmap string (list nat)); hp_cache : gmap string nat;
  hp_watches : gset string; hp_kv : KV; hp_now : Z; hp_started : list CallbackTuple }.
End Heap.

Arguments DataRevision : clear implicits.
Arguments NonPersistedRevision : clear implicits.
Arguments ChangeData : clear implicits.
Arguments ChangeTuple : clear implicits.
Arguments CallbackTuple : clear implicits.
Arguments Node : clear implicits.
Arguments Root : clear implicits.
Arguments Heap : clear implicits.

Section Setters.
Context {Msg KV : Type}.
Implicit Types (h : Heap Msg KV) (n : NonPersistedRevision Msg).

Definition set_nprs v h := mkHeap (hp_next h) v (hp_revs h) (hp_branches h) (hp_nodes h) (hp_roots h) (hp_proxies h)
  (hp_dirty h) (hp_cache h) (hp_watches h) (hp_kv h) (hp_now h) (hp_started h).
Definition set_revs v h := mkHeap (hp_next h) (hp_nprs h) v (hp_branches h) (hp_nodes h) (hp_roots h) (hp_proxies h)
  (hp_dirty h) (hp_cache h) (hp_watches h) (hp_kv h) (hp_now h) (hp_started h).
Definition set_branches v h := mkHeap (hp_next h) (hp_nprs h) (hp_revs h) v (hp_nodes h) (hp_roots h) (hp_proxies h)
  (hp_dirty h) (hp_cache h) (hp_watches h) (hp_kv h) (hp_now h) (hp_started h).
Definition set_nodes v h := mkHeap (hp_next h) (hp_nprs h) (hp_revs h) (hp_branches h) v (hp_roots h) (hp_proxies h)
  (hp_dirty h) (hp_cache h) (hp_watches h) (hp_kv h) (hp_now h) (hp_started h).
Definition set_roots v h := mkHeap (hp_next h) (hp_nprs h) (hp_revs h) (hp_branches h) (hp_nodes h) v (hp_proxies h)
  (hp_dirty h) (hp_cache h) (hp_watches h) (hp_kv h) (hp_now h) (hp_started h).
Definition set_proxies v h := mkHeap (hp_next h) (hp_nprs h) (hp_revs h) (hp_branches h) (hp_nodes h) (hp_roots h) v
  (hp_dirty h) (hp_cache h) (hp_watches h) (hp_kv h) (hp_now h) (hp_started h).
Definition set_dirty v h := mkHeap (hp_next h) (hp_nprs h) (hp_revs h) (hp_branches h) (hp_nodes h) (hp_roots h)
  (hp_proxies h) v (hp_cache h) (hp_watches h) (hp_kv h) (hp_now h) (hp_started h).
Definition set_cache v h := mkHeap (hp_next h) (hp_nprs h) (hp_revs h) (hp_branches h) (hp_nodes h) (hp_roots h)
  (hp_proxies h) (hp_dirty h) v (hp_watches h) (hp_kv h) (hp_now h) (hp_started h).
Definition set_watches v h := mkHeap (hp_next h) (hp_nprs h) (hp_revs h) (hp_branches h) (hp_nodes h) (hp_roots h)
  (hp_proxies h) (hp_dirty h) (hp_cache h) v (hp_kv h) (hp_now h) (hp_started h).
Definition set_kv (v : KV) h := mkHeap (hp_next h) (hp_nprs h) (hp_revs h) (hp_branches h) (hp_nodes h) (hp_roots h)
  (hp_proxies h) (hp_dirty h) (hp_cache h) (hp_watches h) v (hp_now h) (hp_started h).
Definition set_started v h := mkHeap (hp_next h) (hp_nprs h) (hp_revs h) (hp_branches h) (hp_nodes h) (hp_roots h)
  (hp_proxies h) (hp_dirty h) (hp_cache h) (hp_watches h) (hp_kv h) (hp_now h) v.
Definition set_next v h := mkHeap v (hp_nprs h) (hp_revs h) (hp_branches h) (hp_nodes h) (hp_roots h)
  (hp_proxies h) (hp_dirty h) (hp_cache h) (hp_watches h) (hp_kv h) (hp_now h) (hp_started h).

Definition set_np_Config (v : DataRevision Msg) n :=
  mkNPR (np_Root n) v (np_Children n) (np_Hash n) (np_Branch n) (np_Name n) (np_lastUpdate n).
Definition set_np_Children v n :=
  mkNPR (np_Root n) (np_Config n) v (np_Hash n) (np_Branch n) (np_Name n) (np_lastUpdate n).
Definition set_np_Hash v n :=
  mkNPR (np_Root n) (np_Config n) (np_Children n) v (np_Branch n) (np_Name n) (np_lastUpdate n).
Definition set_np_Branch v n :=
  mkNPR (np_Root n) (np_Config n) (np_Children n) (np_Hash n) v (np_Name n) (np_lastUpdate n).
Definition set_np_Name v n :=
  mkNPR (np_Root n) (np_Config n) (np_Children n) (np_Hash n) (np_Branch n) v (np_lastUpdate n).
Definition set_np_lastUpdate v n :=
  mkNPR (np_Root n) (np_Config n) (np_Children n) (np_Hash n) (np_Branch n) (np_Name n) v.

Definition set_br_Latest v (b : Branch) := mkBranch (br_Node b) (br_Txid b) (br_Origin b) (br_Revisions b) v.
Definition set_br_Revisions v (b : Branch) := mkBranch (br_Node b) (br_Txid b) (br_Origin b) v (br_Latest b).
End Setters.

(** ** Pointers *)

Section Revisions.
Context {Msg KV : Type} `{Schema Msg, Backend KV, GoRange}.
Notation Heap := (Heap Msg KV).
Notation NPR := (NonPersistedRevision Msg).

Definition alloc : M Heap nat := λ h, (Ok (hp_next h), set_next (S (hp_next h)) h).

Definition get_rev (p : nat) : M Heap Revision := λ h, (deref (hp_revs h !! p), h).
Definition get_branch (p : nat) : M Heap Branch := λ h, (deref (hp_branches h !! p), h).
Definition get_node (p : nat) : M Heap (Node Msg) := λ h, (deref (hp_nodes h !! p), h).
Definition get_root (p : nat) : M Heap (Root Msg) := λ h, (deref (hp_roots h !! p), h).
Definition get_proxy (p : nat) : M Heap Proxy := λ h, (deref (hp_proxies h !! p), h).

Definition put_rev (p : nat) (r : Revision) : M Heap unit := modify (λ h, set_revs (<[p := r]> (hp_revs h)) h).
Definition put_npr (p : nat) (n : NPR) : M Heap unit := modify (λ h, set_nprs (<[p := n]> (hp_nprs h)) h).
Definition put_branch (p : nat) (b : Branch) : M Heap unit := modify (λ h, set_branches (<[p := b]> (hp_branches h)) h).
Definition put_node (p : nat) (n : Node Msg) : M Heap unit := modify (λ h, set_nodes (<[p := n]> (hp_nodes h)) h).
Definition put_root (p : nat) (r : Root Msg) : M Heap unit := modify (λ h, set_roots (<[p := r]> (hp_roots h)) h).

(** The revision that [p] embeds or is. *)
Definition npr_at (h : Heap) (p : nat) : option NPR := hp_revs h !! p ≫= λ r, hp_nprs h !! rv_npr r.
Definition get_npr (p : nat) : M Heap NPR := λ h, (deref (npr_at h p), h).
Definition update_npr (p : nat) (f : NPR → NPR) : M Heap unit :=
  let* r := get_rev p in
  let* n := λ h, (deref (hp_nprs h !! rv_npr r), h) in
  put_npr (rv_npr r) (f n).

Definition GetHash (p : nat) : M Heap string := let* n := get_npr p in ret (np_Hash n).
Definition GetName (p : nat) : M Heap string := let* n := get_npr p in ret (np_Name n).
Definition GetConfig (p : nat) : M Heap (DataRevision Msg) := let* n := get_npr p in ret (np_Config n).
Definition GetData (p : nat) : M Heap Msg := let* n := get_npr p in ret (cf_Data (np_Config n)).
Definition GetBranchOf (p : nat) : M Heap nat := let* n := get_npr p in ret (np_Branch n).
Definition getNode (p : nat) : M Heap nat := let* b := GetBranchOf p in let* b := get_branch b in ret (br_Node b).
Definition GetAllChildren (p : nat) : M Heap (gmap string Slice) := let* n := get_npr p in ret (np_Children n).
Definition children_of (n : NPR) (name : string) : Slice := default None (np_Children n !! name).
Definition GetChildren (p : nat) (name : string) : M Heap Slice := let* n := get_npr p in ret (children_of n name).
Definition SetName (p : nat) (name : string) : M Heap unit := update_npr p (set_np_Name name).
Definition SetConfig (p : nat) (config : DataRevision Msg) : M Heap unit := update_npr p (set_np_Config config).
Definition SetLastUpdate (p : nat) : M Heap unit := λ h, update_npr p (set_np_lastUpdate (hp_now h)) h.
Definition ClearHash (p : nat) : M Heap unit := update_npr p (set_np_Hash EmptyString).

(** [make] and [copy]: the result is not nil. *)
Definition SetChildren (p : nat) (name : string) (children : list (option nat)) : M Heap unit :=
  update_npr p (λ n, set_np_Children (<[name := Some children]> (np_Children n)) n).

(** [append] to a nil slice: nil when there is nothing to append. *)
Definition append_nil (s : Slice) : Slice := match default [] s with [] => None | l => Some l end.
Definition copy_children (c : gmap string Slice) : gmap string Slice := append_nil <$> c.

(** ** [data_revision.go] *)

(** A message that cannot be marshalled is hashed as nothing. *)
Definition hashData (root : option nat) (data : Msg) : string :=
  md5_12 ((match msg_Marshal data with Some b => b +:+ msg_type data | None => EmptyString end) +:+ ptr_text root).

Definition NewDataRevision (root : option nat) (data : Msg) : M Heap (DataRevision Msg) :=
  let* p := alloc in ret (mkData p data (hashData root data)).

(** ** [branch.go] *)

Definition NewBranch (node : nat) (txid : string) (origin : option nat) : M Heap nat :=
  let* p := alloc in
  let* _ := put_branch p (mkBranch node txid origin ∅ origin) in
  ret p.

Definition GetLatest (b : nat) : M Heap (option nat) := let* br := get_branch b in ret (br_Latest br).
Definition SetLatest (b : nat) (latest : nat) : M Heap unit :=
  let* br := get_branch b in put_branch b (set_br_Latest (Some latest) br).
Definition GetRevision (b : nat) (hash : string) : M Heap (option nat) :=
  let* br := get_branch b in ret (br_Revisions br !! hash).
Definition SetRevision (b : nat) (hash : string) (revision : nat) : M Heap unit :=
  let* br := get_branch b in put_branch b (set_br_Revisions (<[hash := revision]> (br_Revisions br)) br).
Definition DeleteRevision (b : nat) (hash : string) : M Heap unit :=
  let* br := get_branch b in put_branch b (set_br_Revisions (delete hash (br_Revisions br)) br).
Definition AddRevision (b : nat) (revision : nat) : M Heap unit :=
  let* hash := GetHash revision in
  let* known := GetRevision b hash in
  match known with None => SetRevision b hash revision | Some _ => ret tt end.

(** The latest revision of a branch, where the code calls a method of it. *)
Definition latest_of (b : nat) : M Heap nat := let* l := GetLatest b in lift (deref l).

(** ** [non_persisted_revision.go]: hashing *)

(** The children are hashed in the order of the names of their fields; a nil
    child is skipped. *)
Definition sort_strings (l : list string) : list string := merge_sort (λ a b, Is_true (String.leb a b)) l.

Fixpoint children_hash (l : list (option nat)) : M Heap string :=
  match l with
  | [] => ret EmptyString
  | None :: l => children_hash l
  | Some c :: l => let* x := GetHash c in let* y := children_hash l in ret (x +:+ y)
  end.
Definition hashContent (n : NPR) : M Heap string :=
  let* cs := children_hash (sort_strings (go_range (np_Children n)).*1 ≫= λ key, default [] (children_of n key)) in
  ret (md5_12 (cf_Hash (np_Config n) +:+ np_Name n +:+ cs)).

(** [Finalize] of the embedded revision. *)
Definition finalize_npr (i : nat) : M Heap unit :=
  let* n := λ h, (deref (hp_nprs h !! i), h) in
  let* hash := hashContent n in
  put_npr i (set_np_Hash hash n).

(** A new revision that is not persisted, with its hash. *)
Definition new_npr (n : NPR) : M Heap nat :=
  let* i := alloc in
  let* _ := put_npr i n in
  let* _ := finalize_npr i in
  ret i.
Definition new_rev (i : nat) (persisted : option Persisted) : M Heap nat :=
  let* p := alloc in
  let* _ := put_rev p (mkRevision i persisted) in
  ret p.

Definition NewNonPersistedRevision (root : option nat) (branch : nat) (data : Msg) (children : gmap string Slice)
    : M Heap nat :=
  let* config := NewDataRevision root data in
  new_npr (mkNPR root config children EmptyString branch EmptyString 0).
Definition NewPersistedRevision (branch : nat) (data : Msg) (children : gmap string Slice) : M Heap nat :=
  let* i := NewNonPersistedRevision None branch data children in
  new_rev i (Some (mkPersisted 1 false false false)).

(** ** [persisted_revision.go]: storing *)

(** A revision of a transaction is not stored; an error of the backend is only
    logged. *)
Definition store (p : nat) (pe : Persisted) : M Heap unit :=
  let* n := get_npr p in
  let* b := get_branch (np_Branch n) in
  if decide (br_Txid b ≠ EmptyString) then ret tt
  else
    match msg_Marshal (cf_Data (np_Config n)) with
    | None => ret tt
    | Some blob =>
        let* _ := modify (λ h, set_cache (<[np_Name n := p]> (hp_cache h)) h) in
        let* stored := λ h, let (ok, kv) := bk_Put (np_Name n) blob (hp_kv h) in (Ok ok, set_kv kv h) in
        let* r := get_rev p in
        if (stored : bool)
        then put_rev p (mkRevision (rv_npr r) (Some (mkPersisted (pe_Version pe) true (pe_isWatched pe) (pe_events pe))))
        else ret tt
    end.

Definition Finalize (p : nat) : M Heap unit :=
  let* r := get_rev p in
  match rv_persisted r with
  | None => finalize_npr (rv_npr r)
  | Some pe => store p pe
  end.

(** ** Updating a revision *)

(** The new revision around the embedded one [i]: [p] itself where the update of
    a revision that is not persisted returns it. *)
Definition updated (p i : nat) : M Heap nat :=
  let* r := get_rev p in
  match rv_persisted r with
  | None => if decide (i = rv_npr r) then ret p else new_rev i None
  | Some pe =>
      let* old := λ h, (deref (hp_nprs h !! rv_npr r), h) in
      let* new := λ h, (deref (hp_nprs h !! i), h) in
      new_rev i (Some (mkPersisted (pe_Version pe) (bool_decide (np_Hash new = np_Hash old))
                         (pe_isWatched pe) (pe_events pe)))
  end.

Definition UpdateData (p : nat) (data : Msg) (branch : nat) : M Heap nat :=
  let* n := get_npr p in
  let* r := get_rev p in
  if decide (hashData (np_Root n) data = cf_Hash (np_Config n)) then updated p (rv_npr r)
  else
    let* config := NewDataRevision (np_Root n) data in
    let* latest := latest_of branch in
    let* children := GetAllChildren latest in
    let* i := new_npr (mkNPR (np_Root n) config (copy_children children) (np_Hash n) branch (np_Name n)
                         (np_lastUpdate n)) in
    updated p i.

(** The position of the last revision with each name. *)
Fixpoint name_index (l : list nat) (i : nat) (names : gmap string nat) : M Heap (gmap string nat) :=
  match l with
  | [] => ret names
  | c :: l => let* name := GetName c in name_index l (S i) (<[name := i]> names)
  end.

(** The existing children whose names are not among the new ones. *)
Fixpoint forgotten (existing : list nat) (newNames : gmap string nat) : M Heap (list nat) :=
  match existing with
  | [] => ret []
  | c :: existing =>
      let* name := GetName c in
      let* l := forgotten existing newNames in
      ret (match newNames !! name with None => c :: l | Some _ => l end)
  end.

Definition SetRoot (node root : nat) : M Heap unit :=
  let* n := get_node node in put_node node (mkNode root (nd_Type n) (nd_Branches n) (nd_Proxy n)).

(** A new child replaces the existing one of its name, unless the data is the
    same. *)
Fixpoint merge_children (existing : list nat) (existingNames : gmap string nat) (children : list nat)
    : M Heap (list nat) :=
  match children with
  | [] => ret []
  | c :: children =>
      let* name := GetName c in
      let* kept :=
        match existingNames !! name with
        | None => ret c
        | Some i =>
            let* e := lift (index existing i) in
            let* old := GetData e in
            let* new := GetData c in
            if decide (msg_String old = msg_String new) then ret e
            else
              let* newNode := getNode c in
              let* oldNode := getNode e in
              let* o := get_node oldNode in
              let* _ := SetRoot newNode (nd_Root o) in
              ret c
        end in
      let* l := merge_children existing existingNames children in
      ret (kept :: l)
  end.

(** Elements of a slice whose methods are called: a nil revision panics. *)
Definition not_nil (l : list (option nat)) : outcome (list nat) := mapO deref l.

Definition UpdateChildren (p : nat) (name : string) (children : list (option nat)) (branch : nat) : M Heap nat :=
  let* n := get_npr p in
  let* config := NewDataRevision (np_Root n) (cf_Data (np_Config n)) in
  let* latest := latest_of branch in
  let* all := GetAllChildren latest in
  let* existing := GetChildren latest name in
  let* updatedChildren :=
    match existing with
    | None => ret children
    | Some existing =>
        let* existing := lift (not_nil existing) in
        let* children := lift (not_nil children) in
        let* newNames := name_index children 0 ∅ in
        let* existingNames := name_index existing 0 ∅ in
        let* kept := forgotten existing newNames in
        let* merged := merge_children existing existingNames children in
        ret (Some <$> kept ++ merged)
    end in
  let* i := new_npr (mkNPR None config (<[name := Some updatedChildren]> (copy_children all)) (np_Hash n) branch
                       (np_Name n) (np_lastUpdate n)) in
  updated p i.

(** This one changes the embedded revision in place. *)
Definition UpdateAllChildren (p : nat) (children : gmap string Slice) (branch : nat) : M Heap nat :=
  let* r := get_rev p in
  let* n := get_npr p in
  let* _ := put_npr (rv_npr r) (set_np_Children (copy_children children) (set_np_Branch branch n)) in
  let* _ := finalize_npr (rv_npr r) in
  updated p (rv_npr r).

(** ** Dropping *)

(** [Drop] only logs.  [ChildDrop] removes the first child with the hash; the
    hash of the revision stays. *)
Fixpoint first_child {A} `{EqDecision A} (f : nat → M Heap A) (x : A) (l : list (option nat)) (i : nat)
    : M Heap (option nat) :=
  match l with
  | [] => ret None
  | c :: l =>
      let* c := lift (deref c) in
      let* y := f c in
      if decide (y = x) then ret (Some i) else first_child f x l (S i)
  end.

Definition drop_child {A} `{EqDecision A} (p : nat) (childType : string) (f : nat → M Heap A) (x : A) : M Heap unit :=
  if decide (childType = EmptyString) then ret tt
  else
    let* children := GetChildren p childType in
    let* i := first_child f x (default [] children) 0 in
    match i with
    | Some i => SetChildren p childType (delete_at i (default [] children))
    | None => ret tt
    end.

Definition ChildDrop (p : nat) (childType childHash : string) : M Heap unit :=
  drop_child p childType GetHash childHash.
Definition ChildDropByName (p : nat) (childName : string) : M Heap unit :=
  drop_child p (SplitN childName).1 GetName childName.

(** An error of the backend is only logged. *)
Definition StorageDrop (p : nat) (txid : string) : M Heap unit :=
  let* r := get_rev p in
  match rv_persisted r with
  | None => ret tt
  | Some pe =>
      if decide (txid = EmptyString) then
        let* name := GetName p in
        let* deleted := λ h, let (ok, kv) := bk_Delete name (hp_kv h) in (Ok ok, set_kv kv h) in
        put_rev p (mkRevision (rv_npr r)
          (Some (mkPersisted (pe_Version pe) (if (deleted : bool) then false else pe_isStored pe) false (pe_events pe))))
      else ret tt
  end.

(** The watch of a revision runs in a goroutine of its own. *)
Definition SetupWatch (p : nat) (key : string) : M Heap unit :=
  let* r := get_rev p in
  match rv_persisted r with
  | None => ret tt
  | Some pe =>
      if decide (key = EmptyString) then ret tt
      else
        let* hash := GetHash p in
        let* h := get in
        if decide (key +:+ "-" +:+ hash ∈ hp_watches h) then ret tt
        else
          let* _ := modify (λ h, set_watches ({[key +:+ "-" +:+ hash]} ∪ hp_watches h) h) in
          let* _ := if pe_events pe then ret tt else SetName p key in
          put_rev p (mkRevision (rv_npr r) (Some (mkPersisted (pe_Version pe) (pe_isStored pe) true true)))
  end.

Definition getVersion (p : nat) : M Heap Z :=
  let* r := get_rev p in
  ret (match rv_persisted r with Some pe => pe_Version pe | None => -1 end).

(** A type assertion to a persisted revision comes first. *)
Definition setVersion (p : nat) (version : Z) : M Heap unit :=
  let* r := get_rev p in
  match rv_persisted r with
  | None => panic
  | Some pe =>
      put_rev p (mkRevision (rv_npr r) (Some (mkPersisted version (pe_isStored pe) (pe_isWatched pe) (pe_events pe))))
  end.

(** [NonPersistedRevision.Get]: with a depth, the children are merged into a copy
    of the data. *)
Fixpoint map_children {A} (f : nat → M Heap A) (l : list nat) : M Heap (list A) :=
  match l with
  | [] => ret []
  | c :: l => let* x := f c in let* xs := map_children f l in ret (x :: xs)
  end.

Fixpoint append_missing (holder children : list Msg) : list Msg :=
  match children with
  | [] => holder
  | c :: children =>
      append_missing (if existsb (λ m, bool_decide (msg_String m = msg_String c)) holder then holder else holder ++ [c])
        children
  end.

Fixpoint Get_depth (depth : nat) (p : nat) : M Heap Msg :=
  let* b := GetBranchOf p in
  let* latest := latest_of b in
  let* data := GetData latest in
  match depth with
  | O => ret data
  | S depth =>
      let fix each (fields : list (string * ChildType)) (data : Msg) : M Heap Msg :=
        match fields with
        | [] => ret data
        | (fieldName, field) :: fields =>
            let* revs := GetChildren latest fieldName in
            let* data :=
              if ct_IsContainer field then
                let* l := lift (not_nil (default [] revs)) in
                let* children := map_children (Get_depth depth) l in
                ret (attr_set data fieldName (append_missing (default [] (attr_children data fieldName)) children))
              else
                match default [] revs with
                | Some rev :: _ =>
                    let* child := Get_depth depth rev in
                    ret (if decide (Some (msg_type child) = msg_type <$> (default [] (attr_children data fieldName)) !! 0%nat)
                         then attr_set data fieldName [child] else data)
                | _ => ret data
                end in
            each fields data
        end in
      each (go_range (ChildrenFields data)) data
  end.
End Revisions.
