(* ===== verification/ModelMerge.v ===== *)
(** * The data model: merging

    [db/model/merge.go]: a transaction works on branches of its own.  When it
    commits, the revision it forked from, its own latest revision and the latest
    revision of the node are merged, field by field and key by key. *)

From S2P Require Import Prelude ModelTree.

(** Slices are equal when both are nil, or their elements are the same pointers. *)
Definition revisionsAreEqual (a b : Slice) : bool :=
  match a, b with
  | None, None => true
  | Some a, Some b => bool_decide (a = b)
  | _, _ => false
  end.

(** The maps are sets of keys; [KeyMap1] and [KeyMap2] have the last position of
    each key. *)
Record changeAnalysis := mkAnalysis {
  ca_KeyMap1 : gmap string nat; ca_KeyMap2 : gmap string nat;
  ca_AddedKeys : gmap string unit; ca_RemovedKeys : gmap string unit; ca_ChangedKeys : gmap string unit }.

(** A key that is not in a map has the position zero. *)
Definition position (m : gmap string nat) (key : string) : nat := default O (m !! key).

(** [l[i] = x] panics out of range. *)
Definition assign {A} (l : list A) (i : nat) (x : A) : outcome (list A) :=
  if decide (i < length l)%nat then Ok (<[i := x]> l) else Panic.

Section Merge.
Context {Msg KV : Type} `{Schema Msg, Backend KV, GoRange}.
Notation Heap := (Heap Msg KV).
Notation ChangeTuple := (ChangeTuple Msg).

Fixpoint key_map (keyName : string) (l : list (option nat)) (i : nat) (m : gmap string nat)
    : M Heap (gmap string nat) :=
  match l with
  | [] => ret m
  | rev :: l =>
      let* rev := lift (deref rev) in
      let* data := GetData rev in
      key_map keyName l (S i) (<[attr_String data keyName := i]> m)
  end.

(** The keys of both maps whose revisions have different hashes. *)
Fixpoint changed_keys (lst1 lst2 : list (option nat)) (keyMap2 : gmap string nat) (keys : list (string * nat))
    : M Heap (gmap string unit) :=
  match keys with
  | [] => ret ∅
  | (key, i) :: keys =>
      let* rest := changed_keys lst1 lst2 keyMap2 keys in
      match keyMap2 !! key with
      | None => ret rest
      | Some j =>
          let* rev1 := lift (let? r := index lst1 i in deref r) in
          let* rev2 := lift (let? r := index lst2 j in deref r) in
          let* hash1 := GetHash rev1 in
          let* hash2 := GetHash rev2 in
          ret (if decide (hash1 = hash2) then rest else <[key := tt]> rest)
      end
  end.

Definition newChangeAnalysis (lst1 lst2 : list (option nat)) (keyName : string) : M Heap changeAnalysis :=
  let* keyMap1 := key_map keyName lst1 0 ∅ in
  let* keyMap2 := key_map keyName lst2 0 ∅ in
  let* changed := changed_keys lst1 lst2 keyMap2 (go_range keyMap1) in
  ret (mkAnalysis keyMap1 keyMap2
         ((λ _, tt) <$> filter (λ kv, keyMap1 !! kv.1 = None) keyMap2)
         ((λ _, tt) <$> filter (λ kv, keyMap2 !! kv.1 = None) keyMap1) changed).

(** ** Merging one field *)

(** The children of the merged revision so far, and the changes to announce. *)
Record Merging := mkMerging { mg_newChildren : gmap string Slice; mg_changes : list ChangeTuple }.

Context (mergeChildFunc : nat → M Heap (option nat)) (dryRun : bool).

(** A nil revision panics in the function. *)
Definition merge_child (rev : option nat) : M Heap (option nat) :=
  let* rev := lift (deref rev) in mergeChildFunc rev.

(** The result of a merge whose data is announced must not be nil. *)
Definition data_of (rev : option nat) : M Heap Msg := let* rev := lift (deref rev) in GetData rev.

(** The node did not change since the fork: the children are those of the
    source. *)
Definition forward_added (src : changeAnalysis) (acc : list (option nat) * list ChangeTuple) (key : string)
    : M Heap (list (option nat) * list ChangeTuple) :=
  let '(newList, changes) := acc in
  let idx := position (ca_KeyMap2 src) key in
  let* old := lift (index newList idx) in
  let* newRev := merge_child old in
  match newRev with
  | None => ret acc
  | Some _ =>
      let* newList := lift (assign newList idx newRev) in
      let* data := data_of newRev in
      ret (newList, changes ++ [mkChange PostAdd (DataOf data) (DataOf data)])
  end.

Definition forward_removed (src : changeAnalysis) (forkList : list (option nat))
    (acc : list (option nat) * list ChangeTuple) (key : string) : M Heap (list (option nat) * list ChangeTuple) :=
  let* oldRev := lift (index forkList (position (ca_KeyMap1 src) key)) in
  let* data := data_of oldRev in
  ret (acc.1, acc.2 ++ [mkChange PostRemove (DataOf data) DataNil]).

Definition forward_changed (src : changeAnalysis) (acc : list (option nat) * list ChangeTuple) (key : string)
    : M Heap (list (option nat) * list ChangeTuple) :=
  let '(newList, changes) := acc in
  let idx := position (ca_KeyMap2 src) key in
  let* old := lift (index newList idx) in
  let* newRev := merge_child old in
  match newRev with
  | None => ret acc
  | Some _ => let* newList := lift (assign newList idx newRev) in ret (newList, changes)
  end.

Definition merge_forward (field : ChildType) (forkList srcList : list (option nat)) (changes : list ChangeTuple)
    : M Heap (list (option nat) * list ChangeTuple) :=
  let* src := newChangeAnalysis forkList srcList (ct_Key field) in
  let* acc := for_each_acc (forward_added src) (go_range (ca_AddedKeys src)).*1 (srcList, changes) in
  let* acc := for_each_acc (forward_removed src forkList) (go_range (ca_RemovedKeys src)).*1 acc in
  for_each_acc (forward_changed src) (go_range (ca_ChangedKeys src)).*1 acc.

(** Both sides changed.  Conflicts are only logged. *)
Definition merge_added (src dst : changeAnalysis) (srcList dstList : list (option nat))
    (acc : list (option nat) * list ChangeTuple) (key : string) : M Heap (list (option nat) * list ChangeTuple) :=
  let '(newList, changes) := acc in
  let* childSrcRev := lift (index srcList (position (ca_KeyMap2 src) key)) in
  match ca_AddedKeys dst !! key with
  | Some _ =>
      let* childDstRev := lift (index dstList (position (ca_KeyMap2 dst) key)) in
      let* dstHash := let* c := lift (deref childDstRev) in GetHash c in
      let* srcHash := let* c := lift (deref childSrcRev) in GetHash c in
      let* _ := if decide (dstHash = srcHash) then let* _ := merge_child childDstRev in ret tt else ret tt in
      ret acc
  | None =>
      let* newRev := merge_child childSrcRev in
      let* data := data_of newRev in
      let* rev := lift (deref childSrcRev) in
      ret (newList ++ [newRev], changes ++ [mkChange PostAdd (DataRev rev) (DataOf data)])
  end.

Definition merge_changed (src dst : changeAnalysis) (srcList dstList : list (option nat))
    (acc : list (option nat) * list ChangeTuple) (key : string) : M Heap (list (option nat) * list ChangeTuple) :=
  let '(newList, changes) := acc in
  match ca_RemovedKeys dst !! key with
  | Some _ => ret acc
  | None =>
      let idx := position (ca_KeyMap2 dst) key in
      let* childSrcRev := lift (index srcList (position (ca_KeyMap2 src) key)) in
      let take_over :=
        let* newRev := merge_child childSrcRev in
        let* newList := lift (assign newList idx newRev) in
        ret (newList, changes) in
      match ca_ChangedKeys dst !! key with
      | None => take_over
      | Some _ =>
          let* childDstRev := lift (let? r := index dstList idx in deref r) in
          let* childSrc := lift (deref childSrcRev) in
          let* dstHash := GetHash childDstRev in
          let* srcHash := GetHash childSrc in
          if decide (dstHash = srcHash) then let* _ := merge_child childSrcRev in ret acc
          else
            let* dstConfig := GetConfig childDstRev in
            let* srcConfig := GetConfig childSrc in
            if decide (cf_Hash dstConfig = cf_Hash srcConfig) then take_over else ret acc
      end
  end.

(** The position of a child that is removed is the one it has in [dstList],
    whatever was removed before. *)
Definition merge_removed (dst : changeAnalysis) (acc : list (option nat) * list ChangeTuple) (key : string)
    : M Heap (list (option nat) * list ChangeTuple) :=
  let '(newList, changes) := acc in
  match ca_RemovedKeys dst !! key with
  | Some _ => ret acc
  | None =>
      let dstIdx := position (ca_KeyMap2 dst) key in
      let* oldRev := lift (index newList dstIdx) in
      let* data := data_of oldRev in
      ret (delete_at dstIdx newList, changes ++ [mkChange PostRemove (DataOf data) DataNil])
  end.

Definition merge_both (field : ChildType) (forkList srcList dstList : list (option nat)) (changes : list ChangeTuple)
    : M Heap (list (option nat) * list ChangeTuple) :=
  let* src := newChangeAnalysis forkList srcList (ct_Key field) in
  let* dst := newChangeAnalysis forkList dstList (ct_Key field) in
  let* acc := for_each_acc (merge_added src dst srcList dstList) (go_range (ca_AddedKeys src)).*1 (dstList, changes) in
  let* acc := for_each_acc (merge_changed src dst srcList dstList) (go_range (ca_ChangedKeys src)).*1 acc in
  for_each_acc (merge_removed dst) (go_range (ca_RemovedKeys src)).*1 acc.

(** The children of a list without keys cannot be merged. *)
Definition merge_unkeyed (fieldName : string) (field : ChildType) (fork src dst : Slice) (m : Merging)
    : M Heap Merging :=
  if revisionsAreEqual dst fork && revisionsAreEqual src fork then
    let* m' := for_each_acc (λ l rev, let* r := merge_child rev in ret (l ++ [r])) (default [] src)
                 (default [] (default None (mg_newChildren m !! fieldName))) in
    ret (mkMerging (<[fieldName := append_nil (Some m')]> (mg_newChildren m))
           (if ct_IsContainer field
            then mg_changes m ++ [mkChange PostListchange (DataContext fieldName) DataNil] else mg_changes m))
  else ret m.

Definition merge_field (forkRev srcRev dstRev : nat) (m : Merging) (f : string * ChildType) : M Heap Merging :=
  let '(fieldName, field) := f in
  let* fork := GetChildren forkRev fieldName in
  let* src := GetChildren srcRev fieldName in
  let* dst := GetChildren dstRev fieldName in
  if revisionsAreEqual dst src then
    let* _ := for_each (λ rev, let* _ := merge_child rev in ret tt) (default [] src) in
    ret m
  else if decide (ct_Key field = EmptyString) then merge_unkeyed fieldName field fork src dst m
  else
    let* (newList, changes) :=
      if revisionsAreEqual dst fork
      then merge_forward field (default [] fork) (default [] src) (mg_changes m)
      else merge_both field (default [] fork) (default [] src) (default [] dst) (mg_changes m) in
    ret (mkMerging (if dryRun then mg_newChildren m else <[fieldName := Some newList]> (mg_newChildren m)) changes).

(** ** Merging a node *)

(** The configuration of the source is taken unless it is that of the node. *)
Definition configChanged (fork src dst : DataRevision Msg) : bool :=
  if decide (cf_ptr dst = cf_ptr fork) then bool_decide (cf_ptr dst ≠ cf_ptr src) else true.

Definition Merge3Way (forkRev srcRev dstRev : nat) : M Heap (option nat * list ChangeTuple) :=
  let* forkConfig := GetConfig forkRev in
  let* srcConfig := GetConfig srcRev in
  let* dstConfig := GetConfig dstRev in
  let changed := configChanged forkConfig srcConfig dstConfig in
  let* all := GetAllChildren dstRev in
  let* m := for_each_acc (merge_field forkRev srcRev dstRev) (go_range (ChildrenFields (cf_Data forkConfig)))
              (mkMerging ((λ s : Slice, Some (default [] s)) <$> all) []) in
  if dryRun || bool_decide (mg_newChildren m = ∅) then ret (None, [])
  else
    let* b := GetBranchOf dstRev in
    let* rev := UpdateAllChildren (if changed then srcRev else dstRev) (mg_newChildren m) b in
    if changed then
      let* latest := latest_of b in
      let* previous := GetData latest in
      let* data := GetData rev in
      ret (Some rev, mg_changes m ++ [mkChange PostUpdate (DataOf previous) (DataOf data)])
    else ret (Some rev, mg_changes m).
End Merge.
