(* ===== verification/ModelNode.v ===== *)
(** * The data model: nodes

    [db/model/node.go]: nodes are made from a message and its children fields;
    the path of an operation selects a node, whose latest revision is replaced by
    a new one, and so are those of the nodes above it.  An operation of a
    transaction works on the branch of the transaction. *)

From S2P Require Import Prelude ModelTree ModelMerge.

(** What stands for the branch without a transaction. *)
Definition NONE : string := "none".

(** What reading a path returns: nil, a message, or a list, which may be nil. *)
Inductive Reading (Msg : Type) := RNone | ROne (m : Msg) | RList (l : list Msg).
Arguments RNone {Msg}.
Arguments ROne {Msg} m.
Arguments RList {Msg} l.

Section Nodes.
Context {Msg KV : Type} `{Schema Msg, Backend KV, GoRange}.
Notation Heap := (Heap Msg KV).
Notation ChangeTuple := (ChangeTuple Msg).

(** ** The latest revision *)

(** [GetBranch] of a node: nil when there is none. *)
Definition node_branch (n : nat) (key : string) : M Heap (option nat) :=
  let* nd := get_node n in ret (nd_Branches nd !! key).
Definition SetBranch (n : nat) (key : string) (branch : nat) : M Heap unit :=
  let* nd := get_node n in
  put_node n (mkNode (nd_Root nd) (nd_Type nd) (<[key := branch]> (nd_Branches nd)) (nd_Proxy nd)).
Definition DeleteBranch (n : nat) (txid : string) : M Heap unit :=
  let* nd := get_node n in
  put_node n (mkNode (nd_Root nd) (nd_Type nd) (delete txid (nd_Branches nd)) (nd_Proxy nd)).
Definition SetProxy (n : nat) (proxy : option nat) : M Heap unit :=
  let* nd := get_node n in
  put_node n (mkNode (nd_Root nd) (nd_Type nd) (nd_Branches nd) proxy).
Definition GetProxy (n : nat) : M Heap (option nat) := let* nd := get_node n in ret (nd_Proxy nd).

(** [root.AddCallback], for the callbacks of a proxy. *)
Definition AddCallback (root proxy : nat) (change : ChangeTuple) : M Heap unit :=
  let* r := get_root root in
  put_root root (mkRoot (rt_node r) (rt_Callbacks r ++ [mkCallback proxy change]) (rt_DirtyNodes r) (rt_KvStore r)).

(** A revision is the latest only if its hash differs from that of the latest
    one; a revision with a name is put in the cache.  The changes are announced
    to the proxy of the node, outside of transactions. *)
Definition makeLatest (n branch revision : nat) (changeAnnouncement : list ChangeTuple) : M Heap unit :=
  let* latest := GetLatest branch in
  let* previous := match latest with Some l => GetHash l | None => ret EmptyString end in
  let* _ := AddRevision branch revision in
  let* hash := GetHash revision in
  let* _ :=
    if decide (latest ≠ None ∧ hash = previous) then ret tt
    else
      let* name := GetName revision in
      let* _ :=
        if decide (name = EmptyString) then ret tt
        else
          let* _ := SetLastUpdate revision in
          modify (λ h, set_cache (<[name := revision]> (hp_cache h)) h) in
      SetLatest branch revision in
  let* latest := latest_of branch in
  let* hash := GetHash latest in
  let* _ :=
    if decide (previous ≠ EmptyString ∧ previous ≠ hash) then DeleteRevision branch previous else ret tt in
  let* br := get_branch branch in
  let* nd := get_node n in
  match nd_Proxy nd with
  | Some proxy =>
      if decide (br_Txid br = EmptyString) then for_each (AddCallback (nd_Root nd) proxy) changeAnnouncement else ret tt
  | None => ret tt
  end.

Definition Latest (n : nat) (txid : string) : M Heap (option nat) :=
  let* b := node_branch n (if decide (txid = EmptyString) then NONE else txid) in
  match b with Some b => GetLatest b | None => ret None end.

(** ** Making nodes *)

(** [root.MakeRevision]: persisted when the root has a store. *)
Definition MakeRevision (root branch : nat) (data : Msg) (children : gmap string Slice) : M Heap nat :=
  let* r := get_root root in
  if rt_KvStore r then NewPersistedRevision branch data children
  else let* i := NewNonPersistedRevision (Some root) branch data children in new_rev i None.

Definition append_child (children : gmap string Slice) (fieldName : string) (rev : nat) : gmap string Slice :=
  <[fieldName := Some (default [] (default None (children !! fieldName)) ++ [Some rev])]> children.

(** [newNode], [MakeNode] and [initialize]: a node for each message in the
    children fields.  [fuel] bounds the nesting of the messages. *)
Fixpoint newNode (fuel : nat) (root : nat) (data : Msg) (txid : string) : M Heap nat :=
  match fuel with
  | O => panic
  | S fuel =>
      let* n := alloc in
      let* _ := put_node n (mkNode root data ∅ None) in
      let* children := for_each_acc (λ children f,
        let '(fieldName, field) := (f : string * ChildType) in
        match attr_children data fieldName with
        | None => ret children
        | Some l =>
            for_each_acc (λ children v,
              let* child := newNode fuel root v txid in
              let* rev :=
                Latest child (if ct_IsContainer field && bool_decide (ct_Key field ≠ EmptyString)
                              then txid else EmptyString) in
              ret (match rev with Some rev => append_child children fieldName rev | None => children end)) l children
        end) (go_range (ChildrenFields data)) ∅ in
      let* branch := NewBranch n EmptyString None in
      let* rev := MakeRevision root branch data children in
      let* _ := makeLatest n branch rev [] in
      let* _ := SetBranch n (if decide (txid = EmptyString) then NONE else txid) branch in
      ret n
  end.

Definition MakeNode (n : nat) (data : Msg) (txid : string) : M Heap nat :=
  let* nd := get_node n in newNode (S (msg_depth data)) (nd_Root nd) data txid.

(** ** Reading the tree *)

(** The first revision whose attribute is printed as the value is. *)
Fixpoint find_rev (revs : list (option nat)) (keyName : string) (value : string) (i : nat)
    : M Heap (option (nat * nat)) :=
  match revs with
  | [] => ret None
  | rev :: revs =>
      let* rev := lift (deref rev) in
      let* data := GetData rev in
      if decide (attr_Sprintf data keyName = value) then ret (Some (i, rev)) else find_rev revs keyName value (S i)
  end.
Definition findRevByKey (revs : list (option nat)) (keyName : string) (value : KeyValue)
    : M Heap (option (nat * nat)) :=
  find_rev revs keyName (Sprintf_s value) 0.

(** No callback for reading is registered. *)
Definition getData (rev : nat) (depth : nat) : M Heap Msg :=
  let* b := GetBranchOf rev in
  let* latest := latest_of b in
  Get_depth depth latest.

Definition children_data (depth : nat) (children : list (option nat)) : M Heap (list Msg) :=
  let* l := lift (not_nil children) in map_children (λ c, getData c depth) l.

(** What follows the key in the path is dropped.  Every call shortens the path. *)
Fixpoint getPath (fuel : nat) (n rev : nat) (path : string) (depth : nat) : M Heap (Reading Msg) :=
  match fuel with
  | O => panic
  | S fuel =>
      if decide (path = EmptyString) then let* m := getData rev depth in ret (ROne m)
      else
        let (name, path) := SplitN path in
        let* nd := get_node n in
        let* revs := GetChildren rev name in
        match ChildrenFields (nd_Type nd) !! name with
        | Some (mkChildType _ true key fromStr) =>
            let children := default [] revs in
            if decide (key ≠ EmptyString ∧ path ≠ EmptyString) then
              let* found := findRevByKey children key (fromStr (SplitN path).1) in
              match found with
              | None => ret RNone
              | Some (_, childRev) =>
                  let* _ := getNode childRev in
                  let* m := getData childRev depth in ret (ROne m)
              end
            else if decide (path ≠ EmptyString) then ret (RList [])
            else let* l := children_data depth children in ret (RList l)
        | _ =>
            match revs with
            | None => ret RNone
            | Some children =>
                let* childRev := lift (let? c := index children 0 in deref c) in
                let* childNode := getNode childRev in
                getPath fuel childNode childRev path depth
            end
        end
  end.

(** ** Branches *)

Definition MakeBranch (n : nat) (txid : string) : M Heap nat :=
  let* none := let* b := node_branch n NONE in lift (deref b) in
  let* branchPoint := GetLatest none in
  let* branch := NewBranch n txid branchPoint in
  let* _ := SetBranch n txid branch in
  ret branch.

(** The branch of an operation. *)
Definition operation_branch (n : nat) (txid : string) (makeBranch : nat → M Heap nat) : M Heap nat :=
  if decide (txid = EmptyString) then let* b := node_branch n NONE in lift (deref b)
  else
    let* b := node_branch n txid in
    match b with Some b => ret b | None => makeBranch n end.

(** Merging the branches of the children, [fuel] levels deep. *)
Fixpoint MergeBranch (fuel : nat) (n : nat) (txid : string) (dryRun : bool) : M Heap (option nat) :=
  match fuel with
  | O => panic
  | S fuel =>
      let mergeChild (rev : nat) : M Heap (option nat) :=
        let* b := GetBranchOf rev in
        let* br := get_branch b in
        if decide (br_Txid br = txid) then MergeBranch fuel (br_Node br) txid dryRun else ret (Some rev) in
      let* srcBranch := let* b := node_branch n txid in lift (deref b) in
      let* dstBranch := node_branch n NONE in
      let* src := get_branch srcBranch in
      let* dstBranch := lift (deref dstBranch) in
      let* forkRev := lift (deref (br_Origin src)) in
      let* srcRev := latest_of srcBranch in
      let* dstRev := latest_of dstBranch in
      let* (rev, changes) := Merge3Way mergeChild dryRun forkRev srcRev dstRev in
      if dryRun then ret rev
      else
        let* _ :=
          match rev with
          | Some rev =>
              let* name := GetName dstRev in
              let* _ := SetName rev name in
              makeLatest n dstBranch rev changes
          | None => ret tt
          end in
        let* _ := DeleteBranch n txid in
        ret rev
  end.

(** ** Updating *)

Section Operations.
Context (makeBranch : nat → M Heap nat) (txid : string).

(** A message of another type is not stored. *)
Definition doUpdate (n branch : nat) (data : Msg) : M Heap (option nat) :=
  let* nd := get_node n in
  if decide (msg_type data ≠ msg_type (nd_Type nd)) then ret None
  else
    let* latest := latest_of branch in
    let* old := GetData latest in
    if decide (msg_String old = msg_String data) then ret (Some latest)
    else
      let* rev := UpdateData latest data branch in
      let* new := GetData rev in
      let* _ := makeLatest n branch rev [mkChange PostUpdate (DataOf old) (DataOf new)] in
      ret (Some rev).

(** [children[idx] = rev]. *)
Definition replace_child (children : list (option nat)) (idx : nat) (rev : option nat) : list (option nat) :=
  <[idx := rev]> children.

(** The proxy of a node is passed on to a child without one, if it is that of the
    whole tree. *)
Definition pass_proxy (n child : nat) : M Heap unit :=
  let* c := GetProxy child in
  let* p := GetProxy n in
  match c, p with
  | None, Some p => let* px := get_proxy p in if decide (px_FullPath px = EmptyString) then SetProxy child (Some p) else ret tt
  | _, _ => ret tt
  end.

(** The child [childRev] at [idx] was replaced: the revision of the node is
    replaced too. *)
Definition replace_in_parent (n branch rev : nat) (name : string) (children : list (option nat)) (childRev : nat)
    : M Heap unit :=
  let* updatedRev := UpdateChildren rev name children branch in
  let* _ := makeLatest n branch updatedRev [] in
  let* hash := GetHash childRev in
  ChildDrop updatedRev name hash.

(** A result that is nil where the code calls a method of it. *)
Definition not_nil_result (m : M Heap (option nat)) : M Heap nat := let* r := m in lift (deref r).

(** A field that does not exist updates the node itself. *)
Fixpoint node_Update (fuel : nat) (n : nat) (path : string) (data : Msg) : M Heap (option nat) :=
  match fuel with
  | O => panic
  | S fuel =>
      let path := trim_slashes path in
      let* branch := operation_branch n txid makeBranch in
      if decide (path = EmptyString) then doUpdate n branch data
      else
        let (name, path) := SplitN path in
        let* nd := get_node n in
        match ChildrenFields (nd_Type nd) !! name with
        | None => doUpdate n branch data
        | Some (mkChildType _ true fieldKey fromStr) =>
            if decide (path = EmptyString ∨ fieldKey = EmptyString) then ret None
            else
              let (key, path) := SplitN path in
              let keyValue := fromStr key in
              let* rev := latest_of branch in
              let* children := GetChildren rev name in
              let children := default [] children in
              let* found := findRevByKey children fieldKey keyValue in
              match found with
              | None => GetLatest branch
              | Some (idx, childRev) =>
                  let* childNode := getNode childRev in
                  let* _ := pass_proxy n childNode in
                  let* newChildRev := not_nil_result (node_Update fuel childNode path data) in
                  let* newHash := GetHash newChildRev in
                  let* oldHash := GetHash childRev in
                  if decide (newHash = oldHash) then
                    let* _ := if decide (newChildRev = childRev) then ret tt else ClearHash newChildRev in
                    GetLatest branch
                  else
                    let* _ := SetName newChildRev (name +:+ "/" +:+ Sprintf_s keyValue) in
                    let* _ := replace_in_parent n branch rev name
                                (replace_child children idx (Some newChildRev)) childRev in
                    ret (Some newChildRev)
              end
        | Some _ =>
            let* rev := latest_of branch in
            let* children := GetChildren rev name in
            let* childRev := lift (let? c := index (default [] children) 0 in deref c) in
            let* childNode := getNode childRev in
            let* newChildRev := node_Update fuel childNode path data in
            let* _ := replace_in_parent n branch rev name [newChildRev] childRev in
            ret newChildRev
        end
  end.

(** ** Adding *)

(** [keyValue.(string)]. *)
Definition key_string (v : KeyValue) : outcome string :=
  match v with KeyString s => Ok s | KeyNumber _ => Panic end.

(** The node of a new entry, and its revision with its name. *)
Definition make_entry (n : nat) (data : Msg) (name : string) : M Heap nat :=
  let* child := MakeNode n data EmptyString in
  let* childRev := not_nil_result (Latest child EmptyString) in
  let* _ := SetName childRev name in
  ret childRev.

(** Adding to a container: nothing is added if a child has the key. *)
Definition add_child (n branch rev : nat) (name fieldKey : string) (data : Msg) : M Heap (option nat) :=
  let* children := GetChildren rev name in
  let children := default [] children in
  let key := attr_String data fieldKey in
  let* exists_ := findRevByKey children fieldKey (KeyString key) in
  match exists_ with
  | Some (_, rev) => ret (Some rev)
  | None =>
      let* childRev := make_entry n data (name +:+ "/" +:+ key) in
      let* updatedRev := UpdateChildren rev name (children ++ [Some childRev]) branch in
      let* childData := GetData childRev in
      let* childName := GetName childRev in
      let* _ := SetupWatch childRev childName in
      let* _ := makeLatest n branch updatedRev [mkChange PostAdd DataNil (DataOf childData)] in
      ret (Some childRev)
  end.

Fixpoint node_Add (fuel : nat) (n : nat) (path : string) (data : Msg) : M Heap (option nat) :=
  match fuel with
  | O => panic
  | S fuel =>
      let path := trim_slashes path in
      if decide (path = EmptyString) then ret None
      else
        let* branch := operation_branch n txid makeBranch in
        let (name, path) := SplitN path in
        let* nd := get_node n in
        let* field := lift (deref (ChildrenFields (nd_Type nd) !! name)) in
        if negb (ct_IsContainer field) || bool_decide (ct_Key field = EmptyString) then ret None
        else
        let* rev := latest_of branch in
        if decide (path = EmptyString) then add_child n branch rev name (ct_Key field) data
        else
          let (key, path) := SplitN path in
          let keyValue := ct_KeyFromStr field key in
          let* children := GetChildren rev name in
          let children := default [] children in
          let* found := findRevByKey children (ct_Key field) keyValue in
          match found with
          | None => GetLatest branch
          | Some (idx, childRev) =>
              let* childNode := getNode childRev in
              let* newChildRev := not_nil_result (node_Add fuel childNode path data) in
              let* key := lift (key_string keyValue) in
              let* _ := SetName newChildRev (name +:+ "/" +:+ key) in
              let* _ := replace_in_parent n branch rev name (replace_child children idx (Some newChildRev)) childRev in
              ret (Some newChildRev)
          end
  end.

(** ** Removing *)

(** The children of the latest revision are changed in place. *)
Definition remove_child (n branch rev : nat) (name : string) (children : list (option nat)) (idx childRev : nat)
    : M Heap (option nat) :=
  let* data := GetData childRev in
  let* _ := StorageDrop childRev txid in
  let* childName := GetName childRev in
  let* _ := modify (λ h, set_cache (delete childName (hp_cache h)) h) in
  let* _ := SetChildren rev name (delete_at idx children) in
  let* _ := makeLatest n branch rev [mkChange PostRemove (DataOf data) DataNil] in
  ret (Some rev).

(** An empty path is only logged; it has no field. *)
Fixpoint node_Remove (fuel : nat) (n : nat) (path : string) : M Heap (option nat) :=
  match fuel with
  | O => panic
  | S fuel =>
      let path := trim_slashes path in
      let* branch := operation_branch n txid makeBranch in
      let (name, path) := SplitN path in
      let* nd := get_node n in
      let* field := lift (deref (ChildrenFields (nd_Type nd) !! name)) in
      if negb (ct_IsContainer field) || bool_decide (path = EmptyString) || bool_decide (ct_Key field = EmptyString)
      then ret None
      else
        let (key, path) := SplitN path in
        let keyValue := ct_KeyFromStr field key in
        let* rev := latest_of branch in
        let* children := GetChildren rev name in
        let children := default [] children in
        let* found := findRevByKey children (ct_Key field) keyValue in
        if decide (path = EmptyString) then
          match found with
          | Some (idx, childRev) => remove_child n branch rev name children idx childRev
          | None => let* _ := lift (key_string keyValue) in ret None
          end
        else
          match found with
          | None => GetLatest branch
          | Some (idx, childRev) =>
              let* childNode := getNode childRev in
              let* c := GetProxy childNode in
              let* p := GetProxy n in
              let* _ := match c with None => SetProxy childNode p | Some _ => ret tt end in
              let* newChildRev := node_Remove fuel childNode path in
              let* _ := SetChildren rev name (replace_child children idx newChildRev) in
              let* _ := let* _ := latest_of branch in makeLatest n branch rev [] in
              GetLatest branch
          end
  end.
End Operations.
End Nodes.
