(* ===== verification/ModelRoot.v ===== *)
(** * The data model: persistence, roots and proxies

    [persisted_revision.go] (loading and watches), the reading of a node and the
    making of proxies ([node.go]), [root.go], [proxy.go] and [transaction.go]. *)

From S2P Require Import Prelude ModelTree ModelMerge ModelNode.

(** In milliseconds, and in seconds. *)
Definition DataRefreshPeriod : Z := 5000.
Definition ReservationTTL : Z := 180.

(** [time.Duration] to whole milliseconds. *)
Definition age_ms (now last : Z) : Z := Z.quot (now - last) 1000000.

(** A path has a slash. *)
Fixpoint has_slash (path : string) : bool :=
  match path with EmptyString => false | String c rest => bool_decide (c = "/"%char) || has_slash rest end.

(** [strings.SplitN(path, "/", -1)]. *)
Fixpoint split_slashes (path : string) : list string :=
  match path with
  | EmptyString => [EmptyString]
  | String c rest =>
      if decide (c = "/"%char) then EmptyString :: split_slashes rest
      else match split_slashes rest with a :: l => String c a :: l | [] => [String c EmptyString] end
  end.

Inductive EventType := EventPut | EventDelete | EventOther.
Record Event := mkEvent { ev_Type : EventType; ev_Key : string; ev_Value : string; ev_Version : Z }.

Section Roots.
Context {Msg KV : Type} `{Schema Msg, Backend KV, GoRange}.
Notation Heap := (Heap Msg KV).

(** ** Loading *)

(** The branch without transaction of the node above. *)
Definition parent_branch (rev : nat) : M Heap nat :=
  let* n := getNode rev in
  let* nd := get_node n in
  let* root := get_root (nd_Root nd) in
  let* b := node_branch (rt_node root) NONE in
  lift (deref b).

Definition cache_set (name : string) (rev : nat) : M Heap unit :=
  modify (λ h, set_cache (<[name := rev]> (hp_cache h)) h).

(** A child that is in memory is replaced if its data differs and its version is
    older. *)
Definition refresh_child (parent : nat) (children : list (option nat)) (idx childRev : nat) (data : Msg)
    (typeName : string) (version : Z) : M Heap nat :=
  let* old := GetData childRev in
  let* current := getVersion childRev in
  if decide (msg_String old ≠ msg_String data ∧ current < version) then
    let* b := GetBranchOf childRev in
    let* updated := UpdateData childRev data b in
    let* newNode := getNode updated in
    let* oldNode := getNode childRev in
    let* proxy := GetProxy oldNode in
    let* _ := SetProxy newNode proxy in
    let* name := GetName updated in
    let* _ := SetupWatch updated name in
    let* _ := SetLastUpdate updated in
    let* _ := setVersion updated version in
    let* _ := cache_set name updated in
    let* latest := latest_of parent in
    let* updatedRev := UpdateChildren latest typeName (replace_child children idx (Some updated)) parent in
    let* pb := get_branch parent in
    let* _ := makeLatest (br_Node pb) parent updatedRev [] in
    let* latest := latest_of parent in
    let* hash := GetHash childRev in
    let* _ := ChildDrop latest typeName hash in
    ret updated
  else
    let* _ := SetLastUpdate childRev in
    let* _ := if decide (current < version) then setVersion childRev version else ret tt in
    let* name := GetName childRev in
    let* _ := cache_set name childRev in
    ret childRev.

(** A child that is not is made. *)
Definition load_child (rev parent : nat) (children : list (option nat)) (data : Msg)
    (typeName keyValue txid : string) (version : Z) : M Heap nat :=
  let* n := getNode rev in
  let* child := MakeNode n data txid in
  let* childRev := not_nil_result (Latest child txid) in
  let name := typeName +:+ "/" +:+ keyValue in
  let* _ := SetName childRev name in
  let* _ := SetupWatch childRev name in
  let* _ := setVersion childRev version in
  let* _ := cache_set name childRev in
  let* latest := latest_of parent in
  let* updatedRev := UpdateChildren latest typeName (children ++ [Some childRev]) parent in
  let* pb := get_branch parent in
  let* proxy := GetProxy (br_Node pb) in
  let* n := getNode updatedRev in
  let* _ := SetProxy n proxy in
  let* _ := makeLatest (br_Node pb) parent updatedRev [] in
  ret childRev.

Definition verifyPersistedEntry (rev : nat) (data : Msg) (typeName keyName keyValue txid : string) (version : Z)
    : M Heap nat :=
  let* parent := parent_branch rev in
  let* latest := latest_of parent in
  let* children := GetChildren latest typeName in
  let children := default [] children in
  let* found := findRevByKey children keyName (KeyString keyValue) in
  match found with
  | Some (idx, childRev) => refresh_child parent children idx childRev data typeName version
  | None => load_child rev parent children data typeName keyValue txid version
  end.

(** The first blob uses up the path. *)
Fixpoint load_blobs (rev : nat) (field : ChildType) (name path txid : string) (blobs : list (string * Z))
    : M Heap (list nat) :=
  match blobs with
  | [] => ret []
  | (value, version) :: blobs =>
      match msg_Unmarshal (ct_ClassType field) value with
      | None => load_blobs rev field name path txid blobs
      | Some data =>
          if decide (ct_Key field = EmptyString) then load_blobs rev field name path txid blobs
          else
            let (key, rest) := SplitN path in
            let* keyValue :=
              if decide (path = EmptyString) then ret (attr_String data (ct_Key field))
              else lift (key_string (ct_KeyFromStr field key)) in
            let* entry := verifyPersistedEntry rev data name (ct_Key field) keyValue txid version in
            let* entries := load_blobs rev field name rest txid blobs in
            ret (entry :: entries)
      end
  end.

(** [blobs] is empty unless a watch gives one.  A revision that is not persisted
    loads nothing. *)
Definition LoadFromPersistence (rev : nat) (path txid : string) (blobs : list (string * Z)) : M Heap (list nat) :=
  let path := trim_slashes path in
  let* r := get_rev rev in
  if decide (rv_persisted r = None ∨ path = EmptyString) then ret []
  else
    let* blobs :=
      match blobs with
      | [] => let* h := get in
              match bk_List path (hp_kv h) with
              | inl blobs => ret (go_range blobs).*2
              | inr e => fail e
              end
      | _ => ret blobs
      end in
    let (name, rest) := SplitN path in
    let* n := getNode rev in
    let* nd := get_node n in
    let* nodeType :=
      if has_slash path then
        let* root := get_root (nd_Root nd) in
        let* top := get_node (rt_node root) in
        ret (nd_Type top)
      else ret (nd_Type nd) in
    match ChildrenFields nodeType !! name with
    | Some field => if ct_IsContainer field then load_blobs rev field name rest txid blobs else ret []
    | None => ret []
    end.

Definition revisions_data (revs : list nat) : M Heap (list Msg) := map_children GetData revs.

(** ** Reading a node *)

(** The revision an operation reads: nil when the branch has none with the hash. *)
Definition reading_revision (n : nat) (hash txid : string) : M Heap (option nat) :=
  let* b := node_branch n txid in
  let* b := if decide (txid = EmptyString ∨ b = None) then node_branch n NONE else ret b in
  let* b := lift (deref b) in
  if decide (hash = EmptyString) then GetLatest b else GetRevision b hash.

Definition node_List (n : nat) (path hash txid : string) : M Heap (Reading Msg) :=
  let path := trim_slashes path in
  let* rev := not_nil_result (reading_revision n hash txid) in
  let* pr := LoadFromPersistence rev path txid [] in
  match pr with
  | [] => ret RNone
  | _ => let* l := revisions_data pr in ret (RList l)
  end.

(** What memory has for the path: an answer, or what is returned if the store
    has nothing.  An entry of the cache that expired hides the tree. *)
Definition read_memory (n : nat) (rev : option nat) (path : string) (depth : nat) : M Heap (Reading Msg * bool) :=
  let* h := get in
  match hp_cache h !! path with
  | Some entry =>
      let* e := get_npr entry in
      ret (if decide (age_ms (hp_now h) (np_lastUpdate e) < DataRefreshPeriod)
           then (ROne (cf_Data (np_Config e)), true) else (RNone, false))
  | None =>
      let* b := let* rev := lift (deref rev) in GetBranchOf rev in
      let* latest := latest_of b in
      let* result := getPath (S (String.length path)) n latest path depth in
      ret (result, match result with RNone | RList [] => false | _ => true end)
  end.

Definition node_Get (n : nat) (path hash : string) (depth : nat) (reconcile : bool) (txid : string)
    : M Heap (Reading Msg) :=
  let path := trim_slashes path in
  let* rev := reading_revision n hash txid in
  let* (result, found) := if reconcile then ret (RNone, false) else read_memory n rev path depth in
  if (found : bool) then ret result
  else
    let* nd := get_node n in
    let* root := get_root (nd_Root nd) in
    if rt_KvStore root then
      let* rev := lift (deref rev) in
      let* pr := LoadFromPersistence rev path txid [] in
      match pr with
      | [] => ret result
      | [r] => let* m := GetData r in ret (ROne m)
      | _ => let* l := revisions_data pr in ret (RList l)
      end
    else ret result.

(** ** Making proxies *)

Definition NewProxy (root node parentNode : nat) (path fullPath : string) (exclusive : bool) : M Heap nat :=
  let* p := alloc in
  let* _ := modify (λ h, set_proxies (<[p := mkProxy root node parentNode path
              (if decide (fullPath = "/") then EmptyString else fullPath) exclusive [] ProxyNone]> (hp_proxies h)) h) in
  ret p.

(** The proxy has a root of its own, which shares the transactions of the root of
    the node.  A node keeps its first proxy. *)
Definition makeProxy (n : nat) (path fullPath : string) (parentNode : nat) (exclusive : bool) : M Heap nat :=
  let* nd := get_node n in
  let* root := get_root (nd_Root nd) in
  let* r := alloc in
  let* _ := put_root r (mkRoot n (rt_Callbacks root) (rt_DirtyNodes root) (rt_KvStore root)) in
  match nd_Proxy nd with
  | Some p => ret p
  | None =>
      let* p := NewProxy r n parentNode path fullPath exclusive in
      let* _ := SetProxy n (Some p) in
      ret p
  end.

(** A folder gets a new node with an empty message.  Every call shortens the
    path. *)
Fixpoint createProxy (fuel : nat) (n : nat) (path fullPath : string) (parentNode : nat) (exclusive : bool)
    : M Heap (option nat) :=
  match fuel with
  | O => panic
  | S fuel =>
      let path := trim_slashes path in
      if decide (path = EmptyString) then let* p := makeProxy n path fullPath parentNode exclusive in ret (Some p)
      else
        let* b := node_branch n NONE in
        let* b := lift (deref b) in
        let* rev := latest_of b in
        let slash := has_slash path in
        let (name, path) := SplitN path in
        let* nd := get_node n in
        let* pn := get_node parentNode in
        match ChildrenFields (if slash then nd_Type pn else nd_Type nd) !! name with
        | None => ret None
        | Some field =>
            let* children := GetChildren rev name in
            if ct_IsContainer field then
              if decide (path = EmptyString) then
                let* newNode := MakeNode n (msg_New (ct_ClassType field)) EmptyString in
                let* p := makeProxy newNode path fullPath parentNode exclusive in
                ret (Some p)
              else if decide (ct_Key field = EmptyString) then ret None
              else
                let (key, path) := SplitN path in
                let* found := findRevByKey (default [] children) (ct_Key field) (ct_KeyFromStr field key) in
                let* childRev :=
                  match found with
                  | Some (_, childRev) => ret (Some childRev)
                  | None => let* revs := LoadFromPersistence rev fullPath EmptyString [] in ret (head revs)
                  end in
                match childRev with
                | None => ret None
                | Some childRev =>
                    let* childNode := getNode childRev in
                    createProxy fuel childNode path fullPath n exclusive
                end
            else
              let* childRev := lift (let? c := index (default [] children) 0 in deref c) in
              let* childNode := getNode childRev in
              createProxy fuel childNode path fullPath n exclusive
        end
  end.

Definition node_CreateProxy (n : nat) (path : string) (exclusive : bool) : M Heap (option nat) :=
  createProxy (S (String.length path)) n path path n exclusive.

(** ** [root.go] *)

(** [NewRoot]: [kvStore] tells whether there is a store. *)
Definition NewRoot (initialData : Msg) (kvStore : bool) : M Heap nat :=
  let* root := alloc in
  let* dirty := alloc in
  let* _ := modify (λ h, set_dirty (<[dirty := ∅]> (hp_dirty h)) h) in
  let* _ := put_root root (mkRoot O [] dirty kvStore) in
  let* n := newNode (S (msg_depth initialData)) root initialData EmptyString in
  let* r := get_root root in
  let* _ := put_root root (mkRoot n (rt_Callbacks r) (rt_DirtyNodes r) (rt_KvStore r)) in
  ret root.

(** The table of the nodes of each transaction. *)
Definition get_dirty (root : nat) : M Heap (nat * gmap string (list nat)) :=
  let* r := get_root root in
  let* h := get in
  ret (rt_DirtyNodes r, default ∅ (hp_dirty h !! rt_DirtyNodes r)).
Definition put_dirty (d : nat) (t : gmap string (list nat)) : M Heap unit :=
  modify (λ h, set_dirty (<[d := t]> (hp_dirty h)) h).

(** [txid] is random. *)
Definition MakeTxBranch (root : nat) (txid : string) : M Heap unit :=
  let* r := get_root root in
  let* (d, t) := get_dirty root in
  let* _ := put_dirty d (<[txid := [rt_node r]]> t) in
  let* _ := MakeBranch (rt_node r) txid in
  ret tt.

Definition DeleteTxBranch (root : nat) (txid : string) : M Heap unit :=
  let* (d, t) := get_dirty root in
  let* _ := for_each (λ n, DeleteBranch n txid) (default [] (t !! txid)) in
  let* _ := put_dirty d (delete txid t) in
  let* r := get_root root in
  DeleteBranch (rt_node r) txid.

(** Each callback is started in a goroutine of its own. *)
Definition ExecuteCallbacks (root : nat) : M Heap unit :=
  let* r := get_root root in
  let* _ := put_root root (mkRoot (rt_node r) [] (rt_DirtyNodes r) (rt_KvStore r)) in
  modify (λ h, set_started (hp_started h ++ rt_Callbacks r) h).

(** The callbacks of [r.node.GetRoot()]. *)
Definition execute_node_callbacks (root : nat) : M Heap unit :=
  let* r := get_root root in
  let* nd := get_node (rt_node r) in
  ExecuteCallbacks (nd_Root nd).

(** A merge returns no error, so the trial run never stops the commit.  [fuel]:
    the levels of the tree. *)
Definition FoldTxBranch (fuel root : nat) (txid : string) : M Heap unit :=
  let* r := get_root root in
  let* _ := MergeBranch fuel (rt_node r) txid true in
  let* _ := MergeBranch fuel (rt_node r) txid false in
  let* _ := execute_node_callbacks root in
  DeleteTxBranch root txid.

Definition trackDirty (root : nat) (txid : string) (n : nat) : M Heap nat :=
  let* (d, t) := get_dirty root in
  let* _ := put_dirty d (<[txid := default [] (t !! txid) ++ [n]]> t) in
  MakeBranch n txid.

(** The data of the child is set in the fields of the node above that have its
    type. *)
Definition set_matching (data child : Msg) (f : string * ChildType) : Msg :=
  let '(fieldName, field) := f in
  if negb (ct_IsContainer field)
     && bool_decide (msg_type <$> (default [] (attr_children data fieldName)) !! 0%nat = Some (msg_type child))
  then attr_set data fieldName [child] else data.

Definition syncParent (root childRev : nat) (txid : string) : M Heap unit :=
  let* r := get_root root in
  let* p := not_nil_result (GetProxy (rt_node r)) in
  let* px := get_proxy p in
  let parent := px_ParentNode px in
  let* latest := not_nil_result (Latest parent EmptyString) in
  let* old := GetData latest in
  let* child := GetData childRev in
  let data := fold_left (λ data f, set_matching data child f) (go_range (ChildrenFields old)) old in
  let* pn := get_node parent in
  let* config := NewDataRevision (Some (nd_Root pn)) data in
  let* _ := SetConfig latest config in
  let* rev := not_nil_result (Latest parent txid) in
  Finalize rev.

Definition root_Update (root : nat) (path : string) (data : Msg) (txid : string) : M Heap (option nat) :=
  let* r := get_root root in
  let* result := node_Update (trackDirty root txid) txid (S (String.length path)) (rt_node r) path data in
  let* _ :=
    match result with
    | Some rev =>
        let* p := not_nil_result (GetProxy (rt_node r)) in
        let* px := get_proxy p in
        if decide (px_FullPath px ≠ px_Path px) then syncParent root rev txid else Finalize rev
    | None => ret tt
    end in
  let* _ := execute_node_callbacks root in
  ret result.

Definition root_Add (root : nat) (path : string) (data : Msg) (txid : string) : M Heap (option nat) :=
  let* r := get_root root in
  let* result := node_Add (trackDirty root txid) txid (S (String.length path)) (rt_node r) path data in
  match result with
  | Some rev =>
      let* _ := Finalize rev in
      let* _ := execute_node_callbacks root in
      ret result
  | None => ret result
  end.

Definition root_Remove (root : nat) (path txid : string) : M Heap (option nat) :=
  let* r := get_root root in
  let* result := node_Remove (trackDirty root txid) txid (S (String.length path)) (rt_node r) path in
  let* _ := execute_node_callbacks root in
  ret result.

(** ** [proxy.go] *)

Definition SetOperation (p : nat) (op : ProxyOperation) : M Heap unit :=
  let* px := get_proxy p in
  modify (λ h, set_proxies (<[p := mkProxy (px_Root px) (px_Node px) (px_ParentNode px) (px_Path px) (px_FullPath px)
                                    (px_Exclusive px) (px_Callbacks px) op]> (hp_proxies h)) h).

(** The callbacks of a type, by the hash of the name of the function. *)
Fixpoint callbacks_of (l : list (CallbackType * gmap string nat)) (t : CallbackType) : gmap string nat :=
  match l with
  | [] => ∅
  | (t', m) :: l => if decide (t' = t) then m else callbacks_of l t
  end.
Definition set_Callbacks (p : nat) (f : gmap string nat → gmap string nat) (t : CallbackType) : M Heap unit :=
  let* px := get_proxy p in
  let l := (t, f (callbacks_of (px_Callbacks px) t)) :: filter (λ e, e.1 ≠ t) (px_Callbacks px) in
  modify (λ h, set_proxies (<[p := mkProxy (px_Root px) (px_Node px) (px_ParentNode px) (px_Path px) (px_FullPath px)
                                    (px_Exclusive px) l (px_operation px)]> (hp_proxies h)) h).
Definition RegisterCallback (p : nat) (t : CallbackType) (funcName : string) (callback : nat) : M Heap unit :=
  set_Callbacks p <[md5_12 funcName := callback]> t.
Definition UnregisterCallback (p : nat) (t : CallbackType) (funcName : string) : M Heap unit :=
  set_Callbacks p (delete (md5_12 funcName)) t.

(** The functions a callback of the root invokes. *)
Definition InvokeCallbacks (p : nat) (t : CallbackType) : M Heap (list nat) :=
  let* px := get_proxy p in ret (go_range (callbacks_of (px_Callbacks px) t)).*2.

Definition controlled (path : string) : bool :=
  String.prefix "/devices" path || String.prefix "/logical_devices" path || String.prefix "/adapters" path.
Definition parseForControlledPath (path : string) : string :=
  if controlled path then
    match split_slashes path with
    | _ :: a :: b :: _ => a +:+ "/" +:+ b
    | _ => EmptyString
    end
  else EmptyString.

(** The path below the one of the proxy. *)
Definition join_path (base path : string) : string := if decide (path = "/") then base else base +:+ path.

Definition InvalidPath (path : string) : GoError := Plain ("invalid path: " +:+ path).

(** An operation with the path reserved.  The value that [Reserve] returns, the
    owner of the key, is not looked at. *)
Definition reserved {A} (p : nat) (op : ProxyOperation) (pathLock : string) (m : M Heap A) : M Heap A :=
  let* _ := SetOperation p op in
  let* px := get_proxy p in
  let* root := get_root (px_Root px) in
  let* result := attempt
    (if rt_KvStore root then
       let* e := λ h, let (e, kv) := bk_Reserve (pathLock +:+ "_") ReservationTTL (hp_kv h) in (Ok e, set_kv kv h) in
       match e with
       | Some e => fail e
       | None =>
           let* result := attempt m in
           let* _ := modify (λ h, set_kv (bk_Release (pathLock +:+ "_") (hp_kv h)).2 h) in
           match result with inl x => ret x | inr e => fail e end
       end
     else m) in
  let* _ := SetOperation p ProxyNone in
  match result with inl x => ret x | inr e => fail e end.

(** The data of the result; nil for none. *)
Definition result_data (m : M Heap (option nat)) : M Heap (option Msg) :=
  let* result := m in
  match result with Some rev => let* d := GetData rev in ret (Some d) | None => ret None end.

Definition proxy_Update (p : nat) (path : string) (data : Msg) (txid : string) : M Heap (option Msg) :=
  if negb (String.prefix "/" path) then fail (InvalidPath path)
  else
    let* px := get_proxy p in
    reserved p ProxyUpdate (parseForControlledPath (join_path (px_FullPath px) path))
      (result_data (root_Update (px_Root px) (join_path (px_Path px) path) data txid)).

Definition AddWithID (p : nat) (path id : string) (data : Msg) (txid : string) : M Heap (option Msg) :=
  if negb (String.prefix "/" path) then fail (InvalidPath path)
  else
    let* px := get_proxy p in
    reserved p ProxyAdd
      (parseForControlledPath (if decide (path = "/") then px_FullPath px else px_FullPath px +:+ path +:+ "/" +:+ id))
      (result_data (root_Add (px_Root px) (join_path (px_Path px) path) data txid)).

Definition proxy_Add (p : nat) (path : string) (data : Msg) (txid : string) : M Heap (option Msg) :=
  if negb (String.prefix "/" path) then fail (InvalidPath path)
  else
    let* px := get_proxy p in
    reserved p ProxyAdd (parseForControlledPath (join_path (px_FullPath px) path))
      (result_data (root_Add (px_Root px) (join_path (px_Path px) path) data txid)).

Definition proxy_Remove (p : nat) (path txid : string) : M Heap (option Msg) :=
  if negb (String.prefix "/" path) then fail (InvalidPath path)
  else
    let* px := get_proxy p in
    reserved p ProxyRemove (parseForControlledPath (join_path (px_FullPath px) path))
      (result_data (root_Remove (px_Root px) (join_path (px_Path px) path) txid)).

Definition CreateProxy (p : nat) (path : string) (exclusive : bool) : M Heap (option nat) :=
  if negb (String.prefix "/" path) then fail (InvalidPath path)
  else
    let* px := get_proxy p in
    reserved p ProxyCreate (parseForControlledPath (join_path (px_FullPath px) path))
      (let* root := get_root (px_Root px) in node_CreateProxy (rt_node root) (join_path (px_Path px) path) exclusive).

(** Reading reserves nothing, and reads the path below the node of the proxy. *)
Definition reading {A} (p : nat) (op : ProxyOperation) (m : nat → M Heap A) : M Heap A :=
  let* _ := SetOperation p op in
  let* px := get_proxy p in
  let* root := get_root (px_Root px) in
  let* result := attempt (m (rt_node root)) in
  let* _ := SetOperation p ProxyNone in
  match result with inl x => ret x | inr e => fail e end.
Definition proxy_List (p : nat) (path txid : string) : M Heap (Reading Msg) :=
  reading p ProxyList (λ n, node_List n path EmptyString txid).
Definition proxy_Get (p : nat) (path : string) (depth : nat) (deep : bool) (txid : string) : M Heap (Reading Msg) :=
  reading p ProxyGet (λ n, node_Get n path EmptyString depth deep txid).

(** ** [transaction.go] *)

Record TransactionOf := mkTransaction { tn_proxy : nat; tn_txid : string }.

Definition OpenTransaction (p : nat) (txid : string) : M Heap TransactionOf :=
  let* px := get_proxy p in
  let* _ := MakeTxBranch (px_Root px) txid in
  ret (mkTransaction p txid).

Definition in_transaction {A} (t : TransactionOf) (m : M Heap A) : M Heap A :=
  if decide (tn_txid t = EmptyString) then fail (Plain "closed transaction") else m.
Definition tx_Get (t : TransactionOf) (path : string) (depth : nat) (deep : bool) : M Heap (Reading Msg) :=
  in_transaction t (proxy_Get (tn_proxy t) path depth deep (tn_txid t)).
Definition tx_Update (t : TransactionOf) (path : string) (data : Msg) : M Heap (option Msg) :=
  in_transaction t (proxy_Update (tn_proxy t) path data (tn_txid t)).
Definition tx_Add (t : TransactionOf) (path : string) (data : Msg) : M Heap (option Msg) :=
  in_transaction t (proxy_Add (tn_proxy t) path data (tn_txid t)).
Definition tx_Remove (t : TransactionOf) (path : string) : M Heap (option Msg) :=
  in_transaction t (proxy_Remove (tn_proxy t) path (tn_txid t)).

(** A transaction that was cancelled or committed is closed. *)
Definition Cancel (t : TransactionOf) : M Heap TransactionOf :=
  let* px := get_proxy (tn_proxy t) in
  let* _ := DeleteTxBranch (px_Root px) (tn_txid t) in
  ret (mkTransaction (tn_proxy t) EmptyString).
Definition Commit (fuel : nat) (t : TransactionOf) : M Heap TransactionOf :=
  let* px := get_proxy (tn_proxy t) in
  let* _ := FoldTxBranch fuel (px_Root px) (tn_txid t) in
  ret (mkTransaction (tn_proxy t) EmptyString).

(** ** Watches *)

(** One event of the watch of [pr]; the result tells whether the loop goes on.
    Errors are only logged. *)
Definition watch_delete (latestRev : nat) : M Heap bool :=
  let* name := GetName latestRev in
  let* _ := modify (λ h, set_cache (delete name (hp_cache h)) h) in
  ret false.

Definition load_event (latestRev : nat) (ev : Event) : M Heap unit :=
  let* name := GetName latestRev in
  let* _ := attempt (LoadFromPersistence latestRev name EmptyString [(ev_Value ev, ev_Version ev)]) in
  ret tt.

Definition watch_put (latestRev : nat) (ev : Event) : M Heap bool :=
  let* version := getVersion latestRev in
  let* data := GetData latestRev in
  if decide (ev_Version ev ≤ version ∨ msg_Unmarshal (msg_type data) (ev_Value ev) = None) then ret true
  else
    let* n := getNode latestRev in
    let* proxy := GetProxy n in
    match proxy with
    | None => let* _ := load_event latestRev ev in ret true
    | Some p =>
        let* px := get_proxy p in
        if decide (px_operation px ≠ ProxyNone) then ret true
        else
          let pathLock := parseForControlledPath (px_FullPath px) in
          let* _ := modify (λ h, set_kv (bk_Reserve (pathLock +:+ "_") ReservationTTL (hp_kv h)).2 h) in
          let* _ := SetOperation p ProxyWatch in
          let* _ := load_event latestRev ev in
          let* _ := modify (λ h, set_kv (bk_Release (pathLock +:+ "_") (hp_kv h)).2 h) in
          ret true
    end.

(** The loop ends: the revision can be watched again. *)
Definition watch_end (pr : nat) : M Heap unit :=
  let* name := GetName pr in
  let* hash := GetHash pr in
  modify (λ h, set_watches (hp_watches h ∖ {[name +:+ "-" +:+ hash]}) h).

Definition watch_event (pr : nat) (ev : Event) : M Heap bool :=
  let* b := GetBranchOf pr in
  let* latestRev := latest_of b in
  match ev_Type ev with
  | EventPut => watch_put latestRev ev
  | EventOther => ret true
  | EventDelete =>
      let* _ := watch_delete latestRev in
      let* parent := parent_branch pr in
      let* latest := latest_of parent in
      let* name := GetName latestRev in
      let* _ := ChildDropByName latest name in
      let* _ := watch_end pr in
      ret false
  end.
End Roots.
