(* ===== verification/ModelFacts.v ===== *)
(** * The data model: correctness

    The tree of the data model as a table: what adding, updating, removing and
    reading the children of a node do to them. *)

From S2P Require Import Prelude ModelTree ModelMerge ModelNode ModelRoot.

(** Runs the first statement of a method. *)
Ltac run_with lem := rewrite (sbind_run _ _ _ _ _ lem).

(** ** Loops *)

Lemma for_each_acc_ind {S A B} (I : B → S → Prop) (f : B → A → M S B) l :
  (∀ x acc s, x ∈ l → I acc s → ∃ acc' s', f acc x s = (Ok acc', s') ∧ I acc' s') →
  ∀ acc s, I acc s → ∃ acc' s', for_each_acc f l acc s = (Ok acc', s') ∧ I acc' s'.
Proof.
  induction l as [|x l IH]; intros Hf acc s Hacc; simpl; [by eauto|].
  destruct (Hf x acc s ltac:(set_solver) Hacc) as (acc1 & s1 & Hx & H1).
  rewrite (sbind_run _ _ _ _ _ Hx). apply IH; [|done]. intros y acc2 s2 Hy. apply Hf. set_solver.
Qed.

(** ** The heap *)

Section Facts.
Context {Msg KV : Type} `{HS : Schema Msg, HB : Backend KV, HG : GoRange}.
Notation Heap := (Heap Msg KV).
Notation NPR := (NonPersistedRevision Msg).
Implicit Types (h : Heap) (n np : NPR).

(** The branch and the children of a revision exist. *)
Definition valid_slice h (s : list (option nat)) : Prop := ∀ x, x ∈ s → ∃ c, x = Some c ∧ is_Some (hp_revs h !! c).
Definition valid_children h (m : gmap string Slice) : Prop := ∀ f s, m !! f = Some (Some s) → valid_slice h s.
Definition npr_ok h n : Prop := is_Some (hp_branches h !! np_Branch n) ∧ valid_children h (np_Children n).

(** No pointer dangles. *)
Record heap_ok h : Prop := mkHeapOk {
  ho_fresh : ∀ p, (hp_next h ≤ p)%nat →
    hp_nprs h !! p = None ∧ hp_revs h !! p = None ∧ hp_branches h !! p = None ∧ hp_nodes h !! p = None;
  ho_rev : ∀ p r, hp_revs h !! p = Some r → is_Some (hp_nprs h !! rv_npr r);
  ho_npr : ∀ i n, hp_nprs h !! i = Some n → npr_ok h n;
  ho_latest : ∀ b br l, hp_branches h !! b = Some br → br_Latest br = Some l → is_Some (hp_revs h !! l);
  ho_node : ∀ b br, hp_branches h !! b = Some br → is_Some (hp_nodes h !! br_Node br);
  ho_root : ∀ p nd, hp_nodes h !! p = Some nd → is_Some (hp_roots h !! nd_Root nd) }.

(** The roots are the same, but for their callbacks. *)
Definition roots_like h h' : Prop := ∀ r rt, hp_roots h !! r = Some rt →
  ∃ rt', hp_roots h' !! r = Some rt' ∧ rt_node rt' = rt_node rt ∧ rt_DirtyNodes rt' = rt_DirtyNodes rt ∧
    rt_KvStore rt' = rt_KvStore rt.
#[export] Instance roots_like_refl : Reflexive roots_like.
Proof. intros h r rt Hr. by exists rt. Qed.
#[export] Instance roots_like_trans : Transitive roots_like.
Proof.
  intros h1 h2 h3 H12 H23 r rt Hr. destruct (H12 r rt Hr) as (rt2 & Hr2 & ? & ? & ?).
  destruct (H23 r rt2 Hr2) as (rt3 & Hr3 & ? & ? & ?). exists rt3. split; [done|]. repeat split; congruence.
Qed.

(** [heap_ok] can be evaluated. *)
Definition below {A} (next : nat) (m : gmap nat A) : bool := forallb (λ e, Nat.ltb e.1 next) (map_to_list m).
Definition has {A} (m : gmap nat A) (p : nat) : bool := match m !! p with Some _ => true | None => false end.
Definition every {A} (f : A → bool) (m : gmap nat A) : bool := forallb (λ e, f e.2) (map_to_list m).
Definition slice_okb h (s : Slice) : bool :=
  match s with None => true | Some s => forallb (λ x, match x with Some c => has (hp_revs h) c | None => false end) s end.
Definition heap_okb h : bool :=
  below (hp_next h) (hp_nprs h) && below (hp_next h) (hp_revs h) && below (hp_next h) (hp_branches h)
  && below (hp_next h) (hp_nodes h) && every (λ r, has (hp_nprs h) (rv_npr r)) (hp_revs h)
  && every (λ np, has (hp_branches h) (np_Branch np) && forallb (λ e, slice_okb h e.2) (map_to_list (np_Children np))) (hp_nprs h)
  && every (λ br, has (hp_nodes h) (br_Node br) &&
                  match br_Latest br with Some l => has (hp_revs h) l | None => true end) (hp_branches h)
  && every (λ nd, has (hp_roots h) (nd_Root nd)) (hp_nodes h).

Lemma has_true {A} (m : gmap nat A) p : has m p = true ↔ is_Some (m !! p).
Proof. unfold has. destruct (m !! p); split; intros ?; try done; by eexists. Qed.
Lemma every_true {A} (f : A → bool) m p x : every f m = true → m !! p = Some x → f x = true.
Proof.
  intros Hf Hp. unfold every in Hf. rewrite forallb_forall in Hf. apply (Hf (p, x)).
  apply list_elem_of_In. by apply elem_of_map_to_list.
Qed.
Lemma below_true {A} next (m : gmap nat A) p : below next m = true → (next ≤ p)%nat → m !! p = None.
Proof.
  intros Hb Hp. destruct (m !! p) as [x|] eqn:E; [|done]. unfold below in Hb. rewrite forallb_forall in Hb.
  assert (Nat.ltb p next = true) as Hlt%Nat.ltb_lt; [|lia].
  apply (Hb (p, x)). apply list_elem_of_In. by apply elem_of_map_to_list.
Qed.

Lemma heap_okb_ok h : heap_okb h = true → heap_ok h.
Proof.
  unfold heap_okb. rewrite !andb_true_iff. intros [[[[[[[B1 B2] B3] B4] R] N] B] D]. split.
  - intros p Hp. repeat split; by eapply below_true.
  - intros p r Hr. apply has_true. by apply (every_true _ _ _ _ R Hr).
  - intros i np Hi. pose proof (every_true _ _ _ _ N Hi) as [H1 H2]%andb_true_iff. split; [by apply has_true|].
    intros f s Hs x Hx. rewrite forallb_forall in H2.
    assert (slice_okb h (Some s) = true) as Hslice.
    { apply (H2 (f, Some s)). apply list_elem_of_In. by apply elem_of_map_to_list. }
    simpl in Hslice. rewrite forallb_forall in Hslice. specialize (Hslice x (proj1 (list_elem_of_In _ _) Hx)).
    destruct x as [c|]; [|done]. exists c. split; [done | by apply has_true].
  - intros b br l Hb Hl. pose proof (every_true _ _ _ _ B Hb) as [_ H2]%andb_true_iff. rewrite Hl in H2. by apply has_true.
  - intros b br Hb. pose proof (every_true _ _ _ _ B Hb) as [H1 _]%andb_true_iff. by apply has_true.
  - intros p nd Hp. apply has_true. apply (every_true _ _ _ _ D Hp).
Qed.

(** Objects are added, none is changed but for the callbacks of the roots. *)
Record grows h h' : Prop := mkGrows {
  gr_next : (hp_next h ≤ hp_next h')%nat;
  gr_nprs : hp_nprs h ⊆ hp_nprs h';
  gr_revs : hp_revs h ⊆ hp_revs h';
  gr_branches : hp_branches h ⊆ hp_branches h';
  gr_nodes : hp_nodes h ⊆ hp_nodes h';
  gr_roots : roots_like h h';
  gr_rest : (hp_proxies h', hp_dirty h', hp_cache h', hp_kv h', hp_now h', hp_started h') =
            (hp_proxies h, hp_dirty h, hp_cache h, hp_kv h, hp_now h, hp_started h) }.

#[export] Instance grows_refl : Reflexive grows.
Proof. intros h. by split. Qed.
#[export] Instance grows_trans : Transitive grows.
Proof.
  intros h1 h2 h3 [? ? ? ? ? ? E1] [? ? ? ? ? ? E2]. split; [lia | by etrans.. | by rewrite E2].
Qed.

Lemma grows_npr_at h h' p n : grows h h' → npr_at h p = Some n → npr_at h' p = Some n.
Proof.
  intros Hg (r & Hr & Hn)%bind_Some. unfold npr_at.
  rewrite (lookup_weaken _ _ _ _ Hr (gr_revs _ _ Hg)). exact (lookup_weaken _ _ _ _ Hn (gr_nprs _ _ Hg)).
Qed.

Lemma heap_ok_npr_at h p r : heap_ok h → hp_revs h !! p = Some r → is_Some (npr_at h p).
Proof. intros Hok Hr. unfold npr_at. rewrite Hr. by apply (ho_rev h Hok p). Qed.

(** *** Reading *)

Lemma get_npr_run h p n : npr_at h p = Some n → get_npr p h = (Ok n, h).
Proof. intros Hn. unfold get_npr. by rewrite Hn. Qed.

Lemma npr_field_run {A} (f : NPR → A) h p n :
  npr_at h p = Some n → (let* n := get_npr p in ret (f n)) h = (Ok (f n), h).
Proof. intros Hn. by rewrite (sbind_run _ _ _ _ _ (get_npr_run h p n Hn)). Qed.

Lemma GetHash_run h p n : npr_at h p = Some n → GetHash p h = (Ok (np_Hash n), h).
Proof. apply npr_field_run. Qed.
Lemma GetName_run h p n : npr_at h p = Some n → GetName p h = (Ok (np_Name n), h).
Proof. apply npr_field_run. Qed.
Lemma GetData_run h p n : npr_at h p = Some n → GetData p h = (Ok (cf_Data (np_Config n)), h).
Proof. apply (npr_field_run (λ n, cf_Data (np_Config n))). Qed.
Lemma GetBranchOf_run h p n : npr_at h p = Some n → GetBranchOf p h = (Ok (np_Branch n), h).
Proof. apply npr_field_run. Qed.
Lemma GetChildren_run h p n name : npr_at h p = Some n → GetChildren p name h = (Ok (children_of n name), h).
Proof. apply (npr_field_run (λ n, children_of n name)). Qed.
Lemma GetAllChildren_run h p n : npr_at h p = Some n → GetAllChildren p h = (Ok (np_Children n), h).
Proof. apply npr_field_run. Qed.

Lemma get_rev_run h p r : hp_revs h !! p = Some r → get_rev p h = (Ok r, h).
Proof. intros Hr. unfold get_rev. by rewrite Hr. Qed.
Lemma get_branch_run h p b : hp_branches h !! p = Some b → get_branch p h = (Ok b, h).
Proof. intros Hb. unfold get_branch. by rewrite Hb. Qed.
Lemma get_node_run h p nd : hp_nodes h !! p = Some nd → get_node p h = (Ok nd, h).
Proof. intros Hn. unfold get_node. by rewrite Hn. Qed.
Lemma get_root_run h p r : hp_roots h !! p = Some r → get_root p h = (Ok r, h).
Proof. intros Hr. unfold get_root. by rewrite Hr. Qed.
Lemma get_proxy_run h p r : hp_proxies h !! p = Some r → get_proxy p h = (Ok r, h).
Proof. intros Hr. unfold get_proxy. by rewrite Hr. Qed.

Lemma GetLatest_run h b br : hp_branches h !! b = Some br → GetLatest b h = (Ok (br_Latest br), h).
Proof. intros Hb. unfold GetLatest. by rewrite (sbind_run _ _ _ _ _ (get_branch_run h b br Hb)). Qed.
Lemma latest_of_run h b br l :
  hp_branches h !! b = Some br → br_Latest br = Some l → latest_of b h = (Ok l, h).
Proof. intros Hb Hl. unfold latest_of. rewrite (sbind_run _ _ _ _ _ (GetLatest_run h b br Hb)). by rewrite Hl. Qed.
Lemma node_branch_run h p nd k : hp_nodes h !! p = Some nd → node_branch p k h = (Ok (nd_Branches nd !! k), h).
Proof. intros Hn. unfold node_branch. by rewrite (sbind_run _ _ _ _ _ (get_node_run h p nd Hn)). Qed.
Lemma GetProxy_run h p nd : hp_nodes h !! p = Some nd → GetProxy p h = (Ok (nd_Proxy nd), h).
Proof. intros Hn. unfold GetProxy. by rewrite (sbind_run _ _ _ _ _ (get_node_run h p nd Hn)). Qed.
Lemma getNode_run h p n br :
  npr_at h p = Some n → hp_branches h !! np_Branch n = Some br → getNode p h = (Ok (br_Node br), h).
Proof.
  intros Hn Hb. unfold getNode. rewrite (sbind_run _ _ _ _ _ (GetBranchOf_run h p n Hn)).
  by rewrite (sbind_run _ _ _ _ _ (get_branch_run h _ br Hb)).
Qed.

(** *** Validity grows with the heap *)

Lemma grows_slice h h' s : grows h h' → valid_slice h s → valid_slice h' s.
Proof.
  intros Hg Hs x Hx. destruct (Hs x Hx) as (c & -> & [r Hr]). exists c. split; [done|]. exists r.
  exact (lookup_weaken _ _ _ _ Hr (gr_revs _ _ Hg)).
Qed.
Lemma grows_children h h' m : grows h h' → valid_children h m → valid_children h' m.
Proof. intros Hg Hm f s Hf. eapply grows_slice; [done | by eapply Hm]. Qed.
Lemma grows_npr_ok h h' n : grows h h' → npr_ok h n → npr_ok h' n.
Proof.
  intros Hg [[b Hb] Hc]. split; [|by eapply grows_children].
  exists b. exact (lookup_weaken _ _ _ _ Hb (gr_branches _ _ Hg)).
Qed.

Lemma valid_slice_app h s t : valid_slice h s → valid_slice h t → valid_slice h (s ++ t).
Proof. intros Hs Ht x [Hx|Hx]%elem_of_app; auto. Qed.
Lemma valid_slice_one h c : is_Some (hp_revs h !! c) → valid_slice h [Some c].
Proof. intros Hc x ->%list_elem_of_singleton. by eauto. Qed.
Lemma valid_children_of h n name : npr_ok h n → valid_slice h (default [] (children_of n name)).
Proof.
  intros [_ Hc]. unfold children_of. destruct (np_Children n !! name) as [[s|]|] eqn:E; simpl.
  - by eapply Hc.
  - intros x Hx%elem_of_nil. done.
  - intros x Hx%elem_of_nil. done.
Qed.
Lemma valid_children_insert h m name s :
  valid_children h m → valid_slice h s → valid_children h (<[name := Some s]> m).
Proof. intros Hm Hs f t [[_ [= <-]]|[_ Hf]]%lookup_insert_Some; [done | by eapply Hm]. Qed.
Lemma valid_copy h m : valid_children h m → valid_children h (copy_children m).
Proof.
  intros Hm f s. unfold copy_children. rewrite lookup_fmap. destruct (m !! f) as [[t|]|] eqn:E; simpl; [|done..].
  unfold append_nil. simpl. destruct t; [done|]. intros [= <-]. by eapply Hm.
Qed.

(** *** New objects *)

Definition skip h : Heap := set_next (S (hp_next h)) h.
Definition with_npr n h : Heap := set_nprs (<[hp_next h := n]> (hp_nprs h)) (skip h).
Definition with_rev (r : Revision) h : Heap := set_revs (<[hp_next h := r]> (hp_revs h)) (skip h).
Definition with_branch (b : Branch) h : Heap := set_branches (<[hp_next h := b]> (hp_branches h)) (skip h).
Definition with_node (nd : Node Msg) h : Heap := set_nodes (<[hp_next h := nd]> (hp_nodes h)) (skip h).

Lemma roots_same h h' : hp_roots h' = hp_roots h → roots_like h h'.
Proof. intros E r rt Hr. exists rt. by rewrite E. Qed.

Ltac grows_tac := split; simpl; try done; try lia; try by apply roots_same.

Lemma skip_grows h : grows h (skip h).
Proof. grows_tac. Qed.
Lemma with_npr_grows n h : heap_ok h → grows h (with_npr n h).
Proof. intros Hok. grows_tac. apply insert_subseteq. by apply (ho_fresh h Hok). Qed.
Lemma with_rev_grows r h : heap_ok h → grows h (with_rev r h).
Proof. intros Hok. grows_tac. apply insert_subseteq. by apply (ho_fresh h Hok). Qed.
Lemma with_branch_grows b h : heap_ok h → grows h (with_branch b h).
Proof. intros Hok. grows_tac. apply insert_subseteq. by apply (ho_fresh h Hok). Qed.
Lemma with_node_grows nd h : heap_ok h → grows h (with_node nd h).
Proof. intros Hok. grows_tac. apply insert_subseteq. by apply (ho_fresh h Hok). Qed.

(** An object that is added is only looked up where it was put. *)
Lemma fresh_lookup {A} (m : gmap nat A) i x p :
  (∀ q, (i ≤ q)%nat → m !! q = None) → (S i ≤ p)%nat → <[i := x]> m !! p = None.
Proof. intros Hm Hp. rewrite lookup_insert_ne; [apply Hm; lia | lia]. Qed.

Lemma ho_fresh_at {A} (m : gmap nat A) next : (∀ p, (next ≤ p)%nat → m !! p = None) → ∀ p, (S next ≤ p)%nat → m !! p = None.
Proof. intros Hm p Hp. apply Hm. lia. Qed.

Lemma heap_ok_grow h h' :
  heap_ok h → grows h h' →
  (∀ p, (hp_next h' ≤ p)%nat →
    hp_nprs h' !! p = None ∧ hp_revs h' !! p = None ∧ hp_branches h' !! p = None ∧ hp_nodes h' !! p = None) →
  (∀ p r, hp_revs h !! p = None → hp_revs h' !! p = Some r → is_Some (hp_nprs h' !! rv_npr r)) →
  (∀ i n, hp_nprs h !! i = None → hp_nprs h' !! i = Some n → npr_ok h' n) →
  (∀ b br, hp_branches h !! b = None → hp_branches h' !! b = Some br →
    (∀ l, br_Latest br = Some l → is_Some (hp_revs h' !! l)) ∧ is_Some (hp_nodes h' !! br_Node br)) →
  (∀ p nd, hp_nodes h !! p = None → hp_nodes h' !! p = Some nd → is_Some (hp_roots h' !! nd_Root nd)) →
  heap_ok h'.
Proof.
  intros Hok Hg Hf Hr Hn Hb Hd.
  assert (∀ {A} (m m' : gmap nat A) p x, m ⊆ m' → m' !! p = Some x → m !! p = None ∨ m !! p = Some x) as Hcase.
  { intros A m m' p x Hsub Hx. destruct (m !! p) as [y|] eqn:E; [|by left]. right.
    rewrite (lookup_weaken _ _ _ _ E Hsub) in Hx. done. }
  assert (∀ {A} (m m' : gmap nat A) p, m ⊆ m' → is_Some (m !! p) → is_Some (m' !! p)) as Hmono.
  { intros A m m' p Hsub [x Hx]. exists x. by eapply lookup_weaken. }
  destruct Hg as [Hnext H1 H2 H3 H4 H5 Hrest]. split; [done|..].
  - intros p r Hp. destruct (Hcase _ _ _ _ _ H2 Hp) as [E|E]; [by eapply Hr|].
    eapply Hmono; [exact H1 | by eapply (ho_rev h Hok)].
  - intros i n Hi. destruct (Hcase _ _ _ _ _ H1 Hi) as [E|E]; [by eapply Hn|].
    apply (grows_npr_ok h); [by split | by eapply (ho_npr h Hok)].
  - intros b br l Hp Hl. destruct (Hcase _ _ _ _ _ H3 Hp) as [E|E]; [by eapply (Hb b br E Hp)|].
    eapply Hmono; [exact H2 | by eapply (ho_latest h Hok)].
  - intros b br Hp. destruct (Hcase _ _ _ _ _ H3 Hp) as [E|E]; [by eapply (Hb b br E Hp)|].
    eapply Hmono; [exact H4 | by eapply (ho_node h Hok)].
  - intros p nd Hp. destruct (Hcase _ _ _ _ _ H4 Hp) as [E|E]; [by eapply Hd|].
    destruct (ho_root h Hok p nd E) as [rt Hrt]. destruct (H5 _ _ Hrt) as (rt' & Hrt' & _). by exists rt'.
Qed.

Ltac grow_tac :=
  intros; simplify_eq/=;
  repeat match goal with
  | Hx : <[_ := _]> _ !! _ = Some _ |- _ => apply lookup_insert_Some in Hx as [[? ?]|[? Hx]]; simplify_eq/=
  end; try congruence; eauto.

Lemma fresh_with h p : heap_ok h → (S (hp_next h) ≤ p)%nat →
  hp_nprs h !! p = None ∧ hp_revs h !! p = None ∧ hp_branches h !! p = None ∧ hp_nodes h !! p = None.
Proof. intros Hok Hp. apply (ho_fresh h Hok). lia. Qed.

Lemma skip_ok h : heap_ok h → heap_ok (skip h).
Proof.
  intros Hok. eapply (heap_ok_grow h); [done | apply skip_grows | exact (λ p, fresh_with h p Hok) | by grow_tac..].
Qed.
Lemma with_npr_ok n h : heap_ok h → npr_ok h n → heap_ok (with_npr n h).
Proof.
  intros Hok Hn. eapply (heap_ok_grow h); [done | by apply with_npr_grows | | by grow_tac..].
  simpl. intros p Hp. destruct (fresh_with h p Hok Hp) as (E1 & E2 & E3 & E4).
  rewrite lookup_insert_ne; [done | lia].
Qed.
Lemma with_rev_ok r h : heap_ok h → is_Some (hp_nprs h !! rv_npr r) → heap_ok (with_rev r h).
Proof.
  intros Hok Hr. eapply (heap_ok_grow h); [done | by apply with_rev_grows | | by grow_tac..].
  simpl. intros p Hp. destruct (fresh_with h p Hok Hp) as (E1 & E2 & E3 & E4).
  rewrite lookup_insert_ne; [done | lia].
Qed.
Lemma with_branch_ok b h :
  heap_ok h → is_Some (hp_nodes h !! br_Node b) → br_Latest b = None → heap_ok (with_branch b h).
Proof.
  intros Hok Hb Hl. eapply (heap_ok_grow h); [done | by apply with_branch_grows | | by grow_tac.. | |].
  - simpl. intros p Hp. destruct (fresh_with h p Hok Hp) as (E1 & E2 & E3 & E4).
    rewrite lookup_insert_ne; [done | lia].
  - grow_tac. split; [congruence | done].
  - by grow_tac.
Qed.
Lemma with_node_ok nd h : heap_ok h → is_Some (hp_roots h !! nd_Root nd) → heap_ok (with_node nd h).
Proof.
  intros Hok Hr. eapply (heap_ok_grow h); [done | by apply with_node_grows | | by grow_tac..].
  simpl. intros p Hp. destruct (fresh_with h p Hok Hp) as (E1 & E2 & E3 & E4).
  rewrite lookup_insert_ne; [done | lia].
Qed.

(** *** Hashing *)

Definition child_hash h (x : option nat) : string := default EmptyString (np_Hash <$> (x ≫= npr_at h)).
Definition children_content h (l : list (option nat)) : string :=
  fold_right (λ x s, child_hash h x +:+ s) EmptyString l.
Definition content_hash h n : string :=
  md5_12 (cf_Hash (np_Config n) +:+ np_Name n +:+
    children_content h (sort_strings (go_range (np_Children n)).*1 ≫= λ key, default [] (children_of n key))).

Lemma children_hash_run h l : heap_ok h → valid_slice h l → children_hash l h = (Ok (children_content h l), h).
Proof.
  intros Hok. induction l as [|x l IH]; intros Hl; simpl; [done|].
  destruct (Hl x ltac:(set_solver)) as (c & -> & [r Hr]).
  destruct (heap_ok_npr_at h c r Hok Hr) as [n Hn]. run_with (GetHash_run h c n Hn).
  run_with (IH ltac:(intros y Hy; apply Hl; set_solver)).
  unfold child_hash. simpl. by rewrite Hn.
Qed.

Lemma valid_content h n keys : npr_ok h n → valid_slice h (keys ≫= λ key, default [] (children_of n key)).
Proof. intros Hn x (key & Hx & _)%list_elem_of_bind. by eapply (valid_children_of h n key). Qed.

Lemma hashContent_run h n : heap_ok h → npr_ok h n → hashContent n h = (Ok (content_hash h n), h).
Proof.
  intros Hok Hn. unfold hashContent. by run_with (children_hash_run h _ Hok (valid_content h n (sort_strings (go_range (np_Children n)).*1) Hn)).
Qed.

Lemma children_content_grows h h' l :
  heap_ok h → grows h h' → valid_slice h l → children_content h' l = children_content h l.
Proof.
  intros Hok Hg. induction l as [|x l IH]; intros Hl; simpl; [done|]. rewrite IH; [|intros y Hy; apply Hl; set_solver].
  f_equal. destruct (Hl x ltac:(set_solver)) as (c & -> & [r Hr]). unfold child_hash. simpl.
  destruct (heap_ok_npr_at h c r Hok Hr) as [n Hn]. by rewrite Hn (grows_npr_at h h' c n Hg Hn).
Qed.

Lemma content_hash_grows h h' n : heap_ok h → grows h h' → npr_ok h n → content_hash h' n = content_hash h n.
Proof.
  intros Hok Hg Hn. unfold content_hash. by rewrite (children_content_grows h h' _ Hok Hg (valid_content h n (sort_strings (go_range (np_Children n)).*1) Hn)).
Qed.

Lemma content_hash_ext h h' m : (∀ p, npr_at h' p = npr_at h p) → content_hash h' m = content_hash h m.
Proof.
  intros Hnp. unfold content_hash. do 3 f_equal. set (l := sort_strings _ ≫= _). clearbody l.
  induction l as [|[c|] l IH]; simpl; [done| |by rewrite IH]. rewrite IH. unfold child_hash. simpl. by rewrite Hnp.
Qed.

(** *** New revisions *)

Definition hashed h n : NPR := set_np_Hash (content_hash h n) n.

Lemma new_npr_run h n :
  heap_ok h → npr_ok h n → new_npr n h = (Ok (hp_next h), with_npr (hashed h n) h).
Proof.
  intros Hok Hn. unfold new_npr, alloc, put_npr, modify, finalize_npr. simpl.
  unfold sbind at 1. simpl. unfold sbind at 1. simpl. unfold sbind at 1. unfold sbind at 1. simpl.
  rewrite lookup_insert_eq. simpl.
  assert (heap_ok (with_npr n h)) as Hok' by by apply with_npr_ok.
  unfold sbind at 1. fold (skip h). fold (with_npr n h).
  rewrite hashContent_run; [|done|].
  2: { eapply grows_npr_ok; [by apply with_npr_grows | done]. }
  rewrite (content_hash_grows h); [|done | by apply with_npr_grows | done].
  unfold put_npr, modify, ret, with_npr, set_nprs, hashed. simpl. by rewrite insert_insert_eq.
Qed.

Lemma NewDataRevision_run h root data :
  NewDataRevision root data h = (Ok (mkData (hp_next h) data (hashData root data)), skip h).
Proof. done. Qed.

Lemma new_rev_run h i pe : new_rev i pe h = (Ok (hp_next h), with_rev (mkRevision i pe) h).
Proof. done. Qed.

Lemma npr_at_with_rev h i pe n :
  hp_nprs h !! i = Some n → npr_at (with_rev (mkRevision i pe) h) (hp_next h) = Some n.
Proof. intros Hn. unfold npr_at. simpl. by rewrite lookup_insert_eq. Qed.

Lemma hashed_ok h n : npr_ok h n → npr_ok h (hashed h n).
Proof. done. Qed.

(** The revision made by an update: the new data goes around a new embedded
    revision. *)
Lemma updated_run h p r i new :
  heap_ok h → hp_revs h !! p = Some r → hp_nprs h !! i = Some new → i ≠ rv_npr r →
  ∃ pe, updated p i h = (Ok (hp_next h), with_rev (mkRevision i pe) h) ∧ (pe = None ↔ rv_persisted r = None).
Proof.
  intros Hok Hr Hi Hne. unfold updated. run_with (get_rev_run h p r Hr).
  destruct (rv_persisted r) as [pe|] eqn:Hpe.
  - destruct (ho_rev h Hok p r Hr) as [old Hold]. unfold sbind at 1. rewrite Hold. unfold sbind at 1. rewrite Hi.
    simpl. rewrite new_rev_run. eexists. split; [done|]. done.
  - rewrite decide_False; [|done]. rewrite new_rev_run. eexists. split; [done|]. done.
Qed.

(** [new_npr] and [updated]: the new revision, and what the heap has for it. *)
Lemma new_revision h p r n :
  heap_ok h → hp_revs h !! p = Some r → npr_ok h n →
  ∃ q h', (let* i := new_npr n in updated p i) h = (Ok q, h') ∧ heap_ok h' ∧ grows h h' ∧
    hp_revs h !! q = None ∧ npr_at h' q = Some (hashed h n) ∧
    ∃ r', hp_revs h' !! q = Some r' ∧ (rv_persisted r' = None ↔ rv_persisted r = None) ∧ hp_nprs h !! rv_npr r' = None.
Proof.
  intros Hok Hr Hn. rewrite (sbind_run _ _ _ _ _ (new_npr_run h n Hok Hn)).
  set (h1 := with_npr (hashed h n) h).
  assert (heap_ok h1) as Hok1 by (apply with_npr_ok; [done | by apply hashed_ok]).
  assert (hp_nprs h1 !! hp_next h = Some (hashed h n)) as Hi by apply lookup_insert_eq.
  destruct (updated_run h1 p r (hp_next h) (hashed h n) Hok1 Hr Hi) as (pe & Hrun & Hpe).
  { intros Heq. destruct (ho_rev h Hok p r Hr) as [x Hx]. rewrite -Heq in Hx.
    destruct (ho_fresh h Hok (hp_next h)) as [E _]; [lia|]. congruence. }
  exists (hp_next h1), (with_rev (mkRevision (hp_next h) pe) h1). split; [exact Hrun|].
  split; [apply with_rev_ok; [done | by exists (hashed h n)]|].
  split; [etrans; [by apply with_npr_grows | by apply with_rev_grows]|].
  split; [apply (ho_fresh h Hok); simpl; lia|].
  split; [by apply npr_at_with_rev|].
  exists (mkRevision (hp_next h) pe). split; [apply lookup_insert_eq|]. split; [done|].
  apply (ho_fresh h Hok). simpl. lia.
Qed.

(** *** Updating a revision *)

Lemma UpdateData_run h p r n data b br l nl :
  heap_ok h → hp_revs h !! p = Some r → npr_at h p = Some n → hashData (np_Root n) data ≠ cf_Hash (np_Config n) →
  hp_branches h !! b = Some br → br_Latest br = Some l → npr_at h l = Some nl →
  ∃ q h' n', UpdateData p data b h = (Ok q, h') ∧ heap_ok h' ∧ grows h h' ∧ hp_revs h !! q = None ∧
    npr_at h' q = Some n' ∧ cf_Data (np_Config n') = data ∧ np_Name n' = np_Name n ∧ np_Branch n' = b ∧
    np_Hash n' = content_hash h (mkNPR (np_Root n) (mkData (hp_next h) data (hashData (np_Root n) data))
                   (copy_children (np_Children nl)) (np_Hash n) b (np_Name n) (np_lastUpdate n)) ∧
    ∃ r', hp_revs h' !! q = Some r' ∧ (rv_persisted r' = None ↔ rv_persisted r = None) ∧ hp_nprs h !! rv_npr r' = None.
Proof.
  intros Hok Hr Hn Hhash Hb Hl Hnl. unfold UpdateData. run_with (get_npr_run h p n Hn). run_with (get_rev_run h p r Hr).
  rewrite decide_False; [|done]. run_with (NewDataRevision_run h (np_Root n) data).
  pose proof (skip_grows h) as Hg. pose proof (skip_ok h Hok) as Hok1.
  run_with (latest_of_run (skip h) b br l Hb Hl). run_with (GetAllChildren_run (skip h) l nl Hnl).
  assert (npr_ok h nl) as Hnlok.
  { apply bind_Some in Hnl as (rl & _ & Hrl). by apply (ho_npr h Hok _ _ Hrl). }
  edestruct (new_revision (skip h) p r) as (q & h' & Hrun & Hok' & Hg' & Hq & Hnq & r' & Hr' & Hpe & Hfr);
    [done | exact Hr | | exists q, h'; eexists; split; [exact Hrun|]].
  { split; simpl; [by exists br|]. apply valid_copy. apply (grows_children h); [done | by apply Hnlok]. }
  split; [done|]. split; [by etrans|]. split; [exact Hq|]. split; [exact Hnq|]. repeat (split; [done|]). by exists r'.
Qed.

(** The names of revisions, and the position of each in a list. *)
Definition name_at h (c : nat) : string := default EmptyString (np_Name <$> npr_at h c).
Definition all_valid h (l : list nat) : Prop := ∀ c, c ∈ l → is_Some (npr_at h c).

Lemma name_at_run h c : is_Some (npr_at h c) → GetName c h = (Ok (name_at h c), h).
Proof. intros [n Hn]. unfold name_at. rewrite Hn. by apply GetName_run. Qed.

Fixpoint index_names (ns : list string) (i : nat) (m : gmap string nat) : gmap string nat :=
  match ns with [] => m | s :: ns => index_names ns (S i) (<[s := i]> m) end.

Lemma index_names_notin ns i m s : s ∉ ns → index_names ns i m !! s = m !! s.
Proof.
  revert i m. induction ns as [|t ns IH]; intros i m Hs; simpl; [done|].
  rewrite IH; [|set_solver]. rewrite lookup_insert_ne; [done | set_solver].
Qed.
Lemma index_names_in ns i m j s : NoDup ns → ns !! j = Some s → index_names ns i m !! s = Some (i + j)%nat.
Proof.
  revert i m j. induction ns as [|t ns IH]; intros i m j Hd Hj; [done|]. apply NoDup_cons in Hd as [Ht Hd].
  destruct j as [|j]; simpl in *.
  - injection Hj as ->. rewrite index_names_notin; [|done]. rewrite lookup_insert_eq. f_equal. lia.
  - rewrite (IH _ _ _ Hd Hj). f_equal. lia.
Qed.
Lemma index_names_some ns i m s : s ∈ ns → is_Some (index_names ns i m !! s).
Proof.
  revert i m. induction ns as [|t ns IH]; intros i m Hs; [by apply elem_of_nil in Hs|]. simpl.
  destruct (decide (s ∈ ns)) as [Hin|Hin]; [by apply IH|].
  assert (s = t) as -> by set_solver. rewrite index_names_notin; [|done]. by rewrite lookup_insert_eq.
Qed.

Lemma name_index_run h l i m :
  all_valid h l → name_index l i m h = (Ok (index_names (name_at h <$> l) i m), h).
Proof.
  revert i m. induction l as [|c l IH]; intros i m Hl; simpl; [done|].
  run_with (name_at_run h c (Hl c (list_elem_of_here _ _))). apply IH. intros d Hd. apply Hl. set_solver.
Qed.

Lemma forgotten_none h l m :
  all_valid h l → (∀ e, e ∈ l → is_Some (m !! name_at h e)) → forgotten l m h = (Ok [], h).
Proof.
  induction l as [|c l IH]; intros Hl Hm; simpl; [done|].
  run_with (name_at_run h c (Hl c (list_elem_of_here _ _))).
  rewrite (sbind_run _ _ _ _ _ (IH ltac:(intros d Hd; apply Hl; set_solver) ltac:(intros d Hd; apply Hm; set_solver))).
  destruct (Hm c (list_elem_of_here _ _)) as [x Hx]. by rewrite Hx.
Qed.

(** [c] can take the place of the child of its name: it is that child, or a new
    revision of its node with other data. *)
Definition replaces h (existing : list nat) (c : nat) : Prop :=
  ∃ cn, npr_at h c = Some cn ∧ ∀ e, e ∈ existing → name_at h e = np_Name cn →
    e = c ∨ ∃ en, npr_at h e = Some en ∧ np_Branch en = np_Branch cn ∧
      msg_String (cf_Data (np_Config en)) ≠ msg_String (cf_Data (np_Config cn)).

Lemma SetRoot_same h node nd : hp_nodes h !! node = Some nd → SetRoot node (nd_Root nd) h = (Ok tt, h).
Proof.
  intros Hn. unfold SetRoot. run_with (get_node_run h node nd Hn). unfold put_node, modify.
  f_equal. destruct nd as [a b c d]. simpl. rewrite insert_id; [|done]. by destruct h.
Qed.

Lemma merge_children_same h existing l :
  heap_ok h → NoDup (name_at h <$> existing) → all_valid h existing → (∀ c, c ∈ l → replaces h existing c) →
  merge_children existing (index_names (name_at h <$> existing) 0 ∅) l h = (Ok l, h).
Proof.
  intros Hok Hd Hex. induction l as [|c l IH]; intros Hl; simpl; [done|].
  destruct (Hl c (list_elem_of_here _ _)) as (cn & Hcn & Hrep).
  run_with (GetName_run h c cn Hcn).
  rewrite (sbind_run _ _ _ c h); [by run_with (IH ltac:(intros d Hd'; apply Hl; set_solver))|].
  destruct (decide (np_Name cn ∈ name_at h <$> existing)) as [Hin|Hin].
  2: { by rewrite index_names_notin. }
  apply list_elem_of_fmap in Hin as (e & Hname & He). apply list_elem_of_lookup in He as [j Hj].
  rewrite (index_names_in _ _ _ j (np_Name cn) Hd); [|by rewrite list_lookup_fmap Hj Hname].
  simpl. unfold index. rewrite Hj. unfold sbind at 1. simpl.
  destruct (Hrep e) as [->|(en & Hen & Hbr & Hne)]; [by eapply list_elem_of_lookup_2 | done | |].
  - run_with (GetData_run h c cn Hcn). run_with (GetData_run h c cn Hcn). by rewrite decide_True.
  - run_with (GetData_run h e en Hen). run_with (GetData_run h c cn Hcn). rewrite decide_False; [|done].
    assert (npr_ok h cn) as [[br Hb] _].
    { apply bind_Some in Hcn as (rc & _ & Hrc). by apply (ho_npr h Hok _ _ Hrc). }
    destruct (ho_node h Hok _ _ Hb) as [nd Hnd].
    run_with (getNode_run h c cn br Hcn Hb). rewrite -Hbr in Hb. run_with (getNode_run h e en br Hen Hb).
    run_with (get_node_run h _ nd Hnd). by run_with (SetRoot_same h _ nd Hnd).
Qed.

Lemma not_nil_Some (l : list nat) : not_nil (Some <$> l) = Ok l.
Proof. unfold not_nil. induction l as [|c l IH]; simpl; [done|]. by rewrite IH. Qed.

(** The new revision has the children [cs] when each of them can take its place
    and none is left out. *)
Lemma UpdateChildren_run h p r n name b br l nl ex cs :
  heap_ok h → hp_revs h !! p = Some r → npr_at h p = Some n →
  hp_branches h !! b = Some br → br_Latest br = Some l → npr_at h l = Some nl →
  default [] (children_of nl name) = Some <$> ex → NoDup (name_at h <$> ex) →
  (∀ e, e ∈ ex → name_at h e ∈ name_at h <$> cs) → (∀ c, c ∈ cs → is_Some (hp_revs h !! c) ∧ replaces h ex c) →
  ∃ q h' n', UpdateChildren p name (Some <$> cs) b h = (Ok q, h') ∧ heap_ok h' ∧ grows h h' ∧ hp_revs h !! q = None ∧
    npr_at h' q = Some n' ∧ np_Name n' = np_Name n ∧ np_Branch n' = b ∧
    np_Children n' = <[name := Some (Some <$> cs)]> (copy_children (np_Children nl)) ∧
    cf_Data (np_Config n') = cf_Data (np_Config n) ∧
    ∃ r', hp_revs h' !! q = Some r' ∧ (rv_persisted r' = None ↔ rv_persisted r = None) ∧ hp_nprs h !! rv_npr r' = None.
Proof.
  intros Hok Hr Hn Hb Hl Hnl Hex Hd Hall Hcs. unfold UpdateChildren.
  assert (npr_ok h nl) as Hnlok.
  { apply bind_Some in Hnl as (rl & _ & Hrl). by apply (ho_npr h Hok _ _ Hrl). }
  assert (all_valid h ex) as Hexv.
  { intros e He. destruct (valid_children_of h nl name Hnlok (Some e)) as (c & [= <-] & [re Hre]).
    - rewrite Hex. by apply list_elem_of_fmap_2.
    - by eapply heap_ok_npr_at. }
  assert (all_valid h cs) as Hcsv.
  { intros c Hc. destruct (Hcs c Hc) as [[rc Hrc] _]. by eapply heap_ok_npr_at. }
  assert (valid_slice h (Some <$> cs)) as Hslice.
  { intros x (c & -> & Hc)%list_elem_of_fmap. exists c. split; [done|]. by apply Hcs. }
  run_with (get_npr_run h p n Hn). run_with (NewDataRevision_run h (np_Root n) (cf_Data (np_Config n))).
  pose proof (skip_grows h) as Hg. pose proof (skip_ok h Hok) as Hok1. set (h1 := skip h) in *.
  run_with (latest_of_run h1 b br l Hb Hl). run_with (GetAllChildren_run h1 l nl Hnl).
  run_with (GetChildren_run h1 l nl name Hnl).
  rewrite (sbind_run _ _ _ (Some <$> cs) h1).
  - edestruct (new_revision h1 p r) as (q & h' & Hrun & Hok' & Hg' & Hq & Hnq & r' & Hr' & Hpe & Hfr);
      [done | exact Hr | | exists q, h'; eexists; split; [exact Hrun|]].
    { split; simpl; [by exists br|]. apply valid_children_insert; [|by apply (grows_slice h)].
      apply valid_copy. apply (grows_children h); [done | by apply Hnlok]. }
    split; [done|]. split; [by etrans|]. split; [exact Hq|]. split; [exact Hnq|]. repeat (split; [done|]). by exists r'.
  - destruct (children_of nl name) as [s|]; [|done]. simpl in Hex. subst s. rewrite not_nil_Some.
    unfold sbind at 1. simpl. rewrite not_nil_Some. unfold sbind at 1. simpl.
    run_with (name_index_run h1 cs 0 ∅ Hcsv). run_with (name_index_run h1 ex 0 ∅ Hexv).
    rewrite (sbind_run _ _ _ [] h1).
    + rewrite (sbind_run _ _ _ cs h1); [done|].
      apply (merge_children_same h1); [done | done | done|]. intros c Hc. by apply Hcs.
    + apply forgotten_none; [done|]. intros e He. apply index_names_some. by apply Hall.
Qed.

(** *** Changed objects *)

Lemma is_Some_insert {A} (m : gmap nat A) i x p : is_Some (m !! p) → is_Some (<[i := x]> m !! p).
Proof. intros Hp. apply lookup_insert_is_Some'. by right. Qed.

Lemma fresh_insert {A} (m : gmap nat A) i x p : is_Some (m !! i) → m !! p = None → <[i := x]> m !! p = None.
Proof. intros [y Hi] Hp. rewrite lookup_insert_ne; [done | congruence]. Qed.

Lemma put_branch_ok h b br br' :
  heap_ok h → hp_branches h !! b = Some br → br_Node br' = br_Node br →
  (∀ l, br_Latest br' = Some l → is_Some (hp_revs h !! l)) → heap_ok (set_branches (<[b := br']> (hp_branches h)) h).
Proof.
  intros [Hf Hr Hn Hl Hd Ht] Hb Hnode Hlatest. split; simpl; [|done| | | |done].
  - intros p Hp. destruct (Hf p Hp) as (? & ? & ? & ?). repeat split; [done..| |done]. apply fresh_insert; [by exists br | done].
  - intros i n Hi. destruct (Hn i n Hi) as [? ?]. split; [by apply is_Some_insert | done].
  - intros c cr l [[-> <-]|[_ Hc]]%lookup_insert_Some; [by apply Hlatest | by eapply Hl].
  - intros c cr [[-> <-]|[_ Hc]]%lookup_insert_Some; [rewrite Hnode; by eapply Hd | by eapply Hd].
Qed.

Lemma put_npr_ok h i n n' :
  heap_ok h → hp_nprs h !! i = Some n → npr_ok h n' → heap_ok (set_nprs (<[i := n']> (hp_nprs h)) h).
Proof.
  intros [Hf Hr Hn Hl Hd Ht] Hi Hn'. split; simpl; [| | |done..].
  - intros p Hp. destruct (Hf p Hp) as (? & ? & ? & ?). repeat split; [|done..]. apply fresh_insert; [by exists n | done].
  - intros p r Hp. apply is_Some_insert. by eapply Hr.
  - intros j m [[-> <-]|[_ Hj]]%lookup_insert_Some; [done | by eapply Hn].
Qed.

Lemma put_rev_ok h p r r' :
  heap_ok h → hp_revs h !! p = Some r → rv_npr r' = rv_npr r → heap_ok (set_revs (<[p := r']> (hp_revs h)) h).
Proof.
  intros [Hf Hr Hn Hl Hd Ht] Hp Hnpr. split; simpl; [| | | |done..].
  - intros q Hq. destruct (Hf q Hq) as (? & ? & ? & ?). repeat split; [done| |done..]. apply fresh_insert; [by exists r | done].
  - intros q s [[-> <-]|[_ Hq]]%lookup_insert_Some; [rewrite Hnpr; by eapply Hr | by eapply Hr].
  - intros i n Hi. destruct (Hn i n Hi) as [Hb Hc]. split; [done|]. intros f s Hs x Hx.
    destruct (Hc f s Hs x Hx) as (c & -> & Hv). exists c. split; [done | by apply is_Some_insert].
  - intros b br l Hb Hbl. apply is_Some_insert. by eapply Hl.
Qed.

Lemma put_node_ok h p nd nd' :
  heap_ok h → hp_nodes h !! p = Some nd → nd_Root nd' = nd_Root nd → heap_ok (set_nodes (<[p := nd']> (hp_nodes h)) h).
Proof.
  intros [Hf Hr Hn Hl Hd Ht] Hp Hroot. split; simpl; [|done..| |].
  - intros q Hq. destruct (Hf q Hq) as (? & ? & ? & ?). repeat split; [done..|]. apply fresh_insert; [by exists nd | done].
  - intros b br Hb. apply is_Some_insert. by eapply Hd.
  - intros q m [[-> <-]|[_ Hq]]%lookup_insert_Some; [rewrite Hroot; by eapply Ht | by eapply Ht].
Qed.

(** What has no pointers to the revisions does not matter. *)
Lemma heap_ok_ext h h' :
  heap_ok h → hp_next h' = hp_next h → hp_nprs h' = hp_nprs h → hp_revs h' = hp_revs h →
  hp_branches h' = hp_branches h → hp_nodes h' = hp_nodes h →
  (∀ r, is_Some (hp_roots h !! r) → is_Some (hp_roots h' !! r)) → heap_ok h'.
Proof.
  intros [Hf Hr Hn Hl Hd Ht] E1 E2 E3 E4 E5 E6.
  split; rewrite ?E1 ?E2 ?E3 ?E4 ?E5; [done..| |done|done|].
  - intros i n Hi. unfold npr_ok, valid_children, valid_slice. rewrite E4 E3. by eapply Hn.
  - intros p nd Hp. apply E6. by eapply Ht.
Qed.

(** *** The latest revision *)

(** Only the callbacks of roots change. *)
Definition only_roots h h' : Prop := ∃ m, h' = set_roots m h ∧ roots_like h h'.

Lemma announce_run h root proxy cs :
  is_Some (hp_roots h !! root) → ∃ h', for_each (AddCallback root proxy) cs h = (Ok tt, h') ∧ only_roots h h'.
Proof.
  revert h. induction cs as [|c cs IH]; intros h [rt Hr]; simpl.
  { exists h. split; [done|]. exists (hp_roots h). split; [by destruct h | done]. }
  set (rt' := mkRoot (rt_node rt) (rt_Callbacks rt ++ [mkCallback proxy c]) (rt_DirtyNodes rt) (rt_KvStore rt)).
  assert (AddCallback root proxy c h = (Ok tt, set_roots (<[root := rt']> (hp_roots h)) h)) as Hrun.
  { unfold AddCallback. by run_with (get_root_run h root rt Hr). }
  run_with Hrun. destruct (IH (set_roots (<[root := rt']> (hp_roots h)) h)) as (h' & Hh' & m & -> & Hlike).
  { simpl. rewrite lookup_insert_eq. by eexists. }
  eexists. split; [exact Hh'|]. exists m. split; [done|]. etrans; [|exact Hlike].
  intros r x Hx. simpl. destruct (decide (r = root)) as [->|Hne].
  - exists rt'. rewrite lookup_insert_eq. split; [done|]. assert (x = rt) as -> by congruence. done.
  - exists x. by rewrite lookup_insert_ne.
Qed.

(** What [makeLatest] leaves: the branch has the latest revision [l], the rest of
    the tree is the same. *)
Record latest_set h h' (b l : nat) : Prop := mkLatestSet {
  ls_ok : heap_ok h';
  ls_next : hp_next h' = hp_next h;
  ls_revs : hp_revs h' = hp_revs h;
  ls_nodes : hp_nodes h' = hp_nodes h;
  ls_branch : ∀ br, hp_branches h !! b = Some br → ∃ br', hp_branches h' !! b = Some br' ∧
    br_Node br' = br_Node br ∧ br_Txid br' = br_Txid br ∧ br_Latest br' = Some l;
  ls_others : ∀ c, c ≠ b → hp_branches h' !! c = hp_branches h !! c;
  ls_roots : roots_like h h';
  ls_rest : (hp_proxies h', hp_dirty h', hp_watches h', hp_kv h', hp_now h', hp_started h') =
            (hp_proxies h, hp_dirty h, hp_watches h, hp_kv h, hp_now h, hp_started h) }.

(** A branch with other revisions or another latest one. *)
Definition at_branch h (b : nat) (br : Branch) : Heap := set_branches (<[b := br]> (hp_branches h)) h.
Definition same_branch (br br' : Branch) : Prop :=
  br_Node br' = br_Node br ∧ br_Txid br' = br_Txid br ∧ br_Latest br' = br_Latest br.

Lemma at_branch_same h b br : hp_branches h !! b = Some br → at_branch h b br = h.
Proof. intros Hb. unfold at_branch. rewrite insert_id; [by destruct h | done]. Qed.
Lemma at_branch_twice h b br br' : at_branch (at_branch h b br) b br' = at_branch h b br'.
Proof. unfold at_branch, set_branches. simpl. by rewrite insert_insert_eq. Qed.

Lemma AddRevision_run h b br p np :
  hp_branches h !! b = Some br → npr_at h p = Some np →
  ∃ br', AddRevision b p h = (Ok tt, at_branch h b br') ∧ same_branch br br'.
Proof.
  intros Hb Hp. unfold AddRevision. run_with (GetHash_run h p np Hp).
  unfold GetRevision, SetRevision. unfold sbind at 1. run_with (get_branch_run h b br Hb). simpl.
  destruct (br_Revisions br !! np_Hash np).
  - exists br. by rewrite at_branch_same.
  - run_with (get_branch_run h b br Hb). by eexists.
Qed.

Lemma DeleteRevision_run h b br hash :
  hp_branches h !! b = Some br →
  ∃ br', DeleteRevision b hash h = (Ok tt, at_branch h b br') ∧ same_branch br br'.
Proof. intros Hb. unfold DeleteRevision. run_with (get_branch_run h b br Hb). by eexists. Qed.

Lemma SetLatest_run h b br p :
  hp_branches h !! b = Some br → SetLatest b p h = (Ok tt, at_branch h b (set_br_Latest (Some p) br)).
Proof. intros Hb. unfold SetLatest. by run_with (get_branch_run h b br Hb). Qed.

Lemma update_npr_run h p r n f :
  hp_revs h !! p = Some r → hp_nprs h !! rv_npr r = Some n →
  update_npr p f h = (Ok tt, set_nprs (<[rv_npr r := f n]> (hp_nprs h)) h).
Proof.
  intros Hr Hn. unfold update_npr. run_with (get_rev_run h p r Hr). unfold sbind at 1. by rewrite Hn.
Qed.

(** The end of [makeLatest]: the previous revision is forgotten and the changes
    are announced. *)
Definition settle (n b : nat) (previous : string) (cs : list (ChangeTuple Msg)) : M Heap unit :=
  let* latest := latest_of b in
  let* hash := GetHash latest in
  let* _ := if decide (previous ≠ EmptyString ∧ previous ≠ hash) then DeleteRevision b previous else ret tt in
  let* br := get_branch b in
  let* nd := get_node n in
  match nd_Proxy nd with
  | Some proxy => if decide (br_Txid br = EmptyString) then for_each (AddCallback (nd_Root nd) proxy) cs else ret tt
  | None => ret tt
  end.

Lemma settle_run h (n : nat) nd b br p np previous cs :
  heap_ok h → hp_nodes h !! n = Some nd → hp_branches h !! b = Some br → br_Latest br = Some p →
  npr_at h p = Some np →
  ∃ h', settle n b previous cs h = (Ok tt, h') ∧ latest_set h h' b p ∧ hp_nprs h' = hp_nprs h ∧ hp_cache h' = hp_cache h.
Proof.
  intros Hok Hn Hb Hl Hp. unfold settle. run_with (latest_of_run h b br p Hb Hl). run_with (GetHash_run h p np Hp).
  set (m := if decide _ then _ else _).
  assert (∃ br', m h = (Ok tt, at_branch h b br') ∧ same_branch br br') as (br' & Hm & Hs1 & Hs2 & Hs3).
  { unfold m. case_decide; [by apply DeleteRevision_run|]. exists br. by rewrite at_branch_same. }
  run_with Hm. set (h1 := at_branch h b br') in *.
  assert (hp_branches h1 !! b = Some br') as Hb1 by apply lookup_insert_eq.
  assert (heap_ok h1) as Hok1.
  { apply (put_branch_ok h b br); [done | done | done|]. rewrite Hs3. intros l. by apply (ho_latest h Hok b br). }
  run_with (get_branch_run h1 b br' Hb1). run_with (get_node_run h1 n nd Hn).
  assert (∀ h2, only_roots h1 h2 → latest_set h h2 b p ∧ hp_nprs h2 = hp_nprs h ∧ hp_cache h2 = hp_cache h) as Hdone.
  { intros h2 (mr & -> & Hlike). split; [|done]. split; simpl; try done.
    - eapply heap_ok_ext; [exact Hok1 | done..|]. intros r [rt Hr]. destruct (Hlike r rt Hr) as (rt' & Hr' & _). by exists rt'.
    - intros x Hx. exists br'. rewrite lookup_insert_eq. assert (x = br) as -> by congruence. repeat split; [done..|congruence].
    - intros c Hc. by rewrite lookup_insert_ne. }
  assert (only_roots h1 h1) as Hrefl by (exists (hp_roots h1); split; [by destruct h1 | done]).
  destruct (nd_Proxy nd) as [proxy|]; [|exists h1; split; [done | by apply Hdone]].
  case_decide; [|exists h1; split; [done | by apply Hdone]].
  destruct (announce_run h1 (nd_Root nd) proxy cs) as (h2 & Hrun & Hroots); [by eapply (ho_root h1 Hok1)|].
  exists h2. split; [exact Hrun | by apply Hdone].
Qed.

Lemma latest_set_trans h1 h2 h3 b l l' : latest_set h1 h2 b l → latest_set h2 h3 b l' → latest_set h1 h3 b l'.
Proof.
  intros [A1 A2 A3 A4 A5 A6 A7 A8] [B1 B2 B3 B4 B5 B6 B7 B8]. split; [done | congruence..| | | |congruence].
  - intros br Hb. destruct (A5 br Hb) as (br2 & Hb2 & ? & ? & ?). destruct (B5 br2 Hb2) as (br3 & Hb3 & ? & ? & ?).
    exists br3. repeat split; congruence.
  - intros c Hc. rewrite B6; [by apply A6 | done].
  - by etrans.
Qed.

(** A revision with the hash of the latest one is forgotten. *)
Lemma makeLatest_same h (n : nat) nd b br p np l nl cs :
  heap_ok h → hp_nodes h !! n = Some nd → hp_branches h !! b = Some br → npr_at h p = Some np →
  br_Latest br = Some l → npr_at h l = Some nl → np_Hash np = np_Hash nl →
  ∃ h', makeLatest n b p cs h = (Ok tt, h') ∧ latest_set h h' b l ∧ hp_nprs h' = hp_nprs h ∧ hp_cache h' = hp_cache h.
Proof.
  intros Hok Hn Hb Hp Hl Hnl Hh. unfold makeLatest. run_with (GetLatest_run h b br Hb). rewrite Hl.
  run_with (GetHash_run h l nl Hnl). destruct (AddRevision_run h b br p np Hb Hp) as (br1 & Hadd & E1 & E2 & E3).
  run_with Hadd. set (h1 := at_branch h b br1) in *. run_with (GetHash_run h1 p np Hp).
  rewrite decide_True; [|by rewrite Hh]. unfold sbind at 1. unfold ret at 1.
  assert (hp_branches h1 !! b = Some br1) as Hb1 by apply lookup_insert_eq.
  assert (heap_ok h1) as Hok1.
  { apply (put_branch_ok h b br); [done | done | done|]. rewrite E3. intros x. by apply (ho_latest h Hok b br). }
  destruct (settle_run h1 n nd b br1 l nl (np_Hash nl) cs Hok1 Hn Hb1 ltac:(congruence) Hnl) as (h2 & Hrun & Hset & ? & ?).
  exists h2. split; [exact Hrun|]. split; [|done]. apply (latest_set_trans h h1 h2 b l l); [|exact Hset].
  split; simpl; try done.
  - intros x Hx. exists br1. rewrite lookup_insert_eq. assert (x = br) as -> by congruence. repeat split; [done..|congruence].
  - intros c Hc. by rewrite lookup_insert_ne.
  - intros r rt Hr. by exists rt.
Qed.

(** Another revision becomes the latest one; with a name, it gets the time and is
    put in the cache. *)
Lemma makeLatest_new h (n : nat) nd b br p rp np cs :
  heap_ok h → hp_nodes h !! n = Some nd → hp_branches h !! b = Some br →
  hp_revs h !! p = Some rp → hp_nprs h !! rv_npr rp = Some np →
  (∀ l, br_Latest br = Some l → ∃ nl, npr_at h l = Some nl ∧ np_Hash np ≠ np_Hash nl) →
  ∃ h', makeLatest n b p cs h = (Ok tt, h') ∧ latest_set h h' b p ∧
    (np_Name np = EmptyString → hp_nprs h' = hp_nprs h ∧ hp_cache h' = hp_cache h) ∧
    (np_Name np ≠ EmptyString → hp_nprs h' = <[rv_npr rp := set_np_lastUpdate (hp_now h) np]> (hp_nprs h) ∧
                                hp_cache h' = <[np_Name np := p]> (hp_cache h)).
Proof.
  intros Hok Hn Hb Hrp Hnp Hdiff. unfold makeLatest. run_with (GetLatest_run h b br Hb).
  assert (npr_at h p = Some np) as Hp by (unfold npr_at; by rewrite Hrp).
  set (prev := match br_Latest br with Some l => GetHash l | None => ret EmptyString end).
  assert (∃ previous, prev h = (Ok previous, h) ∧ (br_Latest br = None ∨ np_Hash np ≠ previous)) as (previous & Hprev & Hdec).
  { unfold prev. destruct (br_Latest br) as [l|] eqn:Hl.
    - destruct (Hdiff l eq_refl) as (nl & Hnl & Hne). exists (np_Hash nl). split; [by apply GetHash_run | by right].
    - exists EmptyString. split; [done | by left]. }
  run_with Hprev. destruct (AddRevision_run h b br p np Hb Hp) as (br1 & Hadd & E1 & E2 & E3).
  run_with Hadd. set (h1 := at_branch h b br1) in *. run_with (GetHash_run h1 p np Hp).
  rewrite decide_False; [|intros [Hs Hh]; destruct Hdec; congruence].
  assert (hp_branches h1 !! b = Some br1) as Hb1 by apply lookup_insert_eq.
  assert (heap_ok h1) as Hok1.
  { apply (put_branch_ok h b br); [done | done | done|]. rewrite E3. intros x. by apply (ho_latest h Hok b br). }
  set (mid := (let* name := GetName p in _)).
  assert (∃ h2, mid h1 = (Ok tt, h2) ∧ latest_set h1 h2 b p ∧
    (∃ np', npr_at h2 p = Some np') ∧
    (np_Name np = EmptyString → hp_nprs h2 = hp_nprs h ∧ hp_cache h2 = hp_cache h) ∧
    (np_Name np ≠ EmptyString → hp_nprs h2 = <[rv_npr rp := set_np_lastUpdate (hp_now h) np]> (hp_nprs h) ∧
                                hp_cache h2 = <[np_Name np := p]> (hp_cache h))) as (h2 & Hmid & Hset2 & [np' Hp'] & Hc1 & Hc2).
  { unfold mid. run_with (GetName_run h1 p np Hp). case_decide as Hname.
    - unfold sbind at 1. unfold ret at 1. rewrite (SetLatest_run h1 b br1 p Hb1).
      eexists. split; [done|]. split; [|split; [by exists np | done]].
      split; simpl; try done.
      + apply (put_branch_ok h1 b br1); [done..|]. simpl. intros l [= <-]. by exists rp.
      + intros x Hx. rewrite lookup_insert_eq. assert (Some br1 = Some x) as [= <-] by exact (eq_trans (eq_sym Hb1) Hx). by eexists.
      + intros c Hc. by rewrite lookup_insert_ne.
      + intros r rt Hr. by exists rt.
    - unfold SetLastUpdate. unfold sbind at 1. unfold sbind at 1.
      rewrite (update_npr_run h1 p rp np _ Hrp Hnp). unfold modify.
      erewrite (SetLatest_run _ b br1 p); [|exact Hb1].
      eexists. split; [done|]. split; [|split; [|done]].
      + split; simpl; try done.
        * eapply heap_ok_ext; [apply (put_branch_ok (set_nprs (<[rv_npr rp:=set_np_lastUpdate (hp_now h1) np]> (hp_nprs h1)) h1)
             b br1 (set_br_Latest (Some p) br1)) | done..].
          -- apply (put_npr_ok h1 _ np); [done | done|]. by apply (ho_npr h1 Hok1 (rv_npr rp) np).
          -- done.
          -- done.
          -- simpl. intros l [= <-]. by exists rp.
        * intros x Hx. rewrite lookup_insert_eq. assert (Some br1 = Some x) as [= <-] by exact (eq_trans (eq_sym Hb1) Hx). by eexists.
        * intros c Hc. by rewrite lookup_insert_ne.
        * intros r rt Hr. by exists rt.
      + exists (set_np_lastUpdate (hp_now h1) np). unfold npr_at. simpl. rewrite Hrp. simpl. by rewrite lookup_insert_eq. }
  run_with Hmid. destruct (ls_branch _ _ _ _ Hset2 br1 Hb1) as (br2 & Hb2 & _ & _ & Hl2).
  assert (hp_nodes h2 !! n = Some nd) as Hn2 by (by rewrite (ls_nodes _ _ _ _ Hset2)).
  destruct (settle_run h2 n nd b br2 p np' previous cs (ls_ok _ _ _ _ Hset2) Hn2 Hb2 Hl2 Hp') as (h3 & Hrun & Hset & H1 & H2).
  exists h3. split; [exact Hrun|]. rewrite H1 H2. split; [|done].
  apply (latest_set_trans h h2 h3 b p p); [|exact Hset].
  destruct Hset2 as [S1 S2 S3 S4 S5 S6 S7 S8]. split; try done.
  - intros x Hx. destruct (S5 br1 Hb1) as (br3 & Hb3 & ? & ? & ?). exists br3. assert (x = br) as -> by congruence.
    repeat split; congruence.
  - intros c Hc. rewrite S6; [|done]. simpl. by rewrite lookup_insert_ne.
Qed.

(** *** New nodes *)

(** A revision that an operation on [h] made: nothing of [h] shares it. *)
Definition new_at h h' (q : nat) n : Prop :=
  hp_revs h !! q = None ∧ npr_at h' q = Some n ∧
  ∃ r, hp_revs h' !! q = Some r ∧ hp_nprs h !! rv_npr r = None.

Lemma MakeRevision_run h root rt b data children :
  heap_ok h → hp_roots h !! root = Some rt → is_Some (hp_branches h !! b) → valid_children h children →
  ∃ q h' n, MakeRevision root b data children h = (Ok q, h') ∧ heap_ok h' ∧ grows h h' ∧ new_at h h' q n ∧
    cf_Data (np_Config n) = data ∧ np_Name n = EmptyString ∧ np_Branch n = b ∧ np_Children n = children.
Proof.
  intros Hok Hrt Hb Hc. unfold MakeRevision. run_with (get_root_run h root rt Hrt).
  assert (∀ ptr, ∃ i h' n, NewNonPersistedRevision ptr b data children h = (Ok i, h') ∧ heap_ok h' ∧ grows h h' ∧
    hp_nprs h' !! i = Some n ∧ hp_nprs h !! i = None ∧ (hp_next h ≤ hp_next h')%nat ∧
    cf_Data (np_Config n) = data ∧ np_Name n = EmptyString ∧ np_Branch n = b ∧ np_Children n = children) as Hnew.
  { intros ptr. unfold NewNonPersistedRevision. run_with (NewDataRevision_run h ptr data).
    rewrite new_npr_run; [|by apply skip_ok | by split].
    eexists _, _, _. split; [done|].
    split; [apply with_npr_ok; [by apply skip_ok | by split]|].
    split; [etrans; [apply skip_grows | apply with_npr_grows; by apply skip_ok]|].
    split; [apply lookup_insert_eq|]. split; [apply (ho_fresh h Hok); simpl; lia|]. split; [simpl; lia | done]. }
  assert (∀ i h' n pe, heap_ok h' → grows h h' → hp_nprs h' !! i = Some n → hp_nprs h !! i = None →
    heap_ok (with_rev (mkRevision i pe) h') ∧ grows h (with_rev (mkRevision i pe) h') ∧
    new_at h (with_rev (mkRevision i pe) h') (hp_next h') n) as Hrev.
  { intros i h' n pe Hok' Hg Hi Hfr.
    assert (heap_ok (with_rev (mkRevision i pe) h')) as Hok2 by (apply with_rev_ok; [done | by exists n]).
    split; [done|]. split; [etrans; [done | by apply with_rev_grows]|].
    split; [apply (ho_fresh h Hok); apply (gr_next _ _ Hg)|]. split; [by apply npr_at_with_rev|].
    exists (mkRevision i pe). split; [apply lookup_insert_eq | done]. }
  destruct (rt_KvStore rt).
  - unfold NewPersistedRevision. destruct (Hnew None) as (i & h' & n & Hrun & Hok' & Hg & Hi & Hfr & _ & Hd). run_with Hrun.
    destruct (Hrev i h' n (Some (mkPersisted 1 false false false)) Hok' Hg Hi Hfr) as (? & ? & ?).
    eexists _, _, n. split; [done|]. done.
  - destruct (Hnew (Some root)) as (i & h' & n & Hrun & Hok' & Hg & Hi & Hfr & _ & Hd). run_with Hrun.
    destruct (Hrev i h' n None Hok' Hg Hi Hfr) as (? & ? & ?). eexists _, _, n. split; [done|]. done.
Qed.

(** A message without messages in it. *)
Definition no_children (m : Msg) : Prop := ∀ f l, attr_children m f = Some l → l = [].

(** A node with one branch, whose latest revision has the data and no name. *)
Definition new_node h h' (root node : nat) (data : Msg) : Prop :=
  ∃ nd b br r rn, hp_nodes h' !! node = Some nd ∧ nd_Root nd = root ∧ nd_Type nd = data ∧ nd_Proxy nd = None ∧
    nd_Branches nd !! NONE = Some b ∧ hp_branches h' !! b = Some br ∧ br_Node br = node ∧ br_Txid br = EmptyString ∧
    br_Latest br = Some r ∧ new_at h h' r rn ∧ cf_Data (np_Config rn) = data ∧ np_Name rn = EmptyString ∧
    np_Branch rn = b ∧ hp_nodes h !! node = None ∧ hp_branches h !! b = None ∧ (no_children data → np_Children rn = ∅).

Lemma Latest_run h node nd b br :
  hp_nodes h !! node = Some nd → nd_Branches nd !! NONE = Some b → hp_branches h !! b = Some br →
  Latest node EmptyString h = (Ok (br_Latest br), h).
Proof.
  intros Hn Hb Hbr.
  change (Latest node EmptyString h) with
    (sbind (node_branch node NONE) (λ b, match b with Some b => GetLatest b | None => ret None end) h).
  run_with (node_branch_run h node nd NONE Hn).
  rewrite Hb. by apply GetLatest_run.
Qed.

Lemma append_child_valid h children f r :
  valid_children h children → is_Some (hp_revs h !! r) → valid_children h (append_child children f r).
Proof.
  intros Hc Hr. apply valid_children_insert; [done|]. apply valid_slice_app; [|by apply valid_slice_one].
  destruct (children !! f) as [[s|]|] eqn:E; simpl; [by eapply Hc | |]; intros x Hx%elem_of_nil; done.
Qed.

(** The children of a new node: a loop over the fields, and one over the messages
    of a field. *)
Definition children_ok h (m : Msg) (children : gmap string Slice) h' : Prop :=
  heap_ok h' ∧ grows h h' ∧ valid_children h' children ∧ (no_children m → children = ∅).

Lemma new_children h (make : Msg → M Heap nat) fields m :
  (∀ h1 v f l, heap_ok h1 → grows h h1 → attr_children m f = Some l → v ∈ l →
     ∃ c h2, make v h1 = (Ok c, h2) ∧ heap_ok h2 ∧ grows h1 h2 ∧ ∃ root, new_node h1 h2 root c v) →
  heap_ok h →
  ∃ children h', for_each_acc (λ children f,
    let '(fieldName, field) := (f : string * ChildType) in
    match attr_children m fieldName with
    | None => ret children
    | Some l =>
        for_each_acc (λ children v,
          let* child := make v in
          let* rev :=
            Latest child (if ct_IsContainer field && bool_decide (ct_Key field ≠ EmptyString)
                          then EmptyString else EmptyString) in
          ret (match rev with Some rev => append_child children fieldName rev | None => children end)) l children
    end) fields ∅ h = (Ok children, h') ∧ children_ok h m children h'.
Proof.
  intros Hmake Hok. apply (for_each_acc_ind (children_ok h m)).
  2: { split; [done|]. split; [done|]. split; [intros f s; by rewrite lookup_empty | done]. }
  intros [fieldName field] acc h1 _ Hacc. destruct (attr_children m fieldName) as [l|] eqn:Hl; [|by exists acc, h1].
  apply (for_each_acc_ind (children_ok h m)); [|done].
  intros v acc' h2 Hv (Hok2 & Hg2 & Hacc' & _).
  destruct (Hmake h2 v fieldName l Hok2 Hg2 Hl Hv)
    as (c & h3 & Hrun & Hok3 & Hg3 & root & nd & b & br & r & rn & Hnd & _ & _ & _ & Hb & Hbr & _ & _ & Hlat & Hnew & _).
  destruct Hnew as (_ & _ & rr & Hrr & _).
  run_with Hrun. assert (∀ b : bool, (if b then EmptyString else EmptyString) = EmptyString) as -> by by intros [].
  run_with (Latest_run h3 c nd b br Hnd Hb Hbr). rewrite Hlat. eexists _, h3. split; [done|].
  split; [done|]. split; [by etrans|]. split.
  - apply append_child_valid; [|by exists rr]. by apply (grows_children h2).
  - intros Hno. rewrite (Hno _ _ Hl) in Hv. by apply elem_of_nil in Hv.
Qed.

(** A change of an object that [h] does not have. *)
Lemma grows_latest h h1 h2 b l :
  grows h h1 → hp_branches h !! b = None → latest_set h1 h2 b l → hp_nprs h2 = hp_nprs h1 → hp_cache h2 = hp_cache h1 →
  grows h h2.
Proof.
  intros [G1 G2 G3 G4 G5 G6 G7] Hb [S1 S2 S3 S4 S5 S6 S7 S8] Hn Hc. split.
  - lia.
  - by rewrite Hn.
  - by rewrite S3.
  - apply map_subseteq_spec. intros c br Hbr. rewrite S6; [by eapply lookup_weaken | congruence].
  - by rewrite S4.
  - by etrans.
  - congruence.
Qed.

Lemma grows_node h h1 node nd :
  grows h h1 → hp_nodes h !! node = None → grows h (set_nodes (<[node := nd]> (hp_nodes h1)) h1).
Proof.
  intros [G1 G2 G3 G4 G5 G6 G7] Hn. split; simpl; try done. by apply insert_subseteq_r.
Qed.

(** A node is made whatever the messages below it are: the nesting of the message
    is enough fuel. *)
Lemma newNode_run `{!SchemaLaws Msg} fuel root data h :
  (msg_depth data < fuel)%nat → heap_ok h → is_Some (hp_roots h !! root) →
  ∃ node h', newNode fuel root data EmptyString h = (Ok node, h') ∧ heap_ok h' ∧ grows h h' ∧ new_node h h' root node data.
Proof.
  revert data h. induction fuel as [|fuel IH]; intros data h Hfuel Hok [rt Hrt]; [lia|]. simpl.
  set (n := hp_next h). set (h0 := with_node (mkNode root data ∅ None) h).
  assert (hp_nodes h !! n = None) as Hfn by (apply (ho_fresh h Hok); lia).
  unfold alloc. unfold sbind at 1. unfold put_node at 1, modify at 1. unfold sbind at 1.
  change (set_nodes _ _) with h0. fold n.
  assert (heap_ok h0) as Hok0 by (apply with_node_ok; [done | by exists rt]).
  assert (grows h h0) as Hg0 by by apply with_node_grows.
  destruct (new_children h0 (λ v, newNode fuel root v EmptyString) (go_range (ChildrenFields data)) data)
    as (children & h1 & Hrun & Hok1 & Hg1 & Hch & Hempty).
  { intros h1 v f l Hok1 Hg1 Hl Hv. destruct (IH v h1) as (c & h2 & Hc & Hok2 & Hg2 & Hnew).
    - pose proof (msg_depth_child data f l v Hl Hv). lia.
    - done.
    - destruct (gr_roots _ _ (transitivity Hg0 Hg1) root rt Hrt) as (rt' & Hrt' & _). by exists rt'.
    - exists c, h2. split; [done|]. split; [done|]. split; [done|]. by exists root. }
  { done. }
  run_with Hrun. set (b := hp_next h1). set (h2 := with_branch (mkBranch n EmptyString None ∅ None) h1).
  assert (hp_nodes h1 !! n = Some (mkNode root data ∅ None)) as Hn1.
  { eapply lookup_weaken; [apply lookup_insert_eq | apply (gr_nodes _ _ Hg1)]. }
  assert (NewBranch n EmptyString None h1 = (Ok b, h2)) as Hbr by done. run_with Hbr.
  assert (heap_ok h2) as Hok2 by (apply with_branch_ok; [done | by eexists | done]).
  assert (grows h h2) as Hg2 by (etrans; [exact Hg0 | etrans; [exact Hg1 | by apply with_branch_grows]]).
  destruct (gr_roots _ _ Hg2 root rt Hrt) as (rt2 & Hrt2 & _).
  assert (hp_branches h2 !! b = Some (mkBranch n EmptyString None ∅ None)) as Hb2 by apply lookup_insert_eq.
  assert (hp_branches h !! b = None) as Hfb.
  { apply (ho_fresh h Hok). unfold b. pose proof (gr_next _ _ Hg0). pose proof (gr_next _ _ Hg1). lia. }
  destruct (MakeRevision_run h2 root rt2 b data children Hok2 Hrt2) as (q & h3 & np & Hq & Hok3 & Hg3 & Hnew & Hd & Hname & Hnb & Hnc).
  { by eexists. }
  { apply (grows_children h1); [by apply with_branch_grows | done]. }
  run_with Hq. destruct Hnew as (Hfq & Hnp & r & Hr & Hfr).
  assert (hp_nodes h3 !! n = Some (mkNode root data ∅ None)) as Hn3.
  { eapply lookup_weaken; [exact Hn1 | apply (gr_nodes _ _ Hg3)]. }
  assert (hp_branches h3 !! b = Some (mkBranch n EmptyString None ∅ None)) as Hb3.
  { eapply lookup_weaken; [exact Hb2 | apply (gr_branches _ _ Hg3)]. }
  assert (hp_nprs h3 !! rv_npr r = Some np) as Hnp3 by (unfold npr_at in Hnp; by rewrite Hr in Hnp).
  destruct (makeLatest_new h3 n _ b _ q r np [] Hok3 Hn3 Hb3 Hr Hnp3) as (h4 & Hml & Hset & Hsame & _); [done|].
  run_with Hml. destruct (Hsame Hname) as [Hnprs Hcache].
  assert (hp_nodes h4 !! n = Some (mkNode root data ∅ None)) as Hn4 by by rewrite (ls_nodes _ _ _ _ Hset).
  set (nd := mkNode root data {[NONE := b]} None).
  assert (SetBranch n NONE b h4 = (Ok tt, set_nodes (<[n := nd]> (hp_nodes h4)) h4)) as Hsb.
  { unfold SetBranch. by run_with (get_node_run h4 n _ Hn4). }
  change (if decide (EmptyString = EmptyString) then NONE else EmptyString) with NONE. run_with Hsb.
  assert (grows h h4) as Hg4.
  { apply (grows_latest h h3 h4 b q); [by etrans | done | done | done | done]. }
  exists n, (set_nodes (<[n := nd]> (hp_nodes h4)) h4). split; [done|].
  split; [by apply (put_node_ok h4 n _ nd (ls_ok _ _ _ _ Hset) Hn4)|].
  split; [by apply grows_node|].
  destruct (ls_branch _ _ _ _ Hset _ Hb3) as (br & Hbr4 & Hbn & Hbt & Hbl).
  exists nd, b, br, q, np. simpl. rewrite lookup_insert_eq.
  repeat (split; [done|]). split.
  { split; [by apply (lookup_weaken_None _ _ _ Hfq (gr_revs _ _ Hg2))|]. split.
    - unfold npr_at. simpl. rewrite (ls_revs _ _ _ _ Hset) Hnprs Hr. exact Hnp3.
    - exists r. simpl. rewrite (ls_revs _ _ _ _ Hset). split; [done|].
      by apply (lookup_weaken_None _ _ _ Hfr (gr_nprs _ _ Hg2)). }
  repeat (split; [done|]). rewrite Hnc. exact Hempty.
Qed.
End Facts.
