(* ===== verification/ModelReflect.v ===== *)
(** * The data model: reflection on messages

    [db/model/utils.go] and [child_type.go]: the data model finds the containers of
    a message, the types of their entries and the keys of these by searching the
    generated Go types; it keeps what it found in a cache. *)

From S2P Require Import Prelude Ids ModelTree.

(** ** Types and values *)

(** The kinds of types the search tells apart; structs have names, so that types
    can refer to each other.  Types it does not look into (numbers, strings, maps)
    are [TBasic]. *)
Inductive GoType :=
  | TBasic (name : string) | TStruct (name : string) | TPtr (t : GoType) | TSlice (t : GoType) | TInterface (name : string).
#[export] Instance GoType_eq_dec : EqDecision GoType.
Proof. solve_decision. Defined.

(** [sf_json] is the name in the json tag.  All fields are exported. *)
Record StructField := mkField { sf_Name : string; sf_json : string; sf_Type : GoType }.

(** A zero value is not spelled out: the one of a pointer is nil. *)
Inductive GoValue :=
  | VZero (t : GoType) | VBasic (type text : string) | VPtr (t : GoType) (v : GoValue)
  | VStruct (name : string) (fields : list GoValue) | VSlice (t : GoType) (elems : list GoValue)
  | VInterface (name : string) (v : GoValue).

Definition type_of (v : GoValue) : GoType :=
  match v with
  | VZero t => t | VBasic n _ => TBasic n | VPtr t _ => TPtr t | VStruct n _ => TStruct n
  | VSlice t _ => TSlice t | VInterface n _ => TInterface n
  end.

(** [reflect.Type.String] and [Name], the latter for types that are no structs. *)
Fixpoint type_String (t : GoType) : string :=
  match t with
  | TBasic n | TStruct n | TInterface n => n
  | TPtr t => "*" +:+ type_String t
  | TSlice t => "[]" +:+ type_String t
  end.
Definition type_Name (t : GoType) : string := match t with TBasic n => n | _ => EmptyString end.

(** [reflect.ValueOf(v.Interface())]: the value in an interface, none in a nil one. *)
Definition boxed (v : GoValue) : option GoValue :=
  match v with VZero (TInterface _) => None | VInterface _ v => Some v | _ => Some v end.

(** A loop over fields or elements: a hit ends it with its result, another one
    ends it when the search below finds something.  [None]: the search is too deep. *)
Fixpoint scan {A B} (hit : A → bool) (result search : A → option (option B)) (l : list A) : option (option B) :=
  match l with
  | [] => Some None
  | x :: l =>
      if hit x then result x
      else match search x with Some None => scan hit result search l | r => r end
  end.

Section Reflection.
(** The generated struct types. *)
Context (fields_of : string → list StructField).

Definition struct_values (v : GoValue) : list GoValue :=
  match v with
  | VStruct _ l => l
  | VZero (TStruct n) => (λ f, VZero (sf_Type f)) <$> fields_of n
  | _ => []
  end.
Definition slice_values (v : GoValue) : list GoValue := match v with VSlice _ l => l | _ => [] end.
Definition struct_fields (n : string) (v : GoValue) : list (StructField * GoValue) := zip (fields_of n) (struct_values v).
Definition named (name : string) (fv : StructField * GoValue) : bool := bool_decide (sf_json fv.1 = name).

(** ** [utils.go] *)

(** A pointer is followed to a new value, whatever it points to. *)
Fixpoint FindOwnerType (fuel : nat) (obj : GoValue) (name : string) (found : bool) : option (option GoType) :=
  match fuel with
  | O => None
  | S fuel =>
      match type_of obj with
      | TPtr t => if found then Some (Some (TPtr t)) else FindOwnerType fuel (VZero t) name found
      | TStruct n =>
          if found then Some (Some (TStruct n))
          else scan (named name) (λ fv, FindOwnerType fuel fv.2 name true) (λ fv, FindOwnerType fuel fv.2 name found)
                 (struct_fields n obj)
      | TSlice t =>
          if found then Some (Some t)
          else scan (λ _, false) (λ _, Some None) (λ v, FindOwnerType fuel v name found) (slice_values obj)
      | _ => Some None
      end
  end.

Fixpoint FindKeyOwner (fuel : nat) (iface : option GoValue) (name : string) : option (option GoType) :=
  match fuel, iface with
  | O, _ => None
  | S _, None => Some None
  | S fuel, Some obj =>
      match type_of obj with
      | TPtr t | TSlice t => FindKeyOwner fuel (boxed (VZero t)) name
      | TStruct n =>
          scan (named name) (λ fv, Some (Some (sf_Type fv.1))) (λ fv, FindKeyOwner fuel (boxed fv.2) name) (struct_fields n obj)
      | _ => Some None
      end
  end.

Fixpoint GetAttributeValue (fuel : nat) (data : option GoValue) (name : string) : option (option (string * GoValue)) :=
  match fuel, data with
  | O, _ => None
  | S _, None => Some None
  | S fuel, Some obj =>
      match type_of obj with
      | TPtr _ => match obj with VPtr _ v => GetAttributeValue fuel (boxed v) name | _ => Some None end
      | TStruct n =>
          scan (named name) (λ fv, Some (Some (sf_Name fv.1, fv.2))) (λ fv, GetAttributeValue fuel (boxed fv.2) name)
            (struct_fields n obj)
      | TSlice _ => scan (λ _, false) (λ _, Some None) (λ v, GetAttributeValue fuel (boxed v) name) (slice_values obj)
      | _ => Some None
      end
  end.

Fixpoint GetAttributeStructure (fuel : nat) (data : option GoValue) (name : string) : option (option StructField) :=
  match fuel, data with
  | O, _ => None
  | S _, None => Some None
  | S fuel, Some obj =>
      match type_of obj with
      | TPtr t => GetAttributeStructure fuel (boxed (VZero t)) name
      | TStruct n =>
          scan (named name) (λ fv, Some (Some fv.1)) (λ fv, GetAttributeStructure fuel (boxed fv.2) name) (struct_fields n obj)
      | TSlice _ => scan (λ _, false) (λ _, Some None) (λ v, GetAttributeStructure fuel (boxed v) name) (slice_values obj)
      | _ => Some None
      end
  end.

(** ** [child_type.go] *)

(** [strconv.Atoi]: an error is ignored, with a number that is out of range cut off. *)
Definition Atoi (s : string) : Z :=
  let (neg, digits) := match s with String "-" s => (true, s) | String "+" s => (false, s) | _ => (false, s) end in
  if decide (digits = EmptyString) then 0
  else
    let un := match parse_loop 10 0 digits with Ok n => n | Err e => if decide (e = range_error) then 2 ^ 64 - 1 else 0 | Panic => 0 end in
    if (neg : bool) then - Z.min un (2 ^ 63) else Z.min un (2 ^ 63 - 1).

Definition number (v : Z) : KeyValue := KeyNumber (pretty v).
Definition key_from_str (type : string) : option (string → KeyValue) :=
  if decide (type = "string") then Some KeyString
  else if decide (type = "int32") then Some (λ s, number (i32 (Atoi s)))
  else if decide (type = "int64") then Some (λ s, number (Atoi s))
  else if decide (type = "uint32") then Some (λ s, number (u32 (Atoi s)))
  else if decide (type = "uint64") then Some (λ s, number (u64 (Atoi s)))
  else None.

(** [rc_KeyFromStr] is nil without a key and for other types of keys. *)
Record ReflectedChild := mkReflected {
  rc_ClassType : GoType; rc_IsContainer : bool; rc_Key : string; rc_KeyFromStr : option (string → KeyValue) }.

(** The descriptor of a field: whether it is repeated, and the key in its option
    [child_node] when it has this option. *)
Record FieldDescriptor := mkDescriptor { fd_Name : string; fd_repeated : bool; fd_ChildNode : option string }.
Context (ForMessage : string → list FieldDescriptor).

Context (fuel : nat).

(** Types that are not found are nil, and using them panics. *)
Definition reflected_child (cls : GoValue) (fd : FieldDescriptor) (key : string) : outcome ReflectedChild :=
  match FindOwnerType fuel cls (fd_Name fd) false with
  | Some (Some parentType) =>
      if decide (key = EmptyString) then Ok (mkReflected parentType (fd_repeated fd) key None)
      else
        match FindKeyOwner fuel (boxed (VZero parentType)) key with
        | Some (Some keyType) => Ok (mkReflected parentType (fd_repeated fd) key (key_from_str (type_Name keyType)))
        | _ => Panic
        end
  | _ => Panic
  end.

Fixpoint reflected_children (cls : GoValue) (fds : list FieldDescriptor) (names : gmap string ReflectedChild)
    : outcome (gmap string ReflectedChild) :=
  match fds with
  | [] => Ok names
  | fd :: fds =>
      match fd_ChildNode fd with
      | None => reflected_children cls fds names
      | Some key => let? ct := reflected_child cls fd key in reflected_children cls fds (<[fd_Name fd := ct]> names)
      end
  end.

(** A message is a pointer to a struct; the cache is by the name of its type. *)
Definition message_type (cls : GoValue) : string := match type_of cls with TPtr (TStruct n) => n | _ => EmptyString end.
Notation Cache := (gmap string (gmap string ReflectedChild)).

Definition ChildrenFields (cls : option GoValue) : M Cache (gmap string ReflectedChild) :=
  match cls with
  | None => ret ∅
  | Some cls =>
      let* cache := get in
      match cache !! type_String (type_of cls) with
      | Some names => ret names
      | None =>
          let* names := lift (reflected_children cls (ForMessage (message_type cls)) ∅) in
          let* _ := modify (<[type_String (type_of cls) := names]>) in
          ret names
      end
  end.
End Reflection.

(** ** What the search finds *)

Section Facts.
Context (fields_of : string → list StructField).
Notation FindOwnerType := (FindOwnerType fields_of).
Notation FindKeyOwner := (FindKeyOwner fields_of).

(** A name is not in a type, nor in those it refers to; slices are empty in a new
    value, but [FindKeyOwner] looks into the type of their elements. *)
Inductive absent (slices : bool) (name : string) : GoType → Prop :=
  | absent_basic n : absent slices name (TBasic n)
  | absent_interface n : absent slices name (TInterface n)
  | absent_ptr t : absent slices name t → absent slices name (TPtr t)
  | absent_slice t : (slices = true → absent slices name t) → absent slices name (TSlice t)
  | absent_struct n :
      (∀ f, f ∈ fields_of n → sf_json f ≠ name) → (∀ f, f ∈ fields_of n → absent slices name (sf_Type f)) →
      absent slices name (TStruct n).

(** The struct declares the name, and the fields before do not have it. *)
Definition declared (slices : bool) (struct name : string) (ft : GoType) : Prop := ∃ before f after,
  fields_of struct = before ++ f :: after ∧ sf_json f = name ∧ sf_Type f = ft ∧
  ∀ g, g ∈ before → sf_json g ≠ name ∧ absent slices name (sf_Type g).

(** The type of the entries of a field. *)
Definition element_type (ft : GoType) : option GoType :=
  match ft with TPtr _ | TStruct _ => Some ft | TSlice t => Some t | _ => None end.

Definition eventually {A} (f : nat → option A) (r : A) : Prop := ∃ F, ∀ fuel, (F ≤ fuel)%nat → f fuel = Some r.

Lemma eventually_S {A} (f g : nat → option A) r : eventually g r → (∀ fuel, f (S fuel) = g fuel) → eventually f r.
Proof.
  intros [F HF] Hf. exists (S F). intros [|fuel] Hle; [lia|]. rewrite Hf. apply HF. lia.
Qed.

(** The fields of a new struct. *)
Lemma zero_fields n : struct_fields fields_of n (VZero (TStruct n)) = (λ f, (f, VZero (sf_Type f))) <$> fields_of n.
Proof.
  unfold struct_fields. simpl. induction (fields_of n) as [|f l IH]; [done|]. simpl. by rewrite IH.
Qed.

(** A search over fields in which nothing is found goes on to the rest. *)
Lemma scan_misses {B} (result search : nat → StructField * GoValue → option (option B)) name before rest :
  (∀ g, g ∈ before → sf_json g ≠ name ∧ eventually (λ fuel, search fuel (g, VZero (sf_Type g))) None) →
  ∃ F, ∀ fuel, (F ≤ fuel)%nat →
    scan (named name) (result fuel) (search fuel) (((λ f, (f, VZero (sf_Type f))) <$> before) ++ rest) =
    scan (named name) (result fuel) (search fuel) rest.
Proof.
  induction before as [|g before IH]; intros Hb; [by exists 0%nat|].
  destruct (Hb g ltac:(by left)) as [Hne [F1 H1]]. destruct IH as [F2 H2]; [intros g' Hg'; apply Hb; by right|].
  exists (F1 `max` F2)%nat. intros fuel Hle. simpl. unfold named at 1. simpl. rewrite bool_decide_eq_false_2; [|done].
  rewrite (H1 fuel ltac:(lia)). apply H2. lia.
Qed.

Lemma absent_owner name t : absent false name t → eventually (λ fuel, FindOwnerType fuel (VZero t) name false) None.
Proof.
  induction 1 as [n|n|t _ IH|t _ _|n Hne _ IH].
  - exists 1%nat. intros [|fuel] Hle; [lia | done].
  - exists 1%nat. intros [|fuel] Hle; [lia | done].
  - by eapply eventually_S.
  - exists 1%nat. intros [|fuel] Hle; [lia | done].
  - eapply (eventually_S _ (λ fuel, scan (named name) (λ fv, FindOwnerType fuel fv.2 name true)
      (λ fv, FindOwnerType fuel fv.2 name false) (struct_fields fields_of n (VZero (TStruct n))))); [|done].
    rewrite zero_fields. destruct (scan_misses (λ fuel fv, FindOwnerType fuel fv.2 name true)
      (λ fuel fv, FindOwnerType fuel fv.2 name false) name (fields_of n) []) as [F HF]; [intros g Hg; by split; [apply Hne | apply IH]|].
    exists F. intros fuel Hle. specialize (HF fuel Hle). by rewrite app_nil_r in HF.
Qed.

Lemma absent_key name t : absent true name t → eventually (λ fuel, FindKeyOwner fuel (boxed (VZero t)) name) None.
Proof.
  induction 1 as [n|n|t _ IH|t _ IH|n Hne _ IH].
  - exists 1%nat. intros [|fuel] Hle; [lia | done].
  - exists 1%nat. intros [|fuel] Hle; [lia | done].
  - by eapply eventually_S.
  - eapply eventually_S; [by apply IH | done].
  - eapply (eventually_S _ (λ fuel, scan (named name) (λ fv, Some (Some (sf_Type fv.1)))
      (λ fv, FindKeyOwner fuel (boxed fv.2) name) (struct_fields fields_of n (VZero (TStruct n))))); [|done].
    rewrite zero_fields. destruct (scan_misses (λ fuel fv, Some (Some (sf_Type fv.1)))
      (λ fuel fv, FindKeyOwner fuel (boxed fv.2) name) name (fields_of n) []) as [F HF]; [intros g Hg; by split; [apply Hne | apply IH]|].
    exists F. intros fuel Hle. specialize (HF fuel Hle). by rewrite app_nil_r in HF.
Qed.

(** The owner of a declared field is the type of its entries, whatever the message. *)
Lemma owner_declared struct name ft pt :
  declared false struct name ft → element_type ft = Some pt →
  ∃ F, ∀ fuel cls, (F ≤ fuel)%nat → type_of cls = TPtr (TStruct struct) → FindOwnerType fuel cls name false = Some (Some pt).
Proof.
  intros (before & f & after & Hfields & Hname & Htype & Hb) Hpt.
  destruct (scan_misses (λ fuel fv, FindOwnerType fuel fv.2 name true) (λ fuel fv, FindOwnerType fuel fv.2 name false) name before
    ((λ f, (f, VZero (sf_Type f))) <$> f :: after)) as [F HF].
  { intros g Hg. destruct (Hb g Hg) as [Hne Ha]. split; [done | by apply absent_owner]. }
  exists (S (S (S F))). intros [|[|fuel]] cls Hle Ht; [lia..|]. simpl. rewrite Ht. simpl. rewrite zero_fields Hfields fmap_app.
  rewrite (HF fuel ltac:(lia)). simpl. unfold named. simpl. rewrite bool_decide_eq_true_2; [|done]. destruct fuel as [|fuel]; [lia|]. simpl.
  rewrite Htype. destruct ft; simpl in Hpt; by simplify_eq.
Qed.

Lemma key_declared struct key kt pt :
  declared true struct key kt → pt = TPtr (TStruct struct) ∨ pt = TStruct struct →
  eventually (λ fuel, FindKeyOwner fuel (boxed (VZero pt)) key) (Some kt).
Proof.
  intros (before & f & after & Hfields & Hname & Htype & Hb) Hpt.
  destruct (scan_misses (λ fuel fv, Some (Some (sf_Type fv.1))) (λ fuel fv, FindKeyOwner fuel (boxed fv.2) key) key before
    ((λ f, (f, VZero (sf_Type f))) <$> f :: after)) as [F HF].
  { intros g Hg. destruct (Hb g Hg) as [Hne Ha]. split; [done | by apply absent_key]. }
  assert (eventually (λ fuel, FindKeyOwner fuel (Some (VZero (TStruct struct))) key) (Some kt)) as Hs.
  { exists (S F). intros [|fuel] Hle; [lia|]. simpl. rewrite zero_fields Hfields fmap_app (HF fuel ltac:(lia)). simpl.
    unfold named. simpl. rewrite bool_decide_eq_true_2; [by rewrite Htype | done]. }
  destruct Hpt as [->| ->]; [by eapply eventually_S | exact Hs].
Qed.
End Facts.

(** ** The containers of a message *)

Section Containers.
Context (fields_of : string → list StructField) (ForMessage : string → list FieldDescriptor).
Notation declared := (declared fields_of).
Notation reflected_children := (reflected_children fields_of).
Notation Cache := (gmap string (gmap string ReflectedChild)).

(** What a field declares: the type of its entries, whether it is a list, the key
    of its entries and how it is read. *)
Definition declares (struct : string) (fd : FieldDescriptor) (rc : ReflectedChild) : Prop := ∃ key ft pt,
  fd_ChildNode fd = Some key ∧ declared false struct (fd_Name fd) ft ∧ element_type ft = Some pt ∧
  rc_ClassType rc = pt ∧ rc_IsContainer rc = fd_repeated fd ∧ rc_Key rc = key ∧
  ((key = EmptyString ∧ rc_KeyFromStr rc = None) ∨
   (key ≠ EmptyString ∧ ∃ entry kt, (pt = TPtr (TStruct entry) ∨ pt = TStruct entry) ∧ declared true entry key kt ∧
      rc_KeyFromStr rc = key_from_str (type_Name kt))).

Definition insert_all (l : list (FieldDescriptor * ReflectedChild)) (names : gmap string ReflectedChild) : gmap string ReflectedChild :=
  fold_left (λ m e, <[fd_Name e.1 := e.2]> m) l names.

(** The containers that the descriptor of a message declares. *)
Definition declared_children (struct : string) (names : gmap string ReflectedChild) : Prop := ∃ l,
  l.*1 = List.filter (λ fd, bool_decide (is_Some (fd_ChildNode fd))) (ForMessage struct) ∧
  Forall (λ e, declares struct e.1 e.2) l ∧ names = insert_all l ∅.

Lemma reflected_child_declared struct fd rc :
  declares struct fd rc → ∃ F key, fd_ChildNode fd = Some key ∧
    ∀ fuel cls, (F ≤ fuel)%nat → type_of cls = TPtr (TStruct struct) → reflected_child fields_of fuel cls fd key = Ok rc.
Proof.
  intros (key & ft & pt & Hkey & Hdecl & Hpt & Hrc1 & Hrc2 & Hrc3 & Hcase).
  destruct (owner_declared fields_of struct _ ft pt Hdecl Hpt) as [F1 H1].
  destruct rc as [ct cont k from]. simpl in *. subst ct cont k.
  destruct Hcase as [[-> ->]|(Hne & entry & kt & Hentry & Hk & ->)].
  - exists F1, EmptyString. split; [done|]. intros fuel cls Hle Ht. unfold reflected_child.
    by rewrite (H1 fuel cls Hle Ht).
  - destruct (key_declared fields_of entry key kt pt Hk Hentry) as [F2 H2]. exists (F1 `max` F2)%nat, key. split; [done|].
    intros fuel cls Hle Ht. unfold reflected_child. rewrite (H1 fuel cls ltac:(lia) Ht) decide_False; [|done].
    by rewrite (H2 fuel ltac:(lia)).
Qed.

Lemma reflected_children_declared struct fds : ∀ l,
  l.*1 = List.filter (λ fd, bool_decide (is_Some (fd_ChildNode fd))) fds → Forall (λ e, declares struct e.1 e.2) l →
  ∃ F, ∀ fuel cls names, (F ≤ fuel)%nat → type_of cls = TPtr (TStruct struct) →
    reflected_children fuel cls fds names = Ok (insert_all l names).
Proof.
  induction fds as [|fd fds IH]; intros l Hl Hall; simpl in *.
  { destruct l; [|done]. exists 0%nat. done. }
  destruct (fd_ChildNode fd) as [key|] eqn:Hkey; simpl in Hl.
  - destruct l as [|[fd' rc] l]; [done|]. injection Hl as -> Hl. apply Forall_cons in Hall as [Hrc Hall].
    destruct (reflected_child_declared struct fd rc Hrc) as (F1 & key' & Hkey' & H1). assert (key' = key) as -> by congruence.
    destruct (IH l Hl Hall) as [F2 H2]. exists (F1 `max` F2)%nat. intros fuel cls names Hle Ht.
    rewrite (H1 fuel cls ltac:(lia) Ht). simpl. by apply H2; [lia|].
  - destruct (IH l Hl Hall) as [F H]. by exists F.
Qed.

(** The calls on several messages, with one cache. *)
Fixpoint children_of_calls (fuel : nat) (calls : list GoValue) : M Cache (list (gmap string ReflectedChild)) :=
  match calls with
  | [] => ret []
  | cls :: calls =>
      let* names := ChildrenFields fields_of ForMessage fuel (Some cls) in
      let* rest := children_of_calls fuel calls in ret (names :: rest)
  end.

Context (decl : string → gmap string ReflectedChild).

Definition cache_declared (cache : Cache) : Prop := ∀ key names, cache !! key = Some names →
  ∃ struct, key = "*" +:+ struct ∧ names = decl struct.

Lemma children_of_calls_run calls :
  (∀ struct cls, (struct, cls) ∈ calls → type_of cls = TPtr (TStruct struct) ∧ declared_children struct (decl struct)) →
  ∃ F, ∀ fuel cache, (F ≤ fuel)%nat → cache_declared cache →
    ∃ cache', children_of_calls fuel calls.*2 cache = (Ok ((λ c, decl c.1) <$> calls), cache').
Proof.
  induction calls as [|[struct cls] calls IH]; intros Hc; [exists 0%nat; intros fuel cache _ _; by exists cache|].
  destruct (Hc struct cls ltac:(by left)) as [Ht (l & Hl & Hall & Hdecl)].
  destruct (reflected_children_declared struct _ l Hl Hall) as [F1 H1].
  destruct IH as [F2 H2]; [intros s c Hin; apply Hc; by right|]. exists (F1 `max` F2)%nat.
  intros fuel cache Hle Hcache.
  assert (∃ cache1, ChildrenFields fields_of ForMessage fuel (Some cls) cache = (Ok (decl struct), cache1) ∧ cache_declared cache1)
    as (cache1 & Hrun & Hcache1).
  { unfold ChildrenFields. unfold sbind at 1, get. rewrite Ht. simpl. destruct (cache !! _) as [names|] eqn:Hk.
    - exists cache. destruct (Hcache _ _ Hk) as (s & Heq & ->). apply (inj (String.append "*")) in Heq as <-. done.
    - unfold message_type. rewrite Ht (H1 fuel cls ∅ ltac:(lia) Ht) -Hdecl. eexists. split; [done|].
      intros key names [[<- <-]|[_ Hn]]%lookup_insert_Some; [by exists struct | by apply Hcache]. }
  destruct (H2 fuel cache1 ltac:(lia) Hcache1) as [cache2 Hrest]. exists cache2. cbn [children_of_calls fmap list_fmap snd].
  rewrite (sbind_run _ _ _ _ _ Hrun) (sbind_run _ _ _ _ _ Hrest). done.
Qed.

(** C24: for any messages, in any order and as often as wanted, [ChildrenFields]
    gives the containers that their types declare: the type of the entries, their
    key and how it is read from a path, the same from the cache as from the search,
    and whatever the messages hold.  It takes that no field before the one that is
    searched refers to a type with this name; the depth of the search is bounded. *)
Theorem children_fields_correct (calls : list (string * GoValue)) :
  (∀ struct cls, (struct, cls) ∈ calls → type_of cls = TPtr (TStruct struct) ∧ declared_children struct (decl struct)) →
  ∃ F, ∀ fuel, (F ≤ fuel)%nat →
    ∃ cache, children_of_calls fuel calls.*2 ∅ = (Ok ((λ c, decl c.1) <$> calls), cache).
Proof.
  intros Hc. destruct (children_of_calls_run calls Hc) as [F HF]. exists F. intros fuel Hle. by apply HF.
Qed.
End Containers.

(** ** The search goes into depth first *)

(** A type that refers to itself is searched for ever when the name is not there:
    no depth is enough. *)
Definition self_type (n : string) : list StructField := [mkField "Next" "next" (TPtr (TStruct n))].
Lemma search_never_ends fuel : FindOwnerType self_type fuel (VZero (TPtr (TStruct "List"))) "items" false = None.
Proof.
  assert (∀ v, type_of v = TPtr (TStruct "List") ∨ type_of v = TStruct "List" ∧ v = VZero (TStruct "List") →
    FindOwnerType self_type fuel v "items" false = None) as Hv; [|apply Hv; by left].
  induction fuel as [|fuel IH]; [done|]. intros v [Ht|[_ ->]].
  - simpl. rewrite Ht. apply IH. by right.
  - simpl. rewrite (IH (VZero (TPtr (TStruct "List")))); [done | by left].
Qed.

(** *** Two messages *)

(** A part of the generated types, and the options of their fields. *)
Definition sample_types (n : string) : list StructField :=
  if decide (n = "voltha.Voltha") then
    [mkField "Version" "version" (TBasic "string"); mkField "LogicalDevices" "logical_devices" (TSlice (TPtr (TStruct "voltha.LogicalDevice")));
     mkField "Devices" "devices" (TSlice (TPtr (TStruct "voltha.Device")))]
  else if decide (n = "voltha.Device") then
    [mkField "Id" "id" (TBasic "string"); mkField "Address" "" (TInterface "voltha.isDevice_Address");
     mkField "ProxyAddress" "proxy_address" (TPtr (TStruct "voltha.Device_ProxyAddress"));
     mkField "Ports" "ports" (TSlice (TPtr (TStruct "voltha.Port"))); mkField "Flows" "flows" (TPtr (TStruct "openflow_13.Flows"))]
  else if decide (n = "voltha.Device_ProxyAddress") then
    [mkField "DeviceId" "device_id" (TBasic "string"); mkField "ChannelId" "channel_id" (TBasic "uint32")]
  else if decide (n = "voltha.Port") then
    [mkField "PortNo" "port_no" (TBasic "uint32"); mkField "Label" "label" (TBasic "string")]
  else [].
Definition sample_descriptors (n : string) : list FieldDescriptor :=
  if decide (n = "voltha.Voltha") then [mkDescriptor "version" false None; mkDescriptor "devices" true (Some "id")]
  else if decide (n = "voltha.Device") then
    [mkDescriptor "id" false None; mkDescriptor "ports" true (Some "port_no"); mkDescriptor "flows" false (Some "")]
  else [].
Definition sample_children (n : string) : gmap string ReflectedChild :=
  if decide (n = "voltha.Voltha") then
    insert_all [(mkDescriptor "devices" true (Some "id"), mkReflected (TPtr (TStruct "voltha.Device")) true "id" (Some KeyString))] ∅
  else
    insert_all [(mkDescriptor "ports" true (Some "port_no"), mkReflected (TPtr (TStruct "voltha.Port")) true "port_no" (key_from_str "uint32"));
                (mkDescriptor "flows" false (Some ""), mkReflected (TPtr (TStruct "openflow_13.Flows")) false "" None)] ∅.

(** The fields before are looked through; their types are not deep. *)
Ltac absent_tac :=
  repeat (first [apply absent_basic | apply absent_interface | apply absent_ptr
    | apply absent_slice; intros ?; try done
    | apply absent_struct; let f := fresh in let Hf := fresh in intros f Hf; simpl in Hf;
      rewrite ?elem_of_cons ?elem_of_nil in Hf; destruct_or? Hf; subst; try done; simpl]).
Ltac before_tac :=
  let g := fresh in let Hg := fresh in intros g Hg; simpl in Hg; rewrite ?elem_of_cons ?elem_of_nil in Hg;
  destruct_or? Hg; subst; try done; (split; [done | simpl; absent_tac]).
Ltac declared_tac before :=
  exists before; eexists _, _; split; [reflexivity|]; split; [done|]; split; [reflexivity | before_tac].

Lemma sample_voltha : declared_children sample_types sample_descriptors "voltha.Voltha" (sample_children "voltha.Voltha").
Proof.
  eexists. split; [|split; [|reflexivity]]; [done|]. apply Forall_singleton. simpl.
  eexists "id", _, _. split; [done|]. split; [declared_tac (take 2 (sample_types "voltha.Voltha"))|]. split; [reflexivity|].
  do 3 (split; [done|]). right. split; [done|]. exists "voltha.Device", (TBasic "string"). split; [by left|].
  split; [|done]. declared_tac (@nil StructField).
Qed.
Lemma sample_device : declared_children sample_types sample_descriptors "voltha.Device" (sample_children "voltha.Device").
Proof.
  eexists. split; [|split; [|reflexivity]]; [done|]. apply Forall_cons. split; [|apply Forall_singleton]; simpl.
  - eexists "port_no", _, _. split; [done|]. split; [declared_tac (take 3 (sample_types "voltha.Device"))|]. split; [reflexivity|].
    do 3 (split; [done|]). right. split; [done|]. exists "voltha.Port", (TBasic "uint32"). split; [by left|].
    split; [|done]. declared_tac (@nil StructField).
  - eexists "", _, _. split; [done|]. split; [declared_tac (take 4 (sample_types "voltha.Device"))|]. split; [reflexivity|].
    do 3 (split; [done|]). by left.
Qed.

Definition sample_message : GoValue :=
  VPtr (TStruct "voltha.Voltha") (VStruct "voltha.Voltha"
    [VBasic "string" "v2"; VZero (TSlice (TPtr (TStruct "voltha.LogicalDevice")));
     VSlice (TPtr (TStruct "voltha.Device")) [VPtr (TStruct "voltha.Device") (VZero (TStruct "voltha.Device"))]]).

Lemma children_fields_correct_witness : ∃ fuel cache,
  children_of_calls sample_types sample_descriptors fuel
    [sample_message; VZero (TPtr (TStruct "voltha.Device")); VZero (TPtr (TStruct "voltha.Voltha"))] ∅ =
  (Ok [sample_children "voltha.Voltha"; sample_children "voltha.Device"; sample_children "voltha.Voltha"], cache).
Proof.
  destruct (children_fields_correct sample_types sample_descriptors sample_children
    [("voltha.Voltha", sample_message); ("voltha.Device", VZero (TPtr (TStruct "voltha.Device")));
     ("voltha.Voltha", VZero (TPtr (TStruct "voltha.Voltha")))]) as [F HF].
  - intros struct cls Hin. rewrite !elem_of_cons elem_of_nil in Hin. destruct Hin as [Hin|[Hin|[Hin|[]]]]; injection Hin as -> ->;
      (split; [done|]); [apply sample_voltha | apply sample_device | apply sample_voltha].
  - exists F. apply (HF F). lia.
Defined.

(** A field of a nested message comes before a later field of the message with the
    same name. *)
Example nested_name_first :
  FindOwnerType (λ n, if decide (n = "Outer") then [mkField "Inner" "inner" (TPtr (TStruct "Inner")); mkField "Items" "items" (TSlice (TPtr (TStruct "A")))]
                      else [mkField "Items" "items" (TSlice (TPtr (TStruct "B")))])
    5 (VZero (TPtr (TStruct "Outer"))) "items" false = Some (Some (TPtr (TStruct "B"))).
Proof. reflexivity. Qed.

(** An attribute of a message, and one that is not there. *)
Example version_attribute :
  GetAttributeValue sample_types 5 (Some sample_message) "version" = Some (Some ("Version", VBasic "string" "v2")) ∧
  GetAttributeValue sample_types 7 (Some sample_message) "serial" = Some None.
Proof. split; reflexivity. Qed.

(** A number that is out of range is cut off, then truncated. *)
Example key_overflow : (λ f, f "99999999999999999999") <$> key_from_str "int32" = Some (KeyNumber "-1").
Proof. vm_compute. reflexivity. Qed.
