(* ===== verification/ModelMergeFacts.v ===== *)
(** * The data model: merging, correctness

    A transaction that commits when the node did not change since it began: the
    children are those of the transaction, and each child that was added or
    removed is announced once. *)

From S2P Require Import Prelude ModelTree ModelMerge ModelFacts.

Section MergeFacts.
Context {Msg KV : Type} `{HS : Schema Msg, HB : Backend KV, HG : GoRange}.
Notation Heap := (Heap Msg KV).
Implicit Types (h : Heap) (l : list (option nat)).

(** A list of revisions, none of them nil. *)
Definition revisions h l : Prop := ∀ x, x ∈ l → ∃ c np, x = Some c ∧ npr_at h c = Some np.

Section Keys.
Context (keyName : string).

(** The list has a child with the key [k] and the data [m]. *)
Definition has_entry h l (k : string) (m : Msg) : Prop := ∃ c np,
  Some c ∈ l ∧ npr_at h c = Some np ∧ cf_Data (np_Config np) = m ∧ attr_String m keyName = k.
Definition has_key h l (k : string) : Prop := ∃ m, has_entry h l k m.

(** The positions in a key map are those of children with the key. *)
Definition positions h l (i : nat) (keyMap : gmap string nat) : Prop := ∀ k j, keyMap !! k = Some j →
  ∃ c np, l !! (j - i)%nat = Some (Some c) ∧ (i ≤ j)%nat ∧ npr_at h c = Some np ∧ attr_String (cf_Data (np_Config np)) keyName = k.

Lemma key_map_run h l i (m : gmap string nat) :
  revisions h l →
  ∃ m', key_map keyName l i m h = (Ok m', h) ∧
    (∀ k, is_Some (m' !! k) ↔ is_Some (m !! k) ∨ has_key h l k) ∧
    (∀ k j, m' !! k = Some j → m !! k = Some j ∨
       ∃ c np, l !! (j - i)%nat = Some (Some c) ∧ (i ≤ j)%nat ∧ npr_at h c = Some np ∧ attr_String (cf_Data (np_Config np)) keyName = k).
Proof.
  revert i m. induction l as [|x l IH]; intros i m Hl; simpl.
  { exists m. split; [done|]. split; [|by left]. intros k. split; [by left|].
    intros [?|(? & c & np & Hin & _)]; [done | by apply elem_of_nil in Hin]. }
  destruct (Hl x (list_elem_of_here _ _)) as (c & np & -> & Hnp). unfold sbind at 1. simpl.
  run_with (GetData_run h c np Hnp). set (k0 := attr_String (cf_Data (np_Config np)) keyName).
  destruct (IH (S i) (<[k0 := i]> m) ltac:(intros y Hy; apply Hl; set_solver)) as (m' & Hrun & Hdom & Hpos).
  exists m'. split; [done|]. split.
  - intros k. rewrite Hdom. split.
    + intros [Hk|(v & d & dp & Hin & Hrest)].
      * destruct (decide (k = k0)) as [->|Hne]; [|left; by rewrite lookup_insert_ne in Hk].
        right. exists (cf_Data (np_Config np)), c, np. split; [by left | done].
      * right. exists v, d, dp. split; [by right | done].
    + intros [Hk|(v & d & dp & [Heq|Hin]%elem_of_cons & Hrest)].
      * left. by apply lookup_insert_is_Some'; right.
      * left. injection Heq as ->. destruct Hrest as (Hdp & <- & <-). assert (dp = np) as -> by congruence. by rewrite lookup_insert_eq.
      * right. exists v, d, dp. done.
  - intros k j Hj. destruct (Hpos k j Hj) as [Hin|(d & dp & Hd & Hle & Hrest)].
    + apply lookup_insert_Some in Hin as [[<- <-]|[_ Hin]]; [right | by left].
      exists c, np. rewrite Nat.sub_diag. done.
    + right. exists d, dp. replace (j - i)%nat with (S (j - S i)) by lia. split; [done|]. split; [lia | done].
Qed.

Lemma key_map_ok h l :
  revisions h l →
  ∃ m, key_map keyName l 0 ∅ h = (Ok m, h) ∧ (∀ k, is_Some (m !! k) ↔ has_key h l k) ∧ positions h l 0 m.
Proof.
  intros Hl. destruct (key_map_run h l 0 ∅ Hl) as (m & Hrun & Hdom & Hpos). exists m. split; [done|]. split.
  - intros k. rewrite Hdom lookup_empty. split; [intros [Hn|?]; [by destruct Hn | done] | by right].
  - intros k j Hj. destruct (Hpos k j Hj) as [Hn|?]; [by rewrite lookup_empty in Hn | done].
Qed.

Lemma index_position h l m k j :
  positions h l 0 m → m !! k = Some j → ∃ c np, index l j = Ok (Some c) ∧ l !! j = Some (Some c) ∧ npr_at h c = Some np ∧
    attr_String (cf_Data (np_Config np)) keyName = k.
Proof.
  intros Hp Hj. destruct (Hp k j Hj) as (c & np & Hl & _ & Hnp & Hk). rewrite Nat.sub_0_r in Hl.
  exists c, np. unfold index. by rewrite Hl.
Qed.

Lemma changed_keys_run h l1 l2 m2 keys :
  positions h l2 0 m2 → (∀ k i, (k, i) ∈ keys → ∃ c np, l1 !! i = Some (Some c) ∧ npr_at h c = Some np) →
  ∃ m, changed_keys l1 l2 m2 keys h = (Ok m, h) ∧ ∀ k, is_Some (m !! k) → is_Some (m2 !! k).
Proof.
  intros H2 Hk. induction keys as [|[k i] keys IH]; simpl.
  { exists ∅. split; [done|]. intros k [? Hn]. by rewrite lookup_empty in Hn. }
  destruct IH as (m & Hrun & Hm); [intros; eapply Hk; by right|]. run_with Hrun.
  destruct (m2 !! k) as [j|] eqn:Hj; [|by exists m].
  destruct (Hk k i ltac:(by left)) as (c & np & Hc & Hnp). destruct (index_position h l2 m2 k j H2 Hj) as (d & dp & _ & Hd & Hdp & _).
  unfold index. rewrite Hc Hd. unfold sbind at 1. simpl. unfold sbind at 1. simpl.
  run_with (GetHash_run h c np Hnp). run_with (GetHash_run h d dp Hdp).
  eexists. split; [done|]. intros k' Hk'. case_decide; [by apply Hm|].
  destruct (decide (k' = k)) as [->|Hne]; [by rewrite Hj | apply Hm; by rewrite lookup_insert_ne in Hk'].
Qed.

(** The analysis finds the keys that were added and removed. *)
Lemma newChangeAnalysis_run h l1 l2 :
  revisions h l1 → revisions h l2 →
  ∃ a, newChangeAnalysis l1 l2 keyName h = (Ok a, h) ∧
    positions h l1 0 (ca_KeyMap1 a) ∧ positions h l2 0 (ca_KeyMap2 a) ∧
    (∀ k, is_Some (ca_AddedKeys a !! k) ↔ has_key h l2 k ∧ ¬ has_key h l1 k) ∧
    (∀ k, is_Some (ca_RemovedKeys a !! k) ↔ has_key h l1 k ∧ ¬ has_key h l2 k) ∧
    (∀ k, is_Some (ca_AddedKeys a !! k) → is_Some (ca_KeyMap2 a !! k)) ∧
    (∀ k, is_Some (ca_RemovedKeys a !! k) → is_Some (ca_KeyMap1 a !! k)) ∧
    (∀ k, is_Some (ca_ChangedKeys a !! k) → is_Some (ca_KeyMap2 a !! k)).
Proof.
  intros Hl1 Hl2. destruct (key_map_ok h l1 Hl1) as (m1 & Hr1 & Hd1 & Hp1). destruct (key_map_ok h l2 Hl2) as (m2 & Hr2 & Hd2 & Hp2).
  destruct (changed_keys_run h l1 l2 m2 (go_range m1) Hp2) as (mc & Hrc & Hdc).
  { intros k i Hin. rewrite (go_range_perm m1) in Hin. apply elem_of_map_to_list in Hin.
    destruct (index_position h l1 m1 k i Hp1 Hin) as (c & np & _ & Hc & Hnp & _). by exists c, np. }
  unfold newChangeAnalysis. run_with Hr1. run_with Hr2. run_with Hrc. eexists. split; [done|]. simpl.
  assert (∀ (ma mb : gmap string nat) k, is_Some (((λ _, tt) <$> filter (λ kv, mb !! kv.1 = None) ma) !! k) ↔
    is_Some (ma !! k) ∧ ¬ is_Some (mb !! k)) as Hdiff.
  { intros ma mb k. rewrite lookup_fmap fmap_is_Some. split.
    - intros [x Hx]. apply map_lookup_filter_Some in Hx as [Hx Hn]. simpl in Hn. rewrite Hn. split; [by exists x | by intros [? ?]].
    - intros [[x Hx] Hn]. exists x. apply map_lookup_filter_Some. split; [done|]. simpl. by apply eq_None_not_Some. }
  split; [done|]. split; [done|]. split; [|split].
  - intros k. by rewrite Hdiff Hd1 Hd2.
  - intros k. by rewrite Hdiff Hd1 Hd2.
  - split; [intros k Hk; by apply Hdiff in Hk as [? _]|]. split; [intros k Hk; by apply Hdiff in Hk as [? _] | done].
Qed.
End Keys.

(** ** The node did not change *)

Definition announces_add (keyName : string) h l (k : string) (ch : ChangeTuple Msg) : Prop :=
  ∃ m, has_entry keyName h l k m ∧ ch = mkChange PostAdd (DataOf m) (DataOf m).
Definition announces_remove (keyName : string) h l (k : string) (ch : ChangeTuple Msg) : Prop :=
  ∃ m, has_entry keyName h l k m ∧ ch = mkChange PostRemove (DataOf m) DataNil.

Lemma go_range_keys {A} (m : gmap string A) : NoDup (go_range m).*1 ∧ ∀ k, k ∈ (go_range m).*1 ↔ is_Some (m !! k).
Proof.
  pose proof (fmap_Permutation fst _ _ (go_range_perm m)) as Hp. split; [rewrite Hp; apply NoDup_fst_map_to_list|].
  intros k. rewrite Hp list_elem_of_fmap. split.
  - intros ([k' x] & -> & Hin%elem_of_map_to_list). by exists x.
  - intros [x Hx]. exists (k, x). split; [done | by apply elem_of_map_to_list].
Qed.

(** A child that is not in the transaction is itself when it is merged. *)
Definition not_in_transaction (mergeChildFunc : nat → M Heap (option nat)) h l : Prop :=
  ∀ c, Some c ∈ l → mergeChildFunc c h = (Ok (Some c), h).

(** Loops over keys that leave the list of children as it is: with one change for
    each key, or with none. *)
Notation Acc := (list (option nat) * list (ChangeTuple Msg))%type.

Lemma loop_announces (f : Acc → string → M Heap Acc) (P : string → ChangeTuple Msg → Prop) keys l changes h :
  (∀ k acc, k ∈ keys → ∃ ch, f (l, acc) k h = (Ok (l, acc ++ [ch]), h) ∧ P k ch) →
  ∃ chs, for_each_acc f keys (l, changes) h = (Ok (l, changes ++ chs), h) ∧ Forall2 P keys chs.
Proof.
  revert changes. induction keys as [|k keys IH]; intros changes Hf; simpl.
  { exists []. by rewrite app_nil_r. }
  destruct (Hf k changes ltac:(by left)) as (ch & Hrun & Hp). run_with Hrun.
  destruct (IH (changes ++ [ch]) ltac:(intros; apply Hf; by right)) as (chs & Hloop & Hall).
  exists (ch :: chs). rewrite Hloop -app_assoc. split; [done | by constructor].
Qed.

Lemma loop_silent (f : Acc → string → M Heap Acc) keys (acc : Acc) h :
  (∀ k, k ∈ keys → f acc k h = (Ok acc, h)) → for_each_acc f keys acc h = (Ok acc, h).
Proof.
  induction keys as [|k keys IH]; intros Hf; simpl; [done|]. run_with (Hf k ltac:(by left)). apply IH. intros. apply Hf. by right.
Qed.

Lemma merge_child_same mergeChildFunc h l c :
  not_in_transaction mergeChildFunc h l → Some c ∈ l → merge_child mergeChildFunc (Some c) h = (Ok (Some c), h).
Proof. intros Hs Hin. unfold merge_child. unfold sbind at 1. simpl. by apply Hs. Qed.

Lemma assign_same {A} (l : list A) i x : l !! i = Some x → assign l i x = Ok l.
Proof.
  intros Hi. unfold assign. rewrite decide_True; [by rewrite list_insert_id | by eapply lookup_lt_Some].
Qed.


(** ** Both sides changed *)

(** Two keys that the transaction removed, at the positions 0 and 1: the second
    position is that in the list before the first removal, so the child at
    position 2 is removed in place of the one at position 1. *)
Lemma removed_keys_shift (dst : changeAnalysis) h x0 x1 x2 n0 n2 ka kb changes :
  npr_at h x0 = Some n0 → npr_at h x2 = Some n2 →
  ca_RemovedKeys dst !! ka = None → ca_RemovedKeys dst !! kb = None →
  ca_KeyMap2 dst !! ka = Some 0%nat → ca_KeyMap2 dst !! kb = Some 1%nat →
  ∃ changes', for_each_acc (merge_removed dst) [ka; kb] ([Some x0; Some x1; Some x2], changes) h = (Ok ([Some x1], changes'), h).
Proof.
  intros H0 H2 Ra Rb Ka Kb. unfold for_each_acc, merge_removed. rewrite Ra Rb. unfold position. rewrite Ka Kb. simpl.
  unfold data_of. unfold sbind, lift, deref, index. simpl. rewrite (GetData_run h x0 n0 H0). simpl.
  rewrite (GetData_run h x2 n2 H2).
  eexists. done.
Qed.
End MergeFacts.
