(* ===== verification/ModelPaths.v ===== *)
(** * The data model: paths, and what a change leaves as it was

    The paths of the containers of a node and of their entries; and [beside], what
    holds of a change of a container for all the other containers of the node: their
    children, the nodes of their entries and what the cache has of them are the
    same. *)

From S2P Require Import Prelude ModelTree ModelMerge ModelNode ModelRoot ModelFacts.

(** ** Paths *)

(** A part of a path. *)
Definition segment (s : string) : Prop := s ≠ EmptyString ∧ has_slash s = false.

Lemma SplitN_cons c s a b : c ≠ "/"%char → SplitN s = (a, b) → SplitN (String c s) = (String c a, b).
Proof.
  intros Hc Hs. destruct c as [[] [] [] [] [] [] [] []]; simpl; rewrite ?Hs; try reflexivity.
  by destruct Hc.
Qed.

Lemma SplitN_plain s : has_slash s = false → SplitN s = (s, EmptyString).
Proof.
  induction s as [|c s IH]; [done|]. simpl. intros [Hc Hs]%orb_false_iff. apply bool_decide_eq_false in Hc.
  by apply SplitN_cons; [|apply IH].
Qed.

Lemma SplitN_join s t : has_slash s = false → SplitN (s +:+ "/" +:+ t) = (s, t).
Proof.
  induction s as [|c s IH]; [done|]. simpl. intros [Hc Hs]%orb_false_iff. apply bool_decide_eq_false in Hc.
  change (String c s +:+ "/" +:+ t) with (String c (s +:+ "/" +:+ t)).
  by apply SplitN_cons; [|apply IH].
Qed.

Lemma trim_cons c s : c ≠ "/"%char → trim_slashes (String c s) = String c s.
Proof. intros Hc. destruct c as [[] [] [] [] [] [] [] []]; try reflexivity. by destruct Hc. Qed.

Lemma trim_segment s t : segment s → trim_slashes (s +:+ t) = s +:+ t.
Proof.
  intros [Hne Hs]. destruct s as [|c s]; [done|]. simpl in Hs. apply orb_false_iff in Hs as [Hc _].
  apply bool_decide_eq_false in Hc. by apply trim_cons.
Qed.

Lemma join_ne s t : segment s → s +:+ t ≠ EmptyString.
Proof. intros [Hne _]. by destruct s. Qed.

Lemma append_empty s : s +:+ EmptyString = s.
Proof. induction s as [|c s IH]; [done|]. change (String c (s +:+ EmptyString) = String c s). by rewrite IH. Qed.

Lemma app_inj s t u : s +:+ t = s +:+ u → t = u.
Proof. induction s as [|c s IH]; [done|]. intros [= Heq]. by apply IH. Qed.

(** The paths of a container and of an entry of it. *)
Definition folder_path (name : string) : string := "/" +:+ name.
Definition entry_name (name k : string) : string := name +:+ "/" +:+ k.
Definition entry_path (name k : string) : string := "/" +:+ entry_name name k.

Lemma trim_folder name : segment name → trim_slashes (folder_path name) = name.
Proof.
  intros Hn. change (trim_slashes (folder_path name)) with (trim_slashes name).
  pose proof (trim_segment name EmptyString Hn) as Ht. by rewrite append_empty in Ht.
Qed.
Lemma trim_entry name k : segment name → trim_slashes (entry_path name k) = entry_name name k.
Proof. intros Hn. exact (trim_segment name ("/" +:+ k) Hn). Qed.

(** The entries of two containers have different names. *)
Lemma entry_name_apart name name' k k' :
  has_slash name = false → has_slash name' = false → entry_name name k = entry_name name' k' → name = name'.
Proof.
  intros Hn Hn' Heq. pose proof (SplitN_join name k Hn) as H1. pose proof (SplitN_join name' k' Hn') as H2.
  unfold entry_name in Heq. congruence.
Qed.

(** ** The other containers *)

Section Beside.
Context {Msg KV : Type} `{HS : Schema Msg, HB : Backend KV, HG : GoRange}.
Notation Heap := (Heap Msg KV).
Notation NPR := (NonPersistedRevision Msg).
Implicit Types (h : Heap) (np : NPR).

Lemma latest_npr_at h h' b' l' p np : latest_set h h' b' l' → hp_nprs h' = hp_nprs h → npr_at h p = Some np → npr_at h' p = Some np.
Proof. intros Hs Hn. unfold npr_at. by rewrite (ls_revs _ _ _ _ Hs) Hn. Qed.


(** [b] is the branch of the node without a transaction, [name] the container that
    changes. *)
Context (b : nat) (name : string).

(** No entry of the container has this name. *)
Definition other_name (s : string) : Prop := ∀ k, s ≠ entry_name name k.

(** The latest revision of the branch is that of an entry of another container. *)
Definition other_branch h (x : nat) (br : Branch) : Prop := x ≠ b ∧ hp_branches h !! x = Some br ∧
  ∃ e en, br_Latest br = Some e ∧ npr_at h e = Some en ∧ other_name (np_Name en).

(** The revisions of the node have the same children in the other containers. *)
Definition same_others np np' : Prop :=
  np_Name np' = np_Name np ∧ np_Branch np' = np_Branch np ∧
  ∀ s, s ≠ name → default [] (children_of np' s) = default [] (children_of np s).

Record beside h h' : Prop := mkBeside {
  bs_ok : heap_ok h → heap_ok h';
  bs_npr : ∀ p np, npr_at h p = Some np → ∃ np', npr_at h' p = Some np' ∧ np_Config np' = np_Config np ∧
    np_Name np' = np_Name np ∧ np_Branch np' = np_Branch np;
  bs_latest : ∀ br l nl, hp_branches h !! b = Some br → br_Latest br = Some l → npr_at h l = Some nl →
    ∃ br' l' nl', hp_branches h' !! b = Some br' ∧ br_Txid br' = br_Txid br ∧ br_Latest br' = Some l' ∧
      npr_at h' l' = Some nl' ∧ same_others nl nl';
  bs_branches : ∀ x br, other_branch h x br → hp_branches h' !! x = Some br;
  bs_nodes : ∀ x nd, hp_nodes h !! x = Some nd → ∃ nd', hp_nodes h' !! x = Some nd' ∧ nd_Type nd' = nd_Type nd ∧
    nd_Branches nd' = nd_Branches nd ∧ (nd_Proxy nd' = nd_Proxy nd ∨ ∀ p, nd_Proxy nd' = Some p → is_Some (hp_proxies h' !! p));
  bs_proxies : ∀ p, is_Some (hp_proxies h !! p) → is_Some (hp_proxies h' !! p);
  bs_cache : ∀ s, other_name s → hp_cache h' !! s = hp_cache h !! s }.

Lemma same_others_trans np1 np2 np3 : same_others np1 np2 → same_others np2 np3 → same_others np1 np3.
Proof.
  intros (A1 & A2 & A3) (B1 & B2 & B3). split; [congruence|]. split; [congruence|].
  intros s Hs. by rewrite B3 // A3.
Qed.

(** The nodes are the same. *)
Lemma same_nodes h h' : hp_nodes h ⊆ hp_nodes h' → ∀ x nd, hp_nodes h !! x = Some nd →
  ∃ nd', hp_nodes h' !! x = Some nd' ∧ nd_Type nd' = nd_Type nd ∧ nd_Branches nd' = nd_Branches nd ∧
    (nd_Proxy nd' = nd_Proxy nd ∨ ∀ p, nd_Proxy nd' = Some p → is_Some (hp_proxies h' !! p)).
Proof. intros Hn x nd Hx. exists nd. split; [by eapply lookup_weaken|]. split; [done|]. split; [done | by left]. Qed.

#[export] Instance beside_refl : Reflexive beside.
Proof.
  intros h. split; try done.
  - intros p np Hp. by exists np.
  - intros br l nl Hb Hl Hnl. by exists br, l, nl.
  - by intros x br (_ & Hx & _).
  - by apply same_nodes.
Qed.

#[export] Instance beside_trans : Transitive beside.
Proof.
  intros h1 h2 h3 [A1 A2 A3 A4 A5 A6 A7] [B1 B2 B3 B4 B5 B6 B7]. split; [by auto | | | | | by auto |].
  - intros p np Hp. destruct (A2 p np Hp) as (np2 & Hp2 & ? & ? & ?). destruct (B2 p np2 Hp2) as (np3 & Hp3 & ? & ? & ?).
    exists np3. split; [done|]. repeat split; congruence.
  - intros br l nl Hb Hl Hnl. destruct (A3 br l nl Hb Hl Hnl) as (br2 & l2 & nl2 & Hb2 & Ht2 & Hl2 & Hnl2 & S2).
    destruct (B3 br2 l2 nl2 Hb2 Hl2 Hnl2) as (br3 & l3 & nl3 & Hb3 & Ht3 & Hl3 & Hnl3 & S3).
    exists br3, l3, nl3. split; [done|]. split; [congruence|]. do 2 (split; [done|]). by eapply same_others_trans.
  - intros x br Hx. pose proof (A4 x br Hx) as Hx2. apply B4. destruct Hx as (Hne & _ & e & en & He & Hen & Hname).
    destruct (A2 e en Hen) as (en2 & Hen2 & _ & En & _). split; [done|]. split; [done|]. exists e, en2. by rewrite En.
  - intros x nd Hx. destruct (A5 x nd Hx) as (nd2 & Hx2 & T2 & N2 & P2). destruct (B5 x nd2 Hx2) as (nd3 & Hx3 & T3 & N3 & P3).
    exists nd3. split; [done|]. split; [congruence|]. split; [congruence|].
    destruct P3 as [->|P3]; [|by right]. destruct P2 as [->|P2]; [by left | right]. intros p Hp. by apply B6, P2.
  - intros s Hs. by rewrite B7 // A7.
Qed.

(** The changes that a container is changed with. *)
Lemma beside_grows h h' : heap_ok h' → grows h h' → beside h h'.
Proof.
  intros Hok Hg. pose proof Hg as [G1 G2 G3 G4 G5 G6 G7]. injection G7 as E1 _ E3 _ _ _. split; try done.
  - intros p np Hp. exists np. split; [by eapply grows_npr_at | done].
  - intros br l nl Hb Hl Hnl. exists br, l, nl. split; [by eapply lookup_weaken|]. split; [done|].
    split; [done|]. split; [by eapply grows_npr_at | done].
  - intros x br (_ & Hx & _). by eapply lookup_weaken.
  - by apply same_nodes.
  - intros p. by rewrite E1.
  - intros s _. by rewrite E3.
Qed.

(** The latest revision is [q], which has the children of the previous one in the
    other containers. *)
Lemma beside_latest h h' br l nl q qn :
  latest_set h h' b q → hp_nprs h' = hp_nprs h → hp_cache h' = hp_cache h →
  hp_branches h !! b = Some br → br_Latest br = Some l → npr_at h l = Some nl → npr_at h q = Some qn →
  same_others nl qn → beside h h'.
Proof.
  intros Hs Hnp Hca Hbr Hl Hnl Hq Hsame. pose proof (ls_rest _ _ _ _ Hs) as Hrest. injection Hrest as E1 _ _ _ _ _.
  split.
  - intros _. exact (ls_ok _ _ _ _ Hs).
  - intros p np Hp. exists np. split; [by eapply latest_npr_at | done].
  - intros br0 l0 nl0 Hb0 Hl0 Hnl0. assert (br0 = br) as -> by congruence. assert (l0 = l) as -> by congruence.
    assert (nl0 = nl) as -> by congruence. destruct (ls_branch _ _ _ _ Hs br Hbr) as (br' & Hb' & _ & Ht & Hl').
    exists br', q, qn. do 3 (split; [done|]). split; [by eapply latest_npr_at | done].
  - intros x y (Hne & Hx & _). by rewrite (ls_others _ _ _ _ Hs).
  - apply same_nodes. by rewrite (ls_nodes _ _ _ _ Hs).
  - intros p. by rewrite E1.
  - intros s _. by rewrite Hca.
Qed.

(** An update of an entry: its node has a new revision, which is the latest one and
    in the cache. *)
Lemma beside_updated h h1 h2 x cb c cn q k :
  grows h h1 → latest_set h1 h2 x q → x ≠ b → hp_branches h !! x = Some cb → br_Latest cb = Some c →
  npr_at h c = Some cn → np_Name cn = entry_name name k →
  (∀ p np, npr_at h p = Some np → npr_at h2 p = Some np) →
  hp_cache h2 = <[entry_name name k := q]> (hp_cache h) → beside h h2.
Proof.
  intros Hg Hs Hxb Hcb Hlc Hcn Hname Hnp Hca. pose proof (ls_rest _ _ _ _ Hs) as Hrest. injection Hrest as E1 _ _ _ _ _.
  pose proof (gr_rest _ _ Hg) as Hrest. injection Hrest as F1 _ _ _ _ _.
  split.
  - intros _. exact (ls_ok _ _ _ _ Hs).
  - intros p np Hp. exists np. split; [by apply Hnp | done].
  - intros br l nl Hb Hl Hnl. exists br, l, nl.
    split; [rewrite (ls_others _ _ _ _ Hs); [|done]; exact (lookup_weaken _ _ _ _ Hb (gr_branches _ _ Hg))|].
    do 2 (split; [done|]). split; [by apply Hnp | done].
  - intros y br (_ & Hy & e & en & He & Hen & Hother).
    rewrite (ls_others _ _ _ _ Hs); [exact (lookup_weaken _ _ _ _ Hy (gr_branches _ _ Hg))|]. intros ->.
    apply (Hother k). congruence.
  - apply same_nodes. rewrite (ls_nodes _ _ _ _ Hs). exact (gr_nodes _ _ Hg).
  - intros p. by rewrite E1 F1.
  - intros s Hs'. rewrite Hca lookup_insert_ne; [done|]. intros <-. by eapply Hs'.
Qed.

(** The latest revision lost a child of the container. *)
Lemma beside_removed h h' br l nl nl' k :
  heap_ok h' → (∀ p np, npr_at h p = Some np → ∃ np', npr_at h' p = Some np' ∧ np_Config np' = np_Config np ∧
     np_Name np' = np_Name np ∧ np_Branch np' = np_Branch np) →
  hp_branches h !! b = Some br → br_Latest br = Some l → npr_at h l = Some nl → npr_at h' l = Some nl' → same_others nl nl' →
  hp_branches h' = hp_branches h → hp_nodes h' = hp_nodes h → hp_proxies h' = hp_proxies h →
  hp_cache h' = delete (entry_name name k) (hp_cache h) → beside h h'.
Proof.
  intros Hok Hnp Hbr Hl Hnl Hnl' Hsame E1 E2 E3 E4. split; try done.
  - intros br0 l0 nl0 Hb0 Hl0 Hnl0. exists br, l, nl'. rewrite E1. assert (br0 = br) as -> by congruence.
    assert (l0 = l) as -> by congruence. assert (nl0 = nl) as -> by congruence. done.
  - intros x y (_ & Hx & _). by rewrite E1.
  - apply same_nodes. by rewrite E2.
  - intros p. by rewrite E3.
  - intros s Hs. rewrite E4 lookup_delete_ne; [done|]. intros <-. by eapply Hs.
Qed.

(** A node has another proxy, which exists. *)
Lemma beside_proxy h node nd nd' :
  heap_ok h → hp_nodes h !! node = Some nd → nd_Root nd' = nd_Root nd → nd_Type nd' = nd_Type nd → nd_Branches nd' = nd_Branches nd →
  (∀ p, nd_Proxy nd' = Some p → is_Some (hp_proxies h !! p)) → beside h (set_nodes (<[node := nd']> (hp_nodes h)) h).
Proof.
  intros Hok Hn E1 E2 E3 Hp. split; try done.
  - intros _. by apply (put_node_ok h node nd nd').
  - intros p np Hnp. by exists np.
  - intros br l nl Hb Hl Hnl. by exists br, l, nl.
  - by intros x br (_ & Hx & _).
  - intros x y Hx. simpl. destruct (decide (x = node)) as [->|Hne].
    + exists nd'. rewrite lookup_insert_eq. assert (y = nd) as -> by congruence. do 3 (split; [done|]). by right.
    + exists y. rewrite lookup_insert_ne; [|done]. do 3 (split; [done|]). by left.
Qed.

Lemma default_append_nil s : default [] (append_nil s) = default [] s.
Proof. unfold append_nil. by destruct (default [] s). Qed.

(** The children are copied and one container replaced. *)
Lemma same_others_children nl qn cs :
  np_Name qn = np_Name nl → np_Branch qn = np_Branch nl →
  np_Children qn = <[name := cs]> (copy_children (np_Children nl)) → same_others nl qn.
Proof.
  intros E1 E2 E3. split; [done|]. split; [done|]. intros s Hs. unfold children_of, copy_children.
  rewrite E3 lookup_insert_ne; [|done]. rewrite lookup_fmap. destruct (np_Children nl !! s) as [t|]; [|done].
  apply default_append_nil.
Qed.
End Beside.
