(* ===== verification/ModelTable.v ===== *)
(** * The data model: children of a node as a table

    The children of a node, by their keys, are a table: adding, updating and
    removing through the tree of revisions is what it is on the table, and
    reading gives the entry of the table. *)

From S2P Require Import Prelude ModelTree ModelMerge ModelNode ModelRoot ModelFacts ModelPaths.

Section Table.
Context {Msg KV : Type} `{HS : Schema Msg, HB : Backend KV, HG : GoRange}.
Notation Heap := (Heap Msg KV).
Notation NPR := (NonPersistedRevision Msg).
Notation Table := (list (string * Msg)).
Implicit Types (h : Heap) (tbl : Table).

(** The container [name] of the node [n], whose entries have the attribute [key],
    a string, and the type [ct]; [b] is the branch without a transaction. *)
Context (n b : nat) (name key ct : string).
Notation beside := (beside b name).

(** The message [m] has the key [k]. *)
Definition key_of (m : Msg) (k : string) : Prop := attr_String m key = k ∧ attr_Sprintf m key = k.

(** The revision [c] is that of an entry: it is the latest one of a node. *)
Definition child_of h (c : nat) (km : string * Msg) : Prop := ∃ cn cb nd,
  npr_at h c = Some cn ∧ cf_Data (np_Config cn) = km.2 ∧ np_Name cn = entry_name name km.1 ∧ np_Branch cn ≠ b ∧
  hp_branches h !! np_Branch cn = Some cb ∧ br_Txid cb = EmptyString ∧ br_Latest cb = Some c ∧
  hp_nodes h !! br_Node cb = Some nd ∧ nd_Branches nd !! NONE = Some (np_Branch cn) ∧ msg_type (nd_Type nd) = ct ∧
  key_of km.2 km.1.

(** The latest revision [l] of the node has the children [cs], which are the
    entries of the table [tbl]. *)
Record folder h (l : nat) (cs : list nat) tbl : Prop := mkFolder {
  fd_ok : heap_ok h;
  fd_node : ∃ nd fromStr, hp_nodes h !! n = Some nd ∧ nd_Branches nd !! NONE = Some b ∧
    ChildrenFields (nd_Type nd) !! name = Some (mkChildType ct true key fromStr) ∧ (∀ s, fromStr s = KeyString s) ∧
    (∀ p, nd_Proxy nd = Some p → is_Some (hp_proxies h !! p));
  fd_key : key ≠ EmptyString;
  fd_branch : ∃ br, hp_branches h !! b = Some br ∧ br_Txid br = EmptyString ∧ br_Latest br = Some l;
  fd_latest : ∃ nl, npr_at h l = Some nl ∧ np_Name nl = EmptyString ∧ np_Branch nl = b ∧
    default [] (children_of nl name) = Some <$> cs;
  fd_children : Forall2 (child_of h) cs tbl;
  fd_keys : NoDup tbl.*1;
  fd_cache : ∀ k p, hp_cache h !! entry_name name k = Some p → ∃ m np,
    (k, m) ∈ tbl ∧ npr_at h p = Some np ∧ cf_Data (np_Config np) = m }.

(** *** Entries and other changes of the heap *)

(** Proxies, time and store are the same, and a node keeps its proxy. *)
Record env_like h h' : Prop := mkEnvLike {
  el_roots : roots_like h h';
  el_nodes : ∀ x nd, hp_nodes h !! x = Some nd → ∃ nd', hp_nodes h' !! x = Some nd' ∧ nd_Root nd' = nd_Root nd ∧
    nd_Branches nd' = nd_Branches nd ∧ (nd_Proxy nd ≠ None → nd_Proxy nd' = nd_Proxy nd);
  el_rest : (hp_proxies h', hp_kv h', hp_now h') = (hp_proxies h, hp_kv h, hp_now h) }.

Lemma env_like_trans h1 h2 h3 : env_like h1 h2 → env_like h2 h3 → env_like h1 h3.
Proof.
  intros [A1 A2 A3] [B1 B2 B3]. split; [by etrans | | congruence].
  intros x nd Hx. destruct (A2 x nd Hx) as (nd2 & Hx2 & E2 & F2 & P2). destruct (B2 x nd2 Hx2) as (nd3 & Hx3 & E3 & F3 & P3).
  exists nd3. split; [done|]. split; [congruence|]. split; [congruence|]. intros Hp. rewrite P3; [by apply P2 | by rewrite P2].
Qed.
Lemma env_like_grows h h' : grows h h' → env_like h h'.
Proof.
  intros [G1 G2 G3 G4 G5 G6 G7]. split; [done | | congruence].
  intros x nd Hx. exists nd. split; [by eapply lookup_weaken | done].
Qed.
Lemma env_like_latest h h' b' l' : latest_set h h' b' l' → env_like h h'.
Proof.
  intros [S1 S2 S3 S4 S5 S6 S7 S8]. split; [done | | congruence].
  intros x nd Hx. exists nd. by rewrite S4.
Qed.

Lemma child_of_grows h h' c km : grows h h' → child_of h c km → child_of h' c km.
Proof.
  intros Hg (cn & cb & nd & H1 & H2 & H3 & H4 & H5 & H6 & H7 & H8 & H9). exists cn, cb, nd.
  split; [by eapply grows_npr_at|]. repeat (split; [done|]).
  split; [exact (lookup_weaken _ _ _ _ H5 (gr_branches _ _ Hg))|]. repeat (split; [done|]).
  split; [exact (lookup_weaken _ _ _ _ H8 (gr_nodes _ _ Hg)) | done].
Qed.

Lemma child_of_latest h h' b' l' c km :
  latest_set h h' b' l' → hp_nprs h' = hp_nprs h → (∀ cn, npr_at h c = Some cn → np_Branch cn ≠ b') →
  child_of h c km → child_of h' c km.
Proof.
  intros Hs Hn Hb (cn & cb & nd & H1 & H2 & H3 & H4 & H5 & H6 & H7 & H8 & H9). exists cn, cb, nd.
  split; [by eapply latest_npr_at|]. repeat (split; [done|]).
  split; [rewrite (ls_others _ _ _ _ Hs); [done | by apply Hb]|]. repeat (split; [done|]).
  split; [by rewrite (ls_nodes _ _ _ _ Hs) | done].
Qed.

Lemma child_of_npr h c km : child_of h c km → is_Some (npr_at h c).
Proof. intros (cn & cb & nd & H1 & _). by exists cn. Qed.
Lemma child_of_rev h c km : child_of h c km → is_Some (hp_revs h !! c).
Proof. intros [cn Hcn]%child_of_npr. apply bind_Some in Hcn as (r & Hr & _). by exists r. Qed.
Lemma child_of_name h c km : child_of h c km → name_at h c = entry_name name km.1.
Proof. intros (cn & cb & nd & H1 & _ & H3 & _). unfold name_at. by rewrite H1. Qed.
Lemma child_of_data h c km : child_of h c km → GetData c h = (Ok km.2, h).
Proof. intros (cn & cb & nd & H1 & <- & _). by apply GetData_run. Qed.

Lemma entry_name_inj k k' : entry_name name k = entry_name name k' → k = k'.
Proof. intros Heq%app_inj. by injection Heq. Qed.

Lemma names_nodup h cs tbl : Forall2 (child_of h) cs tbl → NoDup tbl.*1 → NoDup (name_at h <$> cs).
Proof.
  intros Hf Hd.
  assert (name_at h <$> cs = entry_name name <$> tbl.*1) as ->.
  { induction Hf as [|c km cs' tbl' Hc _ IH]; simpl; [done|]. rewrite (child_of_name h c km Hc).
    f_equal. apply IH. simpl in Hd. by apply NoDup_cons in Hd as [_ ?]. }
  apply NoDup_fmap_2; [|done]. intros k k'. apply entry_name_inj.
Qed.

(** *** Finding an entry *)

Definition table_index tbl (k : string) : option nat := find_index (λ km, bool_decide (km.1 = k)) tbl.

Lemma find_rev_run h cs tbl k i :
  Forall2 (child_of h) cs tbl →
  ∃ found, find_rev (Some <$> cs) key k i h = (Ok found, h) ∧
    match table_index tbl k with
    | Some j => ∃ c, cs !! j = Some c ∧ found = Some ((i + j)%nat, c)
    | None => found = None
    end.
Proof.
  intros Hf. revert i. induction Hf as [|c [k' m] cs tbl Hc _ IH]; intros i; simpl; [by exists None|].
  unfold table_index. simpl. unfold sbind at 1. simpl.
  pose proof (child_of_data h c (k', m) Hc) as Hd. run_with Hd.
  destruct Hc as (_ & _ & _ & _ & _ & _ & _ & _ & _ & _ & _ & _ & _ & _ & Hk). simpl in Hk. rewrite Hk.
  case_decide as Hkk.
  - rewrite bool_decide_eq_true_2; [|done]. eexists. split; [done|]. exists c. split; [done|]. by rewrite Nat.add_0_r.
  - rewrite bool_decide_eq_false_2; [|done]. destruct (IH (S i)) as (found & Hrun & Hm). exists found. split; [done|].
    unfold table_index in Hm. destruct (find_index _ tbl) as [j|]; simpl; [|done].
    destruct Hm as (d & Hd' & ->). exists d. split; [done|]. f_equal. f_equal. lia.
Qed.

Lemma table_index_Some tbl k j : table_index tbl k = Some j → ∃ m, tbl !! j = Some (k, m).
Proof.
  intros ([k' m] & Hj & Hk & _)%find_index_Some. apply bool_decide_eq_true in Hk. simpl in Hk. subst. by exists m.
Qed.
Lemma table_index_None tbl k : table_index tbl k = None ↔ k ∉ tbl.*1.
Proof.
  unfold table_index. rewrite find_index_None. split.
  - intros Hall ([k' m] & -> & Hin)%list_elem_of_fmap. specialize (Hall _ Hin). by apply bool_decide_eq_false in Hall.
  - intros Hk [k' m] Hin. apply bool_decide_eq_false. simpl. intros ->. apply Hk. apply list_elem_of_fmap. by exists (k, m).
Qed.
Lemma table_index_at tbl k j m : NoDup tbl.*1 → tbl !! j = Some (k, m) → table_index tbl k = Some j.
Proof.
  intros Hd Hj. destruct (table_index tbl k) as [i|] eqn:E.
  - apply table_index_Some in E as [m' Hi]. f_equal. eapply (NoDup_lookup tbl.*1 i j k Hd); rewrite list_lookup_fmap.
    + by rewrite Hi.
    + by rewrite Hj.
  - apply table_index_None in E. destruct E. apply list_elem_of_fmap. exists (k, m). split; [done|]. by eapply list_elem_of_lookup_2.
Qed.

(** ** Reading *)

Hypothesis name_segment : segment name.

Lemma getData_child h c km : child_of h c km → getData c 0 h = (Ok km.2, h).
Proof.
  intros (cn & cb & nd & H1 & H2 & H3 & H4 & H5 & H6 & H7 & _). unfold getData.
  run_with (GetBranchOf_run h c cn H1). run_with (latest_of_run h _ cb c H5 H7). unfold Get_depth.
  run_with (GetBranchOf_run h c cn H1). run_with (latest_of_run h _ cb c H5 H7).
  run_with (GetData_run h c cn H1). by rewrite H2.
Qed.

Lemma getNode_child h c km : child_of h c km → ∃ node nd, getNode c h = (Ok node, h) ∧ hp_nodes h !! node = Some nd.
Proof.
  intros (cn & cb & nd & H1 & _ & _ & _ & H5 & _ & _ & H8 & _). exists (br_Node cb), nd.
  split; [by eapply getNode_run | done].
Qed.

Lemma children_data_run h cs tbl : Forall2 (child_of h) cs tbl → children_data 0 (Some <$> cs) h = (Ok tbl.*2, h).
Proof.
  intros Hf. unfold children_data. rewrite not_nil_Some. unfold sbind at 1. simpl.
  induction Hf as [|c km cs tbl Hc _ IH]; simpl; [done|]. run_with (getData_child h c km Hc). by run_with IH.
Qed.

Lemma getPath_entry h l cs tbl fuel k :
  folder h l cs tbl → segment k →
  getPath (S fuel) n l (entry_name name k) 0 h =
    (Ok (match table_index tbl k with Some j => match tbl !! j with Some km => ROne km.2 | None => RNone end | None => RNone end), h).
Proof.
  intros [Hok (nd & fromStr & Hn & Hb & Hfield & Hkey & _) Hkne _ (nl & Hnl & _ & _ & Hcs) Hf Hd _] [Hk1 Hk2]. simpl.
  rewrite decide_False; [|by apply join_ne]. unfold entry_name. rewrite SplitN_join; [|apply name_segment].
  run_with (get_node_run h n nd Hn). run_with (GetChildren_run h l nl name Hnl). rewrite Hfield.
  rewrite decide_True; [|done]. rewrite SplitN_plain; [|done]. rewrite Hcs Hkey. unfold findRevByKey. simpl.
  destruct (find_rev_run h cs tbl k 0 Hf) as (found & Hrun & Hm). run_with Hrun.
  destruct (table_index tbl k) as [j|] eqn:Hj; [|by subst found].
  destruct Hm as (c & Hc & ->). destruct (table_index_Some _ _ _ Hj) as [m Hjm]. rewrite Hjm.
  pose proof (Forall2_lookup_lr _ _ _ _ _ _ Hf Hc Hjm) as Hchild.
  destruct (getNode_child h c (k, m) Hchild) as (node & cnd & Hnode & _). run_with Hnode.
  by run_with (getData_child h c (k, m) Hchild).
Qed.

Lemma getPath_folder h l cs tbl fuel :
  folder h l cs tbl → getPath (S fuel) n l name 0 h = (Ok (RList tbl.*2), h).
Proof.
  intros [Hok (nd & fromStr & Hn & Hb & Hfield & Hkey & _) Hkne _ (nl & Hnl & _ & _ & Hcs) Hf Hd _]. simpl.
  destruct name_segment as [Hne Hs]. rewrite decide_False; [|done]. rewrite SplitN_plain; [|done].
  run_with (get_node_run h n nd Hn). run_with (GetChildren_run h l nl name Hnl). rewrite Hfield.
  rewrite decide_False; [|by intros [_ ?]]. rewrite Hcs.
  by run_with (children_data_run h cs tbl Hf).
Qed.

(** The revision that is read is the latest one. *)
Lemma reading_revision_run h l cs tbl :
  folder h l cs tbl → reading_revision n EmptyString EmptyString h = (Ok (Some l), h).
Proof.
  intros [Hok (nd & fromStr & Hn & Hb & _) _ (br & Hbr & _ & Hl) _ _ _ _].
  change (reading_revision n EmptyString EmptyString h) with
    ((let* x := node_branch n EmptyString in
      let* x := if decide (EmptyString = EmptyString ∨ x = None) then node_branch n NONE else ret x in
      let* x := lift (deref x) in GetLatest x) h).
  run_with (node_branch_run h n nd EmptyString Hn).
  run_with (node_branch_run h n nd NONE Hn). rewrite Hb. unfold sbind at 1. simpl. rewrite (GetLatest_run h b br Hbr).
  by rewrite Hl.
Qed.

Lemma read_memory_tree h l cs tbl path depth result :
  folder h l cs tbl → hp_cache h !! path = None → getPath (S (String.length path)) n l path depth h = (Ok result, h) →
  read_memory n (Some l) path depth h = (Ok (result, match result with RNone | RList [] => false | _ => true end), h).
Proof.
  intros [Hok _ _ (br & Hbr & _ & Hl) (nl & Hnl & _ & Hnb & _) _ _ _] Hc Hp. unfold read_memory.
  unfold sbind at 1. simpl. rewrite Hc. unfold sbind at 1. unfold sbind at 1. simpl.
  rewrite (GetBranchOf_run h l nl Hnl) Hnb. run_with (latest_of_run h b br l Hbr Hl). by run_with Hp.
Qed.

(** In memory, an entry of the table is found under its key, in the cache unless it
    expired, or else in the tree; a key that is not in the table is not found. *)
Lemma get_entry h l cs tbl k :
  folder h l cs tbl → segment k →
  (∀ p np, hp_cache h !! entry_name name k = Some p → npr_at h p = Some np →
     age_ms (hp_now h) (np_lastUpdate np) < DataRefreshPeriod) →
  (k ∈ tbl.*1 ∨ ∃ nd rt, hp_nodes h !! n = Some nd ∧ hp_roots h !! nd_Root nd = Some rt ∧ rt_KvStore rt = false) →
  node_Get n (entry_path name k) EmptyString 0 false EmptyString h =
    (Ok (match (list_to_map tbl : gmap string Msg) !! k with Some m => ROne m | None => RNone end), h).
Proof.
  intros Hfd Hk Hfresh Hin. pose proof Hfd as [Hok Hnode Hkne _ _ Hf Hd Hcache].
  unfold node_Get. rewrite trim_entry; [|done].
  run_with (reading_revision_run h l cs tbl Hfd).
  destruct (hp_cache h !! entry_name name k) as [p|] eqn:Hc.
  - destruct (Hcache k p Hc) as (m & np & Hkm & Hnp & Hdata).
    assert (read_memory n (Some l) (entry_name name k) 0 h = (Ok (ROne m, true), h)) as Hrm.
    { unfold read_memory. unfold sbind at 1. simpl. rewrite Hc. run_with (get_npr_run h p np Hnp).
      rewrite decide_True; [by rewrite Hdata | by eapply Hfresh]. }
    run_with Hrm. by rewrite (elem_of_list_to_map_1 tbl k m Hd Hkm).
  - run_with (read_memory_tree h l cs tbl (entry_name name k) 0 _ Hfd Hc (getPath_entry h l cs tbl _ k Hfd Hk)).
    destruct (table_index tbl k) as [j|] eqn:Hj.
    + destruct (table_index_Some _ _ _ Hj) as [m Hjm]. rewrite Hjm.
      rewrite (elem_of_list_to_map_1 tbl k m Hd); [done | by eapply list_elem_of_lookup_2].
    + apply table_index_None in Hj. rewrite (not_elem_of_list_to_map_1 _ _ Hj).
      destruct Hin as [?|(nd & rt & Hn & Hr & Hkv)]; [done|].
      run_with (get_node_run h n nd Hn). run_with (get_root_run h _ rt Hr). by rewrite Hkv.
Qed.

(** ** Adding *)

Context (makeBranch : nat → M Heap nat).

Lemma operation_branch_run h nd b' :
  ∀ p, hp_nodes h !! p = Some nd → nd_Branches nd !! NONE = Some b' →
  operation_branch p EmptyString makeBranch h = (Ok b', h).
Proof.
  intros p Hp Hb.
  change (operation_branch p EmptyString makeBranch h) with ((let* x := node_branch p NONE in lift (deref x)) h).
  run_with (node_branch_run h p nd NONE Hp). by rewrite Hb.
Qed.

(** [SetupWatch] changes the watches and how the revision is persisted. *)
Lemma SetupWatch_run h c r cn :
  heap_ok h → hp_revs h !! c = Some r → hp_nprs h !! rv_npr r = Some cn → 
  ∃ h' r', SetupWatch c (np_Name cn) h = (Ok tt, h') ∧ heap_ok h' ∧ rv_npr r' = rv_npr r ∧
    hp_next h' = hp_next h ∧ hp_nprs h' = hp_nprs h ∧ hp_revs h' = <[c := r']> (hp_revs h) ∧
    hp_branches h' = hp_branches h ∧ hp_nodes h' = hp_nodes h ∧ hp_roots h' = hp_roots h ∧
    (hp_proxies h', hp_dirty h', hp_cache h', hp_kv h', hp_now h', hp_started h') =
    (hp_proxies h, hp_dirty h, hp_cache h, hp_kv h, hp_now h, hp_started h).
Proof.
  intros Hok Hr Hcn. assert (npr_at h c = Some cn) as Hc by (unfold npr_at; by rewrite Hr).
  assert (∀ x, (Ok tt, h) = x → ∃ h' r', x = (Ok tt, h') ∧ heap_ok h' ∧ rv_npr r' = rv_npr r ∧
    hp_next h' = hp_next h ∧ hp_nprs h' = hp_nprs h ∧ hp_revs h' = <[c := r']> (hp_revs h) ∧
    hp_branches h' = hp_branches h ∧ hp_nodes h' = hp_nodes h ∧ hp_roots h' = hp_roots h ∧
    (hp_proxies h', hp_dirty h', hp_cache h', hp_kv h', hp_now h', hp_started h') =
    (hp_proxies h, hp_dirty h, hp_cache h, hp_kv h, hp_now h, hp_started h)) as Hskip.
  { intros x <-. exists h, r. by rewrite insert_id. }
  unfold SetupWatch. run_with (get_rev_run h c r Hr). destruct (rv_persisted r) as [pe|]; [|by apply Hskip].
  case_decide; [by apply Hskip|]. run_with (GetHash_run h c cn Hc). unfold get. unfold sbind at 1.
  case_decide; [by apply Hskip|]. unfold modify at 1. unfold sbind at 1.
  set (h1 := set_watches _ h). set (m := if pe_events pe then _ else _).
  assert (m h1 = (Ok tt, h1)) as Hm.
  { unfold m. destruct (pe_events pe); [done|]. unfold SetName. rewrite (update_npr_run h1 c r cn _ Hr Hcn).
    f_equal. unfold set_nprs. simpl. rewrite insert_id; [done|]. rewrite Hcn. by destruct cn. }
  run_with Hm. set (r' := mkRevision (rv_npr r) (Some (mkPersisted (pe_Version pe) (pe_isStored pe) true true))).
  exists (set_revs (<[c := r']> (hp_revs h)) h1), r'. split; [done|]. split; [|done].
  apply (heap_ok_ext (set_revs (<[c := r']> (hp_revs h)) h)); [by apply (put_rev_ok h c r) | done..].
Qed.

Lemma SetName_new h h1 q qn s :
  heap_ok h → heap_ok h1 → grows h h1 → new_at h h1 q qn →
  ∃ h2, SetName q s h1 = (Ok tt, h2) ∧ heap_ok h2 ∧ grows h h2 ∧ new_at h h2 q (set_np_Name s qn) ∧
    hp_branches h2 = hp_branches h1 ∧ hp_nodes h2 = hp_nodes h1 ∧ hp_cache h2 = hp_cache h1.
Proof.
  intros Hok Hok1 [G1 G2 G3 G4 G5 G6 G7] (Hf & Hq & r & Hr & Hfr).
  assert (hp_nprs h1 !! rv_npr r = Some qn) as Hqn by (unfold npr_at in Hq; by rewrite Hr in Hq).
  unfold SetName. rewrite (update_npr_run h1 q r qn _ Hr Hqn). eexists. split; [done|].
  split; [apply (put_npr_ok h1 _ qn); [done | done|]; by apply (ho_npr h1 Hok1 _ _ Hqn)|].
  split; [split; simpl; [done | by apply insert_subseteq_r | done | done | done | exact G6 | done]|].
  split; [|done]. split; [done|]. split; [unfold npr_at; simpl; rewrite Hr; simpl; apply lookup_insert_eq | by exists r].
Qed.

(** The latest revision was kept: the hash of the new one is the same. *)
Definition collided h' (l : nat) : Prop := ∃ br q nq nl,
  hp_branches h' !! b = Some br ∧ br_Latest br = Some l ∧ q ≠ l ∧
  npr_at h' q = Some nq ∧ npr_at h' l = Some nl ∧ np_Hash nq = np_Hash nl.

(** The end of every change: the new revision [q] of the node becomes the latest
    one, unless its hash is that of [l]. *)
Lemma settle_folder h q qn l nd changes :
  heap_ok h → hp_nodes h !! n = Some nd →
  (∃ br, hp_branches h !! b = Some br ∧ br_Txid br = EmptyString ∧ br_Latest br = Some l) →
  (∃ nl, npr_at h l = Some nl) → npr_at h q = Some qn → q ≠ l → np_Name qn = EmptyString →
  ∃ h', makeLatest n b q changes h = (Ok tt, h') ∧ hp_nprs h' = hp_nprs h ∧ hp_cache h' = hp_cache h ∧
    (latest_set h h' b q ∨ latest_set h h' b l ∧ collided h' l) ∧
    (∀ nl, npr_at h l = Some nl → same_others name nl qn → beside h h').
Proof.
  intros Hok Hn (br & Hb & _ & Hl) [nl Hnl] Hq Hne Hname.
  destruct (decide (np_Hash qn = np_Hash nl)) as [Hh|Hh].
  - destruct (makeLatest_same h n nd b br q qn l nl changes Hok Hn Hb Hq Hl Hnl Hh) as (h' & Hrun & Hs & Hnp & Hc).
    exists h'. split; [done|]. split; [done|]. split; [done|].
    split; [|intros nl' Hnl' _; by eapply (beside_latest b name h h' br l nl l nl)]. right. split; [done|].
    destruct (ls_branch _ _ _ _ Hs br Hb) as (br' & Hb' & _ & _ & Hl'). exists br', q, qn, nl.
    repeat (split; [done|]). split; [by eapply latest_npr_at|]. split; [by eapply latest_npr_at | done].
  - pose proof Hq as Hq'. unfold npr_at in Hq'. apply bind_Some in Hq' as (rq & Hrq & Hqn).
    destruct (makeLatest_new h n nd b br q rq qn changes Hok Hn Hb Hrq Hqn) as (h' & Hrun & Hs & Hsame & _).
    { intros x Hx. exists nl. by rewrite Hl in Hx; injection Hx as <-. }
    destruct (Hsame Hname). exists h'. repeat (split; [done|]). split; [by left|].
    intros nl' Hnl' Hothers. by eapply (beside_latest b name h h' br l nl' q qn).
Qed.

(** What the node and the cache are in a folder. *)
Definition node_in h : Prop := ∃ nd fromStr, hp_nodes h !! n = Some nd ∧ nd_Branches nd !! NONE = Some b ∧
  ChildrenFields (nd_Type nd) !! name = Some (mkChildType ct true key fromStr) ∧ (∀ s, fromStr s = KeyString s) ∧
  (∀ p, nd_Proxy nd = Some p → is_Some (hp_proxies h !! p)).
Definition cache_in h tbl : Prop := ∀ k p, hp_cache h !! entry_name name k = Some p → ∃ m np,
  (k, m) ∈ tbl ∧ npr_at h p = Some np ∧ cf_Data (np_Config np) = m.

(** The tree in which [q] is the latest revision is a folder when [q] has the
    right children. *)
Lemma folder_latest h h' q qn cs tbl :
  latest_set h h' b q → hp_nprs h' = hp_nprs h → hp_cache h' = hp_cache h →
  node_in h → key ≠ EmptyString → (∃ br, hp_branches h !! b = Some br ∧ br_Txid br = EmptyString) →
  npr_at h q = Some qn → np_Name qn = EmptyString → np_Branch qn = b →
  default [] (children_of qn name) = Some <$> cs → Forall2 (child_of h) cs tbl → NoDup tbl.*1 → cache_in h tbl →
  folder h' q cs tbl.
Proof.
  intros Hs Hnp Hca (nd & fromStr & Hn & Hb & Hfield & Hkey & Hpx) Hk (br & Hbr & Ht) Hq Hname Hbq Hcs Hf Hd Hcache.
  pose proof (ls_rest _ _ _ _ Hs) as Hrest. injection Hrest as Hp _ _ _ _ _.
  split; try done.
  - exact (ls_ok _ _ _ _ Hs).
  - exists nd, fromStr. by rewrite (ls_nodes _ _ _ _ Hs) Hp.
  - destruct (ls_branch _ _ _ _ Hs br Hbr) as (br' & Hbr' & _ & Ht' & Hl'). exists br'. by rewrite Ht' Ht.
  - exists qn. split; [by eapply latest_npr_at | done].
  - eapply Forall2_impl; [exact Hf|]. intros c km Hc. eapply child_of_latest; [done | done | | exact Hc].
    intros cn Hcn. destruct Hc as (cn' & _ & _ & Hcn' & _ & _ & Hne & _). congruence.
  - intros k p. rewrite Hca. intros Hkp. destruct (Hcache k p Hkp) as (m & np & Hin & Hnpp & Hdata).
    exists m, np. split; [done|]. split; [by eapply latest_npr_at | done].
Qed.

(** The folder is the same in a heap that has more. *)
Lemma folder_parts_grow h h' l cs tbl :
  folder h l cs tbl → grows h h' → hp_cache h' = hp_cache h →
  node_in h' ∧ (∃ br, hp_branches h' !! b = Some br ∧ br_Txid br = EmptyString ∧ br_Latest br = Some l) ∧
  (∃ nl, npr_at h l = Some nl ∧ npr_at h' l = Some nl ∧ np_Name nl = EmptyString ∧ np_Branch nl = b ∧
    default [] (children_of nl name) = Some <$> cs) ∧
  Forall2 (child_of h') cs tbl ∧ cache_in h' tbl.
Proof.
  intros [Hok (nd & fromStr & Hn & Hb & Hfield & Hkey & Hpx) Hk (br & Hbr & Ht & Hl) (nl & Hnl & Hname & Hnb & Hcs) Hf Hd Hca] Hg Hc.
  pose proof (gr_rest _ _ Hg) as Hrest. injection Hrest as Hp _ _ _ _ _.
  split; [exists nd, fromStr; rewrite Hp; split; [exact (lookup_weaken _ _ _ _ Hn (gr_nodes _ _ Hg)) | done]|].
  split; [exists br; split; [exact (lookup_weaken _ _ _ _ Hbr (gr_branches _ _ Hg)) | done]|].
  split; [exists nl; split; [done|]; split; [by eapply grows_npr_at | done]|].
  split; [eapply Forall2_impl; [exact Hf|]; intros c km; by apply child_of_grows|].
  intros k p. rewrite Hc. intros Hkp. destruct (Hca k p Hkp) as (m & np & Hin & Hnp & Hdata).
  exists m, np. split; [done|]. split; [by eapply grows_npr_at | done].
Qed.

Lemma in_folder h cs tbl e : Forall2 (child_of h) cs tbl → e ∈ cs → ∃ km, km ∈ tbl ∧ child_of h e km.
Proof.
  intros Hf [j Hj]%list_elem_of_lookup. destruct (Forall2_lookup_l _ _ _ _ _ Hf Hj) as (km & Hkm & Hekm).
  exists km. split; [by eapply list_elem_of_lookup_2 | done].
Qed.

Lemma same_name h cs tbl e e' :
  Forall2 (child_of h) cs tbl → NoDup tbl.*1 → e ∈ cs → e' ∈ cs → name_at h e' = name_at h e → e' = e.
Proof.
  intros Hf Hd [i Hi]%list_elem_of_lookup [j Hj]%list_elem_of_lookup Heq.
  assert (i = j) as ->; [|congruence].
  eapply (NoDup_lookup (name_at h <$> cs) i j _ ltac:(by eapply names_nodup)); rewrite list_lookup_fmap.
  - by rewrite Hi.
  - by rewrite Hj /= Heq.
Qed.

(** An entry of the folder takes its own place. *)
Lemma replaces_itself h cs tbl e :
  Forall2 (child_of h) cs tbl → NoDup tbl.*1 → e ∈ cs → replaces h cs e.
Proof.
  intros Hf Hd He. destruct (in_folder h cs tbl e Hf He) as (km & _ & Hekm).
  destruct (child_of_npr _ _ _ Hekm) as [en Hen]. exists en. split; [done|]. intros e' He' Hname. left.
  eapply same_name; [done..|]. rewrite Hname. unfold name_at. by rewrite Hen.
Qed.

(** The revision of a new entry. *)
Lemma make_entry_run `{!SchemaLaws Msg} h nd data k :
  heap_ok h → hp_nodes h !! n = Some nd → is_Some (hp_branches h !! b) → key_of data k → msg_type data = ct →
  ∃ c h', make_entry n data (entry_name name k) h = (Ok c, h') ∧ heap_ok h' ∧ grows h h' ∧ hp_revs h !! c = None ∧ child_of h' c (k, data).
Proof.
  intros Hok Hn [br Hbr] Hkey Htype. unfold make_entry.
  destruct (newNode_run (S (msg_depth data)) (nd_Root nd) data h ltac:(lia) Hok (ho_root h Hok n nd Hn))
    as (child & h1 & Hmake & Hok1 & Hg1 & Hnn).
  assert (MakeNode n data EmptyString h = (Ok child, h1)) as Hmk.
  { unfold MakeNode. by run_with (get_node_run h n nd Hn). }
  run_with Hmk.
  destruct Hnn as (cnd & b' & cb & c & cn & Hcnd & _ & Hctype & _ & Hcb & Hbrc & Hbn & Hbt & Hbl & Hnewc & Hcd & _ & Hcbr & _ & Hfb & _).
  assert (not_nil_result (Latest child EmptyString) h1 = (Ok c, h1)) as Hlat.
  { unfold not_nil_result. run_with (Latest_run h1 child cnd b' cb Hcnd Hcb Hbrc). by rewrite Hbl. }
  run_with Hlat.
  destruct (SetName_new h h1 c cn (entry_name name k) Hok Hok1 Hg1 Hnewc) as (h2 & Hsn & Hok2 & Hg2 & (Hfc & Hc2 & _) & Hb2 & Hn2 & _).
  run_with Hsn. exists c, h2. repeat (split; [done|]).
  exists (set_np_Name (entry_name name k) cn), cb, cnd. simpl. rewrite Hcbr Hb2 Hn2 Hbn Hctype.
  repeat (split; [done|]). split; [congruence | done].
Qed.

(** With a new entry, every child takes its own place. *)
Lemma add_replaces h cs tbl c k data :
  Forall2 (child_of h) cs tbl → NoDup tbl.*1 → child_of h c (k, data) → k ∉ tbl.*1 →
  ∀ e, e ∈ cs ++ [c] → is_Some (hp_revs h !! e) ∧ replaces h cs e.
Proof.
  intros Hf Hd Hc Hnew e [He| ->%list_elem_of_singleton]%elem_of_app.
  - destruct (in_folder h cs tbl e Hf He) as (km & _ & Hekm).
    split; [by eapply child_of_rev | by eapply replaces_itself].
  - split; [by eapply child_of_rev|]. pose proof Hc as (cn & _ & _ & Hcn & _ & Hname & _). exists cn. split; [done|].
    intros e' He' Hn'. exfalso. destruct (in_folder h cs tbl e' Hf He') as ([k' m'] & Hkm & Hekm).
    rewrite (child_of_name _ _ _ Hekm) Hname in Hn'. simpl in Hn'. apply entry_name_inj in Hn' as ->.
    apply Hnew. apply list_elem_of_fmap. by exists (k, m').
Qed.

(** The watch of a new revision is set up. *)
Lemma SetupWatch_new h h1 c km :
  heap_ok h1 → grows h h1 → hp_revs h !! c = None → child_of h1 c km →
  ∃ h2, SetupWatch c (entry_name name km.1) h1 = (Ok tt, h2) ∧ heap_ok h2 ∧ grows h h2 ∧ child_of h2 c km ∧
    ∀ p np, npr_at h1 p = Some np → npr_at h2 p = Some np.
Proof.
  intros Hok1 Hg Hf Hc. pose proof Hc as (cn & cb & nd & H1 & H2 & H3 & H4 & H5 & H6 & H7 & H8 & H9).
  pose proof H1 as (r & Hr & Hcn)%bind_Some. rewrite -H3.
  destruct (SetupWatch_run h1 c r cn Hok1 Hr Hcn) as (h2 & r' & Hsw & Hok2 & Hr' & E1 & E2 & E3 & E4 & E5 & E6 & E7).
  injection E7 as F1 F2 F3 F4 F5 F6.
  assert (∀ p np, npr_at h1 p = Some np → npr_at h2 p = Some np) as Hkeep.
  { intros p np. unfold npr_at. rewrite E3 E2. destruct (decide (p = c)) as [->|Hne].
    - rewrite lookup_insert_eq Hr. simpl. by rewrite Hr'.
    - by rewrite lookup_insert_ne. }
  exists h2. split; [done|]. split; [done|]. split; [|split; [|done]].
  - destruct Hg as [G1 G2 G3 G4 G5 G6 G7]. split; rewrite ?E1 ?E2 ?E3 ?E4 ?E5; try done.
    + by apply insert_subseteq_r.
    + intros p rt Hp. rewrite E6. by apply G6.
    + congruence.
  - exists cn, cb, nd. rewrite E4 E5. split; [by apply Hkeep | done].
Qed.

(** An entry is made, and the new revision of the node has it as its last child. *)
Lemma add_child_run `{!SchemaLaws Msg} h l cs tbl data k :
  folder h l cs tbl → key_of data k → msg_type data = ct → k ∉ tbl.*1 →
  ∃ c h', add_child n b l name key data h = (Ok (Some c), h') ∧
    (∃ cn, npr_at h' c = Some cn ∧ cf_Data (np_Config cn) = data ∧ np_Name cn = entry_name name k) ∧
    env_like h h' ∧ beside h h' ∧
    ((∃ q, q ≠ l ∧ folder h' q (cs ++ [c]) (tbl ++ [(k, data)])) ∨ (folder h' l cs tbl ∧ collided h' l)).
Proof.
  intros Hfd [Hk1 Hk2] Htype Hnew.
  pose proof Hfd as [Hok (nd & fromStr & Hn & Hb & _) Hkne (br & Hbr & _) (nl & Hnl & _ & _ & Hcs) Hf Hd _].
  unfold add_child. run_with (GetChildren_run h l nl name Hnl). rewrite Hcs Hk1.
  destruct (find_rev_run h cs tbl k 0 Hf) as (found & Hfind & Hm).
  rewrite (proj2 (table_index_None tbl k) Hnew) in Hm. subst found.
  unfold findRevByKey. simpl. run_with Hfind.
  destruct (make_entry_run h nd data k Hok Hn ltac:(by exists br) ltac:(by split) Htype) as (c & h2 & Hme & Hok2 & Hg2 & Hfc & Hc2).
  change (name +:+ "/" +:+ k) with (entry_name name k). run_with Hme.
  pose proof (gr_rest _ _ Hg2) as Hrest. injection Hrest as _ _ Hcache2 _ _ _.
  destruct (folder_parts_grow h h2 l cs tbl Hfd Hg2 Hcache2) as (_ & (br2 & Hbr2 & _ & Hl2) & (nl2 & Hnl' & Hnl2 & _) & Hf2 & _).
  assert (nl2 = nl) as -> by congruence. pose proof Hnl2 as (rl & Hrl & _)%bind_Some.
  destruct (UpdateChildren_run h2 l rl nl name b br2 l nl cs (cs ++ [c]) Hok2 Hrl Hnl2 Hbr2 Hl2 Hnl2 Hcs)
    as (q & h3 & qn & Huc & Hok3 & Hg3 & Hfq & Hq & Hqname & Hqb & Hqc & _).
  { by eapply names_nodup. }
  { intros e He. rewrite fmap_app. apply elem_of_app. left. by apply list_elem_of_fmap_2. }
  { by eapply add_replaces. }
  rewrite fmap_app in Huc. run_with Huc. pose proof (child_of_grows h2 h3 c _ Hg3 Hc2) as Hc3.
  run_with (child_of_data h3 c _ Hc3). pose proof Hc3 as (cn & _ & _ & Hcn3 & Hcd & Hcname & _).
  run_with (GetName_run h3 c cn Hcn3). rewrite Hcname.
  destruct (SetupWatch_new h h3 c (k, data) Hok3 (transitivity Hg2 Hg3) Hfc Hc3) as (h4 & Hsw & Hok4 & Hg4 & Hc4 & Hkeep). run_with Hsw.
  assert (q ≠ l) as Hql by (intros ->; congruence).
  pose proof (gr_rest _ _ Hg4) as Hrest4. injection Hrest4 as _ _ Hcache4 _ _ _.
  destruct (folder_parts_grow h h4 l cs tbl Hfd Hg4 Hcache4) as (Hnode4 & (br4 & Hbr4 & Ht4 & Hl4) & (nl4 & Hnl0 & Hnl4 & Hname4 & Hlb4 & Hcs4) & Hf4 & Hca4).
  pose proof Hnode4 as (nd4 & _ & Hn4 & _).
  destruct (settle_folder h4 q qn l nd4 [mkChange PostAdd DataNil (DataOf data)] Hok4 Hn4) as (h5 & Hml & Hnp5 & Hca5 & Hcase & Hbeside);
    [by exists br4 | by exists nl4 | by apply Hkeep | done | rewrite Hqname; congruence|].
  run_with Hml. exists c, h5. split; [done|]. split.
  { exists cn. split; [|done]. destruct Hcase as [Hs|[Hs _]]; apply (latest_npr_at _ _ _ _ _ _ Hs Hnp5), Hkeep, Hcn3. }
  split.
  { eapply env_like_trans; [by apply env_like_grows|]. destruct Hcase as [Hs|[Hs _]]; by eapply env_like_latest. }
  split.
  { etrans; [by apply (beside_grows b name h h4)|]. assert (nl4 = nl) as -> by congruence. apply (Hbeside nl); [done|].
    eapply same_others_children; [done | congruence | exact Hqc]. }
  destruct Hcase as [Hs|[Hs Hcol]].
  - left. exists q. split; [done|]. eapply (folder_latest h4 h5 q qn); try done.
    + by exists br4.
    + by apply Hkeep.
    + rewrite Hqname. congruence.
    + unfold children_of. by rewrite Hqc lookup_insert_eq /= fmap_app.
    + apply Forall2_app; [done|]. by constructor.
    + rewrite fmap_app. apply NoDup_app. split; [done|]. split; [|apply NoDup_singleton].
      intros x Hx ->%list_elem_of_singleton. done.
    + intros k' p Hp. destruct (Hca4 k' p Hp) as (m & np & Hin & Hnp). exists m, np.
      split; [apply elem_of_app; by left | done].
  - right. split; [|done]. eapply (folder_latest h4 h5 l nl4); try done. by exists br4.
Qed.

(** ** Removing *)

Lemma fmap_delete_at {A B} (f : A → B) i l : f <$> delete_at i l = delete_at i (f <$> l).
Proof. unfold delete_at. by rewrite fmap_app fmap_take fmap_drop. Qed.
Lemma Forall2_delete_at {A B} (P : A → B → Prop) i l k : Forall2 P l k → Forall2 P (delete_at i l) (delete_at i k).
Proof. intros Hf. apply Forall2_app; [by apply Forall2_take | by apply Forall2_drop]. Qed.

Lemma StorageDrop_run h c r cn :
  heap_ok h → hp_revs h !! c = Some r → npr_at h c = Some cn →
  ∃ r' kv, StorageDrop c EmptyString h = (Ok tt, set_kv kv (set_revs (<[c := r']> (hp_revs h)) h)) ∧ rv_npr r' = rv_npr r.
Proof.
  intros Hok Hr Hc.
  change (StorageDrop c EmptyString h) with ((let* r := get_rev c in
    match rv_persisted r with
    | None => ret tt
    | Some pe =>
        let* name := GetName c in
        let* deleted := λ h, let (ok, kv) := bk_Delete name (hp_kv h) in (Ok ok, set_kv kv h) in
        put_rev c (mkRevision (rv_npr r)
          (Some (mkPersisted (pe_Version pe) (if (deleted : bool) then false else pe_isStored pe) false (pe_events pe))))
    end) h).
  run_with (get_rev_run h c r Hr). destruct (rv_persisted r) as [pe|].
  - run_with (GetName_run h c cn Hc). unfold sbind at 1. destruct (bk_Delete (np_Name cn) (hp_kv h)) as [ok kv].
    eexists (mkRevision _ _), kv. split; [reflexivity | done].
  - exists r, (hp_kv h). split; [|done]. rewrite insert_id; [|done]. by destruct h.
Qed.

(** Only what a folder does not look at is different. *)
Lemma child_of_fields h h' c km :
  (∀ p np, npr_at h p = Some np → ∃ np', npr_at h' p = Some np' ∧ np_Config np' = np_Config np ∧
     np_Name np' = np_Name np ∧ np_Branch np' = np_Branch np) →
  hp_branches h' = hp_branches h → hp_nodes h' = hp_nodes h → child_of h c km → child_of h' c km.
Proof.
  intros Hnp Hb Hn (cn & cb & nd & H1 & H2 & H3 & H4 & H5 & H6 & H7 & H8 & H9).
  destruct (Hnp c cn H1) as (cn' & H1' & E1 & E2 & E3). exists cn', cb, nd.
  rewrite E1 E2 E3 Hb Hn. by repeat (split; [done|]).
Qed.

Lemma in_delete_at tbl idx k m k' m' :
  tbl !! idx = Some (k, m) → (k', m') ∈ tbl → k' ≠ k → (k', m') ∈ delete_at idx tbl.
Proof.
  intros Hidx Hin Hne. rewrite (delete_at_Permutation idx (k, m) tbl Hidx) in Hin.
  apply elem_of_cons in Hin as [[= ? ?]|?]; [done | done].
Qed.

Lemma remove_child_run h l cs tbl idx c k m :
  folder h l cs tbl → cs !! idx = Some c → tbl !! idx = Some (k, m) →
  ∃ h', remove_child EmptyString n b l name (Some <$> cs) idx c h = (Ok (Some l), h') ∧
    folder h' l (delete_at idx cs) (delete_at idx tbl) ∧
    roots_like h h' ∧ hp_nodes h' = hp_nodes h ∧ hp_proxies h' = hp_proxies h ∧ beside h h'.
Proof.
  intros Hfd Hc Hkm.
  pose proof Hfd as [Hok (nd & fromStr & Hn & Hnb & Hfield & Hfk & Hpx) Hkne (br & Hbr & Ht & Hl) (nl & Hnl & Hlname & Hlb & Hcs) Hf Hd Hca].
  pose proof (Forall2_lookup_lr _ _ _ _ _ _ Hf Hc Hkm) as Hchild.
  pose proof Hchild as (cn & cb & cd & Hcn & Hcdata & Hcname & _). destruct (child_of_rev h c _ Hchild) as [r Hr].
  unfold remove_child. run_with (GetData_run h c cn Hcn).
  destruct (StorageDrop_run h c r cn Hok Hr Hcn) as (r' & kv & Hsd & Hr'). run_with Hsd.
  set (h1 := set_kv kv _).
  assert (∀ p, npr_at h1 p = npr_at h p) as Hnp1.
  { intros p. unfold npr_at, h1. simpl. destruct (decide (p = c)) as [->|Hne].
    - rewrite lookup_insert_eq Hr. simpl. by rewrite Hr'.
    - by rewrite lookup_insert_ne. }
  assert (heap_ok h1) as Hok1.
  { eapply heap_ok_ext; [apply (put_rev_ok h c r r' Hok Hr Hr') | done..]. }
  run_with (GetName_run h1 c cn ltac:(by rewrite Hnp1)). rewrite Hcname. simpl.
  unfold modify at 1. unfold sbind at 1. set (h2 := set_cache _ h1).
  assert (heap_ok h2) as Hok2 by (eapply heap_ok_ext; [exact Hok1 | done..]).
  assert (npr_at h2 l = Some nl) as Hnl2 by (change (npr_at h1 l = Some nl); by rewrite Hnp1).
  pose proof Hnl2 as Hrl. apply bind_Some in Hrl as (rl & Hrl & Hnrl).
  rewrite -fmap_delete_at. set (cs' := Some <$> delete_at idx cs). set (nl' := set_np_Children (<[name := Some cs']> (np_Children nl)) nl).
  assert (SetChildren l name cs' h2 = (Ok tt, set_nprs (<[rv_npr rl := nl']> (hp_nprs h2)) h2)) as Hsc.
  { unfold SetChildren. by rewrite (update_npr_run h2 l rl nl _ Hrl Hnrl). }
  run_with Hsc. set (h3 := set_nprs _ h2).
  assert (heap_ok h3) as Hok3.
  { apply (put_npr_ok h2 _ nl); [done | done|]. destruct (ho_npr h2 Hok2 _ _ Hnrl) as [Hbb Hcc].
    split; [done|]. apply valid_children_insert; [done|].
    intros x (d & -> & Hin)%list_elem_of_fmap. apply (valid_children_of h2 nl name); [done|].
    rewrite Hcs. apply list_elem_of_fmap. exists d. split; [done | by eapply delete_at_elem]. }
  assert (∀ p np, npr_at h p = Some np → ∃ np', npr_at h3 p = Some np' ∧ np_Config np' = np_Config np ∧
     np_Name np' = np_Name np ∧ np_Branch np' = np_Branch np) as Hfields.
  { intros p np Hp. assert (npr_at h2 p = Some np) as Hp2 by (change (npr_at h1 p = Some np); by rewrite Hnp1).
    apply bind_Some in Hp2 as (rp & Hrp & Hnrp). unfold npr_at. change (hp_revs h3) with (hp_revs h2). rewrite Hrp. simpl.
    destruct (decide (rv_npr rl = rv_npr rp)) as [E|E].
    - rewrite E lookup_insert_eq. exists nl'. assert (np = nl) as -> by congruence. done.
    - rewrite lookup_insert_ne; [|done]. by exists np. }
  assert (npr_at h3 l = Some nl') as Hnl3 by (unfold npr_at; change (hp_revs h3) with (hp_revs h2); rewrite Hrl; apply lookup_insert_eq).
  destruct (makeLatest_same h3 n nd b br l nl' l nl' [mkChange PostRemove (DataOf (cf_Data (np_Config cn))) DataNil]
    Hok3 Hn Hbr Hnl3 Hl Hnl3 eq_refl) as (h4 & Hml & Hs & Hnp4 & Hca4).
  run_with Hml. exists h4. split; [done|].
  split; [|split; [exact (ls_roots _ _ _ _ Hs) | split; [exact (ls_nodes _ _ _ _ Hs)|]]].
  2: { split; [by injection (ls_rest _ _ _ _ Hs)|]. etrans; [|by eapply (beside_latest b name h3 h4 br l nl' l nl')].
       eapply (beside_removed b name h h3); [done | exact Hfields | exact Hbr | exact Hl | exact Hnl | exact Hnl3 | |done..].
       split; [done|]. split; [done|]. intros s Hs'. unfold children_of. simpl. by rewrite lookup_insert_ne. }
  eapply (folder_latest h3 h4 l nl'); try done.
  - by exists nd, fromStr.
  - by exists br.
  - unfold children_of. simpl. by rewrite lookup_insert_eq.
  - apply Forall2_delete_at. eapply Forall2_impl; [exact Hf|]. intros d km. by apply child_of_fields.
  - rewrite fmap_delete_at. eapply sublist_NoDup; [exact Hd | apply delete_at_sublist].
  - intros k' p. change (hp_cache h3) with (delete (entry_name name k) (hp_cache h)).
    intros [Hne Hp]%lookup_delete_Some. destruct (Hca k' p Hp) as (m' & np & Hin & Hnp & Hdata).
    destruct (Hfields p np Hnp) as (np' & Hnp' & Ecfg & _). exists m', np'. rewrite Ecfg. split; [|done].
    eapply in_delete_at; [done | done|]. intros ->. done.
Qed.

(** ** Updating *)

(** The proxy that is passed on changes nothing else. *)
Lemma pass_proxy_run h l cs tbl node nd :
  folder h l cs tbl → hp_nodes h !! node = Some nd →
  ∃ h', pass_proxy n node h = (Ok tt, h') ∧ folder h' l cs tbl ∧ hp_nprs h' = hp_nprs h ∧ hp_revs h' = hp_revs h ∧
    hp_branches h' = hp_branches h ∧ env_like h h' ∧ beside h h'.
Proof.
  intros Hfd Hnode.
  pose proof Hfd as [Hok (ndn & fromStr & Hn & Hnb & Hfield & Hfk & Hpx) Hkne Hbr Hnl Hf Hd Hca].
  unfold pass_proxy. run_with (GetProxy_run h node nd Hnode). run_with (GetProxy_run h n ndn Hn).
  assert (∃ h', (Ok tt, h) = (Ok tt, h') ∧ folder h' l cs tbl ∧ hp_nprs h' = hp_nprs h ∧ hp_revs h' = hp_revs h ∧
    hp_branches h' = hp_branches h ∧ env_like h h' ∧ beside h h') as Hsame.
  { exists h. repeat (split; [done|]). split; [by apply env_like_grows | done]. }
  destruct (nd_Proxy nd) as [?|] eqn:Hndp; [done|]. destruct (nd_Proxy ndn) as [p|] eqn:Hp; [|done].
  destruct (Hpx p eq_refl) as [px Hpx']. run_with (get_proxy_run h p px Hpx'). case_decide; [|done].
  unfold SetProxy. run_with (get_node_run h node nd Hnode). unfold put_node, modify.
  set (nd' := mkNode (nd_Root nd) (nd_Type nd) (nd_Branches nd) (Some p)).
  exists (set_nodes (<[node := nd']> (hp_nodes h)) h). split; [done|].
  split; [|repeat (split; [done|]); split].
  3: { apply (beside_proxy b name h node nd nd' Hok Hnode); [done..|]. intros p' [= <-]. by exists px. }
  2: { split; [by apply roots_same | | done]. simpl. intros x y Hx. destruct (decide (x = node)) as [->|Hne].
       - exists nd'. rewrite lookup_insert_eq. assert (y = nd) as -> by congruence. by rewrite Hndp.
       - exists y. by rewrite lookup_insert_ne. }
  split; simpl; try done.
  - by apply (put_node_ok h node nd nd').
  - destruct (decide (node = n)) as [->|Hne].
    + exists nd', fromStr. rewrite lookup_insert_eq. assert (ndn = nd) as -> by congruence.
      split; [done|]. split; [done|]. split; [done|]. split; [done|]. intros p' [= <-]. by exists px.
    + exists ndn, fromStr. rewrite lookup_insert_ne; [by rewrite Hp | congruence].
  - eapply Forall2_impl; [exact Hf|]. intros c km (cn & cb & cd & H1 & H2 & H3 & H4 & H5 & H6 & H7 & H8 & H9).
    destruct (decide (node = br_Node cb)) as [->|Hne].
    + exists cn, cb, nd'. simpl. rewrite lookup_insert_eq. assert (cd = nd) as -> by congruence. done.
    + exists cn, cb, cd. simpl. by rewrite lookup_insert_ne.
Qed.

(** The data has another hash than that of the child, and so has the child with
    it. *)
Definition changes_hash h (c : nat) (data : Msg) : Prop := ∀ cn, npr_at h c = Some cn →
  hashData (np_Root cn) data ≠ cf_Hash (np_Config cn) ∧
  content_hash h (mkNPR (np_Root cn) (mkData 0 data (hashData (np_Root cn) data)) (copy_children (np_Children cn))
    EmptyString O (np_Name cn) 0) ≠ np_Hash cn.

(** It can be evaluated. *)
Lemma changes_hash_eval h c data :
  match npr_at h c with
  | Some cn =>
      negb (bool_decide (hashData (np_Root cn) data = cf_Hash (np_Config cn))) &&
      negb (bool_decide (content_hash h (mkNPR (np_Root cn) (mkData 0 data (hashData (np_Root cn) data))
        (copy_children (np_Children cn)) EmptyString O (np_Name cn) 0) = np_Hash cn))
  | None => true
  end = true → changes_hash h c data.
Proof.
  intros Hb cn Hcn. rewrite Hcn in Hb. apply andb_true_iff in Hb as [H1 H2].
  apply negb_true_iff, bool_decide_eq_false in H1. by apply negb_true_iff, bool_decide_eq_false in H2.
Qed.

(** The node of an entry gets a new revision, which is the latest one and in the
    cache. *)
Lemma doUpdate_run h c k old cn cb data :
  heap_ok h → child_of h c (k, old) → npr_at h c = Some cn → hp_branches h !! np_Branch cn = Some cb →
  msg_type data = ct → msg_String old ≠ msg_String data → changes_hash h c data →
  ∃ c' h1 h2 cn', doUpdate (br_Node cb) (np_Branch cn) data h = (Ok (Some c'), h2) ∧
    grows h h1 ∧ hp_revs h !! c' = None ∧ latest_set h1 h2 (np_Branch cn) c' ∧
    npr_at h2 c' = Some cn' ∧ cf_Data (np_Config cn') = data ∧ np_Name cn' = entry_name name k ∧
    np_Branch cn' = np_Branch cn ∧ np_Hash cn' ≠ np_Hash cn ∧ np_lastUpdate cn' = hp_now h ∧
    (∀ p np, npr_at h p = Some np → npr_at h2 p = Some np) ∧
    hp_cache h2 = <[entry_name name k := c']> (hp_cache h) ∧ beside h h2.
Proof.
  intros Hok (cn0 & cb0 & nd & H1 & H2 & H3 & H4 & H5 & H6 & H7 & H8 & H9 & H10 & H11) Hcn Hcb Htype Hne Hch.
  assert (cn0 = cn) as -> by congruence. assert (cb0 = cb) as -> by congruence. simpl in H2, H3.
  destruct (Hch cn Hcn) as [Hh1 Hh2]. pose proof Hcn as Hrc. apply bind_Some in Hrc as (rc & Hrc & Hnrc).
  unfold doUpdate. run_with (get_node_run h _ nd H8). rewrite decide_False; [|by rewrite Htype H10; intros ?].
  run_with (latest_of_run h _ cb c Hcb H7). run_with (GetData_run h c cn Hcn). rewrite H2. rewrite decide_False; [|done].
  destruct (UpdateData_run h c rc cn data (np_Branch cn) cb c cn Hok Hrc Hcn Hh1 Hcb H7 Hcn)
    as (c' & h1 & cn' & Hud & Hok1 & Hg & Hfc & Hc' & Hd' & Hn' & Hb' & Hhash & r' & Hr' & _ & Hfr).
  run_with Hud. run_with (GetData_run h1 c' cn' Hc'). rewrite Hd'.
  assert (hp_nprs h1 !! rv_npr r' = Some cn') as Hnr' by (unfold npr_at in Hc'; by rewrite Hr' in Hc').
  pose proof (lookup_weaken _ _ _ _ Hcb (gr_branches _ _ Hg)) as Hcb1.
  pose proof (lookup_weaken _ _ _ _ H8 (gr_nodes _ _ Hg)) as Hnd1.
  assert (np_Hash cn' ≠ np_Hash cn) as Hhh by (rewrite Hhash; exact Hh2).
  destruct (makeLatest_new h1 (br_Node cb) nd (np_Branch cn) cb c' r' cn' [mkChange PostUpdate (DataOf old) (DataOf data)]
    Hok1 Hnd1 Hcb1 Hr' Hnr') as (h2 & Hml & Hs & _ & Hnamed).
  { intros x. rewrite H7. intros [= <-]. exists cn. split; [by eapply grows_npr_at | done]. }
  destruct Hnamed as [Hnp2 Hca2]. { rewrite Hn' H3. by destruct name_segment, name. }
  run_with Hml. exists c', h1, h2, (set_np_lastUpdate (hp_now h1) cn').
  pose proof (gr_rest _ _ Hg) as Hrest. injection Hrest as _ _ Hca1 _ Hnow _.
  split; [done|]. split; [done|]. split; [done|]. split; [done|].
  split; [unfold npr_at; rewrite (ls_revs _ _ _ _ Hs) Hnp2 Hr'; apply lookup_insert_eq|].
  split; [done|]. split; [by rewrite /= Hn' H3|]. split; [done|]. split; [done|].
  split; [done|].
  assert (∀ p np, npr_at h p = Some np → npr_at h2 p = Some np) as Hkeep.
  2: { split; [done|]. split; [by rewrite Hca2 Hca1 Hn' H3|].
       eapply (beside_updated b name h h1 h2 (np_Branch cn) cb c cn c' k); try done. by rewrite Hca2 Hca1 Hn' H3. }
  intros p np Hp. pose proof (grows_npr_at _ _ _ _ Hg Hp) as Hp1. apply bind_Some in Hp as (rp & Hrp & Hnrp).
  apply bind_Some in Hp1 as (rp1 & Hrp1 & Hnrp1). unfold npr_at. rewrite (ls_revs _ _ _ _ Hs) Hnp2 Hrp1. simpl.
  rewrite lookup_insert_ne; [done|]. intros E.
  assert (rp1 = rp) as -> by (pose proof (lookup_weaken _ _ _ _ Hrp (gr_revs _ _ Hg)); congruence). congruence.
Qed.

Lemma ChildDrop_none h q qn cs hash :
  npr_at h q = Some qn → default [] (children_of qn name) = Some <$> cs →
  (∀ e, e ∈ cs → ∃ en, npr_at h e = Some en ∧ np_Hash en ≠ hash) → ChildDrop q name hash h = (Ok tt, h).
Proof.
  intros Hq Hcs Hno. unfold ChildDrop, drop_child. rewrite decide_False; [|by destruct name_segment].
  run_with (GetChildren_run h q qn name Hq). rewrite Hcs.
  assert (∀ i, first_child GetHash hash (Some <$> cs) i h = (Ok None, h)) as Hfc.
  { clear Hcs. induction cs as [|e cs IH]; intros i; simpl; [done|].
    destruct (Hno e (list_elem_of_here _ _)) as (en & Hen & Hne). unfold sbind at 1. simpl.
    run_with (GetHash_run h e en Hen). rewrite decide_False; [|done]. apply IH. intros e' He'. apply Hno. set_solver. }
  by run_with (Hfc 0%nat).
Qed.

(** The children [cs'] take the place of [cs], with the same names. *)
Lemma replace_in_parent_run h l nl cs cs' tbl' c cn :
  heap_ok h → node_in h → key ≠ EmptyString →
  (∃ br, hp_branches h !! b = Some br ∧ br_Txid br = EmptyString ∧ br_Latest br = Some l) →
  npr_at h l = Some nl → np_Name nl = EmptyString → np_Branch nl = b →
  default [] (children_of nl name) = Some <$> cs → NoDup (name_at h <$> cs) → (name_at h <$> cs') = (name_at h <$> cs) →
  (∀ e, e ∈ cs' → replaces h cs e) → Forall2 (child_of h) cs' tbl' → NoDup tbl'.*1 → cache_in h tbl' →
  npr_at h c = Some cn → (∀ e en, e ∈ cs' → npr_at h e = Some en → np_Hash en ≠ np_Hash cn) →
  ∃ h', replace_in_parent n b l name (Some <$> cs') c h = (Ok tt, h') ∧
    (∀ p np, npr_at h p = Some np → npr_at h' p = Some np) ∧ heap_ok h' ∧ env_like h h' ∧ hp_cache h' = hp_cache h ∧ beside h h' ∧
    ((∃ q, q ≠ l ∧ folder h' q cs' tbl') ∨ collided h' l).
Proof.
  intros Hok Hnode Hk (br & Hbr & Ht & Hl) Hnl Hlname Hlb Hcs Hd Hnames Hrep Hf Hdt Hca Hcn Hdist.
  pose proof Hnl as Hrl. apply bind_Some in Hrl as (rl & Hrl & _).
  destruct (UpdateChildren_run h l rl nl name b br l nl cs cs' Hok Hrl Hnl Hbr Hl Hnl Hcs Hd)
    as (q & h1 & qn & Huc & Hok1 & Hg1 & Hfq & Hq & Hqname & Hqb & Hqc & _).
  { intros e He. rewrite Hnames. by apply list_elem_of_fmap_2. }
  { intros e He. split; [|by apply Hrep]. apply list_elem_of_lookup in He as [j Hj].
    destruct (Forall2_lookup_l _ _ _ _ _ Hf Hj) as (km & _ & Hekm). by eapply child_of_rev. }
  unfold replace_in_parent. run_with Huc.
  assert (q ≠ l) as Hql by (intros ->; congruence).
  pose proof (gr_rest _ _ Hg1) as Hrest. injection Hrest as Hpx1 _ Hca1 _ _ _.
  assert (node_in h1) as Hnode1.
  { destruct Hnode as (nd & fs & Hn & Hrest). exists nd, fs. rewrite Hpx1.
    split; [exact (lookup_weaken _ _ _ _ Hn (gr_nodes _ _ Hg1)) | done]. }
  assert (hp_branches h1 !! b = Some br) as Hbr1 by exact (lookup_weaken _ _ _ _ Hbr (gr_branches _ _ Hg1)).
  pose proof Hnode1 as (nd1 & _ & Hn1 & _).
  destruct (settle_folder h1 q qn l nd1 [] Hok1 Hn1) as (h2 & Hml & Hnp2 & Hca2 & Hcase & Hbeside).
  { by exists br. }
  { exists nl. by eapply grows_npr_at. }
  { done. }
  { done. }
  { by rewrite Hqname. }
  run_with Hml.
  assert (∀ p np, npr_at h p = Some np → npr_at h2 p = Some np) as Hkeep.
  { intros p np Hp. destruct Hcase as [Hs|[Hs _]]; eapply latest_npr_at; [done..| |done|done|]; by eapply grows_npr_at. }
  assert (npr_at h2 q = Some qn) as Hq2 by (destruct Hcase as [Hs|[Hs _]]; by eapply latest_npr_at).
  run_with (GetHash_run h2 c cn (Hkeep _ _ Hcn)).
  assert (default [] (children_of qn name) = Some <$> cs') as Hqcs by (unfold children_of; by rewrite Hqc lookup_insert_eq).
  rewrite (ChildDrop_none h2 q qn cs' (np_Hash cn) Hq2 Hqcs).
  2: { intros e He. pose proof He as [j Hj]%list_elem_of_lookup. destruct (Forall2_lookup_l _ _ _ _ _ Hf Hj) as (km & _ & Hekm).
       destruct (child_of_npr _ _ _ Hekm) as [en Hen]. exists en. split; [by apply Hkeep | by eapply Hdist]. }
  exists h2. split; [done|]. split; [done|].
  split; [destruct Hcase as [Hs|[Hs _]]; exact (ls_ok _ _ _ _ Hs)|].
  split; [eapply env_like_trans; [by apply env_like_grows | destruct Hcase as [Hs|[Hs _]]; by eapply env_like_latest]|].
  split; [by rewrite Hca2|].
  split.
  { etrans; [by apply (beside_grows b name h h1)|]. apply (Hbeside nl); [by eapply grows_npr_at|].
    eapply same_others_children; [done | congruence | exact Hqc]. }
  destruct Hcase as [Hs|[Hs Hcol]]; [|by right].
  left. exists q. split; [done|]. eapply (folder_latest h1 h2 q qn); try done.
  - by exists br.
  - by rewrite Hqname.
  - eapply Forall2_impl; [exact Hf|]. intros e km. by apply child_of_grows.
  - intros k p. rewrite Hca1. intros Hp. destruct (Hca k p Hp) as (m & np & Hin & Hnp & Hm). exists m, np.
    split; [done|]. split; [by eapply grows_npr_at | done].
Qed.

(** No other entry has the hash of [c]. *)
Definition distinct_hash h (cs : list nat) (c : nat) : Prop := ∀ e en cn,
  e ∈ cs → e ≠ c → npr_at h e = Some en → npr_at h c = Some cn → np_Hash en ≠ np_Hash cn.

Lemma in_insert {A} (l : list A) i x y : y ∈ <[i := x]> l → y = x ∨ ∃ j, j ≠ i ∧ l !! j = Some y.
Proof.
  intros [j Hj]%list_elem_of_lookup. destruct (decide (j = i)) as [->|Hne].
  - left. apply list_lookup_insert_Some in Hj as [(_ & ? & _)|(? & _)]; [done | done].
  - right. exists j. by rewrite list_lookup_insert_ne in Hj.
Qed.

(** After the update of the node of the entry, the other entries are as they
    were, and the entry has its new revision. *)
Lemma updated_children h h1 h2 cs tbl idx c c' k old data cn cn' cb :
  Forall2 (child_of h) cs tbl → cs !! idx = Some c → tbl !! idx = Some (k, old) →
  npr_at h c = Some cn → hp_branches h !! np_Branch cn = Some cb →
  grows h h1 → latest_set h1 h2 (np_Branch cn) c' → (∀ p np, npr_at h p = Some np → npr_at h2 p = Some np) →
  npr_at h2 c' = Some cn' → cf_Data (np_Config cn') = data → np_Name cn' = entry_name name k →
  np_Branch cn' = np_Branch cn → key_of data k → NoDup tbl.*1 →
  Forall2 (child_of h2) (<[idx := c']> cs) (<[idx := (k, data)]> tbl).
Proof.
  intros Hf Hc Hkm Hcn Hcb Hg Hs Hkeep Hc' Hd Hname Hb Hkey Hnd.
  pose proof (Forall2_lookup_lr _ _ _ _ _ _ Hf Hc Hkm) as (cn0 & cb0 & nd & H1 & H2 & H3 & H4 & H5 & H6 & H7 & H8 & H9 & H10 & _).
  assert (cn0 = cn) as -> by congruence. assert (cb0 = cb) as -> by congruence.
  assert (hp_nodes h2 !! br_Node cb = Some nd) as Hnd2.
  { rewrite (ls_nodes _ _ _ _ Hs). exact (lookup_weaken _ _ _ _ H8 (gr_nodes _ _ Hg)). }
  apply Forall2_same_length_lookup. split; [rewrite !length_insert; by eapply Forall2_length|].
  intros j e km He Hk. destruct (decide (j = idx)) as [->|Hne].
  - apply list_lookup_insert_Some in He as [(_ & <- & _)|(? & _)]; [|done].
    apply list_lookup_insert_Some in Hk as [(_ & <- & _)|(? & _)]; [|done].
    destruct (ls_branch _ _ _ _ Hs cb) as (cb' & Hcb' & E1 & E2 & E3).
    { exact (lookup_weaken _ _ _ _ Hcb (gr_branches _ _ Hg)). }
    exists cn', cb', nd. rewrite Hb E1 E2 E3. by repeat (split; [done|]).
  - rewrite list_lookup_insert_ne in He; [|done]. rewrite list_lookup_insert_ne in Hk; [|done].
    pose proof (Forall2_lookup_lr _ _ _ _ _ _ Hf He Hk) as (en & eb & end_ & G1 & G2 & G3 & G4 & G5 & G6 & G7 & G8 & G9).
    exists en, eb, end_. split; [by apply Hkeep|]. repeat (split; [done|]).
    assert (np_Branch en ≠ np_Branch cn) as Hdiff.
    { intros E. rewrite E in G5. assert (eb = cb) as -> by congruence. assert (e = c) as -> by congruence. assert (en = cn) as -> by congruence.
      destruct km as [k' m']. simpl in G3. rewrite H3 in G3. simpl in G3. apply entry_name_inj in G3 as <-.
      apply Hne. eapply (NoDup_lookup tbl.*1 j idx k Hnd); rewrite list_lookup_fmap; [by rewrite Hk | by rewrite Hkm]. }
    split; [rewrite (ls_others _ _ _ _ Hs); [exact (lookup_weaken _ _ _ _ G5 (gr_branches _ _ Hg)) | done]|].
    repeat (split; [done|]).
    split; [rewrite (ls_nodes _ _ _ _ Hs); exact (lookup_weaken _ _ _ _ G8 (gr_nodes _ _ Hg)) | done].
Qed.

(** ** The operations on the path of an entry *)

Lemma node_Add_run h l cs tbl fuel data r h' :
  folder h l cs tbl → add_child n b l name key data h = (Ok r, h') →
  node_Add makeBranch EmptyString (S fuel) n (folder_path name) data h = (Ok r, h').
Proof.
  intros [Hok (nd & fromStr & Hn & Hb & Hfield & _) Hkne (br & Hbr & _ & Hl) _ _ _ _] Hadd.
  cbn [node_Add]. rewrite trim_folder; [|done].
  destruct name_segment as [Hne Hs]. rewrite decide_False; [|done].
  run_with (operation_branch_run h nd b n Hn Hb). rewrite SplitN_plain; [|done].
  run_with (get_node_run h n nd Hn). rewrite Hfield. unfold sbind at 1. simpl.
  rewrite bool_decide_eq_false_2; [|done]. run_with (latest_of_run h b br l Hbr Hl). exact Hadd.
Qed.

(** The first part of an update or a removal: the entry is looked up. *)
Lemma find_entry h l cs tbl k :
  folder h l cs tbl →
  ∃ nd fromStr nl br, hp_nodes h !! n = Some nd ∧ nd_Branches nd !! NONE = Some b ∧
    ChildrenFields (nd_Type nd) !! name = Some (mkChildType ct true key fromStr) ∧ fromStr k = KeyString k ∧
    hp_branches h !! b = Some br ∧ br_Latest br = Some l ∧ npr_at h l = Some nl ∧
    default [] (children_of nl name) = Some <$> cs ∧
    findRevByKey (Some <$> cs) key (KeyString k) h =
      (Ok (match table_index tbl k with Some j => (λ c, (j, c)) <$> cs !! j | None => None end), h).
Proof.
  intros [Hok (nd & fromStr & Hn & Hb & Hfield & Hkey & _) Hkne (br & Hbr & _ & Hl) (nl & Hnl & _ & _ & Hcs) Hf Hd _].
  exists nd, fromStr, nl, br. rewrite Hkey. repeat (split; [done|]). unfold findRevByKey. simpl.
  destruct (find_rev_run h cs tbl k 0 Hf) as (found & Hrun & Hm). rewrite Hrun. f_equal. f_equal.
  destruct (table_index tbl k) as [j|]; [|done]. by destruct Hm as (c & -> & ->).
Qed.

Lemma node_Remove_run h l cs tbl fuel idx c k m r h' :
  folder h l cs tbl → segment k → cs !! idx = Some c → tbl !! idx = Some (k, m) →
  remove_child EmptyString n b l name (Some <$> cs) idx c h = (Ok r, h') →
  node_Remove makeBranch EmptyString (S fuel) n (entry_path name k) h = (Ok r, h').
Proof.
  intros Hfd [Hk1 Hk2] Hc Hkm Hrem.
  destruct (find_entry h l cs tbl k Hfd) as (nd & fs & nl & br & Hn & Hb & Hfield & Hfs & Hbr & Hl & Hnl & Hcs & Hfind).
  rewrite (table_index_at tbl k idx m (fd_keys _ _ _ _ Hfd) Hkm) Hc in Hfind.
  unfold node_Remove. rewrite trim_entry; [|done].
  run_with (operation_branch_run h nd b n Hn Hb). unfold entry_name. rewrite SplitN_join; [|apply name_segment].
  run_with (get_node_run h n nd Hn). rewrite Hfield. unfold sbind at 1. simpl.
  rewrite bool_decide_eq_false_2; [|done]. rewrite bool_decide_eq_false_2; [|by apply (fd_key _ _ _ _ Hfd)]. simpl.
  rewrite SplitN_plain; [|done]. run_with (latest_of_run h b br l Hbr Hl). run_with (GetChildren_run h l nl name Hnl).
  rewrite Hcs Hfs. run_with Hfind. exact Hrem.
Qed.

(** The update of the node of an entry. *)
Lemma node_Update_child h fuel c km cn cb data r h' :
  child_of h c km → npr_at h c = Some cn → hp_branches h !! np_Branch cn = Some cb →
  doUpdate (br_Node cb) (np_Branch cn) data h = (Ok r, h') →
  node_Update makeBranch EmptyString (S fuel) (br_Node cb) EmptyString data h = (Ok r, h').
Proof.
  intros (cn0 & cb0 & nd & H1 & _ & _ & _ & H5 & _ & _ & H8 & H9 & _) Hcn Hcb Hdo.
  assert (cn0 = cn) as -> by congruence. assert (cb0 = cb) as -> by congruence.
  simpl. by run_with (operation_branch_run h nd (np_Branch cn) _ H8 H9).
Qed.


(** The name is given again. *)
Lemma SetName_same h c cn : npr_at h c = Some cn → SetName c (np_Name cn) h = (Ok tt, h).
Proof.
  intros Hc. pose proof Hc as (r & Hr & Hn)%bind_Some. unfold SetName. rewrite (update_npr_run h c r cn _ Hr Hn).
  rewrite insert_id; [by destruct h|]. rewrite Hn. by destruct cn.
Qed.

(** The rest of an update once the node of the entry has its new revision. *)
Lemma finish_update h h1 h2 l cs tbl idx c c' k old data cn cn' cb :
  folder h l cs tbl → cs !! idx = Some c → tbl !! idx = Some (k, old) → key_of data k →
  msg_String old ≠ msg_String data → distinct_hash h cs c →
  npr_at h c = Some cn → hp_branches h !! np_Branch cn = Some cb →
  grows h h1 → hp_revs h !! c' = None → latest_set h1 h2 (np_Branch cn) c' →
  npr_at h2 c' = Some cn' → cf_Data (np_Config cn') = data → np_Name cn' = entry_name name k →
  np_Branch cn' = np_Branch cn → np_Hash cn' ≠ np_Hash cn →
  (∀ p np, npr_at h p = Some np → npr_at h2 p = Some np) → hp_cache h2 = <[entry_name name k := c']> (hp_cache h) →
  ∃ h', replace_in_parent n b l name (Some <$> <[idx := c']> cs) c h2 = (Ok tt, h') ∧
    (∀ p np, npr_at h2 p = Some np → npr_at h' p = Some np) ∧ heap_ok h' ∧ env_like h2 h' ∧ hp_cache h' = hp_cache h2 ∧ beside h2 h' ∧
    ((∃ q, q ≠ l ∧ folder h' q (<[idx := c']> cs) (<[idx := (k, data)]> tbl)) ∨ collided h' l).
Proof.
  intros Hfd Hc Hkm Hkey Hstr Hdist Hcn Hcb Hg Hfc Hs Hc' Hd Hname Hb Hhash Hkeep Hcache.
  pose proof Hfd as [Hok (nd & fs & Hn & Hnb & Hfield & Hfs & Hpx) Hkne (br & Hbr & Ht & Hl) (nl & Hnl & Hlname & Hlb & Hcs) Hf Hdk Hca].
  pose proof (Forall2_lookup_lr _ _ _ _ _ _ Hf Hc Hkm) as Hchild.
  pose proof (updated_children h h1 h2 cs tbl idx c c' k old data cn cn' cb Hf Hc Hkm Hcn Hcb Hg Hs Hkeep Hc' Hd Hname Hb Hkey Hdk) as Hf2.
  assert (np_Branch cn ≠ b) as Hbne by (destruct Hchild as (x & _ & _ & Hx & _ & _ & ? & _); congruence).
  assert (∀ e, e ∈ cs → name_at h2 e = name_at h e ∧ ∃ en, npr_at h e = Some en ∧ npr_at h2 e = Some en) as Hold.
  { intros e He. destruct (in_folder h cs tbl e Hf He) as (km & _ & Hekm). destruct (child_of_npr _ _ _ Hekm) as [en Hen].
    split; [unfold name_at; by rewrite Hen (Hkeep _ _ Hen) | by exists en; split; [|apply Hkeep]]. }
  assert (name_at h2 <$> cs = name_at h <$> cs) as Hnames by (apply list_fmap_ext; intros i e Hi; apply Hold; by eapply list_elem_of_lookup_2).
  assert (name_at h2 c' = name_at h2 c) as Hsame.
  { destruct (Hold c ltac:(by eapply list_elem_of_lookup_2)) as [-> _]. rewrite (child_of_name _ _ _ Hchild). unfold name_at. by rewrite Hc'. }
  apply (replace_in_parent_run h2 l nl cs (<[idx := c']> cs) (<[idx := (k, data)]> tbl) c cn); try done.
  - exact (ls_ok _ _ _ _ Hs).
  - exists nd, fs. rewrite (ls_nodes _ _ _ _ Hs).
    pose proof (gr_rest _ _ Hg) as R1. injection R1 as R1 _ _ _ _ _. pose proof (ls_rest _ _ _ _ Hs) as R2. injection R2 as R2 _ _ _ _ _.
    rewrite R2 R1. split; [exact (lookup_weaken _ _ _ _ Hn (gr_nodes _ _ Hg)) | done].
  - exists br. rewrite (ls_others _ _ _ _ Hs); [|done]. split; [exact (lookup_weaken _ _ _ _ Hbr (gr_branches _ _ Hg)) | done].
  - by apply Hkeep.
  - rewrite Hnames. by eapply names_nodup.
  - rewrite list_fmap_insert Hsame. apply list_insert_id. by rewrite list_lookup_fmap Hc.
  - intros e [->|(j & Hj & He)]%in_insert.
    + exists cn'. split; [done|]. intros e' He' Hn'. right.
      assert (e' = c) as ->.
      { eapply (same_name h cs tbl c e'); [done..|by eapply list_elem_of_lookup_2 | done|].
        destruct (Hold e' He') as [<- _]. rewrite Hn' (child_of_name _ _ _ Hchild). done. }
      exists cn. split; [by apply Hkeep|]. split; [done|]. rewrite Hd.
      destruct Hchild as (x & _ & _ & Hx & Hxd & _). assert (x = cn) as -> by congruence. by rewrite Hxd.
    + pose proof (list_elem_of_lookup_2 _ _ _ He) as Hin. destruct (Hold e Hin) as [Hne (en & Hen & Hen2)].
      exists en. split; [done|]. intros e' He' Hn'. left. eapply (same_name h cs tbl e e'); [done..|].
      destruct (Hold e' He') as [<- _]. rewrite Hn'. unfold name_at. by rewrite Hen.
  - rewrite list_fmap_insert list_insert_id; [done|]. by rewrite list_lookup_fmap Hkm.
  - intros k' p. rewrite Hcache. intros [[Heq <-]|[Hne Hp]]%lookup_insert_Some.
    + apply entry_name_inj in Heq as <-. exists data, cn'. split; [|done]. apply list_elem_of_lookup. exists idx.
      apply list_lookup_insert_eq. by eapply lookup_lt_Some.
    + destruct (Hca k' p Hp) as (m & np & Hin & Hnp & Hm). exists m, np. split; [|split; [by apply Hkeep | done]].
      apply list_elem_of_lookup in Hin as [j Hj]. apply list_elem_of_lookup. exists j. rewrite list_lookup_insert_ne; [done|].
      intros <-. congruence.
  - by apply Hkeep.
  - intros e en [->|(j & Hj & He)]%in_insert Hen; [congruence|].
    pose proof (list_elem_of_lookup_2 _ _ _ He) as Hin. destruct (Hold e Hin) as [_ (en' & Hen' & Hen2)].
    assert (en' = en) as -> by congruence. apply (Hdist e en cn Hin); [|done..].
    intros ->. apply Hj. eapply (NoDup_lookup (name_at h <$> cs) j idx (name_at h c)); [by eapply names_nodup | |]; by rewrite list_lookup_fmap ?He ?Hc.
Qed.

Lemma node_Update_entry h l cs tbl fuel idx c k old data :
  folder h l cs tbl → segment k → cs !! idx = Some c → tbl !! idx = Some (k, old) →
  key_of data k → msg_type data = ct → msg_String old ≠ msg_String data →
  changes_hash h c data → distinct_hash h cs c →
  ∃ c' h', node_Update makeBranch EmptyString (S (S fuel)) n (entry_path name k) data h = (Ok (Some c'), h') ∧
    (∃ cn', npr_at h' c' = Some cn' ∧ cf_Data (np_Config cn') = data ∧ np_Name cn' = entry_name name k ∧
       np_lastUpdate cn' = hp_now h) ∧
    heap_ok h' ∧ env_like h h' ∧ hp_cache h' !! entry_name name k = Some c' ∧ beside h h' ∧
    ((∃ q, q ≠ l ∧ folder h' q (<[idx := c']> cs) (<[idx := (k, data)]> tbl)) ∨ collided h' l).
Proof.
  intros Hfd [Hk1 Hk2] Hc Hkm Hkey Htype Hstr Hhash Hdist.
  destruct (find_entry h l cs tbl k Hfd) as (nd & fs & nl & br & Hn & Hb & Hfield & Hfs & Hbr & Hl & Hnl & Hcs & Hfind).
  rewrite (table_index_at tbl k idx old (fd_keys _ _ _ _ Hfd) Hkm) Hc in Hfind.
  cbn [node_Update]. rewrite trim_entry; [|done].
  run_with (operation_branch_run h nd b n Hn Hb). unfold entry_name at 1. rewrite decide_False; [|by apply join_ne].
  unfold entry_name at 1. rewrite SplitN_join; [|apply name_segment].
  run_with (get_node_run h n nd Hn). rewrite Hfield.
  rewrite decide_False; [|intros [?|?]; [done | by apply (fd_key _ _ _ _ Hfd)]]. rewrite SplitN_plain; [|done].
  run_with (latest_of_run h b br l Hbr Hl). run_with (GetChildren_run h l nl name Hnl). rewrite Hcs Hfs. run_with Hfind. simpl.
  pose proof (Forall2_lookup_lr _ _ _ _ _ _ (fd_children _ _ _ _ Hfd) Hc Hkm) as Hchild.
  pose proof Hchild as (cn & cb & cd & H1 & H2 & H3 & H4 & H5 & H6 & H7 & H8 & _).
  run_with (getNode_run h c cn cb H1 H5).
  destruct (pass_proxy_run h l cs tbl _ cd Hfd H8) as (h0 & Hpp & Hfd0 & E1 & E2 & E3 & Henv0 & Hbs0). run_with Hpp.
  assert (∀ p, npr_at h0 p = npr_at h p) as Hnp0 by (intros p; unfold npr_at; by rewrite E1 E2).
  assert (child_of h0 c (k, old)) as Hchild0 by (eapply Forall2_lookup_lr; [apply (fd_children _ _ _ _ Hfd0) | done | done]).
  assert (npr_at h0 c = Some cn) as Hcn0 by by rewrite Hnp0.
  assert (hp_branches h0 !! np_Branch cn = Some cb) as Hcb0 by by rewrite E3.
  assert (changes_hash h0 c data) as Hhash0.
  { intros x Hx. rewrite Hnp0 in Hx. destruct (Hhash x Hx) as [Hh1 Hh2]. split; [done|].
    by rewrite (content_hash_ext h h0 _ Hnp0). }
  assert (distinct_hash h0 cs c) as Hdist0.
  { intros e en x He Hne Hen Hx. rewrite Hnp0 in Hen. rewrite Hnp0 in Hx. by apply (Hdist e). }
  destruct (doUpdate_run h0 c k old cn cb data (fd_ok _ _ _ _ Hfd0) Hchild0 Hcn0 Hcb0 Htype Hstr Hhash0)
    as (c' & h1 & h2 & cn' & Hdo & Hg & Hfc & Hs & Hc' & Hd' & Hname' & Hb' & Hhh & Hlast & Hkeep & Hcache & Hbs2).
  assert (not_nil_result (node_Update makeBranch EmptyString (S fuel) (br_Node cb) EmptyString data) h0 = (Ok c', h2)) as Hnn.
  { unfold not_nil_result. by rewrite (sbind_run _ _ _ _ _ (node_Update_child h0 fuel c (k, old) cn cb data _ _ Hchild0 Hcn0 Hcb0 Hdo)). }
  run_with Hnn. run_with (GetHash_run h2 c' cn' Hc'). run_with (GetHash_run h2 c cn (Hkeep _ _ Hcn0)).
  rewrite decide_False; [|done]. change (name +:+ "/" +:+ k) with (entry_name name k). rewrite -Hname'.
  run_with (SetName_same h2 c' cn' Hc').
  destruct (finish_update h0 h1 h2 l cs tbl idx c c' k old data cn cn' cb) as (h' & Hrun & Hkeep' & Hok' & Henv' & Hca' & Hbs' & Hcase); [done..|].
  unfold replace_child. rewrite -list_fmap_insert. run_with Hrun. exists c', h'. split; [done|].
  pose proof (el_rest _ _ Henv0) as Hrest. injection Hrest as _ _ Hnow.
  split; [exists cn'; rewrite Hlast Hnow; split; [by apply Hkeep' | done]|].
  split; [done|]. split; [|split; [by rewrite Hca' Hcache Hname' lookup_insert_eq |]].
  2: { split; [|done]. etrans; [exact Hbs0|]. by etrans. }
  eapply env_like_trans; [done|]. eapply env_like_trans; [by apply env_like_grows|].
  eapply env_like_trans; [by eapply env_like_latest | done].
Qed.

(** *** The table *)

Inductive FolderOp := OpAdd (k : string) (data : Msg) | OpUpdate (k : string) (data : Msg) | OpRemove (k : string).

(** The operation on the tree. *)
Definition node_op (op : FolderOp) : M Heap (option nat) :=
  match op with
  | OpAdd _ data =>
      node_Add makeBranch EmptyString (S (String.length (folder_path name))) n (folder_path name) data
  | OpUpdate k data =>
      node_Update makeBranch EmptyString (S (String.length (entry_path name k))) n (entry_path name k) data
  | OpRemove k =>
      node_Remove makeBranch EmptyString (S (String.length (entry_path name k))) n (entry_path name k)
  end.

(** The operation on the table. *)
Definition table_op (op : FolderOp) (t : gmap string Msg) : gmap string Msg :=
  match op with OpAdd k data | OpUpdate k data => <[k := data]> t | OpRemove k => delete k t end.

(** A new entry is added; an entry that is there is updated with other data, or
    removed. *)
Definition op_ok h (cs : list nat) tbl (op : FolderOp) : Prop :=
  match op with
  | OpAdd k data => key_of data k ∧ msg_type data = ct ∧ k ∉ tbl.*1
  | OpUpdate k data => segment k ∧ key_of data k ∧ msg_type data = ct ∧
      ∃ idx c old, cs !! idx = Some c ∧ tbl !! idx = Some (k, old) ∧ msg_String old ≠ msg_String data ∧
        changes_hash h c data ∧ distinct_hash h cs c
  | OpRemove k => segment k ∧ k ∈ tbl.*1
  end.

Lemma table_delete tbl idx k m :
  NoDup tbl.*1 → tbl !! idx = Some (k, m) →
  (list_to_map (delete_at idx tbl) : gmap string Msg) = delete k (list_to_map tbl).
Proof.
  intros Hd Hidx. pose proof (delete_at_Permutation idx (k, m) tbl Hidx) as Hp.
  rewrite (list_to_map_proper tbl _ Hd Hp). simpl. rewrite delete_insert_eq delete_id; [done|].
  apply not_elem_of_list_to_map_1. rewrite Hp in Hd. simpl in Hd. by apply NoDup_cons in Hd as [? _].
Qed.

Lemma table_insert tbl idx k old data :
  NoDup tbl.*1 → tbl !! idx = Some (k, old) →
  (list_to_map (<[idx := (k, data)]> tbl) : gmap string Msg) = <[k := data]> (list_to_map tbl).
Proof.
  intros Hd Hidx. assert (idx < length tbl)%nat as Hlt by by eapply lookup_lt_Some.
  assert (<[idx := (k, data)]> tbl ≡ₚ (k, data) :: delete_at idx tbl) as Hp.
  { rewrite insert_take_drop; [|done]. unfold delete_at. by rewrite Permutation_middle. }
  assert (NoDup (<[idx := (k, data)]> tbl).*1) as Hd'.
  { rewrite list_fmap_insert list_insert_id; [done|]. by rewrite list_lookup_fmap Hidx. }
  rewrite (list_to_map_proper _ _ Hd' Hp). simpl. by rewrite (table_delete tbl idx k old Hd Hidx) insert_delete_eq.
Qed.

(** The children of a node refine a finite map: an operation on a path of the
    tree returns a revision and does to the table what it does to the map, unless
    the hash of the new revision of the node is the hash of the previous one. *)
Theorem folder_refines `{!SchemaLaws Msg} h l cs tbl op :
  folder h l cs tbl → op_ok h cs tbl op →
  ∃ r h', node_op op h = (Ok (Some r), h') ∧
    (collided h' l ∨ ∃ l' cs' tbl', folder h' l' cs' tbl' ∧
       (list_to_map tbl' : gmap string Msg) = table_op op (list_to_map tbl)).
Proof.
  intros Hfd Hop. destruct op as [k data|k data|k]; simpl in Hop; unfold node_op, table_op.
  - destruct Hop as (Hkey & Htype & Hnew).
    destruct (add_child_run h l cs tbl data k Hfd Hkey Htype Hnew) as (c & h' & Hrun & _ & _ & _ & Hcase).
    exists c, h'. split; [by eapply node_Add_run|]. destruct Hcase as [(q & _ & Hq)|[_ Hcol]]; [right | by left].
    exists q, (cs ++ [c]), (tbl ++ [(k, data)]). split; [done|]. rewrite list_to_map_snoc; [done|].
    by apply Hnew.
  - destruct Hop as (Hk & Hkey & Htype & idx & c & old & Hc & Hkm & Hstr & Hh & Hdist).
    destruct (node_Update_entry h l cs tbl (String.length (entry_name name k)) idx c k old data Hfd Hk Hc Hkm Hkey Htype Hstr Hh Hdist)
      as (c' & h' & Hrun & _ & _ & _ & _ & _ & Hcase).
    exists c', h'. split; [exact Hrun|]. destruct Hcase as [(q & _ & Hq)|Hcol]; [right | by left].
    eexists q, _, _. split; [exact Hq|]. apply (table_insert tbl idx k old data (fd_keys _ _ _ _ Hfd) Hkm).
  - destruct Hop as [Hk Hin]. apply list_elem_of_fmap in Hin as ([k' m] & Heq & Hin). simpl in Heq. subst k'.
    apply list_elem_of_lookup in Hin as [idx Hkm].
    destruct (Forall2_lookup_r _ _ _ _ _ (fd_children _ _ _ _ Hfd) Hkm) as (c & Hc & _).
    destruct (remove_child_run h l cs tbl idx c k m Hfd Hc Hkm) as (h' & Hrun & Hfd' & _).
    exists l, h'. split; [by eapply node_Remove_run|]. right. eexists l, _, _. split; [exact Hfd'|].
    by apply (table_delete tbl idx k m (fd_keys _ _ _ _ Hfd)).
Qed.
End Table.
