(* ===== verification/ModelProxy.v ===== *)
(** * The data model: reading back what was written

    A proxy of the whole tree, as the managers use it: an entry that was updated
    is read back. *)

From S2P Require Import Prelude ModelTree ModelMerge ModelNode ModelRoot ModelFacts ModelPaths ModelTable.

Section Proxy.
Context {Msg KV : Type} `{HS : Schema Msg, HB : Backend KV, HG : GoRange}.
Notation Heap := (Heap Msg KV).
Notation NPR := (NonPersistedRevision Msg).
Implicit Types (h : Heap).
Context (n b : nat) (name key ct : string).
Notation folder := (folder n b name key ct).
Notation collided := (collided b).
Notation beside := (beside b name).

(** ** What does not matter to a folder *)

(** The embedded revisions are the same but for their hashes. *)
Definition npr_like (np np' : NPR) : Prop :=
  np_Config np' = np_Config np ∧ np_Name np' = np_Name np ∧ np_Branch np' = np_Branch np ∧
  np_Children np' = np_Children np ∧ np_lastUpdate np' = np_lastUpdate np.

Record tree_like h h' : Prop := mkTreeLike {
  tl_ok : heap_ok h → heap_ok h';
  tl_npr : ∀ p np, npr_at h p = Some np → ∃ np', npr_at h' p = Some np' ∧ npr_like np np';
  tl_branches : hp_branches h' = hp_branches h;
  tl_nodes : hp_nodes h' = hp_nodes h;
  tl_proxies : ∀ p px, hp_proxies h !! p = Some px → ∃ px', hp_proxies h' !! p = Some px' ∧
    px_Root px' = px_Root px ∧ px_Path px' = px_Path px ∧ px_FullPath px' = px_FullPath px;
  tl_roots : roots_like h h';
  tl_now : hp_now h' = hp_now h }.

Lemma npr_like_refl np : npr_like np np.
Proof. done. Qed.

Lemma tree_like_trans h1 h2 h3 : tree_like h1 h2 → tree_like h2 h3 → tree_like h1 h3.
Proof.
  intros [A1 A2 A3 A4 A5 A6 A7] [B1 B2 B3 B4 B5 B6 B7]. split; [by auto | | congruence | congruence | | by etrans | congruence].
  - intros p np Hp. destruct (A2 p np Hp) as (np2 & Hp2 & ? & ? & ? & ? & ?). destruct (B2 p np2 Hp2) as (np3 & Hp3 & ? & ? & ? & ? & ?).
    exists np3. split; [done|]. repeat split; congruence.
  - intros p px Hp. destruct (A5 p px Hp) as (px2 & Hp2 & ? & ? & ?). destruct (B5 p px2 Hp2) as (px3 & Hp3 & ? & ? & ?).
    exists px3. repeat split; congruence.
Qed.

(** Changes outside the tree. *)
Lemma tree_like_env h h' :
  hp_next h' = hp_next h → hp_nprs h' = hp_nprs h → hp_revs h' = hp_revs h → hp_branches h' = hp_branches h →
  hp_nodes h' = hp_nodes h → hp_now h' = hp_now h → roots_like h h' →
  (∀ p px, hp_proxies h !! p = Some px → ∃ px', hp_proxies h' !! p = Some px' ∧
    px_Root px' = px_Root px ∧ px_Path px' = px_Path px ∧ px_FullPath px' = px_FullPath px) → tree_like h h'.
Proof.
  intros E1 E2 E3 E4 E5 E6 Hr Hp. split; try done.
  - intros Hok. eapply heap_ok_ext; [done..|]. intros r [rt Hrt]. destruct (Hr r rt Hrt) as (rt' & Hrt' & _). by exists rt'.
  - intros p np. unfold npr_at. rewrite E2 E3. intros Hnp. exists np. by split.
Qed.

Ltac env_tac :=
  apply tree_like_env; try done; try (by apply roots_same); try (let x := fresh in intros ? x ?; by exists x).

(** The cache may forget entries, or have others of the table. *)
Lemma folder_cached h h' l cs tbl :
  folder h l cs tbl → tree_like h h' →
  (∀ k p, hp_cache h' !! entry_name name k = Some p → hp_cache h !! entry_name name k = Some p ∨
     ∃ m np, (k, m) ∈ tbl ∧ npr_at h p = Some np ∧ cf_Data (np_Config np) = m) → folder h' l cs tbl.
Proof.
  intros [Hok (nd & fs & Hn & Hb & Hfield & Hfs & Hpx) Hk (br & Hbr & Ht & Hl) (nl & Hnl & Hname & Hnb & Hcs) Hf Hd Hca]
    [T1 T2 T3 T4 T5 T6 T7] Hcache.
  split; [by apply T1 | | done | | | | done |].
  - exists nd, fs. rewrite T4. repeat (split; [done|]). intros p Hp. destruct (Hpx p Hp) as [px Hpx'].
    destruct (T5 p px Hpx') as (px' & Hp' & _). by exists px'.
  - exists br. by rewrite T3.
  - destruct (T2 l nl Hnl) as (nl' & Hnl' & E1 & E2 & E3 & E4 & _). exists nl'. unfold children_of. rewrite E2 E3 E4. done.
  - eapply Forall2_impl; [exact Hf|]. intros c km. apply child_of_fields; [|done..].
    intros p np Hp. destruct (T2 p np Hp) as (np' & Hp' & E1 & E2 & E3 & _). by exists np'.
  - intros k p Hp. assert (∃ m np, (k, m) ∈ tbl ∧ npr_at h p = Some np ∧ cf_Data (np_Config np) = m) as (m & np & Hin & Hnp & Hm).
    { destruct (Hcache k p Hp) as [Hold|Hnew]; [by apply Hca | exact Hnew]. }
    destruct (T2 p np Hnp) as (np' & Hnp' & E1 & _). exists m, np'. rewrite E1. done.
Qed.

Lemma folder_tree_like h h' l cs tbl :
  folder h l cs tbl → tree_like h h' →
  (∀ k p, hp_cache h' !! entry_name name k = Some p → hp_cache h !! entry_name name k = Some p) → folder h' l cs tbl.
Proof. intros Hfd Hl Hca. eapply folder_cached; [done..|]. intros k p Hp. left. by apply Hca. Qed.

(** Nothing of another container is different. *)
Lemma beside_tree_like h h' :
  tree_like h h' → (∀ s, other_name name s → hp_cache h' !! s = hp_cache h !! s) → beside h h'.
Proof.
  intros [T1 T2 T3 T4 T5 T6 T7] Hca. split; try done.
  - intros p np Hp. destruct (T2 p np Hp) as (np' & Hp' & E1 & E2 & E3 & _). by exists np'.
  - intros br l nl Hb Hl Hnl. destruct (T2 l nl Hnl) as (nl' & Hnl' & E1 & E2 & E3 & E4 & _). exists br, l, nl'.
    rewrite T3. do 4 (split; [done|]). split; [done|]. split; [done|]. intros s _. unfold children_of. by rewrite E4.
  - intros x br (_ & Hx & _). by rewrite T3.
  - apply same_nodes. by rewrite T4.
  - intros p [px Hp]. destruct (T5 p px Hp) as (px' & Hp' & _). by exists px'.
Qed.

Lemma put_proxy_like h p px px' :
  hp_proxies h !! p = Some px → px_Root px' = px_Root px → px_Path px' = px_Path px → px_FullPath px' = px_FullPath px →
  tree_like h (set_proxies (<[p := px']> (hp_proxies h)) h).
Proof.
  intros Hp E1 E2 E3. apply tree_like_env; try done; [by apply roots_same|].
  simpl. intros q x Hq. destruct (decide (q = p)) as [->|Hne].
  - exists px'. rewrite lookup_insert_eq. assert (x = px) as -> by congruence. done.
  - exists x. by rewrite lookup_insert_ne.
Qed.

(** Nor is any revision or the cache different. *)
Record same_tree h h' : Prop := mkSameTree {
  st_like : tree_like h h';
  st_nprs : hp_nprs h' = hp_nprs h;
  st_revs : hp_revs h' = hp_revs h;
  st_cache : hp_cache h' = hp_cache h }.

Lemma same_tree_trans h1 h2 h3 : same_tree h1 h2 → same_tree h2 h3 → same_tree h1 h3.
Proof. intros [A1 A2 A3 A4] [B1 B2 B3 B4]. split; [by eapply tree_like_trans | congruence..]. Qed.

Lemma same_tree_folder h h' l cs tbl : same_tree h h' → folder h l cs tbl → folder h' l cs tbl.
Proof. intros [Hl _ _ Hc] Hf. eapply folder_tree_like; [done..|]. by rewrite Hc. Qed.

Lemma same_tree_npr h h' p : same_tree h h' → npr_at h' p = npr_at h p.
Proof. intros [_ E1 E2 _]. unfold npr_at. by rewrite E1 E2. Qed.

Lemma SetOperation_run h p px op :
  hp_proxies h !! p = Some px → ∃ h', SetOperation p op h = (Ok tt, h') ∧ same_tree h h'.
Proof.
  intros Hp. unfold SetOperation. run_with (get_proxy_run h p px Hp). eexists. split; [done|]. split; [|done..].
  by eapply put_proxy_like.
Qed.

Lemma set_kv_same h kv : same_tree h (set_kv kv h).
Proof. split; [env_tac | done..]. Qed.

Lemma same_tree_proxy h h' p px :
  same_tree h h' → hp_proxies h !! p = Some px → ∃ px', hp_proxies h' !! p = Some px' ∧
    px_Root px' = px_Root px ∧ px_Path px' = px_Path px ∧ px_FullPath px' = px_FullPath px.
Proof. intros [Hl _ _ _] Hp. by apply (tl_proxies _ _ Hl). Qed.

(** An operation with the path reserved runs in the same tree, and nothing changes
    after it; without the reservation, nothing happens. *)
Lemma reserved_run {A} h p px rt op lock (m : M Heap A) :
  hp_proxies h !! p = Some px → hp_roots h !! px_Root px = Some rt →
  (∀ h1, same_tree h h1 → ∃ x h2, m h1 = (Ok x, h2) ∧ is_Some (hp_proxies h2 !! p)) →
  match reserved p op lock m h with
  | (Ok x, h') => ∃ h1 h2, same_tree h h1 ∧ m h1 = (Ok x, h2) ∧ same_tree h2 h'
  | (Err _, h') => same_tree h h'
  | (Panic, _) => False
  end.
Proof.
  intros Hp Hrt Hm. unfold reserved. destruct (SetOperation_run h p px op Hp) as (h1 & Hop & Hs1). run_with Hop.
  destruct (same_tree_proxy h h1 p px Hs1 Hp) as (px1 & Hp1 & Er & _). run_with (get_proxy_run h1 p px1 Hp1). rewrite Er.
  destruct (tl_roots _ _ (st_like _ _ Hs1) _ rt Hrt) as (rt1 & Hrt1 & _). run_with (get_root_run h1 _ rt1 Hrt1).
  assert (∀ h2 h3 x, m h2 = (Ok x, h3) → same_tree h h2 → is_Some (hp_proxies h3 !! p) →
    ∀ h4, same_tree h3 h4 → ∃ h5, (let* _ := SetOperation p ProxyNone in ret x) h4 = (Ok x, h5) ∧ same_tree h3 h5) as Hend.
  { intros h2 h3 x _ _ [px3 Hp3] h4 Hs4. destruct (same_tree_proxy h3 h4 p px3 Hs4 Hp3) as (px4 & Hp4 & _).
    destruct (SetOperation_run h4 p px4 ProxyNone Hp4) as (h5 & Ho & Hs5). exists h5. run_with Ho.
    split; [done | by eapply same_tree_trans]. }
  rewrite sbind_attempt. destruct (rt_KvStore rt1).
  - unfold sbind at 1. destruct (bk_Reserve _ _ _) as [[e|] kv].
    + unfold fail. simpl. clear Hend.
      destruct (same_tree_proxy h (set_kv kv h1) p px ltac:(eapply same_tree_trans; [done | apply set_kv_same]) Hp) as (px2 & Hp2 & _).
      destruct (SetOperation_run (set_kv kv h1) p px2 ProxyNone Hp2) as (h3 & Ho & Hs3). run_with Ho.
      eapply same_tree_trans; [done|]. eapply same_tree_trans; [apply set_kv_same | done].
    + assert (same_tree h (set_kv kv h1)) as Hs2 by (eapply same_tree_trans; [done | apply set_kv_same]).
      destruct (Hm _ Hs2) as (x & h2 & Hrun & Hp2). rewrite sbind_attempt Hrun. unfold modify. unfold sbind at 1. simpl.
      destruct (Hend _ _ _ Hrun Hs2 Hp2 (set_kv (bk_Release (lock +:+ "_") (hp_kv h2)).2 h2) (set_kv_same _ _)) as (h5 & H5 & Hs5).
      rewrite H5. by exists (set_kv kv h1), h2.
  - destruct (Hm _ Hs1) as (x & h2 & Hrun & Hp2). rewrite Hrun.
    destruct (Hend _ _ _ Hrun Hs1 Hp2 h2 ltac:(split; [env_tac | done..])) as (h5 & H5 & Hs5).
    rewrite H5. by exists h1, h2.
Qed.

Lemma execute_like h root rt :
  heap_ok h → hp_roots h !! root = Some rt → is_Some (hp_nodes h !! rt_node rt) →
  ∃ h', execute_node_callbacks root h = (Ok tt, h') ∧ tree_like h h' ∧ hp_cache h' = hp_cache h.
Proof.
  intros Hok Hrt [nd Hnd]. unfold execute_node_callbacks. run_with (get_root_run h root rt Hrt).
  run_with (get_node_run h _ nd Hnd). destruct (ho_root h Hok _ nd Hnd) as [r Hr].
  unfold ExecuteCallbacks. run_with (get_root_run h _ r Hr). eexists. split; [done|]. split; [|done].
  apply tree_like_env; try done; simpl; [|intros p px Hp; by exists px].
  intros x y Hx. destruct (decide (x = nd_Root nd)) as [->|Hne].
  - eexists. simpl. rewrite lookup_insert_eq. split; [done|]. assert (y = r) as -> by congruence. done.
  - exists y. simpl. by rewrite lookup_insert_ne.
Qed.

(** ** Storing a revision *)

Lemma put_rev_like h c r r' :
  hp_revs h !! c = Some r → rv_npr r' = rv_npr r → tree_like h (set_revs (<[c := r']> (hp_revs h)) h).
Proof.
  intros Hr E. split; try done.
  - intros Hok. by apply (put_rev_ok h c r).
  - intros p np Hp. exists np. split; [|done]. unfold npr_at. simpl. destruct (decide (p = c)) as [->|Hne].
    + rewrite lookup_insert_eq. simpl. rewrite E. unfold npr_at in Hp. by rewrite Hr in Hp.
    + by rewrite lookup_insert_ne.
  - intros p px Hp. by exists px.
  - by apply roots_same.
Qed.

Lemma Finalize_entry h c cn :
  heap_ok h → npr_at h c = Some cn →
  ∃ h', Finalize c h = (Ok tt, h') ∧ tree_like h h' ∧
    (hp_cache h' = hp_cache h ∨ hp_cache h' = <[np_Name cn := c]> (hp_cache h)).
Proof.
  intros Hok Hc. pose proof Hc as (r & Hr & Hcn)%bind_Some.
  pose proof (ho_npr h Hok _ _ Hcn) as Hnok. pose proof Hnok as [[br Hbr] _].
  unfold Finalize. run_with (get_rev_run h c r Hr). destruct (rv_persisted r) as [pe|].
  - unfold store. run_with (get_npr_run h c cn Hc). run_with (get_branch_run h _ br Hbr).
    assert (∃ h', ((Ok tt, h) : outcome unit * Heap) = (Ok tt, h') ∧ tree_like h h' ∧
      (hp_cache h' = hp_cache h ∨ hp_cache h' = <[np_Name cn := c]> (hp_cache h))) as Hskip.
    { exists h. split; [done|]. split; [env_tac | by left]. }
    case_decide; [exact Hskip|]. destruct (msg_Marshal _) as [blob|]; [|exact Hskip].
    unfold modify at 1. unfold sbind at 1. unfold sbind at 1. simpl. destruct (bk_Put _ _ _) as [ok kv].
    rewrite (sbind_run _ _ _ r (set_kv kv (set_cache (<[np_Name cn := c]> (hp_cache h)) h))); [|by apply get_rev_run].
    set (h1 := set_kv kv _). assert (tree_like h h1) as Hl1 by env_tac.
    destruct ok; [|exists h1; by (split_and!; [| |right])]. eexists. split; [done|]. split; [|by right].
    eapply tree_like_trans; [exact Hl1|]. by eapply (put_rev_like h1 c r).
  - unfold finalize_npr. unfold sbind at 1. rewrite Hcn. simpl. run_with (hashContent_run h cn Hok Hnok).
    eexists. split; [done|]. split; [|by left]. split; try done.
    + intros _. by apply (put_npr_ok h _ cn).
    + intros p np (rp & Hrp & Hnp)%bind_Some. unfold npr_at. simpl. rewrite Hrp. simpl.
      destruct (decide (rv_npr r = rv_npr rp)) as [E|E].
      * rewrite E lookup_insert_eq. eexists. split; [done|]. assert (np = cn) as -> by congruence. done.
      * rewrite lookup_insert_ne; [|done]. by exists np.
    + intros p px Hp. by exists px.
    + by apply roots_same.
Qed.

Lemma Finalize_run h c cn :
  heap_ok h → npr_at h c = Some cn → hp_cache h !! np_Name cn = Some c →
  ∃ h', Finalize c h = (Ok tt, h') ∧ tree_like h h' ∧ hp_cache h' = hp_cache h.
Proof.
  intros Hok Hc Hca. destruct (Finalize_entry h c cn Hok Hc) as (h' & Hrun & Hl & Hcase).
  exists h'. split; [done|]. split; [done|]. destruct Hcase as [->| ->]; [done | by rewrite insert_id].
Qed.

(** ** Updating through a proxy *)

Hypothesis name_segment : segment name.
Notation op_ok := (op_ok key ct).

Lemma op_ok_same h h' cs tbl op : same_tree h h' → op_ok h cs tbl op → op_ok h' cs tbl op.
Proof.
  intros Hs. pose proof (λ p, same_tree_npr h h' p Hs) as Hnp.
  destruct op as [k data|k data|k]; simpl; [done | | done].
  intros (? & ? & ? & idx & c & old & ? & ? & ? & Hch & Hdist). repeat (split; [done|]). exists idx, c, old.
  repeat (split; [done|]). split.
  - intros cn. rewrite Hnp (content_hash_ext h h' _ Hnp). apply Hch.
  - intros e en cn He Hne. rewrite !Hnp. by apply Hdist.
Qed.

(** The revision [c] is what reading the entry returns. *)
Definition reads h (k : string) (data : Msg) : Prop := ∃ c cn,
  hp_cache h !! entry_name name k = Some c ∧ npr_at h c = Some cn ∧ cf_Data (np_Config cn) = data ∧
  np_lastUpdate cn = hp_now h.

(** The node has its branch and its proxy. *)
Definition served h (p root : nat) : Prop :=
  (∃ nd br, hp_nodes h !! n = Some nd ∧ nd_Branches nd !! NONE = Some b ∧ nd_Proxy nd = Some p ∧ hp_branches h !! b = Some br) ∧
  ∃ px rt, hp_proxies h !! p = Some px ∧ px_Root px = root ∧ px_Path px = EmptyString ∧ px_FullPath px = EmptyString ∧
    hp_roots h !! root = Some rt ∧ rt_node rt = n.

Lemma reads_like h h' k data : reads h k data → tree_like h h' → hp_cache h' = hp_cache h → reads h' k data.
Proof.
  intros (c & cn & Hc & Hcn & Hd & Hl) [T1 T2 T3 T4 T5 T6 T7] Hca.
  destruct (T2 c cn Hcn) as (cn' & Hcn' & E1 & E2 & E3 & E4 & E5). exists c, cn'. rewrite Hca E1 E5 T7. done.
Qed.
Lemma served_like h h' p root : served h p root → tree_like h h' → served h' p root.
Proof.
  intros [(nd & br & Hn & Hb & Hp & Hbr) (px & rt & Hpx & E0 & E1 & E2 & Hrt & En)] [T1 T2 T3 T4 T5 T6 T7].
  split; [exists nd, br; by rewrite T3 T4|].
  destruct (T5 p px Hpx) as (px' & Hpx' & F1 & F2 & F3). destruct (T6 _ rt Hrt) as (rt' & Hrt' & G1 & _).
  exists px', rt'. rewrite F1 F2 F3 G1. done.
Qed.


(** The node kept its revision [l]. *)
Definition kept h (l : nat) : Prop := ∃ br, hp_branches h !! b = Some br ∧ br_Latest br = Some l.
(** The tree after the update of the entry [k]. *)
Definition updated_tree h (l : nat) (tbl : list (string * Msg)) (k : string) (data : Msg) : Prop :=
  (∃ l' cs' tbl', folder h l' cs' tbl' ∧ (list_to_map tbl' : gmap string Msg) = <[k := data]> (list_to_map tbl)) ∨ kept h l.

Lemma updated_tree_same h h' l tbl k data :
  updated_tree h l tbl k data → tree_like h h' → hp_cache h' = hp_cache h → updated_tree h' l tbl k data.
Proof.
  intros [(l' & cs' & tbl' & Hf & Hm)|(br & Hb & Hl)] Ht Hc.
  - left. exists l', cs', tbl'. split; [|done]. eapply folder_tree_like; [done..|]. by rewrite Hc.
  - right. exists br. by rewrite (tl_branches _ _ Ht).
Qed.

(** The update of the node, seen from the proxy. *)
Lemma served_update h p root l cs tbl k data :
  folder h l cs tbl → served h p root → op_ok h cs tbl (OpUpdate k data) →
  ∃ c h', node_Update (trackDirty root EmptyString) EmptyString (S (String.length (entry_path name k))) n
            (entry_path name k) data h = (Ok (Some c), h') ∧
    heap_ok h' ∧ served h' p root ∧ updated_tree h' l tbl k data ∧ beside h h' ∧
    ∃ cn, npr_at h' c = Some cn ∧ cf_Data (np_Config cn) = data ∧ np_lastUpdate cn = hp_now h' ∧
      np_Name cn = entry_name name k ∧ hp_cache h' !! entry_name name k = Some c.
Proof.
  intros Hfd [(nd & br & Hn & Hb & Hp & Hbr) (px & rt & Hpx & E0 & E1 & E2 & Hrt & En)]
    (Hk & Hkey & Htype & idx & c & old & Hc & Hkm & Hstr & Hh & Hdist).
  destruct (node_Update_entry n b name key ct name_segment (trackDirty root EmptyString) h l cs tbl
    (String.length (entry_name name k)) idx c k old data Hfd Hk Hc Hkm Hkey Htype Hstr Hh Hdist)
    as (c' & h' & Hrun & (cn & Hcn & Hd & Hname & Hlast) & Hok & Henv & Hca & Hbs & Hcase).
  destruct Henv as [V1 V2 V3]. injection V3 as V3 V4 V5. exists c', h'. split; [exact Hrun|]. split; [done|].
  split; [|split; [|split; [done | exists cn; by rewrite V5]]].
  - destruct (V2 n nd Hn) as (nd' & Hn' & _ & F2 & F3). split.
    + assert (∃ br', hp_branches h' !! b = Some br') as [br' Hbr'].
      { destruct Hcase as [(q & _ & Hq)|(br' & _ & _ & _ & Hbr' & _)]; [|by exists br'].
        destruct (fd_branch _ _ _ _ _ _ _ _ _ Hq) as (br' & Hbr' & _). by exists br'. }
      exists nd', br'. rewrite F2 F3 Hp; done.
    + destruct (V1 _ rt Hrt) as (rt' & Hrt' & G1 & _). exists px, rt'. rewrite V3 G1. done.
  - destruct Hcase as [(q & _ & Hq)|(br' & _ & _ & _ & Hbr' & Hl' & _)]; [left | right; by exists br'].
    eexists q, _, _. split; [exact Hq|]. by apply (table_insert tbl idx k old data (fd_keys _ _ _ _ _ _ _ _ _ Hfd)).
Qed.

Lemma root_Update_run h p root l cs tbl k data :
  folder h l cs tbl → served h p root → op_ok h cs tbl (OpUpdate k data) →
  ∃ c h', root_Update root (entry_path name k) data EmptyString h = (Ok (Some c), h') ∧
    (∃ cn, npr_at h' c = Some cn ∧ cf_Data (np_Config cn) = data) ∧
    served h' p root ∧ updated_tree h' l tbl k data ∧ reads h' k data ∧ beside h h'.
Proof.
  intros Hfd Hsv Hop. pose proof Hsv as [_ (px & rt & _ & _ & _ & _ & Hrt & En)].
  destruct (served_update h p root l cs tbl k data Hfd Hsv Hop)
    as (c & h1 & Hrun & Hok1 & Hsv1 & Hup1 & Hbs1 & cn & Hcn & Hd & Hlast & Hname & Hca).
  pose proof Hsv1 as [(nd1 & br1 & Hn1 & _ & Hp1 & _) (px1 & rt1 & Hpx1 & _ & Epath & Efull & _)].
  unfold root_Update. run_with (get_root_run h _ rt Hrt). rewrite En. run_with Hrun.
  destruct (Finalize_run h1 c cn Hok1 Hcn ltac:(by rewrite Hname)) as (h2 & Hfin & Hl2 & Hc2).
  assert (Hread1 : reads h1 k data) by (by exists c, cn).
  pose proof (served_like h1 h2 p root Hsv1 Hl2) as Hsv2.
  pose proof Hsv2 as [(nd2 & br2 & Hn2 & _) (px2 & rt2 & _ & _ & _ & _ & Hrt2 & En2)].
  destruct (execute_like h2 root rt2 (tl_ok _ _ Hl2 Hok1) Hrt2 ltac:(rewrite En2; by exists nd2)) as (h3 & Hex & Hl3 & Hc3).
  exists c, h3. split.
  - rewrite (sbind_run _ _ _ tt h2); [by run_with Hex|].
    unfold not_nil_result. unfold sbind at 1. run_with (GetProxy_run h1 n nd1 Hn1). rewrite Hp1. simpl.
    run_with (get_proxy_run h1 p px1 Hpx1). rewrite decide_False; [exact Hfin | by rewrite Epath Efull; intros ?].
  - split; [|split; [by eapply served_like|]].
    + destruct (tl_npr _ _ Hl2 c cn Hcn) as (cn2 & Hcn2 & E2 & _). destruct (tl_npr _ _ Hl3 c cn2 Hcn2) as (cn3 & Hcn3 & E3 & _).
      exists cn3. by rewrite E3 E2.
    + split; [eapply updated_tree_same; [by eapply updated_tree_same|done|done]|].
      split; [eapply reads_like; [by eapply reads_like|done|done]|]. etrans; [exact Hbs1|].
      apply beside_tree_like; [by eapply tree_like_trans|]. intros s _. by rewrite Hc3 Hc2.
Qed.

(** An entry that was just written is read from the cache. *)
Lemma proxy_Get_reads h p root k data :
  served h p root → reads h k data →
  ∃ h', proxy_Get p (entry_path name k) 0 false EmptyString h = (Ok (ROne data), h') ∧ same_tree h h'.
Proof.
  intros Hsv (c & cn & Hc & Hcn & Hd & Hl). pose proof Hsv as [_ (px & rt & Hpx & E0 & _ & _ & Hrt & En)].
  unfold proxy_Get, reading. destruct (SetOperation_run h p px ProxyGet Hpx) as (h1 & Hop & Hs1). run_with Hop.
  pose proof (served_like h h1 p root Hsv (st_like _ _ Hs1)) as [(nd1 & br1 & Hn1 & Hb1 & _ & Hbr1) (px1 & rt1 & Hpx1 & F0 & _ & _ & Hrt1 & En1)].
  run_with (get_proxy_run h1 p px1 Hpx1). rewrite F0. run_with (get_root_run h1 _ rt1 Hrt1). rewrite En1.
  assert (node_Get n (entry_path name k) EmptyString 0 false EmptyString h1 = (Ok (ROne data), h1)) as Hget.
  { unfold node_Get. rewrite trim_entry; [|done].
    assert (reading_revision n EmptyString EmptyString h1 = (Ok (br_Latest br1), h1)) as Hrr.
    { change (reading_revision n EmptyString EmptyString h1) with
        ((let* x := node_branch n EmptyString in
          let* x := if decide (EmptyString = EmptyString ∨ x = None) then node_branch n NONE else ret x in
          let* x := lift (deref x) in GetLatest x) h1).
      run_with (node_branch_run h1 n nd1 EmptyString Hn1). run_with (node_branch_run h1 n nd1 NONE Hn1).
      rewrite Hb1. unfold sbind at 1. simpl. by apply GetLatest_run. }
    run_with Hrr.
    assert (read_memory n (br_Latest br1) (entry_name name k) 0 h1 = (Ok (ROne data, true), h1)) as Hrm.
    { unfold read_memory. unfold sbind at 1. simpl. rewrite (st_cache _ _ Hs1) Hc.
      run_with (get_npr_run h1 c cn ltac:(by rewrite (same_tree_npr _ _ _ Hs1))).
      rewrite Hl (tl_now _ _ (st_like _ _ Hs1)). rewrite decide_True; [by rewrite Hd|].
      unfold age_ms. by rewrite Z.sub_diag. }
    by run_with Hrm. }
  rewrite sbind_attempt Hget.
  destruct (SetOperation_run h1 p px1 ProxyNone Hpx1) as (h2 & Hop2 & Hs2). exists h2. run_with Hop2.
  split; [done | by eapply same_tree_trans].
Qed.

End Proxy.
