(* ===== verification/ModelService.v ===== *)
(** * The data model as the agents use it

    The agents add, update, remove and read the entries of a container through a
    proxy of the whole tree.  Seen through this proxy, the data model is a
    [DataProxy], and it does what the finite map does. *)

From S2P Require Import Prelude DataProxy ModelTree ModelMerge ModelNode ModelRoot ModelFacts ModelPaths ModelTable ModelProxy.

(** ** Operations of an agent *)

Section Operations.
Context {Obj Store : Type} `{DataProxy Obj Store}.

Definition dp_op (op : FolderOp (Msg := Obj)) (s : Store) : UpdateResult * Store :=
  match op with
  | OpAdd k data => dp_add k data s
  | OpUpdate k data => dp_update k data s
  | OpRemove k => dp_remove k s
  end.

Fixpoint dp_run (ops : list (FolderOp (Msg := Obj))) (s : Store) : list UpdateResult * Store :=
  match ops with
  | [] => ([], s)
  | op :: ops => let (r, s1) := dp_op op s in let (rs, s2) := dp_run ops s1 in (r :: rs, s2)
  end.
End Operations.

(** The operations that succeeded. *)
Fixpoint done_ops {Op} (ops : list Op) (results : list UpdateResult) : list Op :=
  match ops, results with
  | op :: ops, UpdOk :: results => op :: done_ops ops results
  | _ :: ops, _ :: results => done_ops ops results
  | _, _ => []
  end.

(** ** The proxy of the whole tree *)

Section Service.
Context {Msg KV : Type} `{HS : Schema Msg, HB : Backend KV, HG : GoRange, !SchemaLaws Msg}.
Notation Heap := (Heap Msg KV).
Notation FolderOp := (FolderOp (Msg := Msg)).
Implicit Types (h : Heap) (op : FolderOp).
Context (n b : nat) (name key ct : string) (p root : nat).
Hypothesis name_segment : segment name.
Notation folder := (folder n b name key ct).
Notation served := (served n b).
Notation kept := (kept b).
Notation op_ok := (op_ok key ct).
Notation beside := (beside b name).

Definition update_result (r : outcome (option Msg)) : UpdateResult :=
  match r with Ok (Some _) => UpdOk | Ok None => UpdNil | Err e => UpdErr e | Panic => UpdErr (Plain "panic") end.

(** The calls of the agents, with the paths they use. *)
Definition proxy_op (op : FolderOp) : M Heap (option Msg) :=
  match op with
  | OpAdd k data => AddWithID p (folder_path name) k data EmptyString
  | OpUpdate k data => proxy_Update p (entry_path name k) data EmptyString
  | OpRemove k => proxy_Remove p (entry_path name k) EmptyString
  end.

(** A list is not one object: the callers test the type of what they get. *)
Definition get_result (r : outcome (Reading Msg)) : outcome (option Msg) :=
  match r with Ok (ROne d) => Ok (Some d) | Ok _ => Ok None | Err e => Err e | Panic => Panic end.

Definition write_result (op : FolderOp) (h : Heap) : UpdateResult * Heap :=
  let (r, h') := proxy_op op h in (update_result r, h').

Definition model_proxy : DataProxy Msg Heap := {|
  dp_get k h := get_result (proxy_Get p (entry_path name k) 0 false EmptyString h).1;
  dp_update k data := write_result (OpUpdate k data);
  dp_add k data := write_result (OpAdd k data);
  dp_remove k := write_result (OpRemove k)
|}.

(** ** One operation *)

Definition root_op (op : FolderOp) : M Heap (option nat) :=
  match op with
  | OpAdd k data => root_Add root (folder_path name) data EmptyString
  | OpUpdate k data => root_Update root (entry_path name k) data EmptyString
  | OpRemove k => root_Remove root (entry_path name k) EmptyString
  end.

Definition is_remove (op : FolderOp) : bool := match op with OpRemove _ => true | _ => false end.

(** The table has changed as the map does, or the node kept its revision although
    there is a new one. *)
Definition changed h (l : nat) (tbl : list (string * Msg)) op : Prop :=
  (∃ l' cs' tbl', folder h l' cs' tbl' ∧ (list_to_map tbl' : gmap string Msg) = table_op op (list_to_map tbl)) ∨
  (is_remove op = false ∧ kept h l).

Lemma changed_cached h h' l tbl op c k data :
  changed h l tbl op → tree_like h h' →
  (hp_cache h' = hp_cache h ∨ hp_cache h' = <[entry_name name k := c]> (hp_cache h)) →
  (∃ cn, npr_at h c = Some cn ∧ cf_Data (np_Config cn) = data) →
  table_op op (list_to_map tbl) !! k = Some data → changed h' l tbl op.
Proof.
  intros [(l' & cs' & tbl' & Hf & Hm)|(Hr & br & Hb & Hl)] Ht Hca (cn & Hcn & Hd) Hk.
  - left. exists l', cs', tbl'. split; [|done]. eapply folder_cached; [done..|]. intros k' q Hq.
    destruct Hca as [E|E]; rewrite E in Hq; [by left|]. destruct (decide (k' = k)) as [->|Hne].
    + rewrite lookup_insert_eq in Hq. injection Hq as <-. right. exists data, cn. split; [|done].
      apply elem_of_list_to_map_2. by rewrite Hm.
    + left. rewrite lookup_insert_ne in Hq; [done|]. intros E'. by apply Hne, (entry_name_inj name).
  - right. split; [done|]. exists br. by rewrite (tl_branches _ _ Ht).
Qed.

Lemma changed_same h h' l tbl op : changed h l tbl op → same_tree h h' → changed h' l tbl op.
Proof.
  intros [(l' & cs' & tbl' & Hf & Hm)|(Hr & br & Hb & Hl)] Hs.
  - left. exists l', cs', tbl'. split; [by eapply same_tree_folder | done].
  - right. split; [done|]. exists br. by rewrite (tl_branches _ _ (st_like _ _ Hs)).
Qed.

Lemma served_env h h' :
  served h p root → roots_like h h' → hp_proxies h' = hp_proxies h → is_Some (hp_branches h' !! b) →
  (∀ x nd, hp_nodes h !! x = Some nd → ∃ nd', hp_nodes h' !! x = Some nd' ∧
    nd_Branches nd' = nd_Branches nd ∧ (nd_Proxy nd ≠ None → nd_Proxy nd' = nd_Proxy nd)) → served h' p root.
Proof.
  intros [(nd & br & Hn & Hb & Hp & _) (px & rt & Hpx & E0 & E1 & E2 & Hrt & En)] Hroots Hprox [br' Hbr'] Hnodes. split.
  - destruct (Hnodes n nd Hn) as (nd' & Hn' & F & P). exists nd', br'. rewrite F P Hp; done.
  - destruct (Hroots _ rt Hrt) as (rt' & Hrt' & G & _). exists px, rt'. rewrite Hprox G. done.
Qed.

Lemma folder_kept h l cs tbl : folder h l cs tbl → kept h l.
Proof. intros Hf. destruct (fd_branch _ _ _ _ _ _ _ _ _ Hf) as (br & Hb & _ & Hl). by exists br. Qed.
Lemma kept_branch h l : kept h l → is_Some (hp_branches h !! b).
Proof. intros (br & Hb & _). by exists br. Qed.
Lemma changed_branch h l tbl op : changed h l tbl op → is_Some (hp_branches h !! b).
Proof. intros [(l' & cs' & tbl' & Hf & _)|[_ Hk]]; eapply kept_branch; [by eapply folder_kept | exact Hk]. Qed.

(** The end of an addition and of a removal: the callbacks are run. *)
Lemma run_callbacks h :
  heap_ok h → served h p root →
  ∃ h', execute_node_callbacks root h = (Ok tt, h') ∧ tree_like h h' ∧ hp_cache h' = hp_cache h ∧ served h' p root.
Proof.
  intros Hok Hsv. pose proof Hsv as [(nd & br & Hn & _) (px & rt & _ & _ & _ & _ & Hrt & En)].
  destruct (execute_like h root rt Hok Hrt ltac:(rewrite En; by exists nd)) as (h' & Hrun & Hl & Hc).
  exists h'. split_and!; [done..|]. by eapply served_like.
Qed.

Lemma root_Add_run h l cs tbl k data :
  folder h l cs tbl → served h p root → op_ok h cs tbl (OpAdd k data) →
  ∃ c h', root_op (OpAdd k data) h = (Ok (Some c), h') ∧ is_Some (npr_at h' c) ∧ served h' p root ∧
    changed h' l tbl (OpAdd k data) ∧ beside h h'.
Proof.
  intros Hfd Hsv (Hkey & Htype & Hnew). pose proof Hsv as [_ (px & rt & _ & _ & _ & _ & Hrt & En)].
  destruct (add_child_run n b name key ct h l cs tbl data k Hfd Hkey Htype Hnew)
    as (c & h1 & Hrun & (cn & Hcn & Hd & Hname) & Henv & Hbs & Hcase).
  assert (heap_ok h1 ∧ changed h1 l tbl (OpAdd k data)) as [Hok1 Hch1].
  { destruct Hcase as [(q & _ & Hq)|[Hq _]].
    - split; [by apply (fd_ok _ _ _ _ _ _ _ _ _ Hq)|]. left. eexists q, _, _. split; [exact Hq|].
      rewrite list_to_map_snoc; [done | by apply Hnew].
    - split; [by apply (fd_ok _ _ _ _ _ _ _ _ _ Hq)|]. right. split; [done | by eapply folder_kept]. }
  assert (served h1 p root) as Hsv1.
  { destruct Henv as [V1 V2 V3]. injection V3 as V3 _ _. eapply served_env; [done..| by eapply changed_branch|].
    intros x nd Hx. destruct (V2 x nd Hx) as (nd' & Hx' & _ & Hrest). by exists nd'. }
  simpl. unfold root_Add. run_with (get_root_run h _ rt Hrt). rewrite En.
  run_with (node_Add_run n b name key ct name_segment (trackDirty root EmptyString) h l cs tbl (String.length (folder_path name)) data _ _ Hfd Hrun).
  destruct (Finalize_entry h1 c cn Hok1 Hcn) as (h2 & Hfin & Hl2 & Hca2). run_with Hfin.
  destruct (run_callbacks h2 (tl_ok _ _ Hl2 Hok1) ltac:(by eapply served_like)) as (h3 & Hex & Hl3 & Hca3 & Hsv3). run_with Hex.
  pose proof (tree_like_trans _ _ _ Hl2 Hl3) as Hl. exists c, h3. split; [done|]. split; [|split; [done|]].
  - destruct (tl_npr _ _ Hl c cn Hcn) as (cn' & Hcn' & _). by exists cn'.
  - split; [eapply changed_cached; [exact Hch1 | exact Hl | rewrite Hca3; rewrite Hname in Hca2; exact Hca2 | by exists cn|];
      apply lookup_insert_eq|].
    etrans; [exact Hbs|]. apply beside_tree_like; [done|]. intros s Hs. rewrite Hca3. destruct Hca2 as [->| ->]; [done|].
    rewrite lookup_insert_ne; [done|]. rewrite Hname. intros <-. by eapply Hs.
Qed.

Lemma root_Remove_run h l cs tbl k :
  folder h l cs tbl → served h p root → op_ok h cs tbl (OpRemove k) →
  ∃ c h', root_op (OpRemove k) h = (Ok (Some c), h') ∧ is_Some (npr_at h' c) ∧ served h' p root ∧
    changed h' l tbl (OpRemove k) ∧ beside h h'.
Proof.
  intros Hfd Hsv [Hk Hin]. pose proof Hsv as [_ (px & rt & _ & _ & _ & _ & Hrt & En)].
  apply list_elem_of_fmap in Hin as ([k' m] & Heq & Hin). simpl in Heq. subst k'.
  apply list_elem_of_lookup in Hin as [idx Hkm].
  destruct (Forall2_lookup_r _ _ _ _ _ (fd_children _ _ _ _ _ _ _ _ _ Hfd) Hkm) as (c & Hc & _).
  destruct (remove_child_run n b name key ct h l cs tbl idx c k m Hfd Hc Hkm) as (h1 & Hrun & Hfd1 & Hr1 & Hn1 & Hp1 & Hbs1).
  assert (served h1 p root) as Hsv1.
  { eapply served_env; [done..| by eapply kept_branch, folder_kept|]. intros x nd Hx. exists nd. by rewrite Hn1. }
  simpl. unfold root_Remove. run_with (get_root_run h _ rt Hrt). rewrite En.
  run_with (node_Remove_run n b name key ct name_segment (trackDirty root EmptyString) h l cs tbl (String.length (entry_path name k))
    idx c k m _ _ Hfd Hk Hc Hkm Hrun).
  destruct (run_callbacks h1 (fd_ok _ _ _ _ _ _ _ _ _ Hfd1) Hsv1) as (h2 & Hex & Hl2 & Hca2 & Hsv2). run_with Hex.
  exists l, h2. split; [done|]. split; [|split; [done|]].
  - destruct (fd_latest _ _ _ _ _ _ _ _ _ Hfd1) as (nl & Hnl & _). destruct (tl_npr _ _ Hl2 l nl Hnl) as (nl' & Hnl' & _). by exists nl'.
  - split.
    + left. eexists l, _, _. split; [eapply folder_tree_like; [exact Hfd1 | done|]; by rewrite Hca2|].
      by apply (table_delete tbl idx k m (fd_keys _ _ _ _ _ _ _ _ _ Hfd)).
    + etrans; [exact Hbs1|]. apply beside_tree_like; [done|]. intros s _. by rewrite Hca2.
Qed.

Lemma root_op_run h l cs tbl op :
  folder h l cs tbl → served h p root → op_ok h cs tbl op →
  ∃ c h', root_op op h = (Ok (Some c), h') ∧ is_Some (npr_at h' c) ∧ served h' p root ∧ changed h' l tbl op ∧ beside h h'.
Proof.
  intros Hfd Hsv Hop. destruct op as [k data|k data|k]; [by eapply root_Add_run | | by eapply root_Remove_run].
  destruct (root_Update_run n b name key ct name_segment h p root l cs tbl k data Hfd Hsv Hop)
    as (c & h' & Hrun & (cn & Hcn & _) & Hsv' & Hup & _ & Hbs).
  exists c, h'. split; [exact Hrun|]. split; [by exists cn|]. split; [done|].
  split; [|done]. destruct Hup as [Hup|Hk]; [by left | right; by split].
Qed.

Lemma join_segment t : t ≠ EmptyString → join_path EmptyString ("/" +:+ t) = "/" +:+ t.
Proof. intros Ht. unfold join_path. rewrite decide_False; [done|]. by destruct t. Qed.
Lemma name_ne : name ≠ EmptyString.
Proof. by destruct name_segment. Qed.

(** An operation reserves a path and runs on the root. *)
Lemma proxy_op_reserved h op px :
  hp_proxies h !! p = Some px → px_Root px = root → px_Path px = EmptyString →
  ∃ o lock, proxy_op op h = reserved p o lock (result_data (root_op op)) h.
Proof.
  intros Hpx E0 E1. pose proof name_ne as Hne. assert (entry_name name "" ≠ EmptyString ∧ ∀ k, entry_name name k ≠ EmptyString) as [_ Hen].
  { unfold entry_name. by destruct name. }
  destruct op as [k data|k data|k]; eexists _, _; simpl.
  - unfold AddWithID. assert (String.prefix "/" (folder_path name) = true) as -> by (simpl; by destruct name).
    simpl. run_with (get_proxy_run h p px Hpx). rewrite E0 E1. unfold folder_path at 3. by rewrite join_segment.
  - unfold proxy_Update. assert (String.prefix "/" (entry_path name k) = true) as -> by (simpl; by destruct (entry_name name k)).
    simpl. run_with (get_proxy_run h p px Hpx). rewrite E0 E1. unfold entry_path at 2. by rewrite join_segment.
  - unfold proxy_Remove. assert (String.prefix "/" (entry_path name k) = true) as -> by (simpl; by destruct (entry_name name k)).
    simpl. run_with (get_proxy_run h p px Hpx). rewrite E0 E1. unfold entry_path at 2. by rewrite join_segment.
Qed.

Lemma beside_same_tree h h' : same_tree h h' → beside h h'.
Proof. intros [Hl _ _ Hc]. apply beside_tree_like; [done|]. intros s _. by rewrite Hc. Qed.

Lemma proxy_op_run h l cs tbl op :
  folder h l cs tbl → served h p root → op_ok h cs tbl op →
  match proxy_op op h with
  | (Ok d, h') => is_Some d ∧ served h' p root ∧ changed h' l tbl op ∧ beside h h'
  | (Err _, h') => served h' p root ∧ folder h' l cs tbl ∧ beside h h'
  | (Panic, _) => False
  end.
Proof.
  intros Hfd Hsv Hop. pose proof Hsv as [_ (px & rt & Hpx & E0 & E1 & _ & Hrt & _)].
  destruct (proxy_op_reserved h op px Hpx E0 E1) as (o & lock & ->).
  assert (∀ h1, same_tree h h1 → ∃ d h2, result_data (root_op op) h1 = (Ok (Some d), h2) ∧ served h2 p root ∧ changed h2 l tbl op ∧ beside h1 h2) as Hrun.
  { intros h1 Hs1. destruct (root_op_run h1 l cs tbl op) as (c & h2 & Hr & [cn Hcn] & Hrest);
      [by eapply same_tree_folder | eapply served_like; [done | by apply st_like] | by eapply op_ok_same |].
    exists (cf_Data (np_Config cn)), h2. split; [|done]. unfold result_data. run_with Hr. by run_with (GetData_run h2 c cn Hcn). }
  assert (∀ h1, same_tree h h1 → ∃ x h2, result_data (root_op op) h1 = (Ok x, h2) ∧ is_Some (hp_proxies h2 !! p)) as Hends.
  { intros h1 Hs1. destruct (Hrun h1 Hs1) as (d & h2 & Hm & [_ (px2 & _ & Hpx2 & _)] & _). exists (Some d), h2. split; [done | by exists px2]. }
  pose proof (reserved_run h p px rt o lock (result_data (root_op op)) Hpx ltac:(by rewrite E0) Hends) as Hres.
  destruct (reserved _ _ _ _ h) as [[d|e|] h']; [|split; [eapply served_like; [done | by apply st_like] | split; [by eapply same_tree_folder | by apply beside_same_tree]]|done].
  destruct Hres as (h1 & h2 & Hs1 & Hm & Hs2). destruct (Hrun h1 Hs1) as (d' & h2' & Hm' & Hsv2 & Hch2 & Hbs2).
  rewrite Hm' in Hm. injection Hm as <- <-. split; [done|]. split; [eapply served_like; [done | by apply st_like]|]. split; [by eapply changed_same|].
  etrans; [by apply beside_same_tree|]. etrans; [done | by apply beside_same_tree].
Qed.

(** ** The data model is a finite map *)

(** The proxy serves a table that is the map [m]. *)
Definition serving h (m : gmap string Msg) : Prop :=
  served h p root ∧ ∃ l cs tbl, folder h l cs tbl ∧ (list_to_map tbl : gmap string Msg) = m.

(** The operation is allowed: a new entry is added, one that is there is updated
    with other data or removed. *)
Definition ready h op : Prop := ∃ l cs tbl, folder h l cs tbl ∧ op_ok h cs tbl op.

(** The node took a new revision. *)
Definition moved h h' : Prop := ∀ l, kept h l → ¬ kept h' l.

(** Each operation is allowed, and no new revision has the hash of the one it
    replaces. *)
Inductive calm : list FolderOp → Heap → Prop :=
  | calm_nil h : calm [] h
  | calm_cons op ops h (r : UpdateResult) h' :
      ready h op → dp_op (H := model_proxy) op h = (r, h') →
      (r = UpdOk → is_remove op = false → moved h h') → calm ops h' → calm (op :: ops) h.

(** The entry did not expire in the cache. *)
Definition unexpired h (k : string) : Prop := ∀ c np, hp_cache h !! entry_name name k = Some c → npr_at h c = Some np →
  age_ms (hp_now h) (np_lastUpdate np) < DataRefreshPeriod.

Lemma folder_unique h l cs tbl l' cs' tbl' :
  folder h l cs tbl → folder h l' cs' tbl' → l' = l ∧ cs' = cs ∧ tbl' = tbl.
Proof.
  intros [_ _ _ (br & Hbr & _ & Hl) (nl & Hnl & _ & _ & Hcs) Hf _ _] [_ _ _ (br' & Hbr' & _ & Hl') (nl' & Hnl' & _ & _ & Hcs') Hf' _ _].
  assert (l' = l) as -> by congruence. assert (nl' = nl) as -> by congruence.
  assert (cs' = cs) as ->.
  { apply (inj (fmap (M := list) Some)). by rewrite -Hcs -Hcs'. }
  do 2 (split; [done|]). clear -Hf Hf'. revert tbl' Hf'. induction Hf as [|c [k m] cs tbl Hc Hf IH]; intros tbl' Hf'.
  - by inversion Hf'.
  - inversion Hf' as [|? [k' m'] ? tbl2 Hc' Hf2]; subst. rewrite (IH tbl2 Hf2). f_equal.
    destruct Hc as (cn & _ & _ & Hcn & Hd & Hn & _), Hc' as (cn' & _ & _ & Hcn' & Hd' & Hn' & _). simpl in *.
    assert (cn' = cn) as -> by congruence. f_equal; [|congruence]. apply (entry_name_inj name). congruence.
Qed.

(** One operation, and what the finite map does. *)
Lemma dp_op_model h m op r h' :
  serving h m → ready h op → dp_op (H := model_proxy) op h = (r, h') →
  dp_op (H := map_proxy) op m = (UpdOk, table_op op m) ∧
  ((r = UpdOk ∧ ((is_remove op = false → moved h h') → serving h' (table_op op m))) ∨ (∃ e, r = UpdErr e ∧ serving h' m)) ∧ beside h h'.
Proof.
  intros (Hsv & l & cs & tbl & Hfd & <-) (l' & cs' & tbl' & Hfd' & Hop) Hrun.
  destruct (folder_unique _ _ _ _ _ _ _ Hfd Hfd') as (-> & -> & ->). split.
  - destruct op as [k d|k d|k]; [done| |done]. simpl.
    destruct Hop as (_ & _ & _ & idx & c & old & _ & Hkm & _). 
    by rewrite (elem_of_list_to_map_1 tbl k old (fd_keys _ _ _ _ _ _ _ _ _ Hfd) (list_elem_of_lookup_2 _ _ _ Hkm)).
  - assert (dp_op (H := model_proxy) op h = write_result op h) as E by by destruct op.
    rewrite E in Hrun. unfold write_result in Hrun.
    pose proof (proxy_op_run h l cs tbl op Hfd Hsv Hop) as Hres. destruct (proxy_op op h) as [[d|e|] h1]; simpl in Hrun.
    + destruct Hres as ([d' ->] & Hsv' & Hch & Hbs). injection Hrun as <- <-. split; [|done]. left. split; [done|]. intros Hmoved. split; [done|].
      destruct Hch as [(l1 & cs1 & tbl1 & Hf1 & Hm)|[Hr Hk]]; [by exists l1, cs1, tbl1|].
      exfalso. eapply (Hmoved Hr); [by eapply folder_kept | exact Hk].
    + destruct Hres as (Hsv' & Hf' & Hbs). injection Hrun as <- <-. split; [|done]. right. exists e. split; [done|]. split; [done|]. by exists l, cs, tbl.
    + done.
Qed.

(** Reading an entry through the proxy. *)
Lemma dp_get_model h m k :
  serving h m → segment k → unexpired h k →
  (is_Some (m !! k) ∨ ∃ nd rt, hp_nodes h !! n = Some nd ∧ hp_roots h !! nd_Root nd = Some rt ∧ rt_KvStore rt = false) →
  dp_get (DataProxy := model_proxy) k h = dp_get (DataProxy := map_proxy) k m.
Proof.
  intros (Hsv & l & cs & tbl & Hfd & <-) Hk Hfresh Hin. pose proof Hsv as [_ (px & rt & Hpx & E0 & _)]. simpl.
  unfold proxy_Get, reading. destruct (SetOperation_run h p px ProxyGet Hpx) as (h1 & Hop & Hs1). run_with Hop.
  pose proof (served_like n b h h1 p root Hsv (st_like _ _ Hs1)) as [_ (px1 & rt1 & Hpx1 & F0 & _ & _ & Hrt1 & En1)].
  run_with (get_proxy_run h1 p px1 Hpx1). rewrite F0. run_with (get_root_run h1 _ rt1 Hrt1). rewrite En1.
  pose proof (st_like _ _ Hs1) as [T1 T2 T3 T4 T5 T6 T7].
  assert (node_Get n (entry_path name k) EmptyString 0 false EmptyString h1 =
    (Ok (match (list_to_map tbl : gmap string Msg) !! k with Some m => ROne m | None => RNone end), h1)) as Hget.
  { eapply get_entry; [done | by eapply same_tree_folder | done | |].
    - intros c np Hc Hnp. rewrite (st_cache _ _ Hs1) in Hc. rewrite (same_tree_npr _ _ _ Hs1) in Hnp. rewrite T7. by eapply Hfresh.
    - destruct Hin as [[d Hd]|(nd & rt0 & Hn & Hr & Hkv)].
      + left. apply elem_of_list_to_map_2 in Hd. apply list_elem_of_fmap. by exists (k, d).
      + right. destruct (T6 _ rt0 Hr) as (rt0' & Hr' & _ & _ & Hkv'). exists nd, rt0'. rewrite T4 Hkv'. done. }
  rewrite sbind_attempt Hget. destruct (SetOperation_run h1 p px1 ProxyNone Hpx1) as (h2 & Hop2 & _). run_with Hop2.
  simpl. by destruct (_ !! k).
Qed.

Lemma dp_run_model ops h :
  calm ops h → ∀ m, serving h m →
  ∃ results h', dp_run (H := model_proxy) ops h = (results, h') ∧
    (∀ r, r ∈ results → r = UpdOk ∨ ∃ e, r = UpdErr e) ∧
    ∃ oks m', dp_run (H := map_proxy) (done_ops ops results) m = (oks, m') ∧ (∀ r, r ∈ oks → r = UpdOk) ∧ serving h' m'.
Proof.
  induction 1 as [h|op ops h r h1 Hready Hop Hmoved _ IH]; intros m Hm.
  - exists [], h. split; [done|]. split; [set_solver|]. exists [], m. split; [done|]. by split; [set_solver|].
  - destruct (dp_op_model h m op r h1 Hm Hready Hop) as (Hmap & Hcase & _).
    assert (∃ m1 ops', serving h1 m1 ∧ (r = UpdOk ∨ ∃ e, r = UpdErr e) ∧ ∀ rs, done_ops (op :: ops) (r :: rs) = ops' ++ done_ops ops rs ∧
      ∀ oks m2, dp_run (H := map_proxy) (done_ops ops rs) m1 = (oks, m2) →
        dp_run (H := map_proxy) (ops' ++ done_ops ops rs) m = (((λ _, UpdOk) <$> ops') ++ oks, m2)) as (m1 & ops' & Hm1 & Hr & Hdone).
    { destruct Hcase as [[-> Hs]|(e & -> & Hs)].
      - exists (table_op op m), [op]. split; [by apply Hs, Hmoved|]. split; [by left|]. intros rs. split; [done|].
        intros oks m2 Hoks. cbn [dp_run app]. by rewrite Hmap Hoks.
      - exists m, []. split; [done|]. split; [right; by exists e|]. intros rs. split; [done|]. by intros oks m2 Hoks. }
    destruct (IH m1 Hm1) as (rs & h' & Hrun & Hrs & oks & m' & Hmrun & Hoks & Hserv).
    exists (r :: rs), h'. cbn [dp_run]. rewrite Hop Hrun. split; [done|].
    split; [intros x [->|Hx]%elem_of_cons; [done | by apply Hrs]|].
    destruct (Hdone rs) as [-> Hd]. exists (((λ _, UpdOk) <$> ops') ++ oks), m'. split; [by apply Hd|]. split; [|done].
    intros x [Hx|Hx]%elem_of_app; [|by apply Hoks]. by apply list_elem_of_fmap in Hx as (_ & -> & _).
Qed.

(** C23: seen from the agents, the data model is a finite map: whatever allowed
    operations they do, each succeeds or reports an error and changes nothing; the
    map does those that succeeded without an error; and reading an entry of the map
    gives the same as reading it in the map, also for a key that is not there when
    the tree is only in memory, as long as the entry did not expire in the cache
    (then it is read from the store; a new entry is stored as an expired one).  No
    two successive revisions may have the same hash. *)
Theorem data_model_refines_map h m ops :
  serving h m → calm ops h →
  ∃ results h', dp_run (H := model_proxy) ops h = (results, h') ∧
    (∀ r, r ∈ results → r = UpdOk ∨ ∃ e, r = UpdErr e) ∧
    ∃ oks m', dp_run (H := map_proxy) (done_ops ops results) m = (oks, m') ∧ (∀ r, r ∈ oks → r = UpdOk) ∧
      ∀ k, segment k → unexpired h' k →
        (is_Some (m' !! k) ∨ ∃ nd rt, hp_nodes h' !! n = Some nd ∧ hp_roots h' !! nd_Root nd = Some rt ∧ rt_KvStore rt = false) →
        dp_get (DataProxy := model_proxy) k h' = dp_get (DataProxy := map_proxy) k m'.
Proof.
  intros Hm Hcalm. destruct (dp_run_model ops h Hcalm m Hm) as (results & h' & Hrun & Hrs & oks & m' & Hmap & Hoks & Hserv).
  exists results, h'. split; [done|]. split; [done|]. exists oks, m'. split; [done|]. split; [done|].
  intros k Hk Hfresh Hin. by apply dp_get_model.
Qed.
End Service.
