(* ===== verification/ModelContainers.v ===== *)
(** * The data model: all the containers of the tree

    The managers and the agents share one tree: each of them uses a container of its
    own ("devices", "logical_devices", "adapters", ...).  What is done in a container
    leaves the other ones as they were, so the tree does what a map of maps does. *)

From S2P Require Import Prelude DataProxy ModelTree ModelMerge ModelNode ModelRoot ModelFacts ModelPaths ModelTable ModelProxy ModelService.

(** ** Another container *)

Section Another.
Context {Msg KV : Type} `{HS : Schema Msg, HB : Backend KV, HG : GoRange}.
Notation Heap := (Heap Msg KV).
Implicit Types (h : Heap) (tbl : list (string * Msg)).
Context (n b : nat) (name name' key ct : string).
Hypothesis (name_segment : segment name) (name_segment' : segment name') (apart : name' ≠ name).

Lemma other_entry k : other_name name (entry_name name' k).
Proof. intros k' Heq. by apply apart, (entry_name_apart _ _ k k'); [apply name_segment' | apply name_segment |]. Qed.

Lemma child_of_beside h h' c km :
  beside b name h h' → child_of b name' key ct h c km → child_of b name' key ct h' c km.
Proof.
  intros Hbs (cn & cb & nd & H1 & H2 & H3 & H4 & H5 & H6 & H7 & H8 & H9 & H10 & H11).
  destruct (bs_npr _ _ _ _ Hbs c cn H1) as (cn' & H1' & E1 & E2 & E3).
  destruct (bs_nodes _ _ _ _ Hbs _ nd H8) as (nd' & H8' & F1 & F2 & _).
  exists cn', cb, nd'. rewrite E1 E2 E3 F1 F2. do 4 (split; [done|]).
  split; [|done]. apply (bs_branches _ _ _ _ Hbs). split; [done|]. split; [done|]. exists c, cn. do 2 (split; [done|]).
  rewrite H3. apply other_entry.
Qed.

Lemma folder_beside h h' l cs tbl :
  beside b name h h' → folder n b name' key ct h l cs tbl → ∃ l', folder n b name' key ct h' l' cs tbl.
Proof.
  intros Hbs [Hok (nd & fs & Hn & Hb & Hfield & Hfs & Hpx) Hk (br & Hbr & Ht & Hl) (nl & Hnl & Hname & Hlb & Hcs) Hf Hd Hca].
  destruct (bs_latest _ _ _ _ Hbs br l nl Hbr Hl Hnl) as (br' & l' & nl' & Hbr' & Ht' & Hl' & Hnl' & N1 & N2 & N3).
  exists l'. split; [by apply (bs_ok _ _ _ _ Hbs) | | done | | | | done |].
  - destruct (bs_nodes _ _ _ _ Hbs n nd Hn) as (nd' & Hn' & F1 & F2 & F3). exists nd', fs. rewrite F1 F2. do 4 (split; [done|]).
    destruct F3 as [->|F3]; [|done]. intros p Hp. by apply (bs_proxies _ _ _ _ Hbs), Hpx.
  - exists br'. by rewrite Ht' Ht.
  - exists nl'. rewrite N1 N2 N3; done.
  - eapply Forall2_impl; [exact Hf|]. intros c km. by apply child_of_beside.
  - intros k p. rewrite (bs_cache _ _ _ _ Hbs); [|by apply other_entry]. intros Hp.
    destruct (Hca k p Hp) as (m & np & Hin & Hnp & Hm). destruct (bs_npr _ _ _ _ Hbs p np Hnp) as (np' & Hnp' & E1 & _).
    exists m, np'. by rewrite E1.
Qed.
End Another.

(** ** The tree *)

Section Containers.
Context {Msg KV : Type} `{HS : Schema Msg, HB : Backend KV, HG : GoRange, !SchemaLaws Msg}.
Notation Heap := (Heap Msg KV).
Notation ContainerOp := (string * FolderOp (Msg := Msg))%type.
Notation Tables := (gmap string (gmap string Msg)).
Implicit Types (h : Heap) (c : ContainerOp) (ms : Tables).

(** The node and its branch, the proxy and its root; the key and the type of the
    entries of each container. *)
Context (n b p root : nat) (kinds : gmap string (string * string)).

(** An operation on a container, through the proxy of the tree. *)
Definition tree_op c : Heap → UpdateResult * Heap := dp_op (H := model_proxy c.1 p) c.2.
Definition tables_op c ms : Tables := alter (table_op c.2) c.1 ms.

Fixpoint tree_run (cs : list ContainerOp) h : list UpdateResult * Heap :=
  match cs with
  | [] => ([], h)
  | c :: cs => let (r, h1) := tree_op c h in let (rs, h2) := tree_run cs h1 in (r :: rs, h2)
  end.
Definition tables_run (cs : list ContainerOp) ms : Tables := foldl (λ ms c, tables_op c ms) ms cs.

(** Every container of the tree is the map of its name. *)
Definition serves h ms : Prop := ∀ name m, ms !! name = Some m →
  segment name ∧ ∃ key ct, kinds !! name = Some (key, ct) ∧ serving n b name key ct p root h m.

(** The operations are on containers of the tree, and each is allowed there as for
    one container. *)
Inductive calm_tree : list ContainerOp → Heap → Prop :=
  | calm_none h : calm_tree [] h
  | calm_one name op cs h key ct r h' :
      kinds !! name = Some (key, ct) → ready n b name key ct h op → tree_op (name, op) h = (r, h') →
      (r = UpdOk → is_remove op = false → moved b h h') → calm_tree cs h' → calm_tree ((name, op) :: cs) h.

Lemma serving_beside name name' key ct h h' m :
  segment name → segment name' → name' ≠ name → beside b name h h' → served n b h' p root →
  serving n b name' key ct p root h m → serving n b name' key ct p root h' m.
Proof.
  intros Hn Hn' Hne Hbs Hsv (_ & l & cs & tbl & Hf & Hm). split; [exact Hsv|].
  destruct (folder_beside n b name name' key ct Hn Hn' Hne h h' l cs tbl Hbs Hf) as (l' & Hf'). by exists l', cs, tbl.
Qed.

(** An operation on one container. *)
Lemma tree_op_run h ms name op key ct r h' :
  serves h ms → is_Some (ms !! name) → kinds !! name = Some (key, ct) → ready n b name key ct h op →
  tree_op (name, op) h = (r, h') → (r = UpdOk → is_remove op = false → moved b h h') →
  (r = UpdOk ∧ serves h' (tables_op (name, op) ms)) ∨ (∃ e, r = UpdErr e ∧ serves h' ms).
Proof.
  intros Hms [m Hm] Hkind Hready Hop Hmoved. destruct (Hms name m Hm) as (Hseg & key0 & ct0 & Hkind0 & Hsv).
  assert (key0 = key) as -> by congruence. assert (ct0 = ct) as -> by congruence.
  destruct (dp_op_model n b name key ct p root Hseg h m op r h' Hsv Hready Hop) as (_ & Hcase & Hbs).
  assert (∀ ms' m', serving n b name key ct p root h' m' → ms' !! name = Some m' →
    (∀ name', name' ≠ name → ms' !! name' = ms !! name') → serves h' ms') as Hall.
  { intros ms' m' Hsv' Hm' Hothers x mx Hx. destruct (decide (x = name)) as [->|Hne].
    - assert (mx = m') as -> by congruence. split; [done|]. by exists key, ct.
    - rewrite Hothers in Hx; [|done]. destruct (Hms x mx Hx) as (Hsegx & kx & tx & Hkx & Hsvx). split; [done|].
      exists kx, tx. split; [done|]. destruct Hsv' as [Hsv' _]. by apply (serving_beside name x kx tx h h'). }
  destruct Hcase as [[-> Hs]|(e & -> & Hs)]; [left | right; exists e]; (split; [done|]).
  - apply (Hall _ (table_op op m)); [by apply Hs, Hmoved | | ].
    + unfold tables_op. simpl. by rewrite lookup_alter_eq Hm.
    + intros x Hx. unfold tables_op. simpl. by rewrite lookup_alter_ne.
  - by apply (Hall _ m).
Qed.

Lemma tree_run_serves cs h :
  calm_tree cs h → ∀ ms, serves h ms → (∀ c, c ∈ cs → is_Some (ms !! c.1)) →
  ∃ results h', tree_run cs h = (results, h') ∧ (∀ r, r ∈ results → r = UpdOk ∨ ∃ e, r = UpdErr e) ∧
    serves h' (tables_run (done_ops cs results) ms).
Proof.
  induction 1 as [h|name op cs h key ct r h1 Hkind Hready Hop Hmoved _ IH]; intros ms Hms Hin.
  - exists [], h. split; [done|]. split; [set_solver | done].
  - assert (∃ ms1, serves h1 ms1 ∧ (r = UpdOk ∨ ∃ e, r = UpdErr e) ∧ (∀ c, c ∈ cs → is_Some (ms1 !! c.1)) ∧
      ∀ rs, tables_run (done_ops ((name, op) :: cs) (r :: rs)) ms = tables_run (done_ops cs rs) ms1)
      as (ms1 & Hms1 & Hr & Hin1 & Hdone).
    { assert (∀ c, c ∈ cs → is_Some (ms !! c.1)) as Hold by (intros c Hc; apply Hin; set_solver).
      destruct (tree_op_run h ms name op key ct r h1 Hms (Hin (name, op) (list_elem_of_here _ _)) Hkind Hready Hop Hmoved)
        as [[-> Hs]|(e & -> & Hs)].
      - exists (tables_op (name, op) ms). split; [done|]. split; [by left|]. split; [|done].
        intros c Hc. unfold tables_op. by apply lookup_alter_is_Some, Hold.
      - exists ms. split; [done|]. split; [right; by exists e | done]. }
    destruct (IH ms1 Hms1 Hin1) as (rs & h' & Hrun & Hrs & Hserves).
    exists (r :: rs), h'. cbn [tree_run]. rewrite Hop Hrun. split; [done|].
    split; [intros x [->|Hx]%elem_of_cons; [done | by apply Hrs]|]. by rewrite Hdone.
Qed.

(** What the operations on one container, in their order, make of its map. *)
Definition container_run (name : string) (cs : list ContainerOp) (m : gmap string Msg) : gmap string Msg :=
  foldl (λ m op, table_op op m) m (snd <$> filter (λ c, c.1 = name) cs).

Lemma tables_run_lookup cs ms name m :
  ms !! name = Some m → tables_run cs ms !! name = Some (container_run name cs m).
Proof.
  revert ms m. induction cs as [|[x op] cs IH]; intros ms m Hm; [done|].
  change (tables_run ((x, op) :: cs) ms) with (tables_run cs (tables_op (x, op) ms)).
  unfold container_run. rewrite filter_cons. unfold tables_op. simpl. case_decide as Hx.
  - subst x. rewrite (IH _ (table_op op m)); [done|]. by rewrite lookup_alter_eq Hm.
  - apply IH. by rewrite lookup_alter_ne.
Qed.

End Containers.
