(* ===== verification/ModelInit.v ===== *)
(** * The data model: new trees

    A new root has a node with empty tables, and its first proxy serves the whole
    tree; making other roots and proxies leaves it as it is. *)

From S2P Require Import Prelude ModelTree ModelMerge ModelNode ModelRoot ModelFacts ModelTable ModelProxy.

Section NewTree.
Context {Msg KV : Type} `{HS : Schema Msg, HB : Backend KV, HG : GoRange, !SchemaLaws Msg}.
Notation Heap := (Heap Msg KV).
Implicit Types h : Heap.

(** ** Later heaps *)

(** New objects were made, and the node [x] was changed. *)
Record later (x : option nat) h h' : Prop := mkLater {
  lt_next : (hp_next h ≤ hp_next h')%nat;
  lt_nprs : hp_nprs h ⊆ hp_nprs h';
  lt_revs : hp_revs h ⊆ hp_revs h';
  lt_branches : hp_branches h ⊆ hp_branches h';
  lt_nodes : ∀ p nd, x ≠ Some p → hp_nodes h !! p = Some nd → hp_nodes h' !! p = Some nd;
  lt_proxies : ∀ p px, (p < hp_next h)%nat → hp_proxies h !! p = Some px → hp_proxies h' !! p = Some px;
  lt_roots : ∀ r rt, (r < hp_next h)%nat → hp_roots h !! r = Some rt →
    ∃ rt', hp_roots h' !! r = Some rt' ∧ rt_node rt' = rt_node rt;
  lt_cache : hp_cache h' = hp_cache h }.

Lemma later_npr_at x h h' p np : later x h h' → npr_at h p = Some np → npr_at h' p = Some np.
Proof.
  intros [_ L2 L3 _ _ _ _ _] (r & Hr & Hnp)%bind_Some. apply bind_Some. exists r.
  split; by eapply lookup_weaken.
Qed.

(** ** Nodes without children *)

(** The node [n] has one branch, whose latest revision has no children. *)
Record bare_node h (n b l : nat) (m : Msg) (proxy : option nat) : Prop := mkBare {
  bn_node : ∃ nd, hp_nodes h !! n = Some nd ∧ nd_Branches nd !! NONE = Some b ∧ nd_Type nd = m ∧ nd_Proxy nd = proxy;
  bn_branch : ∃ br, hp_branches h !! b = Some br ∧ br_Txid br = EmptyString ∧ br_Latest br = Some l;
  bn_latest : ∃ nl, npr_at h l = Some nl ∧ np_Name nl = EmptyString ∧ np_Branch nl = b ∧ np_Children nl = ∅ }.

Lemma bare_later x h h' n b l m proxy : later x h h' → x ≠ Some n → bare_node h n b l m proxy → bare_node h' n b l m proxy.
Proof.
  intros Hlt Hx [(nd & Hn & Hrest) (br & Hbr & Hbrest) (nl & Hl & Hlrest)]. split.
  - exists nd. split; [by eapply lt_nodes | done].
  - exists br. split; [exact (lookup_weaken _ _ _ _ Hbr (lt_branches _ _ _ Hlt)) | done].
  - exists nl. split; [by eapply later_npr_at | done].
Qed.

(** Its containers are empty tables. *)
Lemma bare_folder h n b l m proxy name key ct fromStr :
  heap_ok h → hp_cache h = ∅ → bare_node h n b l m proxy → (∀ p, proxy = Some p → is_Some (hp_proxies h !! p)) →
  key ≠ EmptyString → ChildrenFields m !! name = Some (mkChildType ct true key fromStr) →
  (∀ s, fromStr s = KeyString s) → folder n b name key ct h l [] [].
Proof.
  intros Hok Hca [(nd & Hn & Hb & <- & <-) (br & Hbr & Ht & Hl) (nl & Hnl & Hname & Hnb & Hc)] Hp Hkey Hfield Hfs.
  split; [done | by exists nd, fromStr | done | by exists br | | constructor | constructor |].
  - exists nl. unfold children_of. by rewrite Hc lookup_empty.
  - intros k p. by rewrite Hca lookup_empty.
Qed.

(** ** Making a root *)

Lemma NewRoot_run h (m : Msg) (kv : bool) :
  heap_ok h → no_children m →
  ∃ h' rt b l, NewRoot m kv h = (Ok (hp_next h), h') ∧ heap_ok h' ∧ later None h h' ∧ (hp_next h < hp_next h')%nat ∧
    hp_roots h' !! hp_next h = Some rt ∧ rt_KvStore rt = kv ∧ bare_node h' (rt_node rt) b l m None ∧
    hp_nodes h !! rt_node rt = None.
Proof.
  intros Hok Hno. unfold NewRoot, alloc, modify, put_root.
  do 4 (unfold sbind at 1; simpl). set (root := hp_next h).
  set (rt0 := mkRoot O [] (S root) kv).
  set (h1 := set_roots _ _).
  assert (heap_ok h1) as Hok1.
  { eapply (heap_ok_ext (skip (skip h))); [by apply skip_ok, skip_ok | done..|].
    intros r Hr. simpl. by apply is_Some_insert. }
  assert (hp_roots h1 !! root = Some rt0) as Hrt by apply lookup_insert_eq.
  destruct (newNode_run (S (msg_depth m)) root m h1 ltac:(lia) Hok1 ltac:(by exists rt0)) as (node & h2 & Hrun & Hok2 & Hg & Hnew).
  run_with Hrun. destruct (gr_roots _ _ Hg root rt0 Hrt) as (rt2 & Hrt2 & _ & _ & Hkv2). run_with (get_root_run h2 root rt2 Hrt2).
  set (rt := mkRoot node (rt_Callbacks rt2) (rt_DirtyNodes rt2) (rt_KvStore rt2)).
  destruct Hnew as (nd & b & br & r & rn & Hnd & _ & Htype & Hpx & Hb & Hbr & _ & Ht & Hl & (_ & Hrn & _) & Hdata & Hname & Hnb & Hfresh & _ & Hc).
  unfold sbind at 1. simpl. eexists _, rt, b, r. split; [done|]. destruct Hg as [G1 G2 G3 G4 G5 G6 G7].
  injection G7 as E1 E2 E3 E4 E5 E6. split; [|split; [|split; [|split; [|split; [|split]]]]].
  - eapply (heap_ok_ext h2); [done..|]. intros x Hx. by apply is_Some_insert.
  - split; simpl; [simpl in G1; lia | done | done | done | | | | done].
    + intros p pn _ Hp. exact (lookup_weaken _ _ _ _ Hp G5).
    + intros p px _. by rewrite E1.
    + intros x xt Hx Hxt. assert (x ≠ root) as Hne by (unfold root; lia). rewrite lookup_insert_ne; [|done].
      destruct (G6 x xt) as (xt' & Hxt' & En & _); [by rewrite /= lookup_insert_ne | by exists xt'].
  - simpl. simpl in G1. lia.
  - apply lookup_insert_eq.
  - done.
  - split; [by exists nd | by exists br | by exists rn; rewrite (Hc Hno)].
  - done.
Qed.

(** A new data model, made from a message without messages in it, has a node
    whose containers with a string as their key are empty tables. *)
Theorem new_root_empty (h : Heap) (m : Msg) (kv : bool) name key ct fromStr :
  heap_ok h → hp_cache h = ∅ → no_children m → key ≠ EmptyString →
  ChildrenFields m !! name = Some (mkChildType ct true key fromStr) → (∀ s, fromStr s = KeyString s) →
  ∃ root h' rt b l, NewRoot m kv h = (Ok root, h') ∧ hp_roots h' !! root = Some rt ∧ rt_KvStore rt = kv ∧
    folder (rt_node rt) b name key ct h' l [] [].
Proof.
  intros Hok Hca Hno Hkey Hfield Hfs.
  destruct (NewRoot_run h m kv Hok Hno) as (h' & rt & b & l & Hrun & Hok' & Hlt & _ & Hrt & Hkv & Hbare & _).
  exists (hp_next h), h', rt, b, l. split; [done|]. split; [done|]. split; [done|].
  eapply bare_folder; [done | by rewrite (lt_cache _ _ _ Hlt) | done | done | done..].
Qed.

(** ** The proxy of a whole tree *)

(** The first proxy of a node is made for the whole tree, with a root of its own. *)
Lemma create_proxy_run h (n b l : nat) m :
  heap_ok h → bare_node h n b l m None →
  ∃ p root h', node_CreateProxy n "/" false h = (Ok (Some p), h') ∧ heap_ok h' ∧ later (Some n) h h' ∧
    (p < hp_next h')%nat ∧ (root < hp_next h')%nat ∧ bare_node h' n b l m (Some p) ∧ served n b h' p root.
Proof.
  intros Hok [(nd & Hn & Hb & Ht & Hp) (br & Hbr & Hbrest) (nl & Hl & Hlrest)].
  destruct (ho_root h Hok n nd Hn) as [rt Hrt].
  change (node_CreateProxy n "/" false h) with
    (sbind (makeProxy (KV := KV) n EmptyString "/" n false) (λ p, ret (Some p)) h).
  unfold makeProxy. unfold sbind at 1. run_with (get_node_run h n nd Hn). run_with (get_root_run h _ rt Hrt).
  unfold NewProxy, SetProxy, alloc, put_root, put_node, get_node, modify, ret, sbind, deref. simpl.
  rewrite Hp. simpl. rewrite Hn.
  eexists (S (hp_next h)), (hp_next h), _. split; [reflexivity|].
  set (h1 := set_proxies _ _).
  assert (heap_ok h1) as Hok1.
  { eapply (heap_ok_ext (skip (skip h))); [by apply skip_ok, skip_ok | done..|].
    intros r Hr. simpl. by apply is_Some_insert. }
  split; [by apply (put_node_ok h1 n nd)|]. split; [|split; [simpl; lia|split; [simpl; lia|split]]].
  - split; simpl; [lia | done | done | done | | | | done].
    + intros q qd Hq Hqd. rewrite lookup_insert_ne; [done | congruence].
    + intros q qd Hq Hqd. rewrite lookup_insert_ne; [done | lia].
    + intros q qd Hq Hqd. rewrite lookup_insert_ne; [by exists qd | lia].
  - split; simpl; [|by exists br | by exists nl]. eexists. split; [apply lookup_insert_eq|]. by simpl.
  - split.
    + eexists _, br. split; [apply lookup_insert_eq|]. by simpl.
    + eexists _, _. split; [apply lookup_insert_eq|]. do 3 (split; [done|]). split; [apply lookup_insert_eq | done].
Qed.

Lemma served_later x h h' n b p root :
  later x h h' → x ≠ Some n → (p < hp_next h)%nat → (root < hp_next h)%nat → served n b h p root → served n b h' p root.
Proof.
  intros Hlt Hx Hp Hr [(nd & br & Hn & Hb & Hnp & Hbr) (px & rt & Hpx & E0 & E1 & E2 & Hrt & En)]. split.
  - exists nd, br. split; [by eapply lt_nodes|]. do 2 (split; [done|]). exact (lookup_weaken _ _ _ _ Hbr (lt_branches _ _ _ Hlt)).
  - destruct (lt_roots _ _ _ Hlt root rt Hr Hrt) as (rt' & Hrt' & En'). exists px, rt'.
    split; [by eapply lt_proxies|]. do 3 (split; [done|]). split; [done | congruence].
Qed.
End NewTree.
