(* ===== verification/ModelSamples.v ===== *)
(** * The data model: a concrete tree

    A small schema (a root with devices and logical devices) and a store, on which the theorems of the
    data model are used, and on which some of its behaviour shows. *)

From S2P Require Import Prelude DataProxy ModelTree ModelMerge ModelNode ModelRoot ModelFacts ModelMergeFacts ModelPaths ModelTable ModelProxy ModelService ModelContainers ModelInit.

(** ** A schema and a store *)

Inductive Tree := TRoot (devices logicals : list Tree) | TDevice (id label : string) | TLogical (id label : string).

Definition list_depth (depths : list nat) : nat := fold_right Nat.max O depths.
Fixpoint tree_depth (t : Tree) : nat :=
  match t with
  | TRoot l l' => S (Nat.max (list_depth (map tree_depth l)) (list_depth (map tree_depth l')))
  | _ => O
  end.
Fixpoint tree_string (t : Tree) : string :=
  match t with
  | TRoot l l' => "{" +:+ fold_right (λ d s, tree_string d +:+ s) (fold_right (λ d s, tree_string d +:+ s) "}" l') l
  | TDevice id label | TLogical id label => id +:+ ":" +:+ label
  end.

(** A device is stored as its identifier and its label. *)
Fixpoint split_colon (s : string) : string * string :=
  match s with
  | EmptyString => (EmptyString, EmptyString)
  | String ":" s => (EmptyString, s)
  | String c s => let (a, b) := split_colon s in (String c a, b)
  end.

Definition tree_schema : Schema Tree := {|
  ChildrenFields t :=
    match t with
    | TRoot _ _ => {["devices" := mkChildType "Device" true "id" KeyString;
                     "logical_devices" := mkChildType "LogicalDevice" true "id" KeyString]}
    | _ => ∅
    end;
  attr_String t a := match t with TDevice id _ | TLogical id _ => id | TRoot _ _ => "" end;
  attr_Sprintf t a := match t with TDevice id _ | TLogical id _ => id | TRoot _ _ => "" end;
  attr_children t a :=
    match t with
    | TRoot l l' => if decide (a = "devices") then Some l else if decide (a = "logical_devices") then Some l' else None
    | _ => None
    end;
  attr_set t a l :=
    match t with
    | TRoot d d' => if decide (a = "devices") then TRoot l d' else if decide (a = "logical_devices") then TRoot d l else t
    | _ => t
    end;
  msg_type t := match t with TRoot _ _ => "Root" | TDevice _ _ => "Device" | TLogical _ _ => "LogicalDevice" end;
  msg_String := tree_string;
  msg_Marshal t := Some (tree_string t);
  msg_Unmarshal ty s :=
    let (id, label) := split_colon s in
    if decide (ty = "Device") then Some (TDevice id label)
    else if decide (ty = "LogicalDevice") then Some (TLogical id label) else Some (TRoot [] []);
  msg_New ty :=
    if decide (ty = "Device") then TDevice "" "" else if decide (ty = "LogicalDevice") then TLogical "" "" else TRoot [] [];
  msg_depth := tree_depth;
  md5_12 s := "#" +:+ s;
  ptr_text p := match p with Some _ => "root" | None => "nil" end |}.

#[local] Existing Instance tree_schema.
#[local] Existing Instance canonical_range.

Lemma list_depth_le d l : d ∈ l → (d ≤ list_depth l)%nat.
Proof. induction l as [|x l IH]; [set_solver|]. simpl. intros [->|Hd]%elem_of_cons; [|specialize (IH Hd)]; lia. Qed.

Lemma tree_laws : SchemaLaws Tree.
Proof.
  intros [l l'|? ?|? ?] f ll c; simpl; [|done..]. intros Hf Hc.
  assert (c ∈ l ∨ c ∈ l') as Hin.
  { case_decide; [injection Hf as <-; by left|]. case_decide; [|done]. injection Hf as <-. by right. }
  assert (∀ l0, c ∈ l0 → (tree_depth c ≤ list_depth (map tree_depth l0))%nat) as Hle.
  { intros l0 H0. apply list_depth_le. by apply list_elem_of_fmap_2. }
  destruct Hin as [H0|H0]; specialize (Hle _ H0); lia.
Qed.
#[local] Existing Instance tree_laws.

Definition map_backend : Backend (gmap string (string * Z)) := {|
  bk_Put k v m := (true, <[k := (v, 1 + match m !! k with Some (_, n) => n | None => 0 end)]> m);
  bk_Delete k m := (true, delete k m);
  bk_List path m := inl (filter (λ e, String.prefix path e.1 = true) m);
  bk_Reserve k ttl m := (None, m);
  bk_Release k m := (true, m) |}.
#[local] Existing Instance map_backend.

Definition no_heap : Heap Tree (gmap string (string * Z)) :=
  mkHeap 0 ∅ ∅ ∅ ∅ ∅ ∅ ∅ ∅ ∅ ∅ 100000000000 [].

(** A new data model and a proxy of it: the root and the proxy. *)
Definition new_model (kv : bool) : M (Heap Tree (gmap string (string * Z))) (nat * nat) :=
  let* root := NewRoot (TRoot [] []) kv in
  let* r := get_root root in
  let* p := node_CreateProxy (rt_node r) "/" false in
  let* p := lift (deref p) in
  ret (root, p).

(** A device is added, through the proxy. *)
Definition with_device (kv : bool) (id label : string) : M (Heap Tree (gmap string (string * Z))) (nat * nat) :=
  let* rp := new_model kv in
  let* _ := AddWithID rp.2 "/devices" id (TDevice id label) "" in
  ret rp.

(** ** One device *)

(** The root has the node 2 with the branch 3, the proxy is 8 with the root 7; the
    device is the revision 13, and 16 is the latest revision of the root. *)
Definition sample : Heap Tree (gmap string (string * Z)) := (with_device true "a" "x" no_heap).2.
Definition device_a : Tree := TDevice "a" "x".
Notation devices_of := (folder 2 3 "devices" "id" "Device").

Lemma devices_segment : segment "devices".
Proof. by split. Qed.
Lemma a_segment : segment "a".
Proof. by split. Qed.

Lemma no_heap_ok : heap_ok no_heap.
Proof. by apply heap_okb_ok. Qed.

Lemma cache_one (h : Heap Tree (gmap string (string * Z))) c (P : string → nat → Prop) :
  hp_cache h = {["devices/a" := c]} → P "a" c → ∀ k p, hp_cache h !! entry_name "devices" k = Some p → P k p.
Proof.
  intros -> HP k p [Hk <-]%lookup_singleton_Some. by apply (entry_name_inj "devices" "a" k) in Hk as <-.
Qed.

(** The folder of a heap that is known, whose only entry is the revision [c] with
    the key "a". *)
Ltac one_entry h c :=
  split;
  [ apply heap_okb_ok; by vm_compute
  | eexists _, KeyString; split; [vm_compute; reflexivity|]; split; [by vm_compute|]; split; [by vm_compute|];
    split; [done|]; intros p Hp; vm_compute in Hp; injection Hp as <-; eexists; vm_compute; reflexivity
  | done
  | eexists; split; [vm_compute; reflexivity | done]
  | eexists; split; [vm_compute; reflexivity|]; by vm_compute
  | apply Forall2_cons_2; [|apply Forall2_nil_2]; eexists _, _, _; split; [vm_compute; reflexivity|];
    split; [done|]; split; [done|]; split; [done|]; split; [vm_compute; reflexivity|];
    split; [done|]; split; [done|]; split; [vm_compute; reflexivity|]; split; [by vm_compute|]; by split
  | apply NoDup_singleton
  | apply (cache_one h c (λ k p, ∃ m np, (k, m) ∈ _ ∧ npr_at h p = Some np ∧ cf_Data (np_Config np) = m));
    [ by vm_compute
    | eexists _, _; split; [by apply list_elem_of_singleton|]; split; [vm_compute; reflexivity | done] ] ].

Lemma sample_folder : devices_of sample 16 [13%nat] [("a", device_a)].
Proof. one_entry sample 13%nat. Qed.

(** The device is updated: its revision 19 is the latest, and is in the cache. *)
Definition renewed : Heap Tree (gmap string (string * Z)) := (proxy_Update 8 "/devices/a" (TDevice "a" "y") EmptyString sample).2.

Lemma renewed_folder : devices_of renewed 22 [19%nat] [("a", TDevice "a" "y")].
Proof. one_entry renewed 19%nat. Qed.

Lemma sample_served : served 2 3 sample 8 7.
Proof.
  split.
  - eexists _, _. split; [vm_compute; reflexivity|]. split; [by vm_compute|]. split; [done|]. vm_compute. reflexivity.
  - eexists _, _. split; [vm_compute; reflexivity|]. do 3 (split; [done|]). split; [vm_compute; reflexivity | done].
Qed.

Lemma sample_update : op_ok "id" "Device" sample [13%nat] [("a", device_a)] (OpUpdate "a" (TDevice "a" "y")).
Proof.
  split; [apply a_segment|]. split; [done|]. split; [done|]. exists 0%nat, 13%nat, device_a. split; [done|]. split; [done|].
  split; [done|]. split.
  - apply changes_hash_eval. by vm_compute.
  - intros e en cn He%list_elem_of_singleton Hne. destruct (Hne He).
Qed.

(** ** The theorems at the sample *)

Lemma renewed_cached : hp_cache renewed !! "devices/a" = Some 19%nat.
Proof. vm_compute. reflexivity. Qed.
Lemma renewed_age : bool_decide (age_ms (hp_now renewed) (default 0 (np_lastUpdate <$> npr_at renewed 19)) < DataRefreshPeriod) = true.
Proof. vm_compute. reflexivity. Qed.

Lemma renewed_fresh p np : hp_cache renewed !! "devices/a" = Some p → npr_at renewed p = Some np →
  age_ms (hp_now renewed) (np_lastUpdate np) < DataRefreshPeriod.
Proof.
  rewrite renewed_cached. intros [= <-] Hnp. pose proof renewed_age as Hb. rewrite Hnp in Hb.
  by apply bool_decide_eq_true in Hb.
Qed.

Lemma get_entry_witness : node_Get 2 "/devices/a" EmptyString 0 false EmptyString renewed = (Ok (ROne (TDevice "a" "y")), renewed).
Proof.
  apply (get_entry 2 3 "devices" "id" "Device" devices_segment renewed 22 [19%nat] [("a", TDevice "a" "y")] "a").
  - apply renewed_folder.
  - apply a_segment.
  - apply renewed_fresh.
  - left. by left.
Defined.

Lemma folder_refines_witness : ∃ r h', node_op 2 "devices" (trackDirty 7 EmptyString) (OpUpdate "a" (TDevice "a" "y")) sample = (Ok (Some r), h') ∧
  (collided 3 h' 16 ∨ ∃ l' cs' tbl', devices_of h' l' cs' tbl' ∧
     (list_to_map tbl' : gmap string Tree) = {["a" := TDevice "a" "y"]}).
Proof.
  exact (folder_refines 2 3 "devices" "id" "Device" devices_segment (trackDirty 7 EmptyString) sample 16 [13%nat] [("a", device_a)]
    (OpUpdate "a" (TDevice "a" "y")) sample_folder sample_update).
Defined.

Lemma new_root_empty_witness : ∃ root h' rt b l, NewRoot (TRoot [] []) true no_heap = (Ok root, h') ∧
  hp_roots h' !! root = Some rt ∧ rt_KvStore rt = true ∧ folder (rt_node rt) b "devices" "id" "Device" h' l [] [].
Proof.
  apply (new_root_empty no_heap (TRoot [] []) true "devices" "id" "Device" KeyString).
  - apply no_heap_ok.
  - done.
  - intros f l Hf. simpl in Hf. repeat case_decide; by simplify_eq.
  - done.
  - by vm_compute.
  - done.
Defined.

Definition succeeds {A S} (r : outcome A * S) : bool := match r with (Ok _, _) => true | _ => false end.

Lemma sample_updates : succeeds (proxy_Update 8 (entry_path "devices" "a") (TDevice "a" "y") EmptyString sample) = true.
Proof. vm_compute. reflexivity. Qed.



(** *** Two operations of an agent *)

Definition two_ops : list (FolderOp (Msg := Tree)) := [OpUpdate "a" (TDevice "a" "y"); OpAdd "b" (TDevice "b" "z")].
Notation devices_proxy := (model_proxy "devices" 8).
Definition after_two : list UpdateResult * Heap Tree (gmap string (string * Z)) := dp_run (H := devices_proxy) two_ops sample.

Lemma sample_serving : serving 2 3 "devices" "id" "Device" 8 7 sample {["a" := device_a]}.
Proof. split; [apply sample_served|]. by exists 16%nat, [13%nat], [("a", device_a)]; split; [apply sample_folder|]. Qed.

Lemma latest_moved (h h' : Heap Tree (gmap string (string * Z))) l l' :
  br_Latest <$> hp_branches h !! 3%nat = Some (Some l) → br_Latest <$> hp_branches h' !! 3%nat = Some (Some l') → l ≠ l' →
  moved 3 h h'.
Proof.
  intros Hl Hl' Hne x (br & Hb & Hx) (br' & Hb' & Hx'). rewrite Hb /= Hx in Hl. rewrite Hb' /= Hx' in Hl'. congruence.
Qed.

Lemma devices_op op (h : Heap Tree (gmap string (string * Z))) :
  dp_op (H := devices_proxy) op h = (update_result (proxy_op "devices" 8 op h).1, (proxy_op "devices" 8 op h).2).
Proof.
  destruct op as [k d|k d|k]; simpl; unfold write_result; cbn [proxy_op];
    [destruct (AddWithID _ _ _ _ _ _) | destruct (proxy_Update _ _ _ _ _) | destruct (proxy_Remove _ _ _ _)]; done.
Qed.

Lemma two_ops_calm : calm 2 3 "devices" "id" "Device" 8 two_ops sample.
Proof.
  apply (calm_cons _ _ _ _ _ _ _ _ sample (update_result (proxy_op "devices" 8 (OpUpdate "a" (TDevice "a" "y")) sample).1) renewed).
  - exists 16%nat, [13%nat], [("a", device_a)]. split; [apply sample_folder | apply sample_update].
  - exact (devices_op (OpUpdate "a" (TDevice "a" "y")) sample).
  - intros _ _. apply (latest_moved _ _ 16 22); [by vm_compute | by vm_compute | done].
  - eapply calm_cons; [| exact (devices_op (OpAdd "b" (TDevice "b" "z")) renewed) | | apply calm_nil].
    + exists 22%nat, [19%nat], [("a", TDevice "a" "y")]. split; [apply renewed_folder|].
      split; [done|]. split; [done|]. by intros ?%list_elem_of_singleton.
    + intros _ _. apply (latest_moved _ _ 22 30); [by vm_compute | by vm_compute | done].
Qed.

Definition is_fresh (h : Heap Tree (gmap string (string * Z))) (k : string) : bool :=
  match hp_cache h !! entry_name "devices" k with
  | Some c => match npr_at h c with
              | Some np => bool_decide (age_ms (hp_now h) (np_lastUpdate np) < DataRefreshPeriod) | None => true end
  | None => true
  end.
Lemma fresh_unexpired h k : is_fresh h k = true → unexpired "devices" h k.
Proof. unfold is_fresh. intros Hb c np Hc Hnp. rewrite Hc Hnp in Hb. by apply bool_decide_eq_true in Hb. Qed.

Lemma after_two_ok : after_two.1 = [UpdOk; UpdOk].
Proof. vm_compute. reflexivity. Qed.
Lemma after_two_fresh : is_fresh after_two.2 "a" = true.
Proof. vm_compute. reflexivity. Qed.

Lemma data_model_refines_map_witness : ∃ h', after_two = ([UpdOk; UpdOk], h') ∧
  dp_get (DataProxy := devices_proxy) "a" h' = Ok (Some (TDevice "a" "y")).
Proof.
  destruct (data_model_refines_map 2 3 "devices" "id" "Device" 8 7 devices_segment sample {["a" := device_a]} two_ops
    sample_serving two_ops_calm) as (rs & h' & Hrun & _ & oks & m' & Hmap & _ & Hget).
  pose proof after_two_ok as Hok. pose proof after_two_fresh as Hf. unfold after_two in *.
  rewrite Hrun in Hok, Hf. simpl in Hok, Hf. subst rs. exists h'. split; [exact Hrun|].
  assert (m' = <["b" := TDevice "b" "z"]> (<["a" := TDevice "a" "y"]> {["a" := device_a]})) as ->.
  { change (done_ops two_ops [UpdOk; UpdOk]) with two_ops in Hmap. unfold two_ops in Hmap. cbn [dp_run dp_op dp_update dp_add map_proxy] in Hmap.
    rewrite lookup_singleton_eq in Hmap. by injection Hmap as _ <-. }
  rewrite Hget; [by vm_compute | apply a_segment | by apply fresh_unexpired | left; by vm_compute; eexists].
Defined.

(** *** Two containers *)

Lemma cache_no_logical (h : Heap Tree (gmap string (string * Z))) (P : string → nat → Prop) :
  bool_decide (dom (hp_cache h) = {["devices/a"]}) = true →
  ∀ k p, hp_cache h !! entry_name "logical_devices" k = Some p → P k p.
Proof.
  intros Hd%bool_decide_eq_true k p Hp%elem_of_dom_2. rewrite Hd in Hp. by apply elem_of_singleton in Hp.
Qed.

(** The folder of logical devices of a heap that is known, which is empty. *)
Ltac no_entry h :=
  split;
  [ apply heap_okb_ok; by vm_compute
  | eexists _, KeyString; split; [vm_compute; reflexivity|]; split; [by vm_compute|]; split; [by vm_compute|];
    split; [done|]; intros p Hp; vm_compute in Hp; injection Hp as <-; eexists; vm_compute; reflexivity
  | done
  | eexists; split; [vm_compute; reflexivity | done]
  | eexists; split; [vm_compute; reflexivity|]; by vm_compute
  | apply Forall2_nil_2
  | apply NoDup_nil_2
  | by apply cache_no_logical; vm_compute ].

Lemma sample_logicals : folder 2 3 "logical_devices" "id" "LogicalDevice" sample 16 [] [].
Proof. no_entry sample. Qed.
Lemma renewed_logicals : folder 2 3 "logical_devices" "id" "LogicalDevice" renewed 22 [] [].
Proof. no_entry renewed. Qed.

Definition two_kinds : gmap string (string * string) :=
  {["devices" := ("id", "Device"); "logical_devices" := ("id", "LogicalDevice")]}.
Definition two_tables : gmap string (gmap string Tree) := {["devices" := {["a" := device_a]}; "logical_devices" := ∅]}.

(** A device is updated and a logical device is added. *)
Definition update_a : string * FolderOp (Msg := Tree) := ("devices", OpUpdate "a" (TDevice "a" "y")).
Definition add_l : string * FolderOp (Msg := Tree) := ("logical_devices", OpAdd "l" (TLogical "l" "z")).
Definition after_both : list UpdateResult * Heap Tree (gmap string (string * Z)) := tree_run 8 [update_a; add_l] sample.

Lemma sample_serves : serves 2 3 8 7 two_kinds sample two_tables.
Proof.
  intros name m. unfold two_tables.
  intros [[<- <-]|[Hne [<- <-]%lookup_singleton_Some]]%lookup_insert_Some; (split; [done|]).
  - exists "id", "Device". split; [done | apply sample_serving].
  - exists "id", "LogicalDevice". split; [done|]. split; [apply sample_served|]. exists 16%nat, [], [].
    by split; [apply sample_logicals|].
Qed.

Lemma tree_op_pair op (h : Heap Tree (gmap string (string * Z))) : tree_op 8 op h = ((tree_op 8 op h).1, (tree_op 8 op h).2).
Proof. by destruct (tree_op 8 op h). Qed.
Lemma update_a_renewed : (tree_op 8 update_a sample).2 = renewed.
Proof. vm_compute. reflexivity. Qed.

Lemma both_calm : calm_tree 2 3 8 two_kinds [update_a; add_l] sample.
Proof.
  eapply (calm_one _ _ _ _ _ _ _ _ "id" "Device"); [done | | apply tree_op_pair | |].
  - exists 16%nat, [13%nat], [("a", device_a)]. split; [apply sample_folder | apply sample_update].
  - intros _ _. apply (latest_moved _ _ 16 22); [by vm_compute | by vm_compute | done].
  - rewrite update_a_renewed.
    eapply (calm_one _ _ _ _ _ _ _ _ "id" "LogicalDevice"); [done | | apply tree_op_pair | | apply calm_none].
    + exists 22%nat, [], []. split; [apply renewed_logicals|]. split; [done|]. split; [done | by intros ?%elem_of_nil].
    + intros _ _. apply (latest_moved _ _ 22 30); [by vm_compute | by vm_compute | done].
Qed.

Lemma after_both_ok : after_both.1 = [UpdOk; UpdOk].
Proof. vm_compute. reflexivity. Qed.
Lemma after_both_fresh : is_fresh after_both.2 "a" = true.
Proof. vm_compute. reflexivity. Qed.


(** A transaction that replaced the device "a" by the device "b", whose revision
    is 21. *)
Definition two_devices : Heap Tree (gmap string (string * Z)) :=
  (AddWithID 8 "/devices" "b" (TDevice "b" "z") "" sample).2.

Lemma revision_13 : cf_Data <$> (np_Config <$> npr_at two_devices 13) = Some device_a.
Proof. vm_compute. reflexivity. Qed.
Lemma revision_21 : cf_Data <$> (np_Config <$> npr_at two_devices 21) = Some (TDevice "b" "z").
Proof. vm_compute. reflexivity. Qed.

Lemma one_revision h c m : cf_Data <$> (np_Config <$> npr_at h c) = Some m → @revisions Tree (gmap string (string * Z)) h [Some c].
Proof. intros Hc x ->%list_elem_of_singleton. destruct (npr_at h c) as [np|] eqn:E; [by exists c, np | done]. Qed.


(** ** Behaviour that shows on a small tree *)

Definition in_memory (h : Heap Tree (gmap string (string * Z))) : outcome (Reading Tree) :=
  ((let* b := get_branch 3 in let* l := lift (deref (br_Latest b)) in getPath 10 2 l "devices" 0) h).1.

Definition remove_and_add : M (Heap Tree (gmap string (string * Z))) (option Tree) :=
  let* _ := proxy_Remove 8 "/devices/a" "" in
  AddWithID 8 "/devices" "a" device_a "".

(** The device is removed and the same device is added again.  Both operations
    succeed, but the tree has no device: removing changes the children of the
    revision and not its hash, so the revision with the device is taken for the
    latest one, which it is not.  An update of the device then succeeds with the
    data of the root, which is stored under an empty key, and the entry in the store
    keeps the old data. *)
Fact readd_lost :
  let r := remove_and_add sample in
  let r' := proxy_Update 8 "/devices/a" (TDevice "a" "y") "" r.2 in
  (r.1, in_memory r.2) = (Ok (Some device_a), Ok (RList [])) ∧
  (r'.1, fst <$> hp_kv r'.2 !! "devices/a", fst <$> hp_kv r'.2 !! "") = (Ok (Some (TRoot [] [])), Some "a:x", Some "{}").
Proof. split; vm_compute; reflexivity. Qed.

(** The labels of the devices in memory. *)
Definition labels (r : outcome (Reading Tree)) : list string :=
  match r with Ok (RList l) => tree_string <$> l | _ => [] end.

(** A device is added, updated or removed in a transaction. *)
Definition tx_added : M (Heap Tree (gmap string (string * Z))) TransactionOf :=
  let* t := OpenTransaction 8 "tx" in
  let* _ := tx_Add t "/devices" (TDevice "b" "q") in
  ret t.
Definition tx_removed : M (Heap Tree (gmap string (string * Z))) TransactionOf :=
  let* t := OpenTransaction 8 "tx" in
  let* _ := tx_Remove t "/devices/a" in
  ret t.

(** What a transaction adds is seen when it is committed. *)
Fact added_on_commit :
  labels (in_memory (tx_added sample).2) = ["a:x"] ∧
  labels (in_memory ((let* t := tx_added in Commit 5 t) sample).2) = ["a:x"; "b:q"] ∧
  labels (in_memory ((let* t := tx_added in Cancel t) sample).2) = ["a:x"].
Proof. split; [vm_compute; reflexivity|]. split; vm_compute; reflexivity. Qed.

(** What it removes is gone at once, and stays so when it is cancelled: the
    children are removed from the revision that the branches share. *)
Fact removed_at_once :
  labels (in_memory (tx_removed sample).2) = [] ∧
  labels (in_memory ((let* t := tx_removed in Cancel t) sample).2) = [].
Proof. split; vm_compute; reflexivity. Qed.

(** A device is updated through the proxy and then by another core: the event of the
    second update is put in the cache, but the proxy stays in the operation of the
    watch, so a later event is ignored; and the tree has the first update. *)
Definition watched : M (Heap Tree (gmap string (string * Z))) unit :=
  let* _ := proxy_Update 8 "/devices/a" (TDevice "a" "y") "" in
  let* _ := watch_event 13 (mkEvent EventPut "devices/a" "a:z" 5) in
  ret tt.
Definition cached (h : Heap Tree (gmap string (string * Z))) (name : string) : option Tree :=
  (λ n, cf_Data (np_Config n)) <$> (hp_cache h !! name ≫= npr_at h).

Fact watch_stuck :
  let h := (watched sample).2 in
  let h' := (watch_event 13 (mkEvent EventPut "devices/a" "a:w" 6) h).2 in
  (px_operation <$> hp_proxies h !! 8%nat, cached h "devices/a") = (Some ProxyWatch, Some (TDevice "a" "z")) ∧
  (cached h' "devices/a", labels (in_memory h')) = (Some (TDevice "a" "z"), ["a:y"]).
Proof. split; vm_compute; reflexivity. Qed.

(** A device that was just added and is read at once is read from the store: its
    revision has no time yet, so its entry of the cache counts as expired, and an
    entry that expired hides the tree, which has the device. *)
Fact added_not_read :
  (labels (in_memory sample), cached sample "devices/a") = (["a:x"], Some device_a) ∧
  (read_memory 2 (Some 16%nat) "devices/a" 0 sample).1 = Ok (RNone, false).
Proof. split; vm_compute; reflexivity. Qed.
