(* ===== verification/CoreStart.v ===== *)
(** * Start-up of a core

    [rw_core/core/core.go]: a core waits for the key-value store, creates the
    proxies of the data model and the managers, and starts the goroutines that run
    them; two of these watch whether Kafka and the store are alive and report it
    to the probe, whose status the environment reads. *)

From S2P Require Import Prelude OpenFlow VolthaTypes CoreUtils KVStore Ownership AdapterProxy.
From S2P Require Import ModelTree ModelMerge ModelNode ModelRoot.

(** ** The probe *)

Inductive ServiceStatus :=
  | StatusUnknown | StatusPreparing | StatusPrepared | StatusRunning | StatusStopped | StatusFailed | StatusNotReady.
#[export] Instance ServiceStatus_eq_dec : EqDecision ServiceStatus.
Proof. solve_decision. Defined.

Notation Probe := (gmap string ServiceStatus).

Definition RegisterService (names : list string) (p : Probe) : Probe :=
  fold_left (λ p name, match p !! name with Some _ => p | None => <[name := StatusUnknown]> p end) names p.
Definition UpdateStatus (name : string) (status : ServiceStatus) (p : Probe) : Probe := <[name := status]> p.
Definition GetStatus (name : string) (p : Probe) : ServiceStatus := default StatusUnknown (p !! name).

(** There are services, and every one of them runs. *)
Definition defaultReadyFunc (services : Probe) : bool :=
  bool_decide (services ≠ ∅) && bool_decide (map_Forall (λ _ status, status = StatusRunning) services).

(** ** Waiting for the store *)

(** [waitUntilKVStoreReachableOrMaxTries]: [up n] tells whether the store answers
    the attempt [n]; [fuel] attempts are looked at.  The result has the number of
    naps; [None]: the loop goes on. *)
Fixpoint reachable_loop (fuel : nat) (up : nat → bool) (maxRetries : Z) (count : nat) : option (outcome unit * nat) :=
  match fuel with
  | O => None
  | S fuel =>
      if up count then Some (Ok tt, count)
      else if decide (maxRetries ≠ -1 ∧ maxRetries ≤ Z.of_nat count)
           then Some (Err (Status Unavailable "kv store unreachable"), count)
           else reachable_loop fuel up maxRetries (S count)
  end.
Definition waitUntilKVStoreReachableOrMaxTries (fuel : nat) (up : nat → bool) (maxRetries : Z)
    : option (outcome unit * nat) := reachable_loop fuel up maxRetries 0.

(** ** Watching a service *)

(** A service is reported alive or not, or nothing is heard before the timer
    fires; then a goroutine asks for a report. *)
Inductive LivenessEvent := Liveness (alive : bool) | TimerFired.

(** [lm_checks] counts the goroutines that were started. *)
Record LivenessMonitor := mkMonitor { lm_probe : option Probe; lm_timeout : Z; lm_checks : nat }.

Section Monitor.
Context (service : string) (liveProbeInterval notLiveProbeInterval : Z).

(** A context without a probe has nothing to update. *)
Definition UpdateStatusFromContext (name : string) (status : ServiceStatus) (p : option Probe) : option Probe :=
  UpdateStatus name status <$> p.

(** One round of the loops of [monitorKvstoreLiveness] and [startKafkaManager],
    which watch ["kv-store"] and ["message-bus"]. *)
Definition monitor_round (m : LivenessMonitor) (e : LivenessEvent) : LivenessMonitor :=
  match e with
  | Liveness false =>
      mkMonitor (UpdateStatusFromContext service StatusNotReady (lm_probe m)) notLiveProbeInterval (lm_checks m)
  | Liveness true =>
      mkMonitor (UpdateStatusFromContext service StatusRunning (lm_probe m)) liveProbeInterval (lm_checks m)
  | TimerFired => mkMonitor (lm_probe m) (lm_timeout m) (S (lm_checks m))
  end.
Definition monitorLiveness (p : option Probe) (events : list LivenessEvent) : LivenessMonitor :=
  fold_left monitor_round events (mkMonitor p liveProbeInterval 0).
End Monitor.

Definition monitorKvstoreLiveness (live notLive : Z) (p : option Probe) (events : list LivenessEvent) : LivenessMonitor :=
  monitorLiveness "kv-store" live notLive p events.

(** [registerAdapterRequestHandlers]: the two topics are subscribed to; an error
    ends the process. *)
Definition registerAdapterRequestHandlers (subscribed : bool * bool) : bool := subscribed.1 && subscribed.2.

(** The Kafka proxy is started until it succeeds ([starts]: whether each attempt
    does), then the handlers are registered and the liveness is watched.  [None]:
    it is still being started. *)
Fixpoint start_kafka (starts : list bool) (p : option Probe) : option (option Probe) :=
  match starts with
  | [] => None
  | true :: _ => Some p
  | false :: starts => start_kafka starts (UpdateStatusFromContext "message-bus" StatusNotReady p)
  end.
Definition startKafkaManager (live notLive : Z) (starts : list bool) (subscribed : bool * bool) (p : option Probe)
    (events : list LivenessEvent) : outcome (option LivenessMonitor) :=
  match start_kafka starts p with
  | None => Ok None
  | Some p =>
      if registerAdapterRequestHandlers subscribed
      then Ok (Some (monitorLiveness "message-bus" live notLive p events))
      else Panic
  end.

(** ** The core *)

(** The flags the start-up reads. *)
Record RWCoreFlags := mkFlags {
  cf_MaxConnectionRetries : Z; cf_DefaultCoreTimeout : Z; cf_CoreTopic : string; cf_CorePairTopic : string;
  cf_AffinityRouterTopic : string }.

(** What the managers get when they are made. *)
Record KafkaProxy := mkKafka { kp_DefaultTopic : string; kp_DeviceDiscoveryTopic : string }.
Record DeviceManagerParts := mkDeviceParts {
  dp_kafkaICProxy : option KafkaProxy; dp_adapterProxy : ProxyState; dp_coreInstanceID : string;
  dp_clusterDataProxy : option nat; dp_adapterMgr : bool; dp_defaultTimeout : Z }.
Record LogicalManagerParts := mkLogicalParts {
  lp_deviceMgr : bool; lp_kafkaICProxy : option KafkaProxy; lp_clusterDataProxy : option nat; lp_defaultTimeout : Z }.
Record AdapterManagerParts := mkAdapterParts {
  ap_clusterDataProxy : option nat; ap_coreInstanceID : string; ap_deviceMgr : bool }.

(** The goroutines of [Start]. *)
Inductive CoreGoroutine :=
  | GoKafkaManager | GoDeviceManager | GoLogicalDeviceManager | GoGRPCService | GoAdapterManager | GoMonitorKvstore.

Section Core.
Context {Msg KV : Type} `{Schema Msg, Backend KV, GoRange} {Client : Type} `{KVClient Client}.
Notation Heap := (Heap Msg KV).

(** [voltha] and [coreInstance] are the empty messages of the two roots. *)
Context (voltha coreInstance : Msg).

(** The parts of a core, nil until they are made. *)
Record CoreParts := mkParts {
  pt_kmp : option KafkaProxy; pt_deviceMgr : option DeviceManagerParts; pt_adapterMgr : option AdapterManagerParts;
  pt_logicalDeviceMgr : option LogicalManagerParts; pt_deviceOwnership : option (DeviceOwnership (KV := Client)) }.

(** [cs_clusterDataRoot] and [cs_localDataRoot] share the heap, so also the cache
    of revisions.  [cs_exit] is the number of messages in [exitChannel], which has
    room for one. *)
Record CoreState := mkCoreState {
  cs_instanceID : string; cs_config : RWCoreFlags; cs_client : Client; cs_heap : Heap;
  cs_clusterDataRoot : nat; cs_localDataRoot : nat; cs_clusterDataProxy : option nat; cs_localDataProxy : option nat;
  cs_probe : option Probe; cs_parts : CoreParts; cs_goroutines : list CoreGoroutine; cs_exit : nat }.

Definition set_cs_data (heap : Heap) (cluster local : option nat) (s : CoreState) : CoreState :=
  mkCoreState (cs_instanceID s) (cs_config s) (cs_client s) heap (cs_clusterDataRoot s) (cs_localDataRoot s)
    cluster local (cs_probe s) (cs_parts s) (cs_goroutines s) (cs_exit s).
Definition set_cs_probe (p : option Probe) (s : CoreState) : CoreState :=
  mkCoreState (cs_instanceID s) (cs_config s) (cs_client s) (cs_heap s) (cs_clusterDataRoot s) (cs_localDataRoot s)
    (cs_clusterDataProxy s) (cs_localDataProxy s) p (cs_parts s) (cs_goroutines s) (cs_exit s).
Definition set_cs_parts (parts : CoreParts) (s : CoreState) : CoreState :=
  mkCoreState (cs_instanceID s) (cs_config s) (cs_client s) (cs_heap s) (cs_clusterDataRoot s) (cs_localDataRoot s)
    (cs_clusterDataProxy s) (cs_localDataProxy s) (cs_probe s) parts (cs_goroutines s) (cs_exit s).
Definition set_cs_goroutines (g : list CoreGoroutine) (s : CoreState) : CoreState :=
  mkCoreState (cs_instanceID s) (cs_config s) (cs_client s) (cs_heap s) (cs_clusterDataRoot s) (cs_localDataRoot s)
    (cs_clusterDataProxy s) (cs_localDataProxy s) (cs_probe s) (cs_parts s) g (cs_exit s).
Definition set_cs_exit (n : nat) (s : CoreState) : CoreState :=
  mkCoreState (cs_instanceID s) (cs_config s) (cs_client s) (cs_heap s) (cs_clusterDataRoot s) (cs_localDataRoot s)
    (cs_clusterDataProxy s) (cs_localDataProxy s) (cs_probe s) (cs_parts s) (cs_goroutines s) n.

Definition NewCore (id : string) (cf : RWCoreFlags) (client : Client) (probe : option Probe) : M Heap CoreState :=
  let* cluster := NewRoot voltha true in
  let* local := NewRoot coreInstance true in
  λ h, (Ok (mkCoreState id cf client h cluster local None None probe (mkParts None None None None None) [] 0), h).

Definition status (name : string) (st : ServiceStatus) : M CoreState unit :=
  modify (λ s, set_cs_probe (UpdateStatusFromContext name st (cs_probe s)) s).

(** A proxy of a whole tree. *)
Definition create_proxy (root : nat) : M CoreState (option nat) := λ s,
  let (r, h) := (let* rt := get_root root in node_CreateProxy (rt_node rt) "/" false) (cs_heap s) in
  (r, set_cs_data h (cs_clusterDataProxy s) (cs_localDataProxy s) s).

(** An error of the wait ends the process. *)
Definition wait_for_store (fuel : nat) (up : nat → bool) : M CoreState unit := λ s,
  match waitUntilKVStoreReachableOrMaxTries fuel up (cf_MaxConnectionRetries (cs_config s)) with
  | Some (Ok _, _) => (Ok tt, s)
  | _ => (Panic, s)
  end.

Definition data_proxy (root : nat) (assign : option nat → CoreState → CoreState) (e : string) : M CoreState unit :=
  let* p := attempt (create_proxy root) in
  match p with
  | inl p => modify (assign p)
  | inr _ => let* _ := status "kv-store" StatusNotReady in fail (Plain e)
  end.
Definition set_clusterDataProxy (p : option nat) (s : CoreState) := set_cs_data (cs_heap s) p (cs_localDataProxy s) s.
Definition set_localDataProxy (p : option nat) (s : CoreState) := set_cs_data (cs_heap s) (cs_clusterDataProxy s) p s.

Definition initKafkaManager : M CoreState unit :=
  let* _ := status "message-bus" StatusPreparing in
  let* _ := modify (λ s, set_cs_parts (mkParts
    (Some (mkKafka (cf_CoreTopic (cs_config s)) (cf_AffinityRouterTopic (cs_config s))))
    (pt_deviceMgr (cs_parts s)) (pt_adapterMgr (cs_parts s)) (pt_logicalDeviceMgr (cs_parts s))
    (pt_deviceOwnership (cs_parts s))) s) in
  status "message-bus" StatusPrepared.

(** [newDeviceManager]; its adapter manager is set once that is made. *)
Definition newDeviceManager (s : CoreState) : DeviceManagerParts :=
  mkDeviceParts (pt_kmp (cs_parts s)) (NewAdapterProxy (cf_CorePairTopic (cs_config s))) (cs_instanceID s)
    (cs_clusterDataProxy s) (match pt_adapterMgr (cs_parts s) with Some _ => true | None => false end)
    (cf_DefaultCoreTimeout (cs_config s)).
Definition newAdapterManager (cdProxy : option nat) (coreInstanceID : string) (deviceMgr : bool) : AdapterManagerParts :=
  mkAdapterParts cdProxy coreInstanceID deviceMgr.
Definition newLogicalDeviceManager (deviceMgr : bool) (kafkaICProxy : option KafkaProxy) (cdProxy : option nat)
    (timeout : Z) : LogicalManagerParts := mkLogicalParts deviceMgr kafkaICProxy cdProxy timeout.
Definition with_adapterMgr (d : DeviceManagerParts) : DeviceManagerParts :=
  mkDeviceParts (dp_kafkaICProxy d) (dp_adapterProxy d) (dp_coreInstanceID d) (dp_clusterDataProxy d) true
    (dp_defaultTimeout d).

Definition make_managers : M CoreState unit := modify (λ s,
  let deviceMgr := newDeviceManager s in
  let adapterMgr := newAdapterManager (cs_clusterDataProxy s) (cs_instanceID s) true in
  let logicalDeviceMgr := newLogicalDeviceManager true (pt_kmp (cs_parts s)) (cs_clusterDataProxy s)
                            (cf_DefaultCoreTimeout (cs_config s)) in
  set_cs_parts (mkParts (pt_kmp (cs_parts s)) (Some (with_adapterMgr deviceMgr)) (Some adapterMgr)
    (Some logicalDeviceMgr) (pt_deviceOwnership (cs_parts s))) s).

Definition start_goroutine (g : CoreGoroutine) : M CoreState unit :=
  modify (λ s, set_cs_goroutines (cs_goroutines s ++ [g]) s).
Definition make_ownership : M CoreState unit := modify (λ s,
  set_cs_parts (mkParts (pt_kmp (cs_parts s)) (pt_deviceMgr (cs_parts s)) (pt_adapterMgr (cs_parts s))
    (pt_logicalDeviceMgr (cs_parts s))
    (Some (NewDeviceOwnership (cs_instanceID s) (cs_client s) "service/voltha/owns_device" 10))) s).

Definition core_services : list string :=
  ["message-bus"; "kv-store"; "device-manager"; "logical-device-manager"; "adapter-manager"; "grpc-service"].

Definition Start (fuel : nat) (up : nat → bool) : M CoreState unit :=
  let* _ := modify (λ s, set_cs_probe (RegisterService core_services <$> cs_probe s) s) in
  let* _ := wait_for_store fuel up in
  let* _ := status "kv-store" StatusRunning in
  let* s := get in
  let* _ := data_proxy (cs_clusterDataRoot s) set_clusterDataProxy "Failed to create cluster data proxy" in
  let* _ := data_proxy (cs_localDataRoot s) set_localDataProxy "Failed to create local data proxy" in
  let* _ := initKafkaManager in
  let* _ := make_managers in
  let* _ := for_each start_goroutine
    [GoKafkaManager; GoDeviceManager; GoLogicalDeviceManager; GoGRPCService; GoAdapterManager; GoMonitorKvstore] in
  make_ownership.

(** The managers that exist are stopped, after a message to [exitChannel], which
    nobody takes: a second one waits for ever. *)
Definition stop_if {A} (part : option A) (name : string) : M CoreState unit :=
  match part with Some _ => status name StatusStopped | None => ret tt end.
Definition Stop : M CoreState unit :=
  let* s := get in
  match cs_exit s with
  | O =>
      let* _ := modify (set_cs_exit 1) in
      let* _ := stop_if (pt_logicalDeviceMgr (cs_parts s)) "logical-device-manager" in
      stop_if (pt_deviceMgr (cs_parts s)) "device-manager"
  | S _ => panic
  end.
End Core.

(** ** What the goroutines report *)

(** The goroutines of the managers and of the gRPC server report that they run;
    those that watch Kafka and the store report what they hear.  The gRPC server
    reports when it stops serving.  The adapter manager ends the process when it
    cannot be started. *)
Inductive CoreEvent :=
  | DeviceManagerStarts | LogicalDeviceManagerStarts | GRPCServiceStarts | GRPCServiceEnds | AdapterManagerStarts
  | KafkaStartFails | KafkaEvent (e : LivenessEvent) | KVStoreEvent (e : LivenessEvent).

Definition startDeviceManager := UpdateStatusFromContext "device-manager" StatusRunning.
Definition startLogicalDeviceManager := UpdateStatusFromContext "logical-device-manager" StatusRunning.
Definition startGRPCService := UpdateStatusFromContext "grpc-service" StatusRunning.
Definition startAdapterManager := UpdateStatusFromContext "adapter-manager" StatusRunning.

Definition core_event (p : option Probe) (e : CoreEvent) : option Probe :=
  match e with
  | DeviceManagerStarts => startDeviceManager p
  | LogicalDeviceManagerStarts => startLogicalDeviceManager p
  | GRPCServiceStarts => startGRPCService p
  | GRPCServiceEnds => UpdateStatusFromContext "grpc-service" StatusStopped p
  | AdapterManagerStarts => startAdapterManager p
  | KafkaStartFails => UpdateStatusFromContext "message-bus" StatusNotReady p
  | KafkaEvent e => lm_probe (monitor_round "message-bus" 0 0 (mkMonitor p 0 0) e)
  | KVStoreEvent e => lm_probe (monitor_round "kv-store" 0 0 (mkMonitor p 0 0) e)
  end.
