(* ===== verification/CoreStartFacts.v ===== *)
(** * Start-up of a core: theorems

    The wait for the store ends exactly when it should, a core that started serves
    an empty data model and has all its parts, and the probe is ready exactly when
    every part reported that it runs. *)

From S2P Require Import Prelude OpenFlow VolthaTypes CoreUtils KVStore Ownership AdapterProxy.
From S2P Require Import ModelTree ModelMerge ModelNode ModelRoot ModelFacts ModelPaths ModelTable ModelProxy ModelService ModelContainers ModelInit ModelSamples CoreStart.

(** ** The wait for the store *)

(** Attempts are left after [count] naps. *)
Definition retries_left (maxRetries : Z) (count : nat) : Prop := maxRetries = -1 ∨ Z.of_nat count < maxRetries.

Lemma reachable_loop_steps up maxRetries d : ∀ fuel count,
  (∀ j, (count ≤ j < count + d)%nat → up j = false ∧ retries_left maxRetries j) →
  reachable_loop (d + fuel) up maxRetries count = reachable_loop fuel up maxRetries (count + d).
Proof.
  induction d as [|d IH]; intros fuel count Hj; simpl; [by rewrite Nat.add_0_r|].
  destruct (Hj count ltac:(lia)) as [-> Hr]. rewrite decide_False; [|unfold retries_left in Hr; lia].
  rewrite IH; [f_equal; lia|]. intros j Hjd. apply Hj. lia.
Qed.

Lemma reachable_loop_ends up maxRetries d : ∀ count, maxRetries ≠ -1 → (Z.to_nat maxRetries ≤ count + d)%nat →
  ∃ r, ∀ fuel, (d < fuel)%nat → reachable_loop fuel up maxRetries count = Some r.
Proof.
  assert (∀ count, maxRetries ≠ -1 → (Z.to_nat maxRetries ≤ count)%nat → ∃ r, ∀ fuel, reachable_loop (S fuel) up maxRetries count = Some r) as Hlast.
  { intros count Hm Hc. simpl. destruct (up count); [by eexists|]. eexists. intros fuel. rewrite decide_True; [done | lia]. }
  induction d as [|d IH]; intros count Hm Hc.
  - destruct (Hlast count Hm ltac:(lia)) as [r Hr]. exists r. intros [|fuel] Hf; [lia | apply Hr].
  - destruct (IH (S count) Hm ltac:(lia)) as [r Hr]. destruct (up count) eqn:E.
    { exists (Ok tt, count). intros [|fuel] Hf; [lia|]. simpl. by rewrite E. }
    destruct (decide (maxRetries ≠ -1 ∧ maxRetries ≤ Z.of_nat count)) as [Hd|Hd].
    + eexists. intros [|fuel] Hf; [lia|]. simpl. by rewrite E decide_True.
    + exists r. intros [|fuel] Hf; [lia|]. simpl. rewrite E decide_False; [apply Hr; lia | done].
Qed.

Lemma reachable_loop_exact up maxRetries k fuel :
  (∀ j, (j < k)%nat → up j = false ∧ retries_left maxRetries j) → (k < fuel)%nat →
  (up k = true → reachable_loop fuel up maxRetries 0 = Some (Ok tt, k)) ∧
  (up k = false → ¬ retries_left maxRetries k →
     reachable_loop fuel up maxRetries 0 = Some (Err (Status Unavailable "kv store unreachable"), k)).
Proof.
  intros Hk Hf. replace fuel with (k + S (fuel - S k))%nat by lia.
  rewrite reachable_loop_steps; [|intros j Hj; apply Hk; lia]. simpl. split.
  - intros ->. done.
  - intros -> Hr. rewrite decide_True; [done|]. unfold retries_left in Hr. lia.
Qed.

(** C39: the wait ends exactly with the first attempt that finds the store, if
    the retries last until then, after a nap for each attempt before; it gives up
    exactly after the last retry; and with the limit -1 it waits for ever for a
    store that never comes. *)
Theorem wait_for_store_correct (up : nat → bool) (maxRetries : Z) :
  let wait fuel := waitUntilKVStoreReachableOrMaxTries fuel up maxRetries in
  (∀ k fuel, (∀ j, (j < k)%nat → up j = false ∧ retries_left maxRetries j) → (k < fuel)%nat →
     (up k = true → wait fuel = Some (Ok tt, k)) ∧
     (up k = false → ¬ retries_left maxRetries k → wait fuel = Some (Err (Status Unavailable "kv store unreachable"), k))) ∧
  ((∀ j, up j = false) → maxRetries = -1 → ∀ fuel, wait fuel = None) ∧
  (maxRetries ≠ -1 → ∃ r, ∀ fuel, (Z.to_nat maxRetries < fuel)%nat → wait fuel = Some r).
Proof.
  simpl. split; [apply reachable_loop_exact|]. split.
  - intros Hup -> fuel. rewrite /waitUntilKVStoreReachableOrMaxTries.
    rewrite -(Nat.add_0_r fuel) reachable_loop_steps; [done|]. intros j _. split; [apply Hup | by left].
  - intros Hm. by apply (reachable_loop_ends up maxRetries (Z.to_nat maxRetries) 0 Hm).
Qed.

(** ** Start *)

Section Start.
Context {Msg KV : Type} `{HS : Schema Msg, HB : Backend KV, HG : GoRange, !SchemaLaws Msg} {Client : Type} `{HC : KVClient Client}.
Notation Heap := (Heap Msg KV).
Notation CoreState := (CoreState (Msg := Msg) (KV := KV) (Client := Client)).
Context (voltha coreInstance : Msg).

(** A container of the message with a string as its key. *)
Definition keyed_container (m : Msg) (name key ct : string) : Prop := ∃ fromStr,
  key ≠ EmptyString ∧ ChildrenFields m !! name = Some (mkChildType ct true key fromStr) ∧ ∀ s, fromStr s = KeyString s.

(** Every part was made, and the managers have what they need of the others. *)
Definition complete (s : CoreState) : Prop := ∃ kafka deviceMgr adapterMgr logicalDeviceMgr own p,
  cs_parts s = mkParts (Some kafka) (Some deviceMgr) (Some adapterMgr) (Some logicalDeviceMgr) (Some own) ∧
  cs_clusterDataProxy s = Some p ∧ cs_localDataProxy s ≠ None ∧
  dp_kafkaICProxy deviceMgr = Some kafka ∧ dp_adapterMgr deviceMgr = true ∧ dp_clusterDataProxy deviceMgr = Some p ∧
  lp_kafkaICProxy logicalDeviceMgr = Some kafka ∧ lp_clusterDataProxy logicalDeviceMgr = Some p ∧
  ap_clusterDataProxy adapterMgr = Some p.

(** The services after the start: the store was reached, Kafka was prepared. *)
Definition started_probe : Probe :=
  <["message-bus" := StatusPrepared]> (<["message-bus" := StatusPreparing]>
    (<["kv-store" := StatusRunning]> (RegisterService core_services ∅))).

Lemma data_proxy_run (s : CoreState) (root n b l : nat) m rt (assign : option nat → CoreState → CoreState) e :
  heap_ok (cs_heap s) → hp_roots (cs_heap s) !! root = Some rt → rt_node rt = n → bare_node (cs_heap s) n b l m None →
  ∃ p proot h', data_proxy root assign e s = (Ok tt, assign (Some p) (set_cs_data h' (cs_clusterDataProxy s) (cs_localDataProxy s) s)) ∧
    heap_ok h' ∧ later (Some n) (cs_heap s) h' ∧ (p < hp_next h')%nat ∧ (proot < hp_next h')%nat ∧
    bare_node h' n b l m (Some p) ∧ served n b h' p proot.
Proof.
  intros Hok Hrt <- Hbare. destruct (create_proxy_run _ _ _ _ _ Hok Hbare) as (p & proot & h' & Hrun & Hrest).
  exists p, proot, h'. split; [|exact Hrest]. unfold data_proxy, create_proxy, attempt, sbind.
  rewrite (get_root_run _ _ _ Hrt) Hrun. done.
Qed.

(** The two trees of a new core. *)
Record two_trees (s : CoreState) (n b l : nat) : Prop := mkTwoTrees {
  tt_ok : heap_ok (cs_heap s);
  tt_cache : hp_cache (cs_heap s) = ∅;
  tt_cluster : ∃ rt, hp_roots (cs_heap s) !! cs_clusterDataRoot s = Some rt ∧ rt_node rt = n;
  tt_bare : bare_node (cs_heap s) n b l voltha None;
  tt_below : (cs_clusterDataRoot s < hp_next (cs_heap s))%nat ∧ (cs_localDataRoot s < hp_next (cs_heap s))%nat;
  tt_local : ∃ rt n' b' l', hp_roots (cs_heap s) !! cs_localDataRoot s = Some rt ∧ rt_node rt = n' ∧ n' ≠ n ∧
    bare_node (cs_heap s) n' b' l' coreInstance None }.

Lemma NewCore_run (id : string) (cf : RWCoreFlags) (client : Client) probe h :
  heap_ok h → hp_cache h = ∅ → no_children voltha → no_children coreInstance →
  ∃ s h' n b l, NewCore voltha coreInstance id cf client probe h = (Ok s, h') ∧ two_trees s n b l ∧
    s = mkCoreState id cf client (cs_heap s) (cs_clusterDataRoot s) (cs_localDataRoot s) None None probe
          (mkParts None None None None None) [] 0.
Proof.
  intros Hok Hca Hv Hc. unfold NewCore.
  destruct (NewRoot_run h voltha true Hok Hv) as (h1 & rt1 & b1 & l1 & Hr1 & Hok1 & Hl1 & Hn1 & Hrt1 & _ & Hb1 & _).
  run_with Hr1.
  destruct (NewRoot_run h1 coreInstance true Hok1 Hc) as (h2 & rt2 & b2 & l2 & Hr2 & Hok2 & Hl2 & Hn2 & Hrt2 & _ & Hb2 & Hfresh).
  run_with Hr2. destruct (lt_roots _ _ _ Hl2 _ _ Hn1 Hrt1) as (rt1' & Hrt1' & En).
  eexists _, _, (rt_node rt1), b1, l1. split; [reflexivity|]. split; [|done]. split; simpl.
  - done.
  - by rewrite (lt_cache _ _ _ Hl2) (lt_cache _ _ _ Hl1).
  - by exists rt1'.
  - by eapply bare_later.
  - lia.
  - exists rt2, (rt_node rt2), b2, l2. split; [done|]. split; [done|]. split; [|done].
    intros Heq. destruct Hb1 as [(nd & Hnd & _) _ _]. rewrite Heq in Hfresh. congruence.
Qed.

(** The core once it started. *)
Definition started_core (id : string) (cf : RWCoreFlags) (client : Client) (cluster local p p' : nat) (h : Heap) : CoreState :=
  let kafka := Some (mkKafka (cf_CoreTopic cf) (cf_AffinityRouterTopic cf)) in
  mkCoreState id cf client h cluster local (Some p) (Some p') (Some started_probe)
    (mkParts kafka
      (Some (mkDeviceParts kafka (NewAdapterProxy (cf_CorePairTopic cf)) id (Some p) true (cf_DefaultCoreTimeout cf)))
      (Some (mkAdapterParts (Some p) id true)) (Some (mkLogicalParts true kafka (Some p) (cf_DefaultCoreTimeout cf)))
      (Some (NewDeviceOwnership id client "service/voltha/owns_device" 10)))
    [GoKafkaManager; GoDeviceManager; GoLogicalDeviceManager; GoGRPCService; GoAdapterManager; GoMonitorKvstore] 0.

Lemma started_complete id cf client cluster local p p' h : complete (started_core id cf client cluster local p p' h).
Proof. by do 6 eexists. Qed.

Lemma core_starts (id : string) (cf : RWCoreFlags) (client : Client) (fuel k : nat) (up : nat → bool) h :
  heap_ok h → hp_cache h = ∅ → no_children voltha → no_children coreInstance →
  up k = true → (∀ j, (j < k)%nat → up j = false ∧ retries_left (cf_MaxConnectionRetries cf) j) → (k < fuel)%nat →
  ∃ s h' s' n b p root, NewCore voltha coreInstance id cf client (Some ∅) h = (Ok s, h') ∧
    Start fuel up s = (Ok tt, s') ∧ complete s' ∧ cs_clusterDataProxy s' = Some p ∧
    served n b (cs_heap s') p root ∧
    (∀ name key ct, keyed_container voltha name key ct → serving n b name key ct p root (cs_heap s') ∅) ∧
    cs_goroutines s' = [GoKafkaManager; GoDeviceManager; GoLogicalDeviceManager; GoGRPCService; GoAdapterManager; GoMonitorKvstore] ∧
    cs_probe s' = Some started_probe ∧ cs_exit s' = 0%nat.
Proof.
  intros Hok Hca Hv Hc Hup Hwait Hfuel.
  destruct (NewCore_run id cf client (Some ∅) h Hok Hca Hv Hc) as (s & h' & n & b & l & Hnew & [Tok Tca (rt & Hrt & En) Tb [Hb1 Hb2] (rt' & n' & b' & l' & Hrt' & En' & Hne & Tb')] & Hs).
  destruct s as [sid scf scl heap cluster local cp lp pr parts gs ex]. simpl in *. injection Hs as -> -> -> -> -> -> -> -> ->.
  pose (s1 := mkCoreState id cf client heap cluster local None None
    (Some (<["kv-store" := StatusRunning]> (RegisterService core_services ∅))) (mkParts None None None None None) [] 0 : CoreState).
  destruct (data_proxy_run s1 cluster n b l voltha rt set_clusterDataProxy "Failed to create cluster data proxy" Tok Hrt En Tb)
    as (p & root & h3 & Hrun1 & Hok3 & Hl3 & Hp & Hroot & Hbare3 & Hserved3).
  pose (s2 := set_clusterDataProxy (Some p) (set_cs_data h3 None None s1)).
  destruct (lt_roots _ _ _ Hl3 local rt' Hb2 Hrt') as (rt3 & Hrt3 & En3).
  destruct (data_proxy_run s2 local n' b' l' coreInstance rt3 set_localDataProxy "Failed to create local data proxy")
    as (p' & root' & h4 & Hrun2 & Hok4 & Hl4 & _ & _ & _ & _); [done | done | congruence | eapply bare_later; [exact Hl3 | congruence | exact Tb'] |].
  assert (served n b h4 p root) as Hserved4 by (eapply served_later; [done | congruence | done..]).
  assert (bare_node h4 n b l voltha (Some p)) as Hbare4 by (eapply bare_later; [done | congruence | done]).
  assert (hp_cache h4 = ∅) as Hca4 by by rewrite (lt_cache _ _ _ Hl4) (lt_cache _ _ _ Hl3).
  destruct (reachable_loop_exact up (cf_MaxConnectionRetries cf) k fuel Hwait Hfuel) as [Hw _]. specialize (Hw Hup).
  eexists. exists h', (started_core id cf client cluster local p p' h4), n, b, p, root. split; [exact Hnew|]. split.
  { unfold Start. unfold sbind at 1, modify at 1. cbv beta iota. set (sA := set_cs_probe _ _).
    assert (wait_for_store fuel up sA = (Ok tt, sA)) as Hws by (unfold wait_for_store, waitUntilKVStoreReachableOrMaxTries; by rewrite Hw).
    run_with Hws. assert (status "kv-store" StatusRunning sA = (Ok tt, s1)) as Hst by reflexivity. run_with Hst.
    unfold sbind at 1, get. cbv beta iota. run_with Hrun1. run_with Hrun2. reflexivity. }
  split; [apply started_complete|]. split; [done|]. split; [exact Hserved4|]. split; [|done].
  intros name key ct (fromStr & Hkey & Hfield & Hfs). split; [exact Hserved4|]. exists l, [], []. split; [|done].
  eapply bare_folder; [done | done | exact Hbare4 | | done..].
  intros q [= <-]. destruct Hserved4 as [_ (px & _ & Hpx & _)]. by exists px.
Qed.


(** The tree of a core that started is a map of empty maps: the operations of its
    managers and agents go on from here, on the containers that they know. *)
Lemma core_serves (kinds : gmap string (string * string)) (id : string) (cf : RWCoreFlags) (client : Client) (fuel k : nat) (up : nat → bool) h :
  heap_ok h → hp_cache h = ∅ → no_children voltha → no_children coreInstance →
  up k = true → (∀ j, (j < k)%nat → up j = false ∧ retries_left (cf_MaxConnectionRetries cf) j) → (k < fuel)%nat →
  (∀ name key ct, kinds !! name = Some (key, ct) → segment name ∧ keyed_container voltha name key ct) →
  ∃ s h' s' n b p root, NewCore voltha coreInstance id cf client (Some ∅) h = (Ok s, h') ∧ Start fuel up s = (Ok tt, s') ∧
    cs_clusterDataProxy s' = Some p ∧ serves n b p root kinds (cs_heap s') ((λ _, ∅) <$> kinds).
Proof.
  intros Hok Hca Hv Hc Hup Hwait Hfuel Hkinds.
  destruct (core_starts id cf client fuel k up h Hok Hca Hv Hc Hup Hwait Hfuel)
    as (s & h' & s' & n & b & p & root & Hnew & Hstart & _ & Hp & _ & Hserving & _).
  exists s, h', s', n, b, p, root. do 3 (split; [done|]). intros name m. rewrite lookup_fmap.
  destruct (kinds !! name) as [[key ct]|] eqn:Hk; [|done]. intros [= <-].
  destruct (Hkinds name key ct Hk) as [Hseg Hkeyed]. split; [done|]. exists key, ct. split; [done|]. by apply Hserving.
Qed.
End Start.

(** A store that answers the third attempt of four. *)
#[local] Existing Instances tree_schema tree_laws map_backend canonical_range map_kv.
Definition sample_flags : RWCoreFlags := mkFlags 3 1000 "rwcore" "rwcore.pair" "affinityRouter".


(** ** When a core is ready *)

(** What an event writes. *)
Definition writes (e : CoreEvent) : option (string * ServiceStatus) :=
  match e with
  | DeviceManagerStarts => Some ("device-manager", StatusRunning)
  | LogicalDeviceManagerStarts => Some ("logical-device-manager", StatusRunning)
  | GRPCServiceStarts => Some ("grpc-service", StatusRunning)
  | GRPCServiceEnds => Some ("grpc-service", StatusStopped)
  | AdapterManagerStarts => Some ("adapter-manager", StatusRunning)
  | KafkaStartFails => Some ("message-bus", StatusNotReady)
  | KafkaEvent (Liveness alive) => Some ("message-bus", if alive then StatusRunning else StatusNotReady)
  | KVStoreEvent (Liveness alive) => Some ("kv-store", if alive then StatusRunning else StatusNotReady)
  | KafkaEvent TimerFired | KVStoreEvent TimerFired => None
  end.

(** The reports about a service, in their order. *)
Definition report (name : string) (e : CoreEvent) : option ServiceStatus :=
  match writes e with Some (n, st) => if decide (n = name) then Some st else None | None => None end.
Definition reports (name : string) (events : list CoreEvent) : list ServiceStatus :=
  omap (report name) events.

Lemma reports_snoc name events e :
  reports name (events ++ [e]) = reports name events ++ match report name e with Some st => [st] | None => [] end.
Proof. unfold reports. rewrite list.omap_app. by destruct (report name e) eqn:E; rewrite /= E. Qed.

Lemma core_event_writes p e : core_event (Some p) e = Some (match writes e with Some (n, st) => <[n := st]> p | None => p end).
Proof. by destruct e as [| | | | | |[[]|]|[[]|]]. Qed.

Lemma writes_service e n st : writes e = Some (n, st) → n ∈ core_services.
Proof. destruct e as [| | | | | |[[]|]|[[]|]]; simpl; intros; simplify_eq; set_solver. Qed.

Lemma core_events_status events : ∃ p, fold_left core_event events (Some started_probe) = Some p ∧
  (∀ n, is_Some (p !! n) → n ∈ core_services) ∧
  (∀ n st, started_probe !! n = Some st → p !! n = Some (default st (last (reports n events)))).
Proof.
  induction events as [|e events IH] using rev_ind.
  { exists started_probe. split; [done|]. split; [|done]. intros n [st Hn].
    rewrite /started_probe /RegisterService /= in Hn.
    rewrite !lookup_insert_Some !lookup_empty in Hn. rewrite /core_services. set_solver. }
  destruct IH as (p & Hp & Hdom & Hst). rewrite fold_left_app Hp /= core_event_writes.
  eexists. split; [done|]. setoid_rewrite reports_snoc. unfold report. destruct (writes e) as [[n' st']|] eqn:E.
  - split.
    + intros n. destruct (decide (n = n')) as [->|Hne]; [intros _; by eapply writes_service|].
      rewrite lookup_insert_ne; [apply Hdom | done].
    + intros n st Hn. destruct (decide (n' = n)) as [->|Hne]; simpl.
      * by rewrite lookup_insert_eq last_snoc.
      * rewrite lookup_insert_ne; [|done]. rewrite app_nil_r. by apply Hst.
  - setoid_rewrite app_nil_r. by split.
Qed.

(** C40: after a core started, whatever its goroutines report and in whatever order,
    the probe is ready exactly when the last report about each of the managers, the
    gRPC server and Kafka is that it runs, and no later report than that of the
    start says that the store does not. *)
Theorem core_ready (events : list CoreEvent) : ∃ p, fold_left core_event events (Some started_probe) = Some p ∧
  (defaultReadyFunc p = true ↔
   (∀ name, name ∈ ["message-bus"; "device-manager"; "logical-device-manager"; "adapter-manager"; "grpc-service"] →
      last (reports name events) = Some StatusRunning) ∧
   (∀ st, last (reports "kv-store" events) = Some st → st = StatusRunning)).
Proof.
  destruct (core_events_status events) as (p & Hp & Hdom & Hst). exists p. split; [done|].
  assert (∀ n, n ∈ core_services → ∃ st, started_probe !! n = Some st ∧
    (st = StatusRunning ↔ n = "kv-store")) as Hstart.
  { intros n Hn. rewrite /core_services !elem_of_cons elem_of_nil in Hn.
    destruct_or! Hn; subst; try done; (eexists; split; [reflexivity | by split; intros]). }
  rewrite /defaultReadyFunc andb_true_iff !bool_decide_eq_true. split.
  - intros [_ Hall]. split.
    + intros n Hn. assert (n ∈ core_services) as Hc by (rewrite /core_services; set_solver).
      destruct (Hstart n Hc) as (st & Hs & Hrun). specialize (Hst n st Hs). specialize (Hall n _ Hst). simpl in Hall.
      destruct (last (reports n events)) as [st'|]; simpl in Hall; [by subst|].
      apply Hrun in Hall as ->. exfalso. rewrite !elem_of_cons elem_of_nil in Hn. by destruct_or! Hn.
    + intros st Hlast. destruct (Hstart "kv-store") as (st0 & Hs & _); [rewrite /core_services; set_solver|].
      specialize (Hst _ _ Hs). rewrite Hlast in Hst. by apply (Hall _ _ Hst).
  - intros [Hfive Hkv]. split.
    + intros ->. destruct (Hstart "kv-store") as (st0 & Hs & _); [rewrite /core_services; set_solver|]. by specialize (Hst _ _ Hs).
    + intros n st Hn. destruct (Hstart n) as (st0 & Hs & Hrun); [by apply Hdom|].
      specialize (Hst n st0 Hs). rewrite Hn in Hst. simplify_eq.
      destruct (decide (n = "kv-store")) as [->|Hne].
      * destruct (last (reports "kv-store" events)) as [st'|] eqn:E; simpl; [by apply Hkv | by apply Hrun].
      * rewrite Hfive; [done|]. assert (n ∈ core_services) as Hc by by apply Hdom. rewrite /core_services in Hc. set_solver.
Qed.
