(* ===== verification/Process.v ===== *)
(** * The process

    [rw_core/main.go]: the process connects to the key-value store and to Kafka,
    makes and starts the core, waits for a signal and stops. *)

From S2P Require Import Prelude OpenFlow VolthaTypes CoreUtils KVStore Ownership AdapterProxy.
From S2P Require Import ModelTree ModelMerge ModelNode ModelRoot ModelFacts ModelTable ModelProxy ModelService ModelInit ModelSamples.
From S2P Require Import CoreStart CoreStartFacts.

(** The flags of the process; [pf_core] are those of the core. *)
Record ProcessFlags := mkProcessFlags {
  pf_KVStoreType : string; pf_KVStoreHost : string; pf_KVStorePort : Z; pf_KVStoreTimeout : Z;
  pf_KVStoreDataPrefix : string; pf_KafkaAdapterHost : string; pf_KafkaAdapterPort : Z; pf_LiveProbeInterval : Z;
  pf_core : RWCoreFlags }.

(** The clients of the key-value stores. *)
Class StoreClients (Client : Type) := {
  NewConsulClient : string → Z → Client + GoError;
  NewEtcdClient : string → Z → Client + GoError;
  ReleaseAllReservations : Client → option GoError * Client;
  Close : Client → Client
}.

(** The options of the Kafka client; times are in nanoseconds. *)
Record SaramaClient := mkSarama {
  sc_Host : string; sc_Port : Z; sc_GroupCustomer : bool; sc_ReturnOnErrors : bool; sc_ReturnOnSuccess : bool;
  sc_MaxRetries : Z; sc_NumPartitions : Z; sc_ConsumerGroupName : string; sc_ConsumerGroupPrefix : string;
  sc_AutoCreateTopic : bool; sc_FlushFrequency : Z; sc_RetryBackoff : Z; sc_LivenessChannelInterval : Z }.

Definition newKafkaClient (clientType host : string) (port : Z) (instanceID : string) (livenessChannelInterval : Z)
    : SaramaClient + GoError :=
  if decide (clientType = "sarama")
  then inl (mkSarama host port true true true 6 3 instanceID instanceID true 5 (30 * 1000000) livenessChannelInterval)
  else inr (Plain "unsupported-client-type").

(** The signals the process asks for, and the code it leaves the wait with. *)
Inductive Signal := SIGHUP | SIGINT | SIGTERM | SIGQUIT | OtherSignal.
Definition notified (s : Signal) : bool := match s with OtherSignal => false | _ => true end.
Definition waitForExit (signals : list Signal) : option Z :=
  match List.filter notified signals with
  | [] => None
  | s :: _ => Some (match s with SIGHUP | SIGINT | SIGTERM | SIGQUIT => 0 | OtherSignal => 1 end)
  end.

Section Process.
Context {Msg KV : Type} `{Schema Msg, Backend KV, GoRange} {Client : Type} `{KVClient Client, StoreClients Client}.
Notation Heap := (Heap Msg KV).
Notation CoreState := (CoreState (Msg := Msg) (KV := KV) (Client := Client)).
Context (voltha coreInstance : Msg).

Definition newKVClient (storeType address : string) (timeout : Z) : Client + GoError :=
  if decide (storeType = "consul") then NewConsulClient address timeout
  else if decide (storeType = "etcd") then NewEtcdClient address timeout
  else inr (Plain "unsupported-kv-store").

Record TransactionContext := mkTransactionContext {
  tc_kvClient : Client; tc_kvOperationTimeout : Z; tc_owner : string; tc_txnPrefix : string }.
Definition NewTransactionContext (owner txnPrefix : string) (kvClient : Client) (kvOpTimeout : Z) : TransactionContext :=
  mkTransactionContext kvClient kvOpTimeout owner txnPrefix.

(** [rw_exit] counts the messages in [exitChannel], which has room for one;
    [rw_txn] is the global context of transactions, [rw_heap] the memory the data
    model is made in. *)
Record RwCore := mkRwCore {
  rw_kvClient : option Client; rw_config : ProcessFlags; rw_halted : bool; rw_exit : nat;
  rw_kafkaClient : option SaramaClient; rw_core : option CoreState; rw_txn : option TransactionContext; rw_heap : Heap }.

Definition newRWCore (cf : ProcessFlags) (heap : Heap) : RwCore := mkRwCore None cf false 0 None None None heap.

Definition set_rw_kvClient v rw := mkRwCore v (rw_config rw) (rw_halted rw) (rw_exit rw) (rw_kafkaClient rw) (rw_core rw) (rw_txn rw) (rw_heap rw).
Definition set_rw_exit v rw := mkRwCore (rw_kvClient rw) (rw_config rw) true v (rw_kafkaClient rw) (rw_core rw) (rw_txn rw) (rw_heap rw).
Definition set_rw_kafkaClient v rw := mkRwCore (rw_kvClient rw) (rw_config rw) (rw_halted rw) (rw_exit rw) v (rw_core rw) (rw_txn rw) (rw_heap rw).
Definition set_rw_core v heap rw := mkRwCore (rw_kvClient rw) (rw_config rw) (rw_halted rw) (rw_exit rw) (rw_kafkaClient rw) v (rw_txn rw) heap.
Definition SetTransactionContext (owner txnPrefix : string) (kvClient : Client) (kvOpTimeout : Z) rw :=
  mkRwCore (rw_kvClient rw) (rw_config rw) (rw_halted rw) (rw_exit rw) (rw_kafkaClient rw) (rw_core rw)
    (Some (NewTransactionContext owner txnPrefix kvClient kvOpTimeout)) (rw_heap rw).

(** A method of the core; the core may be nil. *)
Definition on_rw_core {A} (m : M CoreState A) : M RwCore A := λ rw,
  match rw_core rw with
  | Some c => let (r, c') := m c in (r, set_rw_core (Some c') (rw_heap rw) rw)
  | None => (Panic, rw)
  end.

Definition make_core (instanceID : string) (client : Client) (probe : option Probe) : M RwCore unit := λ rw,
  match NewCore voltha coreInstance instanceID (pf_core (rw_config rw)) client probe (rw_heap rw) with
  | (Ok c, h) => (Ok tt, set_rw_core (Some c) h rw)
  | (Err e, h) => (Err e, set_rw_core (rw_core rw) h rw)
  | (Panic, h) => (Panic, set_rw_core (rw_core rw) h rw)
  end.

(** Errors end the process. *)
Definition start (fuel : nat) (up : nat → bool) (instanceID : string) (probe : option Probe) : M RwCore unit :=
  let* rw := get in
  let cf := rw_config rw in
  match newKVClient (pf_KVStoreType cf) (pf_KVStoreHost cf +:+ ":" +:+ pretty (pf_KVStorePort cf)) (pf_KVStoreTimeout cf) with
  | inr _ => panic
  | inl client =>
      let* _ := modify (set_rw_kvClient (Some client)) in
      let* _ := modify (SetTransactionContext instanceID (pf_KVStoreDataPrefix cf +:+ "/transactions/") client (pf_KVStoreTimeout cf)) in
      match newKafkaClient "sarama" (pf_KafkaAdapterHost cf) (pf_KafkaAdapterPort cf) instanceID
              (Z.quot (pf_LiveProbeInterval cf) 2) with
      | inr _ => panic
      | inl kafka =>
          let* _ := modify (set_rw_kafkaClient (Some kafka)) in
          let* _ := make_core instanceID client probe in
          let* r := attempt (on_rw_core (Start fuel up)) in
          match r with inl _ => ret tt | inr _ => panic end
      end
  end.

(** The error of [ReleaseAllReservations] is only logged. *)
Definition stop : M RwCore unit :=
  let* rw := get in
  match rw_exit rw with
  | O =>
      let* _ := modify (set_rw_exit 1) in
      let* _ := match rw_kvClient rw with
                | Some client => modify (set_rw_kvClient (Some (Close (ReleaseAllReservations client).2)))
                | None => ret tt
                end in
      on_rw_core CoreStart.Stop
  | S _ => panic
  end.

(** ** From the start to the end *)

Lemma Stop_run (s : CoreState) :
  complete s → cs_exit s = 0%nat →
  ∃ s', CoreStart.Stop s = (Ok tt, s') ∧ cs_exit s' = 1%nat ∧
    cs_probe s' = (λ p, UpdateStatus "device-manager" StatusStopped (UpdateStatus "logical-device-manager" StatusStopped p)) <$> cs_probe s.
Proof.
  intros (kafka & dm & am & ldm & own & p & Hparts & _) Hexit. unfold CoreStart.Stop. unfold sbind at 1, get. rewrite Hexit Hparts.
  eexists. split; [reflexivity|]. split; [done|]. simpl. unfold UpdateStatusFromContext. by destruct (cs_probe s).
Qed.

(** A process whose store is reachable starts a complete core with an empty data
    model, and a context for its transactions; when it stops, its reservations are
    released, its connection is closed, and both managers report that they stopped.
    It cannot be stopped twice. *)
Theorem process_lifecycle `{!SchemaLaws Msg} (cf : ProcessFlags) (client : Client) (fuel k : nat) (up : nat → bool) instanceID h :
  newKVClient (pf_KVStoreType cf) (pf_KVStoreHost cf +:+ ":" +:+ pretty (pf_KVStorePort cf)) (pf_KVStoreTimeout cf) = inl client →
  heap_ok h → hp_cache h = ∅ → no_children voltha → no_children coreInstance →
  up k = true → (∀ j, (j < k)%nat → up j = false ∧ retries_left (cf_MaxConnectionRetries (pf_core cf)) j) → (k < fuel)%nat →
  ∃ rw core rw', start fuel up instanceID (Some ∅) (newRWCore cf h) = (Ok tt, rw) ∧
    rw_core rw = Some core ∧ complete core ∧ rw_kvClient rw = Some client ∧
    rw_txn rw = Some (mkTransactionContext client (pf_KVStoreTimeout cf) instanceID (pf_KVStoreDataPrefix cf +:+ "/transactions/")) ∧
    stop rw = (Ok tt, rw') ∧ rw_halted rw' = true ∧
    rw_kvClient rw' = Some (Close (ReleaseAllReservations client).2) ∧
    (∃ core' p, rw_core rw' = Some core' ∧ cs_probe core' = Some p ∧ defaultReadyFunc p = false ∧
       GetStatus "device-manager" p = StatusStopped ∧ GetStatus "logical-device-manager" p = StatusStopped) ∧
    (stop rw').1 = Panic.
Proof.
  intros Hclient Hok Hca Hv Hc Hup Hwait Hfuel.
  destruct (core_starts voltha coreInstance instanceID (pf_core cf) client fuel k up h Hok Hca Hv Hc Hup Hwait Hfuel)
    as (s & h' & s' & n & b & p & root & Hnew & Hstart & Hcomp & _ & _ & _ & _ & Hprobe & Hexit).
  destruct (Stop_run s' Hcomp Hexit) as (s'' & Hstop & _ & Hprobe'). rewrite Hprobe /= in Hprobe'.
  set (txn := mkTransactionContext client (pf_KVStoreTimeout cf) instanceID (pf_KVStoreDataPrefix cf +:+ "/transactions/")).
  set (kafka := mkSarama (pf_KafkaAdapterHost cf) (pf_KafkaAdapterPort cf) true true true 6 3 instanceID instanceID true 5 (30 * 1000000)
    (Z.quot (pf_LiveProbeInterval cf) 2)).
  exists (mkRwCore (Some client) cf false 0 (Some kafka) (Some s') (Some txn) h'), s',
    (mkRwCore (Some (Close (ReleaseAllReservations client).2)) cf true 1 (Some kafka) (Some s'') (Some txn) h').
  split.
  { unfold start. unfold sbind at 1, get. cbn [rw_config newRWCore]. rewrite Hclient. unfold modify. unfold sbind at 1 2 3. simpl.
    unfold sbind at 1, make_core. simpl. rewrite Hnew. unfold sbind at 1, attempt, on_rw_core. simpl. by rewrite Hstart. }
  do 4 (split; [done|]). split.
  { change (on_rw_core CoreStart.Stop (mkRwCore (Some (Close (ReleaseAllReservations client).2)) cf true 1 (Some kafka) (Some s') (Some txn) h') =
      (Ok tt, mkRwCore (Some (Close (ReleaseAllReservations client).2)) cf true 1 (Some kafka) (Some s'') (Some txn) h')).
    unfold on_rw_core. cbn [rw_core]. by rewrite Hstop. }
  do 2 (split; [done|]). split; [|done].
  eexists s'', _. split; [done|]. split; [exact Hprobe'|]. split; [|split; reflexivity].
  unfold defaultReadyFunc. rewrite andb_false_iff. right. apply bool_decide_eq_false. intros Hall.
  specialize (Hall "device-manager" StatusStopped). simpl in Hall. by discriminate Hall.
Qed.

(** A signal that arrives before the core is made ends in a nil dereference. *)
Lemma stop_before_core rw : rw_core rw = None → (stop rw).1 = Panic.
Proof.
  intros Hc. unfold stop. unfold sbind at 1, get. destruct (rw_exit rw); [|done]. unfold sbind at 1, modify at 1.
  destruct (rw_kvClient rw); unfold sbind, modify, ret, on_rw_core; simpl; by rewrite Hc.
Qed.
End Process.

(** The code is never that of an unexpected signal: those are not asked for. *)
Lemma exit_code signals code : waitForExit signals = Some code → code = 0.
Proof.
  unfold waitForExit. induction signals as [|[] signals IH]; simpl; try (by intros [= <-]). exact IH.
Qed.
